(* ===== verification/_CoqProject ===== *)
-Q . S2P
Prelude.v
RustStd.v
RustNet.v
TaskState.v
TaskSpec.v
Policy.v
Event.v
Approval.v
Supervisor.v
Recovery.v
SupervisorInv.v
SupervisorFacts.v
SupervisorOps.v
RecoveryFacts.v
SupervisorRun.v
SupervisorProps.v
ApprovalProps.v
Isolation.v
RecoveryProps.v
SqliteStore.v
SqliteProps.v
Execution.v
ExecutionProps.v
GateIsolation.v
Facade.v
Accounting.v
ToolAdapter.v
ToolProps.v
FilesystemAdapter.v
FilesystemAudit.v
NetworkAdapter.v
Agent.v
AgentFacts.v
AgentRun.v
AgentProps.v
NetworkAudit.v
LocalApi.v
LocalApiProps.v
RustOs.v
ProcessHost.v
Seccomp.v
Cgroup.v
Rootfs.v
Descriptor.v
Process.v
CgroupLaunch.v
LocalServer.v
Daemon.v
Aiosctl.v
DemoHost.v
DemoServer.v
RootfsProps.v
HostLog.v
ProcessFacts.v
RootfsBuild.v
ProcessProps.v
ProcessAudit.v
CgroupProps.v
LaunchProps.v
ServerProps.v
Confidential.v
DaemonProps.v
AiosctlProps.v
Sha256Fips.v
ErrorText.v
TestKit.v
CoreTests.v
RuntimeTests.v
GateTests.v
ToolTests.v
NetworkTests.v
FilesystemTests.v
AgentTests.v
SqliteTests.v
ProcessTests.v
RootfsTests.v
ApiTests.v
