(* ===== verification/Prelude.v ===== *)
(** * AI OS runtime: a verification development

    ** The program

    AI OS runs tasks on behalf of a user under an explicit contract.  A task
    specification (goal, capabilities, budget, approval policy) is submitted to a
    supervisor, which validates it, moves it along a fixed lifecycle and writes
    every step to an append-only audit log before it takes effect.  While a task
    runs, each operation it wants (a file access, a network exchange, a tool call)
    is decided by the capability policy: denied, allowed, or suspended until an
    operator approves it.  An approval is a one-time grant with a deadline, bound
    to one task, one operation and one action.  Adapters execute operations, and
    only an execution gate that consults the supervisor can reach them; an agent
    asks a model for decisions and takes each one through a gate.  A tool may be a
    process, which the process adapter runs in a sandbox of its own: a root
    filesystem pinned by digest, a cgroup with the task's limits, a seccomp filter,
    and read capabilities passed as descriptors.  The log is kept in memory or in
    SQLite; after a crash the supervisor is rebuilt from the SQLite log.  A daemon
    serves the supervisor over a local socket, and a command line talks to it.

    ** Which file models what

    - [Prelude]: results, the environment (monotonic clock, wall clock, UUID
      generator as streams, a [World] counting what was read), the monad
      [M X E A] of a method on [&mut X] that may return, fail or panic (a failure
      keeps the mutations made before it, as the [?] operator does), its weakest
      preconditions and tactics.
    - [RustStd], [RustNet], [RustOs]: what the code uses of the Rust standard
      library: integer bounds and checked arithmetic, durations, strings as UTF-8
      bytes, ordered maps, the parser of [IpAddr], paths, lines and words, decimal
      text.
    - aios-core: [TaskState] (state.rs: the transition table), [TaskSpec] (task.rs
      and error.rs: the contract and its validators), [Policy] (policy.rs).
    - aios-runtime: [Event] (event.rs: events, the store interface [EventStore]
      with its laws, the in-memory store), [Approval] (approval.rs), [Supervisor]
      (supervisor.rs: every method of [TaskSupervisor]), [Recovery] (the replay of
      a log, [recover_snapshot], and [TaskSupervisor::recover]), [Execution]
      (execution.rs: the gate, for any adapter).
    - aios-storage-sqlite: [SqliteStore] (lib.rs: opening, schema check, append in
      a transaction, list, recovery).
    - the adapters: [Facade] (what the three execution-gate wrappers share),
      [ToolAdapter], [FilesystemAdapter], [NetworkAdapter] (the lib.rs of
      aios-adapter-tool, aios-adapter-filesystem, aios-adapter-network).
    - aios-agent: [Agent] (lib.rs: the catalogs, the scripted model, sessions and
      their loop over the Tool and the Network gate, approval, denial, expiry,
      cancellation).
    - aios-adapter-process: [ProcessHost] (lib.rs: files of the host, identities,
      path checks, scratch directories), [Process] (lib.rs: builders, command,
      waiting loop, handler), [Descriptor] (descriptor.rs), [Cgroup] (cgroup.rs),
      [Rootfs] (rootfs.rs and bin/aios-rootfs-build.rs), [Seccomp] (seccomp.rs),
      [CgroupLaunch] (bin/aios-cgroup-launch.rs).
    - aios-local-api: [LocalApi] (lib.rs: protocol data, the service, framing, one
      exchange on both sides), [LocalServer] (lib.rs: the socket, the accept loop,
      the client), [Daemon] (bin/aiosd.rs), [Aiosctl] (bin/aiosctl.rs).
    - [ErrorText]: what [Display], [Debug] and [source] show of the errors of all
      crates, and [main] of the launcher.
    - [TestKit] and [CoreTests], [RuntimeTests], [GateTests], [ToolTests],
      [NetworkTests], [FilesystemTests], [AgentTests], [SqliteTests], [ProcessTests],
      [RootfsTests], [ApiTests]: the unit tests of the crates ([mod tests]), call by call, as programs
      that panic where an assertion fails; the tests that exist of an operation run
      on its definition.

    The other files hold proofs: [...Facts], [...Run], [...Ops] and [SupervisorInv]
    the lemmas of a component, [...Props] its properties, [Accounting] and [...Audit]
    the components put together, [HostLog] hosts that log the calls made on them,
    [DemoHost] and [DemoServer] the machines on which the witnesses run, [Sha256Fips] the
    hash of FIPS 180-4 with which the tests of root filesystems run.

    A struct is a record with the struct's fields, an enum an inductive type with
    its variants, a [BTreeMap] a [gmap] read in key order, a method a definition
    with the code's guards in the code's order.  Integers are [Z] with the bounds of
    their width checked where the code checks them; durations and instants are
    nanoseconds.  The process adapter is that of Linux on x86_64.

    ** What is a parameter

    Code of other packages and the operating system are class arguments with laws
    that state their documented behaviour, never definitions: the clocks and UUIDs
    ([Env], [EnvLaws]) and sleeping ([Sleeps], [SleepLaws]), the database
    ([Sqlite], [SqliteLaws], [DatabaseFiles]) and the text of events and identifiers
    ([EventText], [EventTextLaws], [TaskIdText]), the kernel's file system
    ([Kernel], [KernelLaws]; [Files], [FilesLaws] and [Trees] for the process
    adapter), sockets ([Sockets], [SocketsLaws]; [UnixSockets] for the Local API),
    memory files, descriptors and processes ([MemoryFiles] with its laws,
    [Descriptors], [Processes], [LaunchHost]), SHA-256 ([Sha256]), task files
    ([TaskFiles]), tool handlers ([ToolHandler], [ToolHandlerLaws]), models
    ([ModelSession], [ModelAdapter], [ModelLaws]) and the JSON codec of the Local API
    ([codec_round_trips]).  Each has a concrete instance on which the witnesses run.

    ** What the theorems show

    - Contract and policy ([TaskState], [TaskSpec], [Policy]): validation decides
      the declarative contract; the policy computes the declarative decision
      relation; an authorized path stays below a granted directory; work needs
      validation first.
    - Stores ([Event], [SqliteProps]): appending is atomic under every failure, in
      memory and in the database.  Both are instances of the same interface, so
      everything proved of supervisors holds for both.
    - Authority ([Approval]): requests are bounded, approvals happen once and roll
      back exactly, grants are bound to their request.
    - Supervisor ([SupervisorInv], [SupervisorFacts], [SupervisorOps],
      [SupervisorRun] hold the invariant and the behaviour of each operation;
      [SupervisorProps], [ApprovalProps] the properties): over every sequence of
      public calls and every store failure no call panics and the state stays
      coherent and well typed; calls refine the lifecycle and only append to the logs;
      errors leave no trace; the log replays to the state (in strict runs, see below); the
      calls that end a task revoke exactly its open operations; a receipt proves an
      audited approval of exactly that request; expiry fails exactly the overdue.
    - Isolation and confidentiality ([Isolation], [GateIsolation], [Confidential]): a run
      changes nothing the supervisor holds of a task that no call of the run names, nor
      what a gate retains for it; and replacing the
      specifications by any others with the same keys and validation results changes no
      answer of the Local API and no event, so goals, grants and budgets stay out of both.
    - Recovery ([RecoveryFacts], [RecoveryProps], [SqliteProps]): recovery fails
      what was interrupted, is idempotent, and finds after a strict run exactly the
      tasks there were; in strict runs budgets cannot be refilled.
    - Gate and adapters ([ExecutionProps], [Facade], [ToolProps],
      [FilesystemAdapter], [NetworkAdapter]): an adapter runs only for an allowed or
      an approved operation, once; a tool call reaches the registered handler in
      its own task's context; a write creates at most one new file below the root;
      an exchange contacts at most the named address and always ends.
    - Agent ([AgentFacts], [AgentRun], [AgentProps]): whatever the model proposes,
      both gates stay in states their own interfaces reach; a session asks for each
      step once and within the limit, and every call concludes its task or leaves it
      waiting.
    - The components together ([Accounting], [ProcessAudit], [NetworkAudit],
      [FilesystemAudit]): the work of an adapter is counted against the permits on the
      audit log (operations allowed, approvals consumed) along whole runs.  Agents
      start no more processes in a task's cgroup than the task's log permits, each
      with its handler's command; every address contacted is a destination of a task's
      contract; files appear only below directories a contract grants, and none is
      ever overwritten.  The handlers of one adapter have a host each in the model,
      which logs that handler's calls.
    - Process adapter ([ProcessFacts], [ProcessProps], [LaunchProps], [Seccomp],
      [RootfsProps], [RootfsBuild], [CgroupProps]), about the log of any host: a run starts at most
      one process, after all checks, with the prescribed command, and waits for it;
      a task's tool runs only when it is bound to that task, with the remaining wall time
      as its limit; what the launcher becomes has exactly the configured options, mounts,
      filter and arguments, and an empty environment; the filter is sealed and allows
      exactly the reviewed calls; equal digests mean that the hosts showed equal trees
      ([tree_shown] says what a host shows without the code's traversal); the rootfs
      builder follows its plan and prints the digest of the tree shown after it;
      directories are whole or gone; clean-up is confined.
    - Local API ([LocalApiProps], [ServerProps], [DaemonProps], [AiosctlProps]):
      frames round-trip and are bounded, error answers are fixed and harmless, event
      pages are exact, one exchange delivers the response; the socket is private and
      replaces nothing; the accept loop only relays requests and no client can end
      it; the daemon serves nothing before it has recovered the supervisor from its
      database, and nothing clients send makes its log unrecoverable; a command of [aiosctl] arrives as the
      request it names.
    - Tests ([core_tests_pass] and its like in the test files): 162 of the 178 unit
      tests of the repository pass on the definitions, evaluated on the witnesses'
      machines with a clock that advances by a millisecond per reading.
    - Five theorems record what does not hold: starting a task that waits for an
      approval and then denying it corrupts the log of the task and with it every
      recovery of the store ([SqliteProps]), one full log blocks the operations of
      other tasks, the gate can outgrow the authority, a denial keeps unused grants,
      an ended task blocks the agent until it is cancelled.  ([debug_assert!] is that of a
      release build, absent; [ExecutionProps] shows that the one the gate has cannot fail.)

    Theorems about runs take a flag [strict].  It is true of runs in which [start]
    is not called on a waiting task; the properties that the first of the five
    theorems refutes are stated for these runs, all others for every run.  The
    daemon's runs are such runs.

    ** Bounds and fuel

    Loops over data are structural recursion.  A loop that depends on what others do
    takes fuel; running out of it is [Panic], and theorems show that this does not
    happen: the two transfer loops of the Network adapter (length of the request,
    response limit plus two), the agent's loop (the step limit plus one, since every
    turn that goes on counts a step), the evaluator of the seccomp filter (the number
    of instructions, since jumps go forward), reading and collecting a root
    filesystem ([READ_TURNS], [COLLECT_TURNS]: every turn yields a byte or an entry,
    within a limit), waiting for a child and for a cgroup ([WAIT_TURNS],
    [CLEANUP_TURNS]: every turn sleeps towards a deadline).  [serve_forever] has no
    end; its definition takes a number of turns and its theorems hold for all of
    them.

    ** What is not modelled

    The stubs for other platforms; the closing of descriptors and listeners when
    their owners are dropped; what the daemon prints; accessors that only return a
    field.  Serialization formats belong to serde and are parameters, so the
    tests of JSON texts are left out, and with them the tests that need a peer that takes
    time to answer, an answer of a megabyte or a kernel that follows symbolic links, and the
    integration tests (JSON workloads, Bubblewrap on a Linux host).  Concurrency inside the program does
    not arise: every component is owned by one thread and borrowed mutably; other
    processes act between the calls on a host, which is any function. *)

From stdpp Require Import base numbers list gmap strings sorting pretty.
From Stdlib Require Import ZArith Lia.

#[global] Open Scope Z_scope.

(** ** Results

    [Result] is Rust's [Result<A, E>] as a value. *)

Inductive Result (A E : Type) : Type :=
| Ok (a : A)
| Err (e : E).

Arguments Ok {A E} a.
Arguments Err {A E} e.

#[export] Instance Result_eq_dec {A E} `{EqDecision A, EqDecision E} : EqDecision (Result A E).
Proof. solve_decision. Defined.

Definition ok_or {A E} (o : option A) (e : E) : Result A E :=
  match o with Some a => Ok a | None => Err e end.

Definition res_bind {A B E} (r : Result A E) (f : A -> Result B E) : Result B E :=
  match r with Ok a => f a | Err e => Err e end.

Definition res_map {A B E} (f : A -> B) (r : Result A E) : Result B E :=
  match r with Ok a => Ok (f a) | Err e => Err e end.

Definition res_map_err {A E E'} (f : E -> E') (r : Result A E) : Result A E' :=
  match r with Ok a => Ok a | Err e => Err (f e) end.

Definition is_ok {A E} (r : Result A E) : bool :=
  match r with Ok _ => true | Err _ => false end.

(** ** The environment of a run

    What the program obtains from outside: the monotonic clock behind
    [Instant::now()], the wall clock behind [SystemTime::now()] (both in
    nanoseconds) and the identifiers [Uuid::now_v7()] of the uuid crate.  Each
    is a stream; a [World] counts how much of each stream a run has read. *)

Abbreviation Uuid := N (only parsing).

Class Env := {
  instant_at : nat -> Z;
  system_time_at : nat -> Z;
  uuid_at : nat -> Uuid;
}.

Record World := mk_World {
  instants_read : nat;
  system_times_read : nat;
  uuids_minted : nat;
}.

(** What the code relies on: [std::time::Instant] never goes backwards and a
    version 7 UUID is never generated twice. *)
Class EnvLaws `{Env} : Prop := {
  instant_monotone : forall i j, (i <= j)%nat -> instant_at i <= instant_at j;
  uuid_unique : forall i j, uuid_at i = uuid_at j -> i = j;
}.

(** ** Stateful computations

    [M X E A] is a method on a value of type [X] that reads the environment,
    may mutate the value, and returns, fails with an error or panics.  A
    failing method keeps the mutations made before the failure, as [?] does. *)

Inductive outcome (A E : Type) : Type :=
| Return (a : A)
| Raise (e : E)
| Panic.

Arguments Return {A E} a.
Arguments Raise {A E} e.
Arguments Panic {A E}.

Definition M (X E A : Type) : Type := X -> World -> outcome A E * X * World.

Section Monad.
Context {X E : Type}.

Definition ret {A} (a : A) : M X E A := fun x w => (Return a, x, w).

Definition throw {A} (e : E) : M X E A := fun x w => (Raise e, x, w).

Definition panic {A} : M X E A := fun x w => (Panic, x, w).

Definition bind {A B} (m : M X E A) (f : A -> M X E B) : M X E B :=
  fun x w =>
    match m x w with
    | (Return a, x', w') => f a x' w'
    | (Raise e, x', w') => (Raise e, x', w')
    | (Panic, x', w') => (Panic, x', w')
    end.

Definition gets {A} (f : X -> A) : M X E A := fun x w => (Return (f x), x, w).

Definition modify (f : X -> X) : M X E unit := fun x w => (Return tt, f x, w).

Definition lift {A} (r : Result A E) : M X E A :=
  match r with Ok a => ret a | Err e => throw e end.

(** The receiver of a [match] on a [Result]: the error becomes a value. *)
Definition attempt {E' A} (m : M X E A) : M X E' (Result A E) :=
  fun x w =>
    match m x w with
    | (Return a, x', w') => (Return (Ok a), x', w')
    | (Raise e, x', w') => (Return (Err e), x', w')
    | (Panic, x', w') => (Panic, x', w')
    end.

End Monad.

Definition map_err {X E E' A} (f : E -> E') (m : M X E A) : M X E' A :=
  fun x w =>
    match m x w with
    | (Return a, x', w') => (Return a, x', w')
    | (Raise e, x', w') => (Raise (f e), x', w')
    | (Panic, x', w') => (Panic, x', w')
    end.

(** Running a method on a field of the receiver. *)
Definition zoom {X Y E A} (get : X -> Y) (set : Y -> X -> X) (m : M Y E A) : M X E A :=
  fun x w => let '(r, y, w') := m (get x) w in (r, set y x, w').

Fixpoint for_each {X E A} (f : A -> M X E unit) (l : list A) : M X E unit :=
  match l with
  | [] => ret tt
  | a :: l' => bind (f a) (fun _ => for_each f l')
  end.

Declare Scope rust_scope.
Delimit Scope rust_scope with rust.

Notation "'let!' x ':=' m 'in' k" := (bind m (fun x => k))
  (at level 10, x pattern, m at level 200, k at level 200) : rust_scope.

Notation "'do!' m 'in' k" := (bind m (fun _ => k))
  (at level 10, m at level 200, k at level 200) : rust_scope.

Notation "'let?' x ':=' r 'in' k" := (res_bind r (fun x => k))
  (at level 10, x pattern, r at level 200, k at level 200) : rust_scope.

Notation "'do?' r 'in' k" := (res_bind r (fun _ => k))
  (at level 10, r at level 200, k at level 200) : rust_scope.

#[global] Open Scope rust_scope.

(** Reading the environment. *)
Section Effects.
Context `{Env} {X E : Type}.

Definition Instant_now : M X E Z := fun x w =>
  (Return (instant_at (instants_read w)), x,
   mk_World (S (instants_read w)) (system_times_read w) (uuids_minted w)).

Definition SystemTime_now : M X E Z := fun x w =>
  (Return (system_time_at (system_times_read w)), x,
   mk_World (instants_read w) (S (system_times_read w)) (uuids_minted w)).

Definition Uuid_now_v7 : M X E Uuid := fun x w =>
  (Return (uuid_at (uuids_minted w)), x,
   mk_World (instants_read w) (system_times_read w) (S (uuids_minted w))).

End Effects.

(** ** Weakest preconditions *)

Definition wp {X E A} (m : M X E A) (Q : outcome A E -> X -> World -> Prop)
    (x : X) (w : World) : Prop :=
  match m x w with (r, x', w') => Q r x' w' end.

Section WP.
Context {X E : Type}.

Lemma wp_ret {A} (a : A) Q (x : X) w : Q (Return a : outcome A E) x w -> wp (ret a) Q x w.
Proof. done. Qed.

Lemma wp_throw {A} (e : E) Q (x : X) w : Q (Raise e : outcome A E) x w -> wp (throw e) Q x w.
Proof. done. Qed.

Lemma wp_panic {A} Q (x : X) w : Q (Panic : outcome A E) x w -> wp panic Q x w.
Proof. done. Qed.

Lemma wp_gets {A} (f : X -> A) Q (x : X) w :
  Q (Return (f x) : outcome A E) x w -> wp (gets f) Q x w.
Proof. done. Qed.

Lemma wp_modify (f : X -> X) Q (x : X) w :
  Q (Return tt : outcome unit E) (f x) w -> wp (modify f) Q x w.
Proof. done. Qed.

Lemma wp_lift {A} (r : Result A E) Q (x : X) w :
  match r with
  | Ok a => Q (Return a : outcome A E) x w
  | Err e => Q (Raise e) x w
  end -> wp (lift r) Q x w.
Proof. by destruct r. Qed.

Lemma wp_bind {A B} (m : M X E A) (f : A -> M X E B) Q x w :
  wp m (fun r x' w' =>
    match r with
    | Return a => wp (f a) Q x' w'
    | Raise e => Q (Raise e) x' w'
    | Panic => Q Panic x' w'
    end) x w ->
  wp (bind m f) Q x w.
Proof. unfold wp, bind. by destruct (m x w) as [[[a|e|] x'] w']. Qed.

Lemma wp_attempt {E' A} (m : M X E A) (Q : outcome (Result A E) E' -> X -> World -> Prop) x w :
  wp m (fun r x' w' =>
    match r with
    | Return a => Q (Return (Ok a)) x' w'
    | Raise e => Q (Return (Err e)) x' w'
    | Panic => Q Panic x' w'
    end) x w ->
  wp (attempt m) Q x w.
Proof. unfold wp, attempt. by destruct (m x w) as [[[a|e|] x'] w']. Qed.

Lemma wp_map_err {E' A} (f : E -> E') (m : M X E A) Q x w :
  wp m (fun r x' w' =>
    match r with
    | Return a => Q (Return a) x' w'
    | Raise e => Q (Raise (f e)) x' w'
    | Panic => Q Panic x' w'
    end) x w ->
  wp (map_err f m) Q x w.
Proof. unfold wp, map_err. by destruct (m x w) as [[[a|e|] x'] w']. Qed.

Lemma wp_zoom {Y A} (get : X -> Y) set (m : M Y E A) Q x w :
  wp m (fun r y w' => Q r (set y x) w') (get x) w -> wp (zoom get set m) Q x w.
Proof. unfold wp, zoom. by destruct (m (get x) w) as [[r y] w']. Qed.

Lemma wp_mono {A} (m : M X E A) (P Q : outcome A E -> X -> World -> Prop) x w :
  wp m P x w -> (forall r x' w', P r x' w' -> Q r x' w') -> wp m Q x w.
Proof. unfold wp. destruct (m x w) as [[r x'] w']. auto. Qed.

Lemma wp_and {A} (m : M X E A) (P Q : outcome A E -> X -> World -> Prop) x w :
  wp m P x w -> wp m Q x w -> wp m (fun r x' w' => P r x' w' /\ Q r x' w') x w.
Proof. unfold wp. destruct (m x w) as [[r x'] w']. auto. Qed.

(** The rule for loops over a list: an invariant kept by every iteration. *)
Lemma wp_for_each {A} (f : A -> M X E unit) (I : X -> World -> Prop)
    (Q : outcome unit E -> X -> World -> Prop) l x w :
  (forall a x w, a ∈ l -> I x w ->
     wp (f a) (fun r x' w' => match r with Return _ => I x' w' | _ => Q r x' w' end) x w) ->
  (forall x w, I x w -> Q (Return tt) x w) ->
  I x w -> wp (for_each f l) Q x w.
Proof.
  intros Hbody Hend. revert x w. induction l as [|a l IH]; intros x w HI; simpl.
  - by apply wp_ret, Hend.
  - apply wp_bind. eapply wp_mono; [apply Hbody; [set_solver | done] |].
    intros [[]|e|] x' w' HQ; try done. apply IH; [|done].
    intros b y v Hb. apply Hbody. set_solver.
Qed.

End WP.

Section WPEffects.
Context `{Env} {X E : Type}.

Lemma wp_Instant_now Q (x : X) w :
  Q (Return (instant_at (instants_read w)) : outcome Z E) x
    (mk_World (S (instants_read w)) (system_times_read w) (uuids_minted w)) ->
  wp Instant_now Q x w.
Proof. done. Qed.

Lemma wp_SystemTime_now Q (x : X) w :
  Q (Return (system_time_at (system_times_read w)) : outcome Z E) x
    (mk_World (instants_read w) (S (system_times_read w)) (uuids_minted w)) ->
  wp SystemTime_now Q x w.
Proof. done. Qed.

Lemma wp_Uuid_now_v7 Q (x : X) w :
  Q (Return (uuid_at (uuids_minted w)) : outcome Uuid E) x
    (mk_World (instants_read w) (system_times_read w) (S (uuids_minted w))) ->
  wp Uuid_now_v7 Q x w.
Proof. done. Qed.

End WPEffects.

(** One symbolic-execution step; the last cases split the program's own
    [match] and [if]. *)
Ltac wp_step :=
  lazymatch goal with
  | |- wp (bind _ _) _ _ _ => apply wp_bind
  | |- wp (ret _) _ _ _ => apply wp_ret
  | |- wp (throw _) _ _ _ => apply wp_throw
  | |- wp panic _ _ _ => apply wp_panic
  | |- wp (gets _) _ _ _ => apply wp_gets
  | |- wp (modify _) _ _ _ => apply wp_modify
  | |- wp (lift _) _ _ _ => apply wp_lift
  | |- wp (attempt _) _ _ _ => apply wp_attempt
  | |- wp (map_err _ _) _ _ _ => apply wp_map_err
  | |- wp (zoom _ _ _) _ _ _ => apply wp_zoom
  | |- wp Instant_now _ _ _ => apply wp_Instant_now
  | |- wp SystemTime_now _ _ _ => apply wp_SystemTime_now
  | |- wp Uuid_now_v7 _ _ _ => apply wp_Uuid_now_v7
  | |- wp (let _ := _ in _) _ _ _ => cbv zeta
  | |- wp (match ?e with _ => _ end) _ _ _ => let H := fresh "Hcase" in destruct e eqn:H
  | |- match ok_or ?o _ with _ => _ end =>
      let H := fresh "Hcase" in destruct o eqn:H; cbn [ok_or]
  | |- match ?e with _ => _ end => let H := fresh "Hcase" in destruct e eqn:H
  end.

Ltac wp_steps := repeat (wp_step; cbn beta iota).

(** ** Generic lemmas *)

Lemma Z_of_length_app {A} (l k : list A) :
  Z.of_nat (length (l ++ k)) = Z.of_nat (length l) + Z.of_nat (length k).
Proof. rewrite length_app. lia. Qed.

Lemma and_iff_under (P Q R : Prop) : (P -> (Q <-> R)) -> (P /\ Q <-> P /\ R).
Proof. tauto. Qed.

(** Boolean tests of the code as propositions. *)
Create Rewrite HintDb rust_bool.
#[export] Hint Rewrite Bool.andb_true_iff Bool.andb_false_iff Bool.orb_true_iff
  Bool.orb_false_iff Bool.negb_true_iff Bool.negb_false_iff Z.eqb_eq Z.eqb_neq Z.ltb_lt Z.ltb_ge
  Z.leb_le Z.leb_gt String.eqb_eq String.eqb_neq : rust_bool.

Ltac bool_prop := autorewrite with rust_bool in *.
