(* ===== verification/RustStd.v ===== *)
(** * The parts of the Rust standard library the program uses

    Machine integers as [Z] with their bounds, [Duration] and [Instant] in
    nanoseconds, [str] as the list of its UTF-8 bytes, and the iteration order
    of [BTreeMap]. *)

From stdpp Require Import base numbers list gmap strings sorting.
From Stdlib Require Import ZArith Lia Ascii.
From Stdlib Require Import String.
From stdpp Require Import list.
From S2P Require Import Prelude.

(** ** Integers of a 64-bit target *)

Definition u16_max : Z := 2 ^ 16 - 1.
Definition u64_max : Z := 2 ^ 64 - 1.
Definition usize_max : Z := 2 ^ 64 - 1.

Definition checked_add (max a b : Z) : option Z :=
  if a + b <=? max then Some (a + b) else None.

Definition saturating_add (max a b : Z) : Z := Z.min max (a + b).

(** [u64::try_from] of a non-negative wider integer. *)
Definition try_into (max a : Z) : option Z :=
  if (0 <=? a) && (a <=? max) then Some a else None.

Lemma checked_add_Some max a b c : checked_add max a b = Some c <-> c = a + b /\ a + b <= max.
Proof.
  unfold checked_add. destruct (Z.leb_spec (a + b) max); split.
  - by intros [= <-].
  - by intros [-> _].
  - done.
  - lia.
Qed.

Lemma try_into_Some max a b : try_into max a = Some b <-> b = a /\ 0 <= a <= max.
Proof.
  unfold try_into. destruct (Z.leb_spec 0 a), (Z.leb_spec a max); simpl; split; try lia; try done.
  - by intros [= <-].
  - by intros [-> _].
Qed.

Definition len {A} (l : list A) : Z := Z.of_nat (length l).

Lemma len_nonneg {A} (l : list A) : 0 <= len l.
Proof. unfold len. lia. Qed.

Lemma len_app {A} (l k : list A) : len (l ++ k) = len l + len k.
Proof. apply Z_of_length_app. Qed.

(** ** Time, in nanoseconds *)

Definition Duration_from_secs (s : Z) : Z := s * 1000000000.
Definition Duration_from_millis (ms : Z) : Z := ms * 1000000.
Definition Duration_as_millis (d : Z) : Z := d / 1000000.
Definition Duration_is_zero (d : Z) : bool := d =? 0.
Definition Duration_saturating_sub (a b : Z) : Z := Z.max 0 (a - b).

(** An [Instant] holds its seconds in an [i64]. *)
Definition Instant_checked_add (t d : Z) : option Z :=
  if t + d <? 2 ^ 63 * 1000000000 then Some (t + d) else None.

(** [Instant::elapsed] saturates at zero. *)
Definition elapsed_between (started now : Z) : Z := Z.max 0 (now - started).

(** ** Strings *)

Definition byte_of (c : ascii) : Z := Z.of_N (N_of_ascii c).

Definition bytes_of (s : string) : list Z := map byte_of (list_ascii_of_string s).

Definition str_len (s : string) : Z := Z.of_nat (String.length s).

Definition is_empty_str (s : string) : bool :=
  match s with EmptyString => true | _ => false end.

(** [str::chars]: the code points of well-formed UTF-8. *)
Fixpoint utf8_decode (l : list Z) : list Z :=
  match l with
  | [] => []
  | x :: l1 =>
      if x <? 128 then x :: utf8_decode l1
      else match l1 with
      | [] => []
      | y :: l2 =>
          let init := Z.land x 31 in
          if x <? 224 then Z.lor (Z.shiftl init 6) (Z.land y 63) :: utf8_decode l2
          else match l2 with
          | [] => []
          | z :: l3 =>
              let y_z := Z.lor (Z.shiftl (Z.land y 63) 6) (Z.land z 63) in
              if x <? 240 then Z.lor (Z.shiftl init 12) y_z :: utf8_decode l3
              else match l3 with
              | [] => []
              | w :: l4 =>
                  Z.lor (Z.shiftl (Z.land init 7) 18) (Z.lor (Z.shiftl y_z 6) (Z.land w 63))
                    :: utf8_decode l4
              end
          end
      end
  end.

Definition chars (s : string) : list Z := utf8_decode (bytes_of s).

Definition is_ascii_digit (c : Z) : bool := (48 <=? c) && (c <=? 57).
Definition is_ascii_lowercase (c : Z) : bool := (97 <=? c) && (c <=? 122).
Definition is_ascii_uppercase (c : Z) : bool := (65 <=? c) && (c <=? 90).

Definition is_ascii_alphanumeric (c : Z) : bool :=
  is_ascii_digit c || is_ascii_lowercase c || is_ascii_uppercase c.

(** [char::is_whitespace]: the Unicode property White_Space. *)
Definition is_whitespace (c : Z) : bool :=
  ((9 <=? c) && (c <=? 13)) || (c =? 32) || (c =? 133) || (c =? 160) || (c =? 5760)
  || ((8192 <=? c) && (c <=? 8202)) || (c =? 8232) || (c =? 8233) || (c =? 8239)
  || (c =? 8287) || (c =? 12288).

Definition drop_while {A} (p : A -> bool) : list A -> list A :=
  fix go l := match l with
  | [] => []
  | a :: l' => if p a then go l' else l
  end.

(** [str::trim] on the characters of a string. *)
Definition trim (l : list Z) : list Z :=
  reverse (drop_while is_whitespace (reverse (drop_while is_whitespace l))).

Definition ascii_of_byte_Z (b : Z) : ascii := ascii_of_N (Z.to_N b).

Definition ascii_to_lowercase (c : ascii) : ascii :=
  if is_ascii_uppercase (byte_of c) then ascii_of_byte_Z (byte_of c + 32) else c.

Definition to_ascii_lowercase (s : string) : string :=
  string_of_list_ascii (map ascii_to_lowercase (list_ascii_of_string s)).

Fixpoint contains_char (c : ascii) (s : string) : bool :=
  match s with
  | EmptyString => false
  | String d s' => Ascii.eqb c d || contains_char c s'
  end.

Definition starts_with_char (c : ascii) (s : string) : bool :=
  match s with
  | EmptyString => false
  | String d _ => Ascii.eqb c d
  end.

Fixpoint strip_prefix (p s : string) : option string :=
  match p, s with
  | EmptyString, _ => Some s
  | String c p', String d s' => if Ascii.eqb c d then strip_prefix p' s' else None
  | String _ _, EmptyString => None
  end.

(** [str::split] on one separator character; always at least one piece. *)
Fixpoint split (sep : ascii) (s : string) : list string :=
  match s with
  | EmptyString => [EmptyString]
  | String c s' =>
      if Ascii.eqb sep c then EmptyString :: split sep s'
      else match split sep s' with
      | [] => [String c EmptyString]
      | h :: t => String c h :: t
      end
  end.

Definition NUL : ascii := ascii_of_nat 0.
Definition SLASH : ascii := "/"%char.
Definition DOT : ascii := "."%char.

(** The inverse of [split]. *)
Fixpoint join (sep : ascii) (l : list string) : string :=
  match l with
  | [] => EmptyString
  | [s] => s
  | s :: l' => String.append s (String sep (join sep l'))
  end.

#[local] Arguments String.append : simpl nomatch.

Lemma split_cons_shape sep s : exists h t, split sep s = h :: t.
Proof.
  destruct s as [|c s]; simpl; [eauto|].
  destruct (Ascii.eqb sep c); [eauto|]. destruct (split sep s); eauto.
Qed.

Lemma join_split sep s : join sep (split sep s) = s.
Proof.
  induction s as [|c s IH]; [done|]. simpl.
  destruct (split_cons_shape sep s) as (h & t & Hs).
  destruct (Ascii.eqb_spec sep c) as [->|Hne].
  - rewrite Hs in *. simpl in *. by rewrite IH.
  - rewrite Hs in *. destruct t as [|t1 t]; cbn [join] in *; rewrite <-IH; done.
Qed.

Lemma split_inj sep s t : split sep s = split sep t -> s = t.
Proof. intros H. by rewrite <-(join_split sep s), H, join_split. Qed.

Lemma split_app_sep sep p s :
  split sep (String.append p (String sep s)) = split sep p ++ split sep s.
Proof.
  induction p as [|c p IH]; simpl; [by rewrite Ascii.eqb_refl|].
  destruct (Ascii.eqb sep c); rewrite IH; [done|].
  by destruct (split_cons_shape sep p) as (h & t & ->).
Qed.

Lemma append_assoc_str (a b c : string) :
  String.append a (String.append b c) = String.append (String.append a b) c.
Proof. induction a as [|x a IH]; simpl; [done | by rewrite IH]. Qed.

Lemma append_nil_r_str (a : string) : String.append a EmptyString = a.
Proof. induction a as [|x a IH]; simpl; [done | by rewrite IH]. Qed.

Lemma join_app sep l k : l <> [] -> k <> [] ->
  join sep (l ++ k) = String.append (join sep l) (String sep (join sep k)).
Proof.
  intros Hl Hk. induction l as [|a l IH]; [done|].
  destruct l as [|b l]; [by destruct k|].
  change (String.append a (String sep (join sep ((b :: l) ++ k)))
          = String.append (String.append a (String sep (join sep (b :: l)))) (String sep (join sep k))).
  rewrite IH by done. rewrite <-append_assoc_str. done.
Qed.

Lemma strip_prefix_Some p s r : strip_prefix p s = Some r <-> s = String.append p r.
Proof.
  revert s. induction p as [|c p IH]; intros s; simpl; [split; congruence|].
  destruct s as [|d s]; simpl; [split; congruence|].
  destruct (Ascii.eqb_spec c d) as [->|Hne]; [rewrite IH|]; split; congruence.
Qed.

Lemma starts_with_char_Some c s :
  starts_with_char c s = true <-> exists r, s = String c r.
Proof.
  destruct s as [|d s]; simpl; [split; [done | by intros [r ?]]|].
  destruct (Ascii.eqb_spec c d) as [->|Hne]; split; try done; [by eexists|].
  intros [r Hr]. congruence.
Qed.

(** ** Ordered maps

    A [BTreeMap] is a finite map read in the order of its keys. *)

Class BTreeKey (K : Type) := {
  key_le : relation K;
  key_le_dec : RelDecision key_le;
}.
#[export] Existing Instance key_le_dec.

Definition entry_le {K V} `{!BTreeKey K} (p q : K * V) : Prop := key_le p.1 q.1.

#[export] Instance entry_le_dec {K V} `{!BTreeKey K} (p q : K * V) : Decision (entry_le p q) :=
  key_le_dec p.1 q.1.

Definition btree_entries {K V} `{Countable K, !BTreeKey K} (m : gmap K V) : list (K * V) :=
  merge_sort entry_le (map_to_list m).

Definition btree_keys {K V} `{Countable K, !BTreeKey K} (m : gmap K V) : list K :=
  (btree_entries m).*1.

Definition btree_values {K V} `{Countable K, !BTreeKey K} (m : gmap K V) : list V :=
  (btree_entries m).*2.

Definition btree_len {K V} `{Countable K} (m : gmap K V) : Z := Z.of_nat (size m).

Section BTree.
Context {K V : Type} `{Countable K, !BTreeKey K}.
Implicit Types m : gmap K V.

Lemma btree_entries_perm m : btree_entries m ≡ₚ map_to_list m.
Proof. apply merge_sort_Permutation. Qed.

Lemma elem_of_btree_entries m k v : (k, v) ∈ btree_entries m <-> m !! k = Some v.
Proof. rewrite btree_entries_perm. apply elem_of_map_to_list. Qed.

Lemma elem_of_btree_keys m k : k ∈ btree_keys m <-> is_Some (m !! k).
Proof.
  unfold btree_keys. rewrite list_elem_of_fmap. split.
  - intros ([k' v] & -> & Hk%elem_of_btree_entries). by eexists.
  - intros [v Hv]. exists (k, v). by rewrite elem_of_btree_entries.
Qed.

Lemma btree_keys_NoDup m : NoDup (btree_keys m).
Proof. unfold btree_keys. rewrite btree_entries_perm. apply NoDup_fst_map_to_list. Qed.

Lemma elem_of_btree_values m v : v ∈ btree_values m <-> exists k, m !! k = Some v.
Proof.
  unfold btree_values. rewrite list_elem_of_fmap. split.
  - intros ([k v'] & -> & Hk%elem_of_btree_entries). by exists k.
  - intros [k Hk]. exists (k, v). by rewrite elem_of_btree_entries.
Qed.

End BTree.
