(* ===== verification/RustNet.v ===== *)
(** * [std::net::IpAddr] and its text form

    The parser of the Rust standard library, over the bytes of a string: a
    parser returns its value with the unread input. *)

From stdpp Require Import base numbers list strings.
From Stdlib Require Import ZArith Lia.
From S2P Require Import Prelude RustStd.

Inductive IpAddr :=
| V4 (octets : list Z)
| V6 (segments : list Z).

#[export] Instance IpAddr_eq_dec : EqDecision IpAddr.
Proof. solve_decision. Defined.

(** [char::to_digit]. *)
Definition to_digit (radix c : Z) : option Z :=
  let d :=
    if is_ascii_digit c then Some (c - 48)
    else if is_ascii_lowercase c then Some (c - 87)
    else if is_ascii_uppercase c then Some (c - 55)
    else None in
  match d with
  | Some v => if v <? radix then Some v else None
  | None => None
  end.

Definition read_given_char (c : Z) (l : list Z) : option (list Z) :=
  match l with
  | d :: l' => if c =? d then Some l' else None
  | [] => None
  end.

(** The digits at the head of the input: value, count, rest. *)
Fixpoint read_digits (radix acc : Z) (count : Z) (l : list Z) : Z * Z * list Z :=
  match l with
  | c :: l' =>
      match to_digit radix c with
      | Some d => read_digits radix (acc * radix + d) (count + 1) l'
      | None => (acc, count, l)
      end
  | [] => (acc, count, [])
  end.

(** [Parser::read_number] for a result of [max] with at most [max_digits]. *)
Definition read_number (radix max_digits max : Z) (allow_zero_prefix : bool) (l : list Z)
    : option (Z * list Z) :=
  let has_leading_zero := match l with c :: _ => c =? 48 | [] => false end in
  let '(value, count, rest) := read_digits radix 0 0 l in
  if max_digits <? count then None
  else if count =? 0 then None
  else if negb allow_zero_prefix && has_leading_zero && (1 <? count) then None
  else if value <=? max then Some (value, rest) else None.

(** [Parser::read_separator]: the separator precedes every item but the first. *)
Definition read_separator {A} (sep : Z) (index : nat) (p : list Z -> option (A * list Z))
    (l : list Z) : option (A * list Z) :=
  match index with
  | O => p l
  | S _ => match read_given_char sep l with Some l' => p l' | None => None end
  end.

Fixpoint read_octets (remaining index : nat) (l : list Z) : option (list Z * list Z) :=
  match remaining with
  | O => Some ([], l)
  | S remaining' =>
      match read_separator 46 index (read_number 10 3 255 false) l with
      | Some (o, l') =>
          match read_octets remaining' (S index) l' with
          | Some (os, rest) => Some (o :: os, rest)
          | None => None
          end
      | None => None
      end
  end.

Definition read_ipv4_addr (l : list Z) : option (list Z * list Z) := read_octets 4 0 l.

(** [read_groups]: up to [remaining] 16-bit groups, the last two possibly as a
    trailing IPv4 address (the flag). *)
Fixpoint read_groups (remaining index : nat) (l : list Z) : list Z * bool * list Z :=
  match remaining with
  | O => ([], false, l)
  | S remaining' =>
      let single (_ : unit) :=
        match read_separator 58 index (read_number 16 4 65535 true) l with
        | Some (g, l') =>
            let '(gs, v4, rest) := read_groups remaining' (S index) l' in (g :: gs, v4, rest)
        | None => ([], false, l)
        end in
      match remaining' with
      | O => single ()
      | S _ =>
          match read_separator 58 index read_ipv4_addr l with
          | Some ([a; b; c; d], rest) => ([a * 256 + b; c * 256 + d], true, rest)
          | _ => single ()
          end
      end
  end.

Definition read_ipv6_addr (l : list Z) : option (list Z * list Z) :=
  let '(head, head_ipv4, l1) := read_groups 8 0 l in
  if Nat.eqb (length head) 8 then Some (head, l1)
  else if head_ipv4 then None
  else
    match read_given_char 58 l1 with
    | None => None
    | Some l2 =>
        match read_given_char 58 l2 with
        | None => None
        | Some l3 =>
            let '(tail, _, l4) := read_groups (8 - (length head + 1))%nat 0 l3 in
            Some (head ++ replicate (8 - length head - length tail)%nat 0 ++ tail, l4)
        end
    end.

(** [str::parse::<IpAddr>]: the whole input must be read. *)
Definition parse_IpAddr (s : string) : option IpAddr :=
  match read_ipv4_addr (bytes_of s) with
  | Some (o, []) => Some (V4 o)
  | Some (_, _ :: _) => None
  | None =>
      match read_ipv6_addr (bytes_of s) with
      | Some (g, []) => Some (V6 g)
      | _ => None
      end
  end.

Definition ip_is_unspecified (ip : IpAddr) : bool :=
  match ip with
  | V4 o => bool_decide (o = [0; 0; 0; 0])
  | V6 g => bool_decide (g = replicate 8 0)
  end.

Definition ip_is_multicast (ip : IpAddr) : bool :=
  match ip with
  | V4 o => match o with a :: _ => (224 <=? a) && (a <=? 239) | [] => false end
  | V6 g => match g with a :: _ => Z.land a 65280 =? 65280 | [] => false end
  end.

Definition ip_BROADCAST : IpAddr := V4 [255; 255; 255; 255].

(** The parser on texts the repository's tests use. *)
Example parse_loopback : parse_IpAddr "127.0.0.1" = Some (V4 [127; 0; 0; 1]).
Proof. vm_compute. reflexivity. Qed.

Example parse_doc_v6 : parse_IpAddr "2001:db8::1" = Some (V6 [8193; 3512; 0; 0; 0; 0; 0; 1]).
Proof. vm_compute. reflexivity. Qed.

Example parse_rejects :
  map parse_IpAddr ["127.0.0.01"; "256.0.0.1"; "1.2.3"; "api.example.com"; "1::2::3"; ":::"]
  = [None; None; None; None; None; None].
Proof. vm_compute. reflexivity. Qed.

Example parse_mapped_v4 :
  parse_IpAddr "::ffff:1.2.3.4" = Some (V6 [0; 0; 0; 0; 0; 65535; 258; 772]).
Proof. vm_compute. reflexivity. Qed.
