(* ===== verification/TaskState.v ===== *)
(** * Task lifecycle (aios-core: state.rs, error.rs)

    The states, the transition table, and the lifecycle as a step relation with
    its reachability facts. *)

From stdpp Require Import base list relations strings.
From Stdlib Require Import ZArith Lia.
From S2P Require Import Prelude.

(** Stable error categories exposed by the runtime API. *)
Inductive ErrorCode :=
| InvalidTask
| IdempotencyConflictCode
| CapabilityDenied
| ApprovalExpiredCode
| BudgetExceededCode
| RuntimeRestarted
| RuntimeUnavailable
| InternalError.

#[export] Instance ErrorCode_eq_dec : EqDecision ErrorCode.
Proof. solve_decision. Defined.

Inductive TaskState :=
| Submitted
| Validating
| Rejected
| Queued
| Running
| WaitingApproval
| Succeeded
| Failed
| Cancelled.

#[export] Instance TaskState_eq_dec : EqDecision TaskState.
Proof. solve_decision. Defined.

Record StateTransitionError := mk_StateTransitionError {
  transition_from : TaskState;
  transition_into : TaskState;
}.

#[export] Instance StateTransitionError_eq_dec : EqDecision StateTransitionError.
Proof. solve_decision. Defined.

Definition is_terminal (s : TaskState) : bool :=
  match s with
  | Rejected | Succeeded | Failed | Cancelled => true
  | _ => false
  end.

Definition can_transition_to (self next : TaskState) : bool :=
  match self, next with
  | Submitted, Validating => true
  | Validating, (Rejected | Queued) => true
  | Queued, Running => true
  | Running, (WaitingApproval | Succeeded | Failed) => true
  | WaitingApproval, (Running | Failed) => true
  | _, _ => false
  end
  || (negb (is_terminal self) && match next with Cancelled => true | _ => false end).

(** [transition_to] with the receiver's new value as the result. *)
Definition transition_to (self next : TaskState) : Result TaskState StateTransitionError :=
  if negb (can_transition_to self next) then Err (mk_StateTransitionError self next) else Ok next.

(** [cancel]: whether the state changed, and the new state. *)
Definition cancel (self : TaskState) : bool * TaskState :=
  if is_terminal self then (false, self) else (true, Cancelled).

(** ** The lifecycle as a step relation *)

Inductive lifecycle_step : TaskState -> TaskState -> Prop :=
| step_validate : lifecycle_step Submitted Validating
| step_reject : lifecycle_step Validating Rejected
| step_queue : lifecycle_step Validating Queued
| step_start : lifecycle_step Queued Running
| step_wait : lifecycle_step Running WaitingApproval
| step_succeed : lifecycle_step Running Succeeded
| step_fail : lifecycle_step Running Failed
| step_resume : lifecycle_step WaitingApproval Running
| step_fail_waiting : lifecycle_step WaitingApproval Failed
| step_cancel s : is_terminal s = false -> lifecycle_step s Cancelled.

Create HintDb lifecycle.
#[export] Hint Constructors lifecycle_step : lifecycle.

Lemma can_transition_to_step s t : can_transition_to s t = true <-> lifecycle_step s t.
Proof.
  split.
  - destruct s, t; intros H; try discriminate H; auto with lifecycle.
  - destruct 1 as [| | | | | | | | |u Hu]; try done. unfold can_transition_to. rewrite Hu.
    by destruct u.
Qed.

Lemma transition_to_Ok s t u : transition_to s t = Ok u <-> lifecycle_step s t /\ u = t.
Proof.
  unfold transition_to. rewrite <-can_transition_to_step.
  destruct (can_transition_to s t); simpl; split; try (intros [? ?]); congruence || split; congruence.
Qed.

Lemma terminal_no_step s t : is_terminal s = true -> ~ lifecycle_step s t.
Proof. intros Hs Hst. revert Hs. destruct Hst; simpl; congruence. Qed.

(** How far a state is from the start; only approval waits go back. *)
Definition lifecycle_rank (s : TaskState) : nat :=
  match s with
  | Submitted => 0
  | Validating => 1
  | Queued => 2
  | Running | WaitingApproval => 3
  | Rejected | Succeeded | Failed | Cancelled => 4
  end.

Lemma lifecycle_rank_step s t :
  lifecycle_step s t ->
  (lifecycle_rank s < lifecycle_rank t)%nat
  \/ (s = Running /\ t = WaitingApproval) \/ (s = WaitingApproval /\ t = Running).
Proof.
  destruct 1 as [| | | | | | | | |u Hu]; simpl; auto; left; try lia.
  destruct u; simpl in *; discriminate || lia.
Qed.

Lemma lifecycle_rank_rtc s t :
  rtc lifecycle_step s t -> (lifecycle_rank s <= lifecycle_rank t)%nat.
Proof.
  induction 1 as [|s u t Hsu _ IH]; [done|].
  apply lifecycle_rank_step in Hsu as [?|[[-> ->]|[-> ->]]]; simpl in *; lia.
Qed.

(** A lifecycle can only be left through the transition table: from a
    terminal state every request is refused with both states in the error and
    cancellation changes nothing, while every non-terminal state can still be
    cancelled, a second cancellation being a no-op. *)
Theorem terminal_states_are_final s :
  (is_terminal s = true ->
     (forall t, transition_to s t = Err (mk_StateTransitionError s t))
     /\ cancel s = (false, s)
     /\ forall t, rtc lifecycle_step s t -> t = s)
  /\ (is_terminal s = false -> cancel s = (true, Cancelled) /\ cancel Cancelled = (false, Cancelled)
     /\ transition_to s Cancelled = Ok Cancelled).
Proof.
  split; intros Hs.
  - split_and!.
    + intros t. unfold transition_to. destruct (can_transition_to s t) eqn:E; [|done].
      by apply can_transition_to_step, terminal_no_step in E.
    + unfold cancel. by rewrite Hs.
    + intros t Hst. inversion Hst as [|? u ? Hsu]; [done|].
      by apply terminal_no_step in Hsu.
  - split_and!; [by unfold cancel; rewrite Hs | done |].
    apply transition_to_Ok. auto with lifecycle.
Qed.

Lemma terminal_states_are_final_witness :
  (forall t, transition_to Failed t = Err (mk_StateTransitionError Failed t))
  /\ cancel Running = (true, Cancelled).
Proof.
  split.
  - exact (proj1 (proj1 (terminal_states_are_final Failed) eq_refl)).
  - exact (proj1 (proj2 (terminal_states_are_final Running) eq_refl)).
Defined.

(** A history: the states entered after [s], ending in [t]. *)
Inductive lifecycle_path : TaskState -> list TaskState -> TaskState -> Prop :=
| path_here s : lifecycle_path s [] s
| path_next s u l t : lifecycle_step s u -> lifecycle_path u l t -> lifecycle_path s (u :: l) t.

Lemma terminal_path s l t : is_terminal s = true -> lifecycle_path s l t -> t = s.
Proof.
  intros Hs Hp. inversion Hp as [|? u ? ? Hsu]; subst; [done|].
  by apply terminal_no_step in Hsu.
Qed.

(** Work is only possible after validation and admission: every history
    that leads from submission to [Running], [WaitingApproval] or [Succeeded]
    starts with [Validating], [Queued], [Running], in this order. *)
Theorem running_requires_validation l s :
  lifecycle_path Submitted l s ->
  s = Running \/ s = WaitingApproval \/ s = Succeeded ->
  exists l', l = Validating :: Queued :: Running :: l'.
Proof.
  intros Hp Hs.
  assert (Hlive : forall q l, lifecycle_path q l s -> is_terminal q = true -> q = Succeeded).
  { intros q k Hq Ht. apply terminal_path in Hq; [|done]. subst s.
    by destruct Hs as [->|[->| ->]]. }
  inversion Hp as [|? u1 l1 ? H1 P1]; subst; [by destruct Hs as [?|[?|?]]|].
  inversion H1; subst; [|by apply Hlive in P1].
  inversion P1 as [|? u2 l2 ? H2 P2]; subst; [by destruct Hs as [?|[?|?]]|].
  inversion H2; subst; try by apply Hlive in P2.
  inversion P2 as [|? u3 l3 ? H3 P3]; subst; [by destruct Hs as [?|[?|?]]|].
  inversion H3; subst; try by apply Hlive in P3.
  by eexists.
Qed.

Lemma running_requires_validation_witness :
  exists l', [Validating; Queued; Running; WaitingApproval] = Validating :: Queued :: Running :: l'.
Proof.
  apply (running_requires_validation _ WaitingApproval); [|by right; left].
  repeat (eapply path_next; [constructor|]). apply path_here.
Defined.
