(* ===== verification/TaskSpec.v ===== *)
(** * The Task contract and its validation (aios-core: task.rs, error.rs)

    [validate] accumulates errors the way the code pushes them; [spec_valid]
    states the contract without an algorithm, and validation decides it. *)

From stdpp Require Import base numbers list gmap strings pretty.
From Stdlib Require Import ZArith Lia Ascii.
From S2P Require Import Prelude RustStd RustNet TaskState.

Definition MAX_GOAL_CHARS : Z := 8192.
Definition MAX_IDEMPOTENCY_KEY_BYTES : Z := 128.
Definition MAX_FILESYSTEM_CAPABILITIES : Z := 128.
Definition MAX_TOOLS : Z := 64.
Definition MAX_APPROVAL_ACTIONS : Z := 64.
Definition MAX_NETWORK_DESTINATIONS : Z := 64.
Definition MAX_PATH_BYTES : Z := 4096.
Definition MAX_IDENTIFIER_BYTES : Z := 64.

(** ** Data *)

Inductive FileAccess := Read | Write.

#[export] Instance FileAccess_eq_dec : EqDecision FileAccess.
Proof. solve_decision. Defined.

#[export] Instance FileAccess_countable : Countable FileAccess.
Proof.
  refine (inj_countable' (fun a => match a with Read => true | Write => false end)
    (fun b : bool => if b then Read else Write) _).
  by intros [].
Defined.

Record FileCapability := mk_FileCapability {
  path : string;
  access : FileAccess;
}.

#[export] Instance FileCapability_eq_dec : EqDecision FileCapability.
Proof. solve_decision. Defined.

Inductive NetworkTransport := Tcp.

#[export] Instance NetworkTransport_eq_dec : EqDecision NetworkTransport.
Proof. solve_decision. Defined.

#[export] Instance NetworkTransport_countable : Countable NetworkTransport.
Proof. refine (inj_countable' (fun _ => tt) (fun _ => Tcp) _). by intros []. Defined.

Record NetworkDestination := mk_NetworkDestination {
  host : string;
  transport : NetworkTransport;
  port : Z;
}.

#[export] Instance NetworkDestination_eq_dec : EqDecision NetworkDestination.
Proof. solve_decision. Defined.

Inductive NetworkPolicy :=
| DenyNetwork
| AllowNetwork (destinations : list NetworkDestination).

#[export] Instance NetworkPolicy_eq_dec : EqDecision NetworkPolicy.
Proof. solve_decision. Defined.

Record CapabilitySet := mk_CapabilitySet {
  filesystem : list FileCapability;
  network : NetworkPolicy;
  tools : list string;
}.

#[export] Instance CapabilitySet_eq_dec : EqDecision CapabilitySet.
Proof. solve_decision. Defined.

Record Budget := mk_Budget {
  wall_time_seconds : Z;
  memory_bytes : Z;
  max_parallel_agents : Z;
}.

#[export] Instance Budget_eq_dec : EqDecision Budget.
Proof. solve_decision. Defined.

Record ApprovalPolicy := mk_ApprovalPolicy { required_for : list string }.

#[export] Instance ApprovalPolicy_eq_dec : EqDecision ApprovalPolicy.
Proof. solve_decision. Defined.

Record TaskSpec := mk_TaskSpec {
  idempotency_key : string;
  goal : string;
  capabilities : CapabilitySet;
  budget : Budget;
  approval : ApprovalPolicy;
}.

#[export] Instance TaskSpec_eq_dec : EqDecision TaskSpec.
Proof. solve_decision. Defined.

Record ValidationError := mk_ValidationError {
  field : string;
  message : string;
}.

#[export] Instance ValidationError_eq_dec : EqDecision ValidationError.
Proof. solve_decision. Defined.

Definition validation_error_code (e : ValidationError) : ErrorCode := InvalidTask.

(** [ValidationErrors::new]: no value for an empty list. *)
Definition ValidationErrors_new (errors : list ValidationError) : option (list ValidationError) :=
  match errors with [] => None | _ => Some errors end.

(** ** Predicates on single values *)

Definition is_identifier_char (c : Z) : bool :=
  is_ascii_alphanumeric c || (c =? 46) || (c =? 95) || (c =? 58) || (c =? 45).

Definition is_valid_identifier (value : string) (max_bytes : Z) : bool :=
  negb (is_empty_str value) && (str_len value <=? max_bytes)
  && forallb is_identifier_char (chars value).

Definition is_normal_component (component : string) : bool :=
  negb (is_empty_str component) && negb (String.eqb component ".")
  && negb (String.eqb component "..").

Definition is_normalized_absolute_path (path : string) : bool :=
  starts_with_char SLASH path
  && negb (String.eqb path "/")
  && (str_len path <=? MAX_PATH_BYTES)
  && negb (contains_char NUL path)
  && forallb is_normal_component (drop 1 (split SLASH path)).

Definition first_is_alphanumeric (bytes : list Z) : bool :=
  match head bytes with Some b => is_ascii_alphanumeric b | None => false end.

Definition last_is_alphanumeric (bytes : list Z) : bool :=
  match last bytes with Some b => is_ascii_alphanumeric b | None => false end.

Definition is_valid_label (label : string) : bool :=
  negb (is_empty_str label) && (str_len label <=? 63)
  && first_is_alphanumeric (bytes_of label) && last_is_alphanumeric (bytes_of label)
  && forallb (fun byte => is_ascii_alphanumeric byte || (byte =? 45)) (bytes_of label).

Definition is_valid_network_host (host : string) : bool :=
  if is_empty_str host || (253 <? str_len host) || negb (String.eqb host (to_ascii_lowercase host))
  then false
  else if bool_decide (is_Some (parse_IpAddr host)) then true
  else forallb is_valid_label (split DOT host).

(** ** Validation *)

Definition err (field message : string) : ValidationError := mk_ValidationError field message.

(** The bounds messages: [format!] with the limit. *)
Definition at_most_message (limit : Z) : string :=
  "must contain at most " +:+ pretty limit +:+ " entries".

Definition identifier_message (max_bytes : Z) : string :=
  "must be 1 to " +:+ pretty max_bytes +:+ " ASCII letters, digits, '.', '_', ':', or '-'".

Definition validate_goal (goal : string) (errors : list ValidationError) : list ValidationError :=
  let length := len (chars goal) in
  if bool_decide (trim (chars goal) = []) || (MAX_GOAL_CHARS <? length) then
    errors ++ [err "goal" ("must contain between 1 and " +:+ pretty MAX_GOAL_CHARS
                           +:+ " non-blank characters")]
  else errors.

Definition validate_identifier (field value : string) (max_bytes : Z)
    (errors : list ValidationError) : list ValidationError :=
  if negb (is_valid_identifier value max_bytes) then
    errors ++ [err field (identifier_message max_bytes)]
  else errors.

Definition validate_absolute_normalized_path (path : string) (errors : list ValidationError)
    : list ValidationError :=
  if negb (is_normalized_absolute_path path) then
    errors ++ [err "capabilities.filesystem.path"
                   "must be a normalized absolute path below the filesystem root"]
  else errors.

(** The loops of validation: check one entry, then report it if its key was
    already in the [BTreeSet]. *)
Fixpoint validate_entries {A K} `{Countable K} (check : A -> list ValidationError -> list ValidationError)
    (key : A -> K) (duplicate : ValidationError) (seen : gset K) (entries : list A)
    (errors : list ValidationError) : list ValidationError :=
  match entries with
  | [] => errors
  | a :: entries' =>
      let errors := check a errors in
      let errors := if bool_decide (key a ∈ seen) then errors ++ [duplicate] else errors in
      validate_entries check key duplicate ({[key a]} ∪ seen) entries' errors
  end.

Definition validate_max_entries (field : string) (count limit : Z) (errors : list ValidationError)
    : list ValidationError :=
  if limit <? count then errors ++ [err field (at_most_message limit)] else errors.

Definition check_destination (destination : NetworkDestination) (errors : list ValidationError)
    : list ValidationError :=
  let errors :=
    if negb (is_valid_network_host (host destination)) then
      errors ++ [err "capabilities.network.destinations.host"
        "must contain lowercase host names or IP addresses without schemes or paths"]
    else errors in
  if port destination =? 0 then
    errors ++ [err "capabilities.network.destinations.port" "must be between 1 and 65535"]
  else errors.

Definition NetworkPolicy_validate (self : NetworkPolicy) (errors : list ValidationError)
    : list ValidationError :=
  match self with
  | DenyNetwork => errors
  | AllowNetwork destinations =>
      let errors :=
        if bool_decide (destinations = []) || (MAX_NETWORK_DESTINATIONS <? len destinations) then
          errors ++ [err "capabilities.network.destinations"
            ("must contain between 1 and " +:+ pretty MAX_NETWORK_DESTINATIONS +:+ " entries")]
        else errors in
      validate_entries check_destination (fun d => (host d, transport d, port d))
        (err "capabilities.network.destinations" "must not contain duplicate entries")
        ∅ destinations errors
  end.

Definition CapabilitySet_validate (self : CapabilitySet) (errors : list ValidationError)
    : list ValidationError :=
  let errors := validate_max_entries "capabilities.filesystem" (len (filesystem self))
                  MAX_FILESYSTEM_CAPABILITIES errors in
  let errors :=
    validate_entries (fun c => validate_absolute_normalized_path (path c))
      (fun c => (path c, access c))
      (err "capabilities.filesystem" "must not contain duplicate path and access entries")
      ∅ (filesystem self) errors in
  let errors := NetworkPolicy_validate (network self) errors in
  let errors := validate_max_entries "capabilities.tools" (len (tools self)) MAX_TOOLS errors in
  validate_entries (fun tool => validate_identifier "capabilities.tools" tool MAX_IDENTIFIER_BYTES)
    (fun tool => tool) (err "capabilities.tools" "must not contain duplicate entries")
    ∅ (tools self) errors.

Definition Budget_validate (self : Budget) (errors : list ValidationError) : list ValidationError :=
  let errors :=
    if wall_time_seconds self =? 0
    then errors ++ [err "budget.wall_time_seconds" "must be greater than zero"] else errors in
  let errors :=
    if memory_bytes self =? 0
    then errors ++ [err "budget.memory_bytes" "must be greater than zero"] else errors in
  if negb ((1 <=? max_parallel_agents self) && (max_parallel_agents self <=? 8))
  then errors ++ [err "budget.max_parallel_agents" "must be between 1 and 8"] else errors.

Definition ApprovalPolicy_validate (self : ApprovalPolicy) (errors : list ValidationError)
    : list ValidationError :=
  let errors := validate_max_entries "approval.required_for" (len (required_for self))
                  MAX_APPROVAL_ACTIONS errors in
  validate_entries
    (fun action => validate_identifier "approval.required_for" action MAX_IDENTIFIER_BYTES)
    (fun action => action) (err "approval.required_for" "must not contain duplicate entries")
    ∅ (required_for self) errors.

Definition validate (self : TaskSpec) : Result unit (list ValidationError) :=
  let errors := validate_goal (goal self) [] in
  let errors := validate_identifier "idempotency_key" (idempotency_key self)
                  MAX_IDEMPOTENCY_KEY_BYTES errors in
  let errors := CapabilitySet_validate (capabilities self) errors in
  let errors := Budget_validate (budget self) errors in
  let errors := ApprovalPolicy_validate (approval self) errors in
  match ValidationErrors_new errors with
  | Some errors => Err errors
  | None => Ok tt
  end.

(** ** The contract, stated without an algorithm *)

Definition valid_identifier (value : string) (max_bytes : Z) : Prop :=
  value <> EmptyString /\ str_len value <= max_bytes
  /\ Forall (fun c => is_identifier_char c = true) (chars value).

Record valid_path (p : string) : Prop := {
  vp_absolute : exists q, p = String SLASH q;
  vp_bounded : str_len p <= MAX_PATH_BYTES;
  vp_no_nul : contains_char NUL p = false;
  vp_components : Forall (fun c => c <> EmptyString /\ c <> "."%string /\ c <> ".."%string)
                    (drop 1 (split SLASH p));
}.

Definition valid_destination (d : NetworkDestination) : Prop :=
  is_valid_network_host (host d) = true /\ port d <> 0.

Definition valid_network (n : NetworkPolicy) : Prop :=
  match n with
  | DenyNetwork => True
  | AllowNetwork ds =>
      ds <> [] /\ len ds <= MAX_NETWORK_DESTINATIONS /\ Forall valid_destination ds
      /\ NoDup ((fun d => (host d, transport d, port d)) <$> ds)
  end.

Record spec_valid (t : TaskSpec) : Prop := {
  sv_goal : Exists (fun c => is_whitespace c = false) (chars (goal t))
            /\ len (chars (goal t)) <= MAX_GOAL_CHARS;
  sv_key : valid_identifier (idempotency_key t) MAX_IDEMPOTENCY_KEY_BYTES;
  sv_files : len (filesystem (capabilities t)) <= MAX_FILESYSTEM_CAPABILITIES
             /\ Forall (fun c => valid_path (path c)) (filesystem (capabilities t))
             /\ NoDup ((fun c => (path c, access c)) <$> filesystem (capabilities t));
  sv_network : valid_network (network (capabilities t));
  sv_tools : len (tools (capabilities t)) <= MAX_TOOLS
             /\ Forall (fun x => valid_identifier x MAX_IDENTIFIER_BYTES) (tools (capabilities t))
             /\ NoDup (tools (capabilities t));
  sv_budget : wall_time_seconds (budget t) <> 0 /\ memory_bytes (budget t) <> 0
              /\ 1 <= max_parallel_agents (budget t) <= 8;
  sv_approval : len (required_for (approval t)) <= MAX_APPROVAL_ACTIONS
                /\ Forall (fun x => valid_identifier x MAX_IDENTIFIER_BYTES) (required_for (approval t))
                /\ NoDup (required_for (approval t));
}.

(** Every error validation can report: none carries a value of the input. *)
Definition validation_error_pool : list ValidationError :=
  [ err "goal" ("must contain between 1 and " +:+ pretty MAX_GOAL_CHARS +:+ " non-blank characters");
    err "idempotency_key" (identifier_message MAX_IDEMPOTENCY_KEY_BYTES);
    err "capabilities.filesystem" (at_most_message MAX_FILESYSTEM_CAPABILITIES);
    err "capabilities.filesystem.path"
        "must be a normalized absolute path below the filesystem root";
    err "capabilities.filesystem" "must not contain duplicate path and access entries";
    err "capabilities.network.destinations"
        ("must contain between 1 and " +:+ pretty MAX_NETWORK_DESTINATIONS +:+ " entries");
    err "capabilities.network.destinations.host"
        "must contain lowercase host names or IP addresses without schemes or paths";
    err "capabilities.network.destinations.port" "must be between 1 and 65535";
    err "capabilities.network.destinations" "must not contain duplicate entries";
    err "capabilities.tools" (at_most_message MAX_TOOLS);
    err "capabilities.tools" (identifier_message MAX_IDENTIFIER_BYTES);
    err "capabilities.tools" "must not contain duplicate entries";
    err "budget.wall_time_seconds" "must be greater than zero";
    err "budget.memory_bytes" "must be greater than zero";
    err "budget.max_parallel_agents" "must be between 1 and 8";
    err "approval.required_for" (at_most_message MAX_APPROVAL_ACTIONS);
    err "approval.required_for" (identifier_message MAX_IDENTIFIER_BYTES);
    err "approval.required_for" "must not contain duplicate entries" ].

(** ** Validation decides the contract *)

(** A validator that appends errors from the pool, and none exactly when [P]. *)
Definition reports (f : list ValidationError -> list ValidationError) (P : Prop) : Prop :=
  exists new, (forall errors, f errors = errors ++ new)
    /\ (new = [] <-> P) /\ Forall (.∈ validation_error_pool) new.

Lemma reports_id : reports id True.
Proof. exists []. split_and!; [intros; by rewrite app_nil_r | done | done]. Qed.

Lemma reports_compose f g P Q :
  reports f P -> reports g Q -> reports (fun e => g (f e)) (P /\ Q).
Proof.
  intros (nf & Hf & HfP & Hfp) (ng & Hg & HgQ & Hgp). exists (nf ++ ng). split_and!.
  - intros e. by rewrite Hf, Hg, app_assoc.
  - rewrite <-HfP, <-HgQ. split; [apply app_eq_nil | by intros [-> ->]].
  - by apply Forall_app.
Qed.

Lemma reports_iff f P Q : reports f P -> (P <-> Q) -> reports f Q.
Proof. intros (n & ? & ? & ?) HPQ. exists n. by rewrite <-HPQ. Qed.

Lemma reports_if (b : bool) e P :
  e ∈ validation_error_pool -> (b = false <-> P) ->
  reports (fun errors => if b then errors ++ [e] else errors) P.
Proof.
  intros He HP. exists (if b then [e] else []). split_and!.
  - intros errors. destruct b; [done | by rewrite app_nil_r].
  - rewrite <-HP. by destruct b.
  - destruct b; [by apply Forall_singleton | done].
Qed.

Lemma reports_entries {A K} `{Countable K} check (key : A -> K) dup (P : A -> Prop) l :
  (forall a, reports (check a) (P a)) -> dup ∈ validation_error_pool ->
  forall seen : gset K,
  reports (validate_entries check key dup seen l)
    (Forall P l /\ NoDup (key <$> l) /\ Forall (fun a => key a ∉ seen) l).
Proof.
  intros Hcheck Hdup. induction l as [|a l IH]; intros seen.
  - eapply reports_iff; [apply reports_id|]. simpl.
    split; [|done]. intros _. split_and!; constructor.
  - eapply reports_iff.
    + pose (mark := fun e => if bool_decide (key a ∈ seen) then e ++ [dup] else e).
      assert (Hmark : reports mark (key a ∉ seen))
        by (apply reports_if; [done | apply bool_decide_eq_false]).
      exact (reports_compose _ _ _ _ (Hcheck a)
               (reports_compose mark _ _ _ Hmark (IH ({[key a]} ∪ seen)))).
    + rewrite fmap_cons, NoDup_cons, !Forall_cons.
      assert (Hsplit : Forall (fun x => key x ∉ {[key a]} ∪ seen) l
                <-> (key a ∉ (key <$> l)) /\ Forall (fun x => key x ∉ seen) l).
      { rewrite !Forall_forall, list_elem_of_fmap. split.
        - intros Hall. split; [intros (x & Hx & Hin) | intros x Hin];
            specialize (Hall x Hin); set_solver.
        - intros [Hna Hall] x Hin. specialize (Hall x Hin).
          assert (key x <> key a) by (intros E; apply Hna; eauto). set_solver. }
      rewrite Hsplit. tauto.
Qed.

Ltac in_pool := apply (bool_decide_unpack _); vm_compute; exact I.

Lemma is_empty_str_false s : is_empty_str s = false <-> s <> EmptyString.
Proof. by destruct s. Qed.

Lemma is_valid_identifier_spec v n : is_valid_identifier v n = true <-> valid_identifier v n.
Proof.
  unfold is_valid_identifier, valid_identifier.
  rewrite !Bool.andb_true_iff, Bool.negb_true_iff, is_empty_str_false, Z.leb_le, forallb_forall,
    Forall_forall. setoid_rewrite list_elem_of_In. tauto.
Qed.

Lemma is_normal_component_spec c :
  is_normal_component c = true <-> c <> EmptyString /\ c <> "."%string /\ c <> ".."%string.
Proof.
  unfold is_normal_component.
  rewrite !Bool.andb_true_iff, !Bool.negb_true_iff, is_empty_str_false, !String.eqb_neq. tauto.
Qed.

Lemma is_normalized_absolute_path_spec p :
  is_normalized_absolute_path p = true <-> valid_path p.
Proof.
  unfold is_normalized_absolute_path.
  rewrite !Bool.andb_true_iff, !Bool.negb_true_iff, starts_with_char_Some, Z.leb_le,
    forallb_forall, String.eqb_neq.
  setoid_rewrite is_normal_component_spec. setoid_rewrite <-list_elem_of_In.
  rewrite <-Forall_forall. split.
  - intros [[[[? ?] ?] ?] ?]. by constructor.
  - intros [? ? ? Hc]. split_and!; try done. intros ->. simpl in Hc.
    apply Forall_cons in Hc as [[? _] _]. done.
Qed.

Lemma reports_identifier f v n :
  err f (identifier_message n) ∈ validation_error_pool ->
  reports (validate_identifier f v n) (valid_identifier v n).
Proof.
  intros Hp. apply reports_if; [done|].
  by rewrite Bool.negb_false_iff, is_valid_identifier_spec.
Qed.

Lemma reports_max_entries f n m :
  err f (at_most_message m) ∈ validation_error_pool ->
  reports (validate_max_entries f n m) (n <= m).
Proof. intros Hp. apply reports_if; [done|]. by rewrite Z.ltb_ge. Qed.

Lemma drop_while_nil {A} (p : A -> bool) l : drop_while p l = [] <-> Forall (fun a => p a = true) l.
Proof.
  induction l as [|a l IH]; simpl; [done|]. rewrite Forall_cons.
  destruct (p a); [rewrite IH; tauto|]. split; [done | by intros [? _]].
Qed.

Lemma drop_while_suffix {A} (p : A -> bool) l : drop_while p l <> [] ->
  exists a k, drop_while p l = a :: k /\ p a = false.
Proof.
  induction l as [|a l IH]; simpl; [done|]. destruct (p a) eqn:Ha; [done|].
  intros _. by exists a, l.
Qed.

Lemma trim_nil l : trim l = [] <-> Forall (fun c => is_whitespace c = true) l.
Proof.
  unfold trim. rewrite <-drop_while_nil. split; intros Ht; [|by rewrite Ht].
  destruct (decide (drop_while is_whitespace l = [])) as [|Hne]; [done|].
  destruct (drop_while_suffix _ _ Hne) as (a & k & Hk & Ha).
  assert (Hr : drop_while is_whitespace (reverse (a :: k)) = []).
  { rewrite Hk in Ht. destruct (drop_while _ _); [done|].
    by rewrite reverse_cons in Ht; apply app_eq_nil in Ht as [_ ?]. }
  apply drop_while_nil, Forall_reverse, Forall_cons in Hr as [? _]. congruence.
Qed.

Lemma reports_goal g :
  reports (validate_goal g)
    (Exists (fun c => is_whitespace c = false) (chars g) /\ len (chars g) <= MAX_GOAL_CHARS).
Proof.
  apply reports_if; [in_pool|].
  rewrite Bool.orb_false_iff, bool_decide_eq_false, trim_nil, Z.ltb_ge.
  rewrite <-Exists_Forall_neg by (intros x; destruct (is_whitespace x); naive_solver).
  rewrite !Exists_exists. by setoid_rewrite Bool.not_true_iff_false.
Qed.

Lemma reports_path p : reports (validate_absolute_normalized_path p) (valid_path p).
Proof.
  apply reports_if; [in_pool|]. by rewrite Bool.negb_false_iff, is_normalized_absolute_path_spec.
Qed.

Lemma reports_destination d : reports (check_destination d) (valid_destination d).
Proof.
  refine (reports_compose (fun e => if negb (is_valid_network_host (host d)) then _ else e)
            (fun e => if port d =? 0 then _ else e) _ _ _ _);
    apply reports_if; [in_pool | apply Bool.negb_false_iff | in_pool | apply Z.eqb_neq].
Qed.

Lemma Forall_not_in_empty {A K} `{Countable K} (key : A -> K) l :
  Forall (fun a => key a ∉ (∅ : gset K)) l <-> True.
Proof. split; [done|]. intros _. apply Forall_forall. set_solver. Qed.

Lemma reports_network n : reports (NetworkPolicy_validate n) (valid_network n).
Proof.
  destruct n as [|ds]; simpl; [exact reports_id|].
  eapply reports_iff.
  - refine (reports_compose (fun e => if _ || _ then _ else e) _ (ds <> [] /\ len ds <= _) _ _ _).
    + apply reports_if; [in_pool|].
      by rewrite Bool.orb_false_iff, bool_decide_eq_false, Z.ltb_ge.
    + apply reports_entries; [apply reports_destination | in_pool].
  - rewrite Forall_not_in_empty. tauto.
Qed.

(** A bounded list of identifiers without duplicates: tools and actions. *)
Lemma reports_identifiers f l n m :
  err f (identifier_message n) ∈ validation_error_pool ->
  err f (at_most_message m) ∈ validation_error_pool ->
  err f "must not contain duplicate entries" ∈ validation_error_pool ->
  reports (fun e => validate_entries (fun x => validate_identifier f x n) (fun x => x)
             (err f "must not contain duplicate entries") ∅ l
             (validate_max_entries f (len l) m e))
    (len l <= m /\ Forall (fun x => valid_identifier x n) l /\ NoDup l).
Proof.
  intros Hi Hm Hd. eapply reports_iff.
  - apply reports_compose; [by apply reports_max_entries|].
    apply reports_entries; [|done]. intros x. by apply reports_identifier.
  - rewrite Forall_not_in_empty, list_fmap_id. tauto.
Qed.

Lemma reports_files c :
  reports (fun e => validate_entries (fun c => validate_absolute_normalized_path (path c))
             (fun c => (path c, access c))
             (err "capabilities.filesystem" "must not contain duplicate path and access entries")
             ∅ (filesystem c)
             (validate_max_entries "capabilities.filesystem" (len (filesystem c))
                MAX_FILESYSTEM_CAPABILITIES e))
    (len (filesystem c) <= MAX_FILESYSTEM_CAPABILITIES
     /\ Forall (fun c => valid_path (path c)) (filesystem c)
     /\ NoDup ((fun c => (path c, access c)) <$> filesystem c)).
Proof.
  eapply reports_iff.
  - apply reports_compose; [apply reports_max_entries; in_pool|].
    apply reports_entries; [|in_pool]. intros x. apply reports_path.
  - rewrite Forall_not_in_empty. tauto.
Qed.

Lemma reports_budget b :
  reports (Budget_validate b)
    (wall_time_seconds b <> 0 /\ memory_bytes b <> 0 /\ 1 <= max_parallel_agents b <= 8).
Proof.
  refine (reports_compose (fun e => if wall_time_seconds b =? 0 then _ else e) _ _ _ _
    (reports_compose (fun e => if memory_bytes b =? 0 then _ else e)
       (fun e => if negb _ then _ else e) _ _ _ _));
    apply reports_if; try in_pool; try apply Z.eqb_neq.
  rewrite Bool.negb_false_iff, Bool.andb_true_iff, !Z.leb_le. lia.
Qed.

Definition valid_capabilities (c : CapabilitySet) : Prop :=
  (len (filesystem c) <= MAX_FILESYSTEM_CAPABILITIES
   /\ Forall (fun c => valid_path (path c)) (filesystem c)
   /\ NoDup ((fun c => (path c, access c)) <$> filesystem c))
  /\ valid_network (network c)
  /\ (len (tools c) <= MAX_TOOLS
      /\ Forall (fun x => valid_identifier x MAX_IDENTIFIER_BYTES) (tools c) /\ NoDup (tools c)).

Lemma reports_capabilities c : reports (CapabilitySet_validate c) (valid_capabilities c).
Proof.
  exact (reports_compose _ _ _ _ (reports_files c)
    (reports_compose _ _ _ _ (reports_network (network c))
      (reports_identifiers "capabilities.tools" (tools c) MAX_IDENTIFIER_BYTES MAX_TOOLS
         ltac:(in_pool) ltac:(in_pool) ltac:(in_pool)))).
Qed.

Lemma reports_approval a :
  reports (ApprovalPolicy_validate a)
    (len (required_for a) <= MAX_APPROVAL_ACTIONS
     /\ Forall (fun x => valid_identifier x MAX_IDENTIFIER_BYTES) (required_for a)
     /\ NoDup (required_for a)).
Proof. apply reports_identifiers; in_pool. Qed.

Lemma reports_validate t :
  reports (fun e => ApprovalPolicy_validate (approval t) (Budget_validate (budget t)
     (CapabilitySet_validate (capabilities t)
        (validate_identifier "idempotency_key" (idempotency_key t) MAX_IDEMPOTENCY_KEY_BYTES
           (validate_goal (goal t) e))))) (spec_valid t).
Proof.
  eapply reports_iff.
  - exact (reports_compose _ _ _ _ (reports_goal (goal t))
      (reports_compose _ _ _ _
        (reports_identifier "idempotency_key" (idempotency_key t) MAX_IDEMPOTENCY_KEY_BYTES
           ltac:(in_pool))
        (reports_compose _ _ _ _ (reports_capabilities (capabilities t))
          (reports_compose _ _ _ _ (reports_budget (budget t)) (reports_approval (approval t)))))).
  - split; [by intros (? & ? & (? & ? & ?) & ? & ?); constructor | by intros []].
Qed.

Lemma validate_cases t :
  (validate t = Ok tt /\ spec_valid t)
  \/ (exists errors, validate t = Err errors /\ errors <> [] /\ ~ spec_valid t
        /\ Forall (.∈ validation_error_pool) errors).
Proof.
  destruct (reports_validate t) as (new & Hnew & Hiff & Hpool).
  unfold validate. specialize (Hnew []). rewrite app_nil_l in Hnew.
  rewrite Hnew. destruct new as [|e new]; simpl.
  - left. tauto.
  - right. exists (e :: new). split_and!; try done. intros Hs%Hiff. done.
Qed.

Lemma validate_Ok t : validate t = Ok tt <-> spec_valid t.
Proof. destruct (validate_cases t) as [[-> ?]|(es & -> & _ & ? & _)]; split; try done. Qed.

(** The published example, [examples/task.json]. *)
Definition example_task : TaskSpec :=
  mk_TaskSpec "repo-analysis-2026-07-19-001"
    "Analyze the repository and report the cause of failing tests"
    (mk_CapabilitySet [mk_FileCapability "/workspace/project" Read] DenyNetwork ["test_runner"])
    (mk_Budget 1800 8589934592 2)
    (mk_ApprovalPolicy ["filesystem.write"; "git.commit"; "network.egress"]).

Example example_task_valid : validate example_task = Ok tt.
Proof. vm_compute. reflexivity. Qed.

(** C37: Validation is sound and complete for the Task contract: it accepts a
    specification exactly when the goal is non-blank and bounded, every
    identifier, path and destination is well formed, every list is bounded and
    free of duplicates, and the budget is within its limits. *)
Theorem validation_decides_contract t : validate t = Ok tt <-> spec_valid t.
Proof. apply validate_Ok. Qed.

(** A rejected specification gets at least one error, and every error is
    one of a fixed list of constants: validation never echoes a value of the
    submitted task. *)
Theorem validation_errors_echo_no_input t errors :
  validate t = Err errors ->
  errors <> [] /\ Forall (.∈ validation_error_pool) errors /\ ~ spec_valid t.
Proof.
  intros Hv. destruct (validate_cases t) as [[E _]|(es & E & ? & ? & ?)]; rewrite E in Hv;
    [done|]. by injection Hv as <-.
Qed.

Lemma validation_errors_echo_no_input_witness :
  let t := mk_TaskSpec "secret value" "" (capabilities example_task) (mk_Budget 0 0 9)
             (approval example_task) in
  exists errors, validate t = Err errors /\ length errors = 5%nat
    /\ Forall (.∈ validation_error_pool) errors.
Proof.
  intros t. eexists. split; [vm_compute; reflexivity|]. split; [reflexivity|].
  apply (validation_errors_echo_no_input t). vm_compute. reflexivity.
Defined.
