(* ===== verification/Policy.v ===== *)
(** * Capability policy (aios-core: policy.rs)

    The deterministic decision on one operation, its declarative meaning, and
    the lexical containment of paths as containment of component lists. *)

From stdpp Require Import base numbers list strings.
From Stdlib Require Import ZArith Lia Ascii.
From S2P Require Import Prelude RustStd RustNet TaskState TaskSpec.

Definition MAX_ACTION_BYTES : Z := 64.
Definition MAX_TOOL_NAME_BYTES : Z := 64.

Inductive CapabilityRequest :=
| FileRequest (path : string) (access : FileAccess)
| NetworkRequest (host : string) (transport : NetworkTransport) (port : Z)
| ToolRequest (tool : string) (action : string).

#[export] Instance CapabilityRequest_eq_dec : EqDecision CapabilityRequest.
Proof. solve_decision. Defined.

Inductive DenialReason := InvalidRequest | CapabilityNotGranted.

#[export] Instance DenialReason_eq_dec : EqDecision DenialReason.
Proof. solve_decision. Defined.

Inductive PolicyDecision :=
| Allow
| Deny (reason : DenialReason)
| ApprovalRequired.

#[export] Instance PolicyDecision_eq_dec : EqDecision PolicyDecision.
Proof. solve_decision. Defined.

(** A policy exists only for a task that passed complete validation. *)
Record CapabilityPolicy := mk_CapabilityPolicy { policy_task : TaskSpec }.

Definition from_task (task : TaskSpec) : Result CapabilityPolicy (list ValidationError) :=
  do? validate task in Ok (mk_CapabilityPolicy task).

Definition invalid_request : PolicyDecision := Deny InvalidRequest.

Definition path_is_within (path capability_path : string) : bool :=
  String.eqb path capability_path
  || match strip_prefix capability_path path with
     | Some suffix => starts_with_char SLASH suffix
     | None => false
     end.

Definition finish (self : CapabilityPolicy) (granted : bool) (action : string) : PolicyDecision :=
  if negb granted then Deny CapabilityNotGranted
  else if existsb (fun required => String.eqb required action)
            (required_for (approval (policy_task self)))
  then ApprovalRequired
  else Allow.

Definition file_action (access : FileAccess) : string :=
  match access with Read => "filesystem.read" | Write => "filesystem.write" end.

Definition evaluate_file (self : CapabilityPolicy) (p : string) (a : FileAccess) : PolicyDecision :=
  if negb (is_normalized_absolute_path p) then invalid_request
  else
    let granted :=
      existsb (fun capability => bool_decide (access capability = a)
                                 && path_is_within p (path capability))
        (filesystem (capabilities (policy_task self))) in
    finish self granted (file_action a).

Definition evaluate_network (self : CapabilityPolicy) (h : string) (t : NetworkTransport) (p : Z)
    : PolicyDecision :=
  if negb (is_valid_network_host h) || (p =? 0) then invalid_request
  else
    let granted :=
      match network (capabilities (policy_task self)) with
      | DenyNetwork => false
      | AllowNetwork destinations =>
          existsb (fun allowed => String.eqb (host allowed) h
                     && bool_decide (transport allowed = t) && (port allowed =? p))
            destinations
      end in
    finish self granted "network.egress".

Definition evaluate_tool (self : CapabilityPolicy) (tool action : string) : PolicyDecision :=
  if negb (is_valid_identifier tool MAX_TOOL_NAME_BYTES)
     || negb (is_valid_identifier action MAX_ACTION_BYTES)
  then invalid_request
  else
    let granted := existsb (fun allowed => String.eqb allowed tool)
                     (tools (capabilities (policy_task self))) in
    finish self granted action.

Definition evaluate (self : CapabilityPolicy) (request : CapabilityRequest) : PolicyDecision :=
  match request with
  | FileRequest path access => evaluate_file self path access
  | NetworkRequest host transport port => evaluate_network self host transport port
  | ToolRequest tool action => evaluate_tool self tool action
  end.

(** ** Meaning of a decision *)

(** The components of an absolute path: what follows the leading slash. *)
Definition components (p : string) : list string := drop 1 (split SLASH p).

(** The action an approval is asked for. *)
Definition request_action (r : CapabilityRequest) : string :=
  match r with
  | FileRequest _ a => file_action a
  | NetworkRequest _ _ _ => "network.egress"
  | ToolRequest _ action => action
  end.

Definition well_formed_request (r : CapabilityRequest) : Prop :=
  match r with
  | FileRequest p _ => valid_path p
  | NetworkRequest h _ p => is_valid_network_host h = true /\ p <> 0
  | ToolRequest t a => valid_identifier t MAX_TOOL_NAME_BYTES /\ valid_identifier a MAX_ACTION_BYTES
  end.

(** The capability the task was granted; a path capability covers the
    component lists it is a prefix of. *)
Definition granted_by (c : CapabilitySet) (r : CapabilityRequest) : Prop :=
  match r with
  | FileRequest p a =>
      exists k, k ∈ filesystem c /\ access k = a /\ components (path k) `prefix_of` components p
  | NetworkRequest h t p =>
      exists ds, network c = AllowNetwork ds /\ mk_NetworkDestination h t p ∈ ds
  | ToolRequest t _ => t ∈ tools c
  end.

Definition needs_approval (t : TaskSpec) (r : CapabilityRequest) : Prop :=
  request_action r ∈ required_for (approval t).

(** The decision as a relation. *)
Inductive decides (t : TaskSpec) (r : CapabilityRequest) : PolicyDecision -> Prop :=
| decides_invalid : ~ well_formed_request r -> decides t r (Deny InvalidRequest)
| decides_not_granted :
    well_formed_request r -> ~ granted_by (capabilities t) r ->
    decides t r (Deny CapabilityNotGranted)
| decides_approval :
    well_formed_request r -> granted_by (capabilities t) r -> needs_approval t r ->
    decides t r ApprovalRequired
| decides_allow :
    well_formed_request r -> granted_by (capabilities t) r -> ~ needs_approval t r ->
    decides t r Allow.

(** ** Containment *)

Lemma path_is_within_cases p c :
  path_is_within p c = true <-> p = c \/ exists r, p = String.append c (String SLASH r).
Proof.
  unfold path_is_within. rewrite Bool.orb_true_iff, String.eqb_eq.
  apply or_iff_compat_l. split.
  - destruct (strip_prefix c p) as [s|] eqn:E; [|done].
    rewrite starts_with_char_Some. intros [r ->]. exists r. by apply strip_prefix_Some.
  - intros [r Hr]. apply strip_prefix_Some in Hr. by rewrite Hr.
Qed.

Lemma valid_path_split p : valid_path p -> split SLASH p = EmptyString :: components p.
Proof. intros [[q ->] _ _ _]. done. Qed.

Lemma components_inj p q : valid_path p -> valid_path q -> components p = components q -> p = q.
Proof.
  intros Hp Hq E. apply (split_inj SLASH). by rewrite !valid_path_split, E.
Qed.

Lemma path_is_within_prefix p c :
  valid_path p -> valid_path c ->
  path_is_within p c = true <-> components c `prefix_of` components p.
Proof.
  intros Hp Hc. rewrite path_is_within_cases. split.
  - intros [->|[r ->]]; [done|]. exists (split SLASH r).
    unfold components. rewrite split_app_sep. by rewrite (valid_path_split c Hc).
  - intros [k Hk]. destruct (decide (k = [])) as [->|Hne].
    { left. rewrite app_nil_r in Hk. by apply components_inj. }
    right. exists (join SLASH k). rewrite <-(join_split SLASH p), <-(join_split SLASH c) at 1.
    rewrite (valid_path_split p Hp), Hk, (valid_path_split c Hc), app_comm_cons.
    by apply join_app.
Qed.

(** ** The evaluator computes the relation *)

Lemma existsb_elem {A} (f : A -> bool) l : existsb f l = true <-> exists x, x ∈ l /\ f x = true.
Proof. rewrite existsb_exists. by setoid_rewrite list_elem_of_In. Qed.

Lemma existsb_eqb_elem x l : existsb (fun y => String.eqb y x) l = true <-> x ∈ l.
Proof.
  rewrite existsb_elem. setoid_rewrite String.eqb_eq. split; [by intros (? & ? & ->) | by exists x].
Qed.

Lemma finish_cases self granted action :
  (finish self granted action = Deny CapabilityNotGranted <-> granted = false)
  /\ (finish self granted action = ApprovalRequired <->
        granted = true /\ action ∈ required_for (approval (policy_task self)))
  /\ (finish self granted action = Allow <->
        granted = true /\ action ∉ required_for (approval (policy_task self)))
  /\ finish self granted action <> Deny InvalidRequest.
Proof.
  unfold finish. rewrite <-existsb_eqb_elem.
  destruct granted; simpl; [|naive_solver]. destruct (existsb _ _); naive_solver.
Qed.

(** The capability test of each kind of request, as the code computes it. *)
Definition granted_test (c : CapabilitySet) (r : CapabilityRequest) : bool :=
  match r with
  | FileRequest p a =>
      existsb (fun k => bool_decide (access k = a) && path_is_within p (path k)) (filesystem c)
  | NetworkRequest h t p =>
      match network c with
      | DenyNetwork => false
      | AllowNetwork ds =>
          existsb (fun d => String.eqb (host d) h && bool_decide (transport d = t) && (port d =? p)) ds
      end
  | ToolRequest t _ => existsb (fun x => String.eqb x t) (tools c)
  end.

Lemma granted_test_spec c r :
  Forall (fun k => valid_path (path k)) (filesystem c) -> well_formed_request r ->
  granted_test c r = true <-> granted_by c r.
Proof.
  intros Hfs Hr. destruct r as [p a|h t p|t a]; simpl in *.
  - rewrite existsb_elem. apply exist_proper. intros k.
    rewrite Bool.andb_true_iff, bool_decide_eq_true.
    split; intros (Hk & Ha & Hw); split_and!; try done;
      apply (path_is_within_prefix p (path k)); try done; by eapply Forall_forall in Hfs.
  - destruct (network c) as [|ds]; [split; [done | by intros (? & ? & _)]|].
    rewrite existsb_elem. split.
    + intros ([h' t' p'] & Hin & Hd). simpl in Hd.
      rewrite !Bool.andb_true_iff, String.eqb_eq, bool_decide_eq_true, Z.eqb_eq in Hd.
      destruct Hd as [[-> ->] ->]. by exists ds.
    + intros (ds' & [= <-] & Hin). eexists. split; [done|]. simpl.
      by rewrite String.eqb_refl, bool_decide_eq_true_2, Z.eqb_refl.
  - apply existsb_eqb_elem.
Qed.

Lemma evaluate_shape self r :
  (~ well_formed_request r /\ evaluate self r = Deny InvalidRequest)
  \/ (well_formed_request r
      /\ evaluate self r = finish self (granted_test (capabilities (policy_task self)) r)
                             (request_action r)).
Proof.
  destruct r as [p a|h t p|t a]; simpl.
  - unfold evaluate_file. destruct (is_normalized_absolute_path p) eqn:E; simpl.
    + right. split; [by apply is_normalized_absolute_path_spec | done].
    + left. split; [|done]. intros H%is_normalized_absolute_path_spec. congruence.
  - unfold evaluate_network. destruct (is_valid_network_host h); simpl; [|left; naive_solver].
    destruct (Z.eqb_spec p 0); [left | right]; naive_solver.
  - unfold evaluate_tool. rewrite <-!is_valid_identifier_spec.
    destruct (is_valid_identifier t _), (is_valid_identifier a _); simpl; naive_solver.
Qed.

Lemma evaluate_decides t r :
  Forall (fun k => valid_path (path k)) (filesystem (capabilities t)) ->
  decides t r (evaluate (mk_CapabilityPolicy t) r).
Proof.
  intros Hfs. destruct (evaluate_shape (mk_CapabilityPolicy t) r) as [[Hn ->]|[Hw ->]];
    [by constructor|]. simpl.
  destruct (finish_cases (mk_CapabilityPolicy t) (granted_test (capabilities t) r)
              (request_action r)) as (Hd & Ha & Hal & Hi).
  destruct (finish _ _ _) as [|[]|] eqn:E; try done; constructor; try done.
  all: try rewrite <-granted_test_spec by done; unfold needs_approval; naive_solver congruence.
Qed.

Lemma decides_functional t r d1 d2 : decides t r d1 -> decides t r d2 -> d1 = d2.
Proof. intros [] []; done. Qed.

Lemma from_task_Ok t p : from_task t = Ok p <-> validate t = Ok tt /\ p = mk_CapabilityPolicy t.
Proof. unfold from_task. destruct (validate t) as [[]|]; simpl; naive_solver. Qed.

(** C36: For every validated task the policy decides exactly by the relation
    [decides]: malformed requests are denied as invalid, well-formed requests
    without a granting capability as not granted, and only a granted request is
    allowed or sent to approval, depending on whether its action requires one. *)
Theorem policy_decides_exactly t p r d :
  from_task t = Ok p -> evaluate p r = d <-> decides t r d.
Proof.
  intros [Hv ->]%from_task_Ok.
  assert (Hd : decides t r (evaluate (mk_CapabilityPolicy t) r))
    by (apply evaluate_decides; apply validate_Ok in Hv; by apply (sv_files t Hv)).
  split; [by intros <-|]. intros Hd'. by apply (decides_functional t r).
Qed.

Lemma policy_decides_exactly_witness :
  decides example_task (FileRequest "/workspace/project/src/lib.rs" Read) Allow
  /\ decides example_task (FileRequest "/workspace/project-private/secret" Read)
       (Deny CapabilityNotGranted).
Proof.
  split.
  - apply (policy_decides_exactly example_task (mk_CapabilityPolicy example_task));
      vm_compute; reflexivity.
  - apply (policy_decides_exactly example_task (mk_CapabilityPolicy example_task));
      vm_compute; reflexivity.
Defined.

(** Lexical resolution of dot components, the way a path is walked. *)
Fixpoint resolve (stack : list string) (l : list string) : list string :=
  match l with
  | [] => reverse stack
  | c :: l' =>
      if String.eqb c "" || String.eqb c "." then resolve stack l'
      else if String.eqb c ".." then resolve (drop 1 stack) l'
      else resolve (c :: stack) l'
  end.

Lemma resolve_normal l stack :
  Forall (fun c => c <> EmptyString /\ c <> "."%string /\ c <> ".."%string) l ->
  resolve stack l = reverse stack ++ l.
Proof.
  intros Hl. revert stack. induction Hl as [|c l (H1 & H2 & H3) _ IH]; intros stack; simpl.
  - by rewrite app_nil_r.
  - apply String.eqb_neq in H1, H2, H3. rewrite H1, H2, H3. simpl.
    rewrite IH, reverse_cons, <-app_assoc. done.
Qed.

(** A file request the policy does not deny lies below a capability. *)
Lemma file_granted t p path a :
  from_task t = Ok p ->
  evaluate p (FileRequest path a) = Allow \/ evaluate p (FileRequest path a) = ApprovalRequired ->
  spec_valid t /\ valid_path path /\ granted_by (capabilities t) (FileRequest path a).
Proof.
  intros [Hv ->]%from_task_Ok Hd. apply validate_Ok in Hv as Hs. split; [done|].
  pose proof (evaluate_decides t (FileRequest path a) (proj1 (proj2 (sv_files t Hs)))) as Hev.
  destruct Hd as [E|E]; rewrite E in Hev; by inversion Hev.
Qed.

(** A file operation the policy does not deny stays inside a granted
    directory: resolving every dot component of the requested path yields a path
    whose components extend those of a capability of the same access mode. *)
Theorem file_requests_cannot_escape t p path a :
  from_task t = Ok p ->
  evaluate p (FileRequest path a) = Allow \/ evaluate p (FileRequest path a) = ApprovalRequired ->
  exists k, k ∈ filesystem (capabilities t) /\ access k = a
    /\ resolve [] (components (TaskSpec.path k)) `prefix_of` resolve [] (components path).
Proof.
  intros Hf Hd. destruct (file_granted t p path a Hf Hd) as (Hs & Hp & k & Hk & Ha & Hpre).
  pose proof (proj1 (proj2 (sv_files t Hs))) as Hfs. exists k. split_and!; try done.
  rewrite !resolve_normal; [done | apply Hp |].
  eapply Forall_forall in Hfs; [|done]. apply Hfs.
Qed.

Lemma file_requests_cannot_escape_witness :
  exists k, k ∈ filesystem (capabilities example_task) /\ access k = Read
    /\ resolve [] (components (TaskSpec.path k))
         `prefix_of` resolve [] (components "/workspace/project/src/lib.rs").
Proof.
  apply (file_requests_cannot_escape example_task (mk_CapabilityPolicy example_task));
    [vm_compute; reflexivity | left; vm_compute; reflexivity].
Defined.
