(* ===== verification/Event.v ===== *)
(** * Audit events and the event store (aios-runtime: event.rs)

    The event vocabulary, the [EventStore] trait as a class with its laws (an
    atomic, append-only log per task with contiguous sequence numbers), and the
    bounded in-memory store as an instance. *)

From stdpp Require Import base numbers list gmap strings.
From Stdlib Require Import ZArith Lia.
From S2P Require Import Prelude RustStd TaskState TaskSpec Policy.

Definition DEFAULT_MAX_EVENTS_PER_TASK : Z := 10000.

(** ** Identifiers *)

Record TaskId := mk_TaskId { task_uuid : Uuid }.
Record ApprovalId := mk_ApprovalId { approval_uuid : Uuid }.
Record OperationId := mk_OperationId { operation_uuid : Uuid }.

#[export] Instance TaskId_eq_dec : EqDecision TaskId.
Proof. solve_decision. Defined.
#[export] Instance ApprovalId_eq_dec : EqDecision ApprovalId.
Proof. solve_decision. Defined.
#[export] Instance OperationId_eq_dec : EqDecision OperationId.
Proof. solve_decision. Defined.

#[export] Instance TaskId_countable : Countable TaskId.
Proof. refine (inj_countable' task_uuid mk_TaskId _). by intros []. Defined.
#[export] Instance ApprovalId_countable : Countable ApprovalId.
Proof. refine (inj_countable' approval_uuid mk_ApprovalId _). by intros []. Defined.
#[export] Instance OperationId_countable : Countable OperationId.
Proof. refine (inj_countable' operation_uuid mk_OperationId _). by intros []. Defined.

(** Identifiers are ordered as their bytes, big endian. *)
#[export] Instance TaskId_key : BTreeKey TaskId :=
  {| key_le a b := (task_uuid a <= task_uuid b)%N;
     key_le_dec a b := decide (task_uuid a <= task_uuid b)%N |}.
#[export] Instance ApprovalId_key : BTreeKey ApprovalId :=
  {| key_le a b := (approval_uuid a <= approval_uuid b)%N;
     key_le_dec a b := decide (approval_uuid a <= approval_uuid b)%N |}.
#[export] Instance OperationId_key : BTreeKey OperationId :=
  {| key_le a b := (operation_uuid a <= operation_uuid b)%N;
     key_le_dec a b := decide (operation_uuid a <= operation_uuid b)%N |}.

(** ** Events *)

Inductive TaskEventKind :=
| EvSubmitted
| EvStateTransitioned (from to : TaskState)
| EvValidationFailed (error_count : Z)
| EvTaskFailed (code : ErrorCode)
| EvOperationAllowed
| EvOperationDenied (reason : DenialReason)
| EvApprovalRequested (approval_id : ApprovalId) (operation_id : OperationId)
| EvApprovalGranted (approval_id : ApprovalId) (operation_id : OperationId)
| EvApprovalDenied (approval_id : ApprovalId) (operation_id : OperationId)
| EvApprovalExpired (approval_id : ApprovalId) (operation_id : OperationId)
| EvApprovalRevoked (approval_id : ApprovalId) (operation_id : OperationId)
| EvApprovalConsumed (approval_id : ApprovalId) (operation_id : OperationId).

#[export] Instance TaskEventKind_eq_dec : EqDecision TaskEventKind.
Proof. solve_decision. Defined.

Record TaskEvent := mk_TaskEvent {
  event_task_id : TaskId;
  sequence : Z;
  occurred_at_unix_ms : Z;
  kind : TaskEventKind;
}.

#[export] Instance TaskEvent_eq_dec : EqDecision TaskEvent.
Proof. solve_decision. Defined.

Inductive EventStoreError :=
| StoreCapacityExceeded
| SequenceExhausted
| Corrupt
| InsecurePermissions
| Unavailable.

#[export] Instance EventStoreError_eq_dec : EqDecision EventStoreError.
Proof. solve_decision. Defined.

Definition display_EventStoreError (e : EventStoreError) : string :=
  match e with
  | StoreCapacityExceeded => "event capacity exceeded"
  | SequenceExhausted => "event sequence exhausted"
  | Corrupt => "event store data is corrupt"
  | InsecurePermissions => "event store permissions are insecure"
  | Unavailable => "event store unavailable"
  end.

(** ** The trait *)

Class EventStore (S : Type) := {
  append_batch : TaskId -> list TaskEventKind -> M S EventStoreError (list TaskEvent);
  list_events : S -> TaskId -> Z -> Result (list TaskEvent) EventStoreError;
}.

(** The environment is only read further. *)
Definition world_le (w w' : World) : Prop :=
  (instants_read w <= instants_read w')%nat /\ (uuids_minted w <= uuids_minted w')%nat.

#[export] Instance world_le_preorder : PreOrder world_le.
Proof. unfold world_le. split; [intros w; lia | intros w1 w2 w3; lia]. Qed.

(** An identifier the generator will not produce any more. *)
Definition unminted `{Env} (w : World) (u : Uuid) : Prop :=
  forall i, (uuids_minted w <= i)%nat -> uuid_at i <> u.

Lemma unminted_mono `{Env} w w' u : world_le w w' -> unminted w u -> unminted w' u.
Proof. intros [_ Hw] Hu i Hi. apply Hu. lia. Qed.

Lemma unminted_next `{EnvLaws} w i j :
  unminted (mk_World i j (S (uuids_minted w))) (uuid_at (uuids_minted w)).
Proof. intros k Hk E. apply uuid_unique in E. simpl in Hk. lia. Qed.

Lemma unminted_ne `{Env} w u : unminted w u -> uuid_at (uuids_minted w) <> u.
Proof. intros Hu. by apply Hu. Qed.

Create HintDb worlds.
#[export] Hint Resolve unminted_mono unminted_next : worlds.

(** Sequence numbers [first], [first + 1], ... *)
Fixpoint contiguous_from (first : Z) (l : list TaskEvent) : Prop :=
  match l with
  | [] => True
  | e :: l' => sequence e = first /\ contiguous_from (first + 1) l'
  end.

(** The fields of an event of task [tid] fit their types: a sequence number that is
    not zero and a time, both [u64]. *)
Record event_typed (tid : TaskId) (e : TaskEvent) : Prop := {
  et_task : event_task_id e = tid;
  et_sequence : 0 < sequence e <= u64_max;
  et_time : 0 <= occurred_at_unix_ms e <= u64_max;
}.

(** What the supervisor may rely on: the store is an append-only log per task,
    extended by a whole batch or not at all. *)
Class EventStoreLaws (S : Type) `{EventStore S} := {
  store_wf : S -> Prop;
  store_log : S -> TaskId -> list TaskEvent;
  store_contiguous : forall s tid, store_wf s -> contiguous_from 1 (store_log s tid);
  store_typed : forall s tid, store_wf s -> Forall (event_typed tid) (store_log s tid);
  append_batch_spec : forall tid kinds s w,
    store_wf s ->
    wp (append_batch tid kinds) (fun r s' w' =>
      store_wf s' /\ world_le w w' /\
      match r with
      | Return events =>
          (kind <$> events) = kinds /\ store_log s' tid = store_log s tid ++ events
          /\ forall t, t <> tid -> store_log s' t = store_log s t
      | Raise _ => forall t, store_log s' t = store_log s t
      | Panic => False
      end) s w;
  list_events_spec : forall s tid after events,
    store_wf s -> list_events s tid after = Ok events ->
    events = filter (fun e => after < sequence e) (store_log s tid);
}.

(** ** The in-memory store *)

Record InMemoryEventStore := mk_InMemoryEventStore {
  events : gmap TaskId (list TaskEvent);
  max_events_per_task : Z;
}.

Definition InMemoryEventStore_new (max_events_per_task : Z)
    : Result InMemoryEventStore EventStoreError :=
  if max_events_per_task =? 0 then Err StoreCapacityExceeded
  else Ok (mk_InMemoryEventStore ∅ max_events_per_task).

Definition InMemoryEventStore_default : InMemoryEventStore :=
  mk_InMemoryEventStore ∅ DEFAULT_MAX_EVENTS_PER_TASK.

Definition log_of (s : InMemoryEventStore) (tid : TaskId) : list TaskEvent :=
  default [] (events s !! tid).

Section InMemory.
Context `{Env}.

Definition unix_time_ms {X E} : M X E Z :=
  let! t := SystemTime_now in
  let milliseconds := Duration_as_millis (Z.max 0 t) in
  ret (default u64_max (try_into u64_max milliseconds)).

Definition TaskEvent_now {X} (task_id : TaskId) (sequence : Z) (kind : TaskEventKind)
    : M X EventStoreError TaskEvent :=
  if sequence =? 0 then throw SequenceExhausted
  else
    let! occurred_at := unix_time_ms in
    ret (mk_TaskEvent task_id sequence occurred_at kind).

(** The loop over [kinds.iter().enumerate()]. *)
Fixpoint stamp_events {X} (task_id : TaskId) (first_sequence offset : Z)
    (kinds : list TaskEventKind) : M X EventStoreError (list TaskEvent) :=
  match kinds with
  | [] => ret []
  | kind :: kinds' =>
      let! sequence := lift (ok_or (checked_add u64_max first_sequence offset) SequenceExhausted) in
      let! event := TaskEvent_now task_id sequence kind in
      let! rest := stamp_events task_id first_sequence (offset + 1) kinds' in
      ret (event :: rest)
  end.

Definition InMemory_append_batch (task_id : TaskId) (kinds : list TaskEventKind)
    : M InMemoryEventStore EventStoreError (list TaskEvent) :=
  if bool_decide (kinds = []) then ret []
  else
    let! existing_length := gets (fun s => len (log_of s task_id)) in
    let! resulting_length :=
      lift (ok_or (checked_add usize_max existing_length (len kinds)) StoreCapacityExceeded) in
    let! max := gets max_events_per_task in
    if max <? resulting_length then throw StoreCapacityExceeded
    else
      let! existing := lift (ok_or (try_into u64_max existing_length) SequenceExhausted) in
      let! first_sequence := lift (ok_or (checked_add u64_max existing 1) SequenceExhausted) in
      let! appended := stamp_events task_id first_sequence 0 kinds in
      do! modify (fun s => mk_InMemoryEventStore
                   (<[task_id := log_of s task_id ++ appended]> (events s))
                   (max_events_per_task s)) in
      ret appended.

Definition InMemory_list (s : InMemoryEventStore) (task_id : TaskId) (after_sequence : Z)
    : Result (list TaskEvent) EventStoreError :=
  Ok (filter (fun e => after_sequence < sequence e) (log_of s task_id)).

#[export] Instance InMemory_EventStore : EventStore InMemoryEventStore := {|
  append_batch := InMemory_append_batch;
  list_events := InMemory_list;
|}.

(** *** Invariant and laws *)

(** Every log is contiguous and bounded by the store's limit. *)
Record in_memory_wf (s : InMemoryEventStore) : Prop := {
  im_limit : 0 < max_events_per_task s <= usize_max;
  im_contiguous : forall tid, contiguous_from 1 (log_of s tid);
  im_bounded : forall tid, len (log_of s tid) <= max_events_per_task s;
  im_typed : forall tid, Forall (event_typed tid) (log_of s tid);
}.

Lemma contiguous_app first l k :
  contiguous_from first (l ++ k) <->
  contiguous_from first l /\ contiguous_from (first + len l) k.
Proof.
  revert first. induction l as [|e l IH]; intros first; simpl.
  - unfold len. simpl. rewrite Z.add_0_r. tauto.
  - rewrite IH. unfold len. simpl length.
    replace (first + 1 + Z.of_nat (length l)) with (first + Z.of_nat (S (length l))) by lia. tauto.
Qed.

Lemma wp_TaskEvent_now {X} tid n k (x : X) w :
  n <> 0 ->
  wp (TaskEvent_now tid n k) (fun r x' w' => x' = x /\ world_le w w' /\
    exists t, r = Return (mk_TaskEvent tid n t k) /\ 0 <= t <= u64_max) x w.
Proof.
  intros Hn. unfold TaskEvent_now, unix_time_ms. rewrite (proj2 (Z.eqb_neq n 0) Hn). wp_steps.
  split_and!; [done | split; simpl; lia|]. eexists. split; [done|]. unfold try_into, u64_max.
  destruct ((0 <=? _) && _) eqn:Hr; simpl; [bool_prop|]; lia.
Qed.

Lemma wp_stamp_events {X} tid first kinds : forall offset (x : X) w,
  0 < first -> 0 <= offset -> first + offset + len kinds <= u64_max + 1 ->
  wp (stamp_events tid first offset kinds) (fun r x' w' => x' = x /\ world_le w w' /\
    exists evs, r = Return evs /\ (kind <$> evs) = kinds
      /\ contiguous_from (first + offset) evs /\ Forall (event_typed tid) evs) x w.
Proof.
  induction kinds as [|k kinds IH]; intros offset x w Hf Ho Hb; simpl.
  - wp_steps. split_and!; [done.. |]. by exists [].
  - wp_steps; unfold checked_add, len in *; simpl length in *.
    + case_match; [|done]. simplify_eq.
      eapply wp_mono; [apply wp_TaskEvent_now; lia|]. intros r x1 w1 (-> & Hw1 & t & -> & Htime).
      wp_step. eapply wp_mono; [apply IH; unfold len; lia|].
      intros r x2 w2 (-> & Hw2 & evs & -> & Hk & Hc & Ht). wp_steps.
      split_and!; [done | by etrans|]. eexists. split_and!; [done | by simpl; f_equal | | constructor; [split; simpl; [done | lia | done] | done]].
      simpl. split; [done|]. by rewrite <-Z.add_assoc.
    + rewrite (proj2 (Z.leb_le _ _)) in Hcase by lia. done.
Qed.

(** The exact behaviour of an append on a well-formed store: it fails, and
    only with the capacity error, when the batch does not fit. *)
Lemma InMemory_append_batch_exact tid kinds s w :
  in_memory_wf s ->
  wp (InMemory_append_batch tid kinds) (fun r s' w' =>
    world_le w w' /\
    if bool_decide (kinds = [] \/ len (log_of s tid) + len kinds <= max_events_per_task s) then
      exists evs, r = Return evs /\ (kind <$> evs) = kinds
        /\ contiguous_from (len (log_of s tid) + 1) evs
        /\ Forall (event_typed tid) evs
        /\ max_events_per_task s' = max_events_per_task s
        /\ forall t, log_of s' t = if decide (t = tid) then log_of s tid ++ evs else log_of s t
    else r = Raise StoreCapacityExceeded /\ s' = s) s w.
Proof.
  intros [Hlim Hc Hb _]. specialize (Hb tid). unfold usize_max in Hlim. unfold InMemory_append_batch.
  case_bool_decide as Hk.
  { subst kinds. wp_steps. split; [done|]. rewrite bool_decide_eq_true_2 by auto.
    exists []. split_and!; try done. intros t. case_decide; [subst; by rewrite app_nil_r | done]. }
  wp_step. wp_step. wp_step. wp_step. unfold checked_add at 1.
  pose proof (len_nonneg kinds). pose proof (len_nonneg (log_of s tid)).
  destruct (Z.leb_spec (len (log_of s tid) + len kinds) usize_max) as [Hle|Hgt]; cbn [ok_or].
  2:{ split; [done|]. rewrite bool_decide_eq_false_2; [done|]. unfold usize_max in *.
      intros [?|?]; [done | lia]. }
  wp_step. wp_step. destruct (Z.ltb_spec (max_events_per_task s) (len (log_of s tid) + len kinds)).
  { wp_steps. split; [done|]. by rewrite bool_decide_eq_false_2 by (intros [?|?]; [done | lia]). }
  assert (Hpos : 1 <= len kinds) by (unfold len; destruct kinds; [done|]; simpl length; lia).
  wp_step. wp_step. unfold try_into, u64_max.
  rewrite (proj2 (Z.leb_le 0 _)), (proj2 (Z.leb_le _ (2 ^ 64 - 1))) by lia. cbn [andb ok_or].
  wp_step. wp_step. unfold checked_add. rewrite (proj2 (Z.leb_le _ (2 ^ 64 - 1))) by lia. cbn [ok_or].
  wp_step. eapply wp_mono; [apply wp_stamp_events; unfold u64_max; lia|].
  intros r s1 w1 (-> & Hw & evs & -> & Hkd & Hcn & Ht). wp_steps.
  split; [done|]. rewrite bool_decide_eq_true_2 by auto. rewrite Z.add_0_r in Hcn.
  exists evs. split_and!; try done. intros t. unfold log_of at 1. simpl.
  rewrite lookup_insert. case_decide; [subst; by rewrite decide_True | by rewrite decide_False].
Qed.

Lemma InMemory_append_batch_wf tid kinds s w :
  in_memory_wf s ->
  wp (InMemory_append_batch tid kinds) (fun r s' w' =>
    in_memory_wf s' /\ world_le w w' /\
    match r with
    | Return evs =>
        (kind <$> evs) = kinds /\ log_of s' tid = log_of s tid ++ evs
        /\ forall t, t <> tid -> log_of s' t = log_of s t
    | Raise _ => forall t, log_of s' t = log_of s t
    | Panic => False
    end) s w.
Proof.
  intros Hwf. eapply wp_mono; [by apply InMemory_append_batch_exact|].
  intros r s' w' [Hw Hr]. destruct Hwf as [Hlim Hc Hb Hty].
  case_bool_decide as Hfits; [|by destruct Hr as [-> ->]].
  destruct Hr as (evs & -> & Hk & Hcn & Htyped & Hmax & Hlog).
  assert (Hlen : len evs = len kinds) by (unfold len; by rewrite <-Hk, length_fmap).
  split_and!; try done.
  - split.
    + by rewrite Hmax.
    + intros t. rewrite Hlog. case_decide; [|done]. rewrite contiguous_app. split; [done|].
      by rewrite Z.add_comm.
    + intros t. rewrite Hlog, Hmax. case_decide; [|done]. rewrite len_app, Hlen.
      destruct Hfits as [->|?]; [|done]. specialize (Hb tid). unfold len in *. simpl. lia.
    + intros t. rewrite Hlog. case_decide; [subst; by apply Forall_app | done].
  - by rewrite Hlog, decide_True.
  - intros t Ht. by rewrite Hlog, decide_False.
Qed.

#[export, refine] Instance InMemory_EventStoreLaws : EventStoreLaws InMemoryEventStore := {|
  store_wf := in_memory_wf;
  store_log := log_of;
|}.
Proof.
  - intros s tid Hwf. apply Hwf.
  - intros s tid Hwf. apply Hwf.
  - intros tid kinds s w. apply InMemory_append_batch_wf.
  - by intros s tid after evs _ [= <-].
Defined.

Lemma contiguous_drop l first n :
  contiguous_from first l -> first <= n ->
  filter (fun e => n < sequence e) l = drop (Z.to_nat (n + 1 - first)) l.
Proof.
  revert first. induction l as [|e l IH]; intros first Hl Hn; [by rewrite drop_nil|].
  destruct Hl as [He Hl]. rewrite filter_cons, decide_False by lia.
  destruct (decide (n = first)) as [->|Hne].
  - replace (Z.to_nat (first + 1 - first)) with 1%nat by lia. simpl. rewrite drop_0.
    clear IH He Hn. assert (Hgen : forall k, first < k -> contiguous_from k l ->
      filter (fun e => first < sequence e) l = l); [|by apply (Hgen (first + 1)); [lia|]].
    clear Hl. induction l as [|x l IH]; intros k Hk Hl; [done|]. destruct Hl as [Hx Hl].
    rewrite filter_cons, decide_True by lia. f_equal. apply (IH (k + 1)); [lia | done].
  - rewrite (IH (first + 1)) by (done || lia).
    replace (Z.to_nat (n + 1 - first)) with (S (Z.to_nat (n + 1 - (first + 1)))) by lia. done.
Qed.

Lemma contiguous_filter_zero l : contiguous_from 1 l -> filter (fun e => 0 < sequence e) l = l.
Proof.
  assert (Hgen : forall k, 0 < k -> contiguous_from k l -> filter (fun e => 0 < sequence e) l = l);
    [|by apply (Hgen 1)].
  induction l as [|x l IH]; intros k Hk Hl; [done|]. destruct Hl as [Hx Hl].
  rewrite filter_cons, decide_True by lia. f_equal. apply (IH (k + 1)); [lia | done].
Qed.

Lemma contiguous_filter_drop l n :
  contiguous_from 1 l -> 0 <= n ->
  filter (fun e => n < sequence e) l = drop (Z.to_nat n) l.
Proof.
  intros Hl Hn. destruct (decide (n = 0)) as [->|Hne]; [by apply contiguous_filter_zero|].
  rewrite (contiguous_drop l 1 n) by (done || lia).
  by replace (n + 1 - 1) with n by lia.
Qed.

Lemma in_memory_new_wf n s :
  0 <= n <= usize_max -> InMemoryEventStore_new n = Ok s ->
  in_memory_wf s /\ forall tid, log_of s tid = [].
Proof.
  unfold InMemoryEventStore_new, usize_max. intros Hn. destruct (Z.eqb_spec n 0); [done|].
  intros [= <-]. split; [|done]. split; [simpl; unfold usize_max; lia | done | intros tid; change (0 <= n); lia | done].
Qed.

Lemma in_memory_default_wf : in_memory_wf InMemoryEventStore_default.
Proof. split; [done | done | by intros | done]. Qed.

End InMemory.

(** ** Properties *)

(** The concrete environment of the witnesses: the clocks advance by one
    millisecond per reading and identifiers are numbered. *)
#[export] Instance demo_env : Env := {|
  instant_at n := Z.of_nat n * 1000000;
  system_time_at n := Z.of_nat n * 1000000;
  uuid_at n := N.of_nat n;
|}.

#[export] Instance demo_env_laws : EnvLaws.
Proof. split; simpl; intros; lia. Qed.

Definition world0 : World := mk_World 0 0 0.

(** The in-memory store is an atomic, bounded, append-only log: on a
    well-formed store a batch that fits is appended whole, with the next
    sequence numbers, to its task's log and no other, and a batch that does not
    fit fails with the capacity error and changes nothing. *)
Theorem in_memory_append_is_atomic `{Env} tid kinds s w r s' w' :
  in_memory_wf s -> InMemory_append_batch tid kinds s w = (r, s', w') ->
  in_memory_wf s' /\
  if bool_decide (kinds = [] \/ len (log_of s tid) + len kinds <= max_events_per_task s) then
    exists evs, r = Return evs /\ (kind <$> evs) = kinds
      /\ contiguous_from (len (log_of s tid) + 1) evs
      /\ Forall (event_typed tid) evs
      /\ forall t, log_of s' t = if decide (t = tid) then log_of s tid ++ evs else log_of s t
  else r = Raise StoreCapacityExceeded /\ s' = s.
Proof.
  intros Hwf Hrun.
  pose proof (wp_and _ _ _ _ _ (InMemory_append_batch_wf tid kinds s w Hwf)
                (InMemory_append_batch_exact tid kinds s w Hwf)) as Hwp.
  unfold wp in Hwp. rewrite Hrun in Hwp. destruct Hwp as [[Hs' _] [_ Hr]]. split; [done|].
  case_bool_decide; [|done]. destruct Hr as (evs & ? & ? & ? & ? & _ & ?). by exists evs.
Qed.

Lemma in_memory_append_is_atomic_witness :
  let s := mk_InMemoryEventStore ∅ 2 in
  let batch := [EvSubmitted; EvStateTransitioned Submitted Validating; EvOperationAllowed] in
  in_memory_wf s
  /\ InMemory_append_batch (mk_TaskId 7) batch s world0 = (Raise StoreCapacityExceeded, s, world0)
  /\ in_memory_wf s.
Proof.
  intros s batch.
  assert (Hwf : in_memory_wf s).
  { apply (in_memory_new_wf 2); [unfold usize_max; lia | reflexivity]. }
  assert (Hrun : InMemory_append_batch (mk_TaskId 7) batch s world0
                 = (Raise StoreCapacityExceeded, s, world0)) by (vm_compute; reflexivity).
  split; [exact Hwf|]. split; [exact Hrun|].
  exact (proj1 (in_memory_append_is_atomic _ _ _ _ _ _ _ Hwf Hrun)).
Defined.

(** Reading after a sequence number is reading a suffix: on a well-formed
    store [list(task, n)] returns exactly the log without its first [n] events,
    so pages read one after another reproduce the log. *)
Theorem in_memory_list_is_suffix s tid n :
  in_memory_wf s -> 0 <= n ->
  InMemory_list s tid n = Ok (drop (Z.to_nat n) (log_of s tid)).
Proof.
  intros Hwf Hn. unfold InMemory_list. f_equal.
  apply contiguous_filter_drop; [apply Hwf | done].
Qed.

Definition demo_store : InMemoryEventStore :=
  (InMemory_append_batch (mk_TaskId 7)
     [EvSubmitted; EvStateTransitioned Submitted Validating] (mk_InMemoryEventStore ∅ 5) world0).1.2.

Lemma in_memory_list_is_suffix_witness :
  len (log_of demo_store (mk_TaskId 7)) = 2
  /\ InMemory_list demo_store (mk_TaskId 7) 1 = Ok (drop 1 (log_of demo_store (mk_TaskId 7))).
Proof.
  split; [vm_compute; reflexivity|].
  apply (in_memory_list_is_suffix demo_store (mk_TaskId 7) 1); [|lia].
  pose proof (InMemory_append_batch_wf (mk_TaskId 7)
    [EvSubmitted; EvStateTransitioned Submitted Validating] (mk_InMemoryEventStore ∅ 5) world0) as Hwp.
  apply Hwp. apply (in_memory_new_wf 5); [unfold usize_max; lia | reflexivity].
Defined.
