(* ===== verification/Approval.v ===== *)
(** * Approval authority and linear grants (aios-runtime: approval.rs)

    Pending requests with their operation index, the one-time grant, and the
    invariant that ties the two maps together. *)

From stdpp Require Import base numbers list gmap strings.
From Stdlib Require Import ZArith Lia.
From S2P Require Import Prelude RustStd TaskState TaskSpec Policy Event.

Definition DEFAULT_MAX_PENDING_APPROVALS : Z := 1024.
Definition DEFAULT_MAX_TTL : Z := Duration_from_secs (15 * 60).
Definition MAX_MAX_PENDING_APPROVALS : Z := 65536.
Definition MAX_MAX_TTL : Z := Duration_from_secs (24 * 60 * 60).
Definition MAX_APPROVAL_ACTION_BYTES : Z := 64.

Inductive ApprovalError :=
| InvalidConfig
| InvalidApprovalRequest
| DuplicateOperation
| PendingCapacityExceeded
| NotFound
| Expired
| ScopeMismatch.

#[export] Instance ApprovalError_eq_dec : EqDecision ApprovalError.
Proof. solve_decision. Defined.

Definition display_ApprovalError (e : ApprovalError) : string :=
  match e with
  | InvalidConfig => "invalid approval authority configuration"
  | InvalidApprovalRequest => "approval request is invalid"
  | DuplicateOperation => "operation already has a pending approval"
  | PendingCapacityExceeded => "pending approval capacity exceeded"
  | NotFound => "approval request not found"
  | Expired => "approval expired"
  | ScopeMismatch => "approval scope does not match"
  end.

(** What a user interface may present. *)
Record ApprovalRequest := mk_ApprovalRequest {
  request_approval_id : ApprovalId;
  request_task_id : TaskId;
  request_operation_id : OperationId;
  requested_action : string;
  expires_after_ms : Z;
}.

Record ApprovalReceipt := mk_ApprovalReceipt { receipt_approval_id : ApprovalId }.

Record ApprovalGrant := mk_ApprovalGrant {
  grant_approval_id : ApprovalId;
  grant_task_id : TaskId;
  grant_operation_id : OperationId;
  grant_action : string;
  grant_deadline : Z;
}.

Record PendingApproval := mk_PendingApproval {
  pa_task_id : TaskId;
  pa_operation_id : OperationId;
  pa_action : string;
  pa_deadline : Z;
}.

Record ApprovalAuthority := mk_ApprovalAuthority {
  pending : gmap ApprovalId PendingApproval;
  operation_index : gmap (TaskId * OperationId) ApprovalId;
  max_pending : Z;
  max_ttl : Z;
}.

Definition is_valid_action (action : string) : bool :=
  negb (is_empty_str action) && (str_len action <=? MAX_APPROVAL_ACTION_BYTES)
  && forallb is_identifier_char (chars action).

Definition duration_ms (duration : Z) : Result Z ApprovalError :=
  ok_or (try_into u64_max (Duration_as_millis duration)) InvalidApprovalRequest.

Definition ApprovalAuthority_new (max_pending max_ttl : Z)
    : Result ApprovalAuthority ApprovalError :=
  if (max_pending =? 0) || (MAX_MAX_PENDING_APPROVALS <? max_pending)
     || Duration_is_zero max_ttl || (MAX_MAX_TTL <? max_ttl)
  then Err InvalidConfig
  else Ok (mk_ApprovalAuthority ∅ ∅ max_pending max_ttl).

(** [Default::default]: the constructor on the default limits, whose [expect]
    never fires ([default_authority_is_new]). *)
Definition ApprovalAuthority_default : ApprovalAuthority :=
  mk_ApprovalAuthority ∅ ∅ DEFAULT_MAX_PENDING_APPROVALS DEFAULT_MAX_TTL.

Definition authority_insert (id : ApprovalId) (p : PendingApproval) (a : ApprovalAuthority)
    : ApprovalAuthority :=
  mk_ApprovalAuthority (<[id := p]> (pending a))
    (<[(pa_task_id p, pa_operation_id p) := id]> (operation_index a)) (max_pending a) (max_ttl a).

(** [remove]: the entry and its index key. *)
Definition authority_remove (id : ApprovalId) (a : ApprovalAuthority)
    : option PendingApproval * ApprovalAuthority :=
  match pending a !! id with
  | None => (None, a)
  | Some p =>
      (Some p,
       mk_ApprovalAuthority (delete id (pending a))
         (delete (pa_task_id p, pa_operation_id p) (operation_index a)) (max_pending a) (max_ttl a))
  end.

Definition authority_contains (id : ApprovalId) (a : ApprovalAuthority) : bool :=
  bool_decide (is_Some (pending a !! id)).

(** [revoke] with the receiver's new value. *)
Definition revoke (id : ApprovalId) (a : ApprovalAuthority) : ApprovalAuthority :=
  (authority_remove id a).2.

(** [ApprovalGrant::restore] of a consumed grant. *)
Definition restore (g : ApprovalGrant) (a : ApprovalAuthority) : ApprovalAuthority :=
  authority_insert (grant_approval_id g)
    (mk_PendingApproval (grant_task_id g) (grant_operation_id g) (grant_action g)
       (grant_deadline g)) a.

Section Authority.
Context `{Env}.

(** [ApprovalGrant::authorize] takes the grant by value: every call consumes it. *)
Definition grant_authorize {X} (g : ApprovalGrant) (task_id : TaskId) (operation_id : OperationId)
    (action : string) : M X ApprovalError ApprovalReceipt :=
  let! now := Instant_now in
  if grant_deadline g <=? now then throw Expired
  else if negb (bool_decide (grant_task_id g = task_id))
          || negb (bool_decide (grant_operation_id g = operation_id))
          || negb (String.eqb (grant_action g) action)
  then throw ScopeMismatch
  else ret (mk_ApprovalReceipt (grant_approval_id g)).

Definition request (task_id : TaskId) (operation_id : OperationId) (action : string) (ttl : Z)
    : M ApprovalAuthority ApprovalError ApprovalRequest :=
  let! limit := gets max_ttl in
  if negb (is_valid_action action) || (ttl <? Duration_from_millis 1) || (limit <? ttl)
  then throw InvalidApprovalRequest
  else
    let! indexed := gets (fun a => operation_index a !! (task_id, operation_id)) in
    if bool_decide (is_Some indexed) then throw DuplicateOperation
    else
      let! full := gets (fun a => max_pending a <=? btree_len (pending a)) in
      if full then throw PendingCapacityExceeded
      else
        let! now := Instant_now in
        let! deadline := lift (ok_or (Instant_checked_add now ttl) InvalidApprovalRequest) in
        let! uuid := Uuid_now_v7 in
        let approval_id := mk_ApprovalId uuid in
        do! modify (authority_insert approval_id
                     (mk_PendingApproval task_id operation_id action deadline)) in
        let! ms := lift (duration_ms ttl) in
        ret (mk_ApprovalRequest approval_id task_id operation_id action ms).

(** The common head of [approve] and [deny]. *)
Definition check_deadline (approval_id : ApprovalId) : M ApprovalAuthority ApprovalError unit :=
  let! entry := gets (fun a => pending a !! approval_id) in
  let! p := lift (ok_or entry NotFound) in
  let! now := Instant_now in
  if pa_deadline p <=? now then throw Expired else ret tt.

Definition take_pending (approval_id : ApprovalId) : M ApprovalAuthority ApprovalError PendingApproval :=
  fun a w =>
    let '(removed, a') := authority_remove approval_id a in
    match removed with
    | Some p => (Return p, a', w)
    | None => (Raise NotFound, a', w)
    end.

Definition approve (approval_id : ApprovalId) : M ApprovalAuthority ApprovalError ApprovalGrant :=
  do! check_deadline approval_id in
  let! p := take_pending approval_id in
  ret (mk_ApprovalGrant approval_id (pa_task_id p) (pa_operation_id p) (pa_action p) (pa_deadline p)).

Definition deny (approval_id : ApprovalId) : M ApprovalAuthority ApprovalError unit :=
  do! check_deadline approval_id in
  do! take_pending approval_id in
  ret tt.

Definition expired_at (now : Z) (a : ApprovalAuthority) : list ApprovalId :=
  fst <$> filter (fun e => pa_deadline e.2 <= now) (btree_entries (pending a)).

Definition expired_ids {E} : M ApprovalAuthority E (list ApprovalId) :=
  let! now := Instant_now in
  gets (expired_at now).

Definition purge_expired {E} : M ApprovalAuthority E unit :=
  let! now := Instant_now in
  let! expired := gets (expired_at now) in
  for_each (fun approval_id => modify (revoke approval_id)) expired.

Definition pending_count {E} : M ApprovalAuthority E Z :=
  do! purge_expired in gets (fun a => btree_len (pending a)).

End Authority.

Example default_authority_is_new :
  ApprovalAuthority_new DEFAULT_MAX_PENDING_APPROVALS DEFAULT_MAX_TTL = Ok ApprovalAuthority_default.
Proof. vm_compute. reflexivity. Qed.

(** ** Invariant *)

(** The index is the inverse of the pending map on task and operation. *)
Record authority_wf (a : ApprovalAuthority) : Prop := {
  aw_limit : 0 < max_pending a <= MAX_MAX_PENDING_APPROVALS;
  aw_ttl : 0 < max_ttl a <= MAX_MAX_TTL;
  aw_bounded : btree_len (pending a) <= max_pending a;
  aw_index : forall t o id,
    operation_index a !! (t, o) = Some id <->
    exists p, pending a !! id = Some p /\ pa_task_id p = t /\ pa_operation_id p = o;
}.

Lemma default_authority_wf : authority_wf ApprovalAuthority_default.
Proof.
  split; [done..|]. intros t o id. simpl. rewrite !lookup_empty.
  split; [done | by intros (? & ? & _)].
Qed.

Lemma authority_index_unique a id1 id2 p1 p2 :
  authority_wf a -> pending a !! id1 = Some p1 -> pending a !! id2 = Some p2 ->
  pa_task_id p1 = pa_task_id p2 -> pa_operation_id p1 = pa_operation_id p2 -> id1 = id2.
Proof.
  intros Hwf H1 H2 Ht Ho.
  assert (E1 : operation_index a !! (pa_task_id p2, pa_operation_id p2) = Some id1)
    by (apply (aw_index a Hwf); eauto).
  assert (E2 : operation_index a !! (pa_task_id p2, pa_operation_id p2) = Some id2)
    by (apply (aw_index a Hwf); eauto).
  congruence.
Qed.

Lemma btree_len_insert_fresh {K V} `{Countable K} (m : gmap K V) k v :
  m !! k = None -> btree_len (<[k := v]> m) = btree_len m + 1.
Proof. intros Hk. unfold btree_len. rewrite map_size_insert_None by done. lia. Qed.

Lemma btree_len_delete {K V} `{Countable K} (m : gmap K V) k v :
  m !! k = Some v -> btree_len (delete k m) = btree_len m - 1.
Proof.
  intros Hk. unfold btree_len. rewrite map_size_delete_Some by eauto.
  assert (size m <> 0%nat); [|lia]. intros ->%map_size_empty_inv. done.
Qed.

Lemma authority_insert_wf id p a :
  authority_wf a -> btree_len (pending a) < max_pending a ->
  pending a !! id = None -> operation_index a !! (pa_task_id p, pa_operation_id p) = None ->
  authority_wf (authority_insert id p a).
Proof.
  intros [Hl Ht Hb Hi] Hroom Hid Hop. split; simpl; try done.
  - rewrite btree_len_insert_fresh by done. lia.
  - intros t o i. rewrite lookup_insert. case_decide as Hk.
    + injection Hk as <- <-. split.
      * intros [= <-]. exists p. by rewrite lookup_insert_eq.
      * intros (q & Hq & Hqt & Hqo). rewrite lookup_insert in Hq. case_decide; [by subst|].
        assert (operation_index a !! (pa_task_id p, pa_operation_id p) = Some i);
          [apply Hi; eauto | congruence].
    + rewrite Hi. split; intros (q & Hq & Hqt & Hqo); exists q; split_and!; try done.
      * rewrite lookup_insert_ne; [done|]. by intros ->; congruence.
      * rewrite lookup_insert in Hq. case_decide; [|done]. simplify_eq.
Qed.

Lemma authority_remove_wf id a : authority_wf a -> authority_wf (authority_remove id a).2.
Proof.
  intros Hwf. unfold authority_remove. destruct (pending a !! id) as [p|] eqn:Hp; [|done].
  pose proof (authority_index_unique a) as Hu. destruct Hwf as [Hl Ht Hb Hi]. split; simpl; try done.
  - rewrite (btree_len_delete _ _ p) by done. lia.
  - intros t o i. rewrite lookup_delete. case_decide as Hk.
    + injection Hk as <- <-. split; [done|]. intros (q & Hq & Hqt & Hqo).
      rewrite lookup_delete in Hq. case_decide; [done|].
      by specialize (Hu i id q p (Build_authority_wf a Hl Ht Hb Hi) Hq Hp Hqt Hqo).
    + rewrite Hi. split; intros (q & Hq & Hqt & Hqo); exists q; split_and!; try done.
      * rewrite lookup_delete_ne; [done|]. intros ->. simplify_eq.
      * rewrite lookup_delete in Hq. by case_decide.
Qed.

Lemma revoke_wf id a : authority_wf a -> authority_wf (revoke id a).
Proof. apply authority_remove_wf. Qed.

Lemma revoke_pending id a : pending (revoke id a) = delete id (pending a).
Proof.
  unfold revoke, authority_remove. destruct (pending a !! id) as [p|] eqn:E; simpl; [done|].
  by rewrite delete_id.
Qed.

(** Inserting what was removed gives the authority back. *)
Lemma authority_insert_remove id a p :
  authority_wf a -> pending a !! id = Some p ->
  authority_insert id p (authority_remove id a).2 = a.
Proof.
  intros Hwf Hp. unfold authority_remove. rewrite Hp. unfold authority_insert. simpl.
  rewrite !insert_delete_eq, !insert_id; [by destruct a | |done].
  apply (aw_index a Hwf). by exists p.
Qed.

(** Removing what was inserted fresh gives the authority back. *)
Lemma revoke_insert_fresh id a p :
  pending a !! id = None -> operation_index a !! (pa_task_id p, pa_operation_id p) = None ->
  revoke id (authority_insert id p a) = a.
Proof.
  intros Hid Hop. unfold revoke, authority_remove, authority_insert. simpl.
  rewrite lookup_insert_eq. simpl. rewrite !delete_insert_id by done. by destruct a.
Qed.

(** ** Behaviour of each operation *)

Section Specs.
Context `{Env}.

(** Pending identifiers are in the past of the generator. *)
Definition authority_fresh (a : ApprovalAuthority) (w : World) : Prop :=
  forall id p, pending a !! id = Some p -> unminted w (approval_uuid id).

Lemma duration_ms_bounded ttl a :
  authority_wf a -> Duration_from_millis 1 <= ttl <= max_ttl a ->
  duration_ms ttl = Ok (ttl / 1000000).
Proof.
  intros Hwf Ht. pose proof (aw_ttl a Hwf) as Hm. unfold MAX_MAX_TTL, Duration_from_secs in Hm.
  unfold duration_ms, Duration_as_millis, try_into, u64_max, Duration_from_millis in *.
  assert (0 <= ttl / 1000000 <= 86400000).
  { split; [apply Z.div_pos; lia|]. apply Z.div_le_upper_bound; lia. }
  rewrite (proj2 (Z.leb_le 0 _)), (proj2 (Z.leb_le _ (2 ^ 64 - 1))) by lia. done.
Qed.

Lemma expires_bounds ttl a :
  authority_wf a -> Duration_from_millis 1 <= ttl <= max_ttl a -> 1 <= ttl / 1000000 <= 86400000.
Proof.
  intros Hwf Ht. pose proof (aw_ttl a Hwf) as Hm.
  unfold MAX_MAX_TTL, Duration_from_secs, Duration_from_millis in *.
  split; [apply Z.div_le_lower_bound; lia | apply Z.div_le_upper_bound; lia].
Qed.

Lemma request_exact t o action ttl a w :
  authority_wf a -> authority_fresh a w ->
  wp (request t o action ttl) (fun r a' w' =>
    world_le w w' /\
    match r with
    | Return q =>
        let id := mk_ApprovalId (uuid_at (uuids_minted w)) in
        let p := mk_PendingApproval t o action (instant_at (instants_read w) + ttl) in
        is_valid_action action = true /\ Duration_from_millis 1 <= ttl <= max_ttl a
        /\ pending a !! id = None /\ operation_index a !! (t, o) = None
        /\ btree_len (pending a) < max_pending a
        /\ q = mk_ApprovalRequest id t o action (ttl / 1000000)
        /\ a' = authority_insert id p a
        /\ uuids_minted w' = S (uuids_minted w) /\ instants_read w' = S (instants_read w)
    | Raise e =>
        a' = a /\ (e = InvalidApprovalRequest \/ e = DuplicateOperation \/ e = PendingCapacityExceeded)
    | Panic => False
    end) a w.
Proof.
  intros Hwf Hfresh. unfold request. wp_step. wp_step.
  destruct (_ || _) eqn:Hguard; [wp_steps; split; [done|]; auto|].
  rewrite !Bool.orb_false_iff, Bool.negb_false_iff, !Z.ltb_ge in Hguard.
  destruct Hguard as [[Hact Hmin] Hmax]. wp_step. wp_step.
  case_bool_decide as Hix; [wp_steps; split; [done|]; auto|]. apply eq_None_not_Some in Hix.
  wp_step. wp_step. destruct (Z.leb_spec (max_pending a) (btree_len (pending a))) as [|Hroom];
    [wp_steps; split; [done|]; auto|].
  wp_step. wp_step. wp_step. wp_step. unfold Instant_checked_add.
  destruct (Z.ltb_spec (instant_at (instants_read w) + ttl) (2 ^ 63 * 1000000000)); cbn [ok_or];
    [|split; [split; simpl; lia | auto]].
  wp_step. wp_step. cbv zeta. wp_step. wp_step. wp_step. wp_step.
  rewrite (duration_ms_bounded ttl a) by done. wp_steps.
  assert (Hid : pending a !! mk_ApprovalId (uuid_at (uuids_minted w)) = None).
  { destruct (pending a !! _) as [p|] eqn:E; [|done]. apply Hfresh in E.
    by apply unminted_ne in E. }
  split; [split; simpl; lia|]. by split_and!.
Qed.

Lemma check_deadline_exact id a w :
  wp (check_deadline id) (fun r a' w' =>
    a' = a /\ world_le w w' /\ uuids_minted w' = uuids_minted w /\
    match r with
    | Return _ => exists p, pending a !! id = Some p /\ instant_at (instants_read w) < pa_deadline p
                  /\ instants_read w' = S (instants_read w)
    | Raise e =>
        (e = NotFound /\ pending a !! id = None)
        \/ (e = Expired /\ exists p, pending a !! id = Some p
              /\ pa_deadline p <= instant_at (instants_read w))
    | Panic => False
    end) a w.
Proof.
  unfold check_deadline. wp_step. wp_step. wp_step. wp_step.
  destruct (pending a !! id) as [p|] eqn:Hp; cbn [ok_or]; [|by split_and!; auto].
  wp_step. wp_step.
  destruct (Z.leb_spec (pa_deadline p) (instant_at (instants_read w))); wp_steps;
    (split_and!; [done | split; simpl; lia | done |]); eauto 6.
Qed.

Lemma wp_take_pending id a p Q w :
  pending a !! id = Some p -> Q (Return p) (authority_remove id a).2 w ->
  wp (take_pending id) Q a w.
Proof. intros Hp HQ. unfold wp, take_pending, authority_remove in *. by rewrite Hp in *. Qed.

Lemma approve_exact id a w :
  wp (approve id) (fun r a' w' =>
    world_le w w' /\ uuids_minted w' = uuids_minted w /\
    match r with
    | Return g =>
        exists p, pending a !! id = Some p /\ instant_at (instants_read w) < pa_deadline p
          /\ g = mk_ApprovalGrant id (pa_task_id p) (pa_operation_id p) (pa_action p) (pa_deadline p)
          /\ a' = (authority_remove id a).2
          /\ instants_read w' = S (instants_read w)
    | Raise e =>
        a' = a /\ ((e = NotFound /\ pending a !! id = None)
          \/ (e = Expired /\ exists p, pending a !! id = Some p
                /\ pa_deadline p <= instant_at (instants_read w)))
    | Panic => False
    end) a w.
Proof.
  unfold approve. wp_step. eapply wp_mono; [apply check_deadline_exact|].
  intros [u|e|] a' w' (-> & Hw & Hm & Hr); try by split_and!.
  destruct Hr as (p & Hp & Hlt & Hi). wp_step. eapply wp_take_pending; [done|]. wp_steps.
  split_and!; [done..|]. by exists p.
Qed.

Lemma deny_exact id a w :
  wp (deny id) (fun r a' w' =>
    world_le w w' /\
    match r with
    | Return _ =>
        exists p, pending a !! id = Some p /\ instant_at (instants_read w) < pa_deadline p
          /\ a' = revoke id a
    | Raise e =>
        a' = a /\ ((e = NotFound /\ pending a !! id = None)
          \/ (e = Expired /\ exists p, pending a !! id = Some p
                /\ pa_deadline p <= instant_at (instants_read w)))
    | Panic => False
    end) a w.
Proof.
  unfold deny. wp_step. eapply wp_mono; [apply check_deadline_exact|].
  intros [u|e|] a' w' (-> & Hw & _ & Hr); try by split_and!.
  destruct Hr as (p & Hp & Hlt & _). wp_step. eapply wp_take_pending; [done|]. wp_steps.
  split; [done|]. by exists p.
Qed.

Lemma grant_authorize_exact {X} g t o action (x : X) w :
  wp (grant_authorize g t o action) (fun r x' w' =>
    x' = x /\ world_le w w' /\ uuids_minted w' = uuids_minted w /\
    match r with
    | Return receipt =>
        receipt = mk_ApprovalReceipt (grant_approval_id g)
        /\ instant_at (instants_read w) < grant_deadline g
        /\ grant_task_id g = t /\ grant_operation_id g = o /\ grant_action g = action
    | Raise e =>
        (e = Expired /\ grant_deadline g <= instant_at (instants_read w))
        \/ (e = ScopeMismatch
            /\ ~ (grant_task_id g = t /\ grant_operation_id g = o /\ grant_action g = action))
    | Panic => False
    end) x w.
Proof.
  unfold grant_authorize. wp_step. wp_step.
  destruct (Z.leb_spec (grant_deadline g) (instant_at (instants_read w))).
  { wp_steps. split_and!; [done | split; simpl; lia | done | auto]. }
  destruct (_ || _) eqn:Hscope; wp_steps;
    (split; [done|]; split; [split; simpl; lia|]; split; [done|]).
  - right. split; [done|]. intros (<- & <- & <-).
    by rewrite !bool_decide_eq_true_2, String.eqb_refl in Hscope by done.
  - rewrite !Bool.orb_false_iff, !Bool.negb_false_iff, !bool_decide_eq_true, String.eqb_eq in Hscope.
    by destruct Hscope as [[? ?] ?].
Qed.

Lemma elem_of_expired_at now a id :
  id ∈ expired_at now a <-> exists p, pending a !! id = Some p /\ pa_deadline p <= now.
Proof.
  unfold expired_at. rewrite list_elem_of_fmap. split.
  - intros ([i p] & -> & [Hd Hin]%list_elem_of_filter).
    exists p. by rewrite elem_of_btree_entries in Hin.
  - intros (p & Hp & Hd). exists (id, p). split; [done|].
    rewrite list_elem_of_filter, elem_of_btree_entries. done.
Qed.

(** Revoking a list of identifiers. *)
Lemma wp_revoke_all {E} ids a w :
  authority_wf a ->
  wp (for_each (fun id => modify (revoke id)) ids) (fun (r : outcome unit E) a' w' =>
    r = Return tt /\ w' = w /\ authority_wf a' /\ max_ttl a' = max_ttl a
    /\ forall id, pending a' !! id = if decide (id ∈ ids) then None else pending a !! id) a w.
Proof.
  revert a. induction ids as [|i ids IH]; intros a Hwf; simpl; wp_steps.
  - by split_and!.
  - eapply wp_mono; [apply IH, revoke_wf, Hwf|]. intros r a' w' (-> & -> & Hwf' & Httl & Hp).
    split_and!; try done.
    + rewrite Httl. unfold revoke, authority_remove. by destruct (pending a !! i).
    + intros id. rewrite Hp, revoke_pending, lookup_delete.
      repeat case_decide; set_solver.
Qed.

Lemma purge_expired_exact {E} a w :
  authority_wf a ->
  wp purge_expired (fun (r : outcome unit E) a' w' =>
    r = Return tt /\ world_le w w' /\ authority_wf a'
    /\ forall id p, pending a' !! id = Some p <->
         pending a !! id = Some p /\ instant_at (instants_read w) < pa_deadline p) a w.
Proof.
  intros Hwf. unfold purge_expired. wp_step. wp_step. wp_step. wp_step.
  eapply wp_mono; [by apply wp_revoke_all|]. intros r a' w' (-> & -> & Hwf' & _ & Hp).
  split_and!; [done | split; simpl; lia | done |]. intros id p. rewrite Hp.
  case_decide as Hin; rewrite elem_of_expired_at in Hin.
  - split; [done|]. intros [Hpe Hlt]. destruct Hin as (q & Hq & Hle). simplify_eq. lia.
  - split; [|by intros [? _]]. intros Hpe. split; [done|].
    apply Z.nle_gt. intros Hle. apply Hin. eauto.
Qed.

Lemma authority_fresh_mono a w w' : world_le w w' -> authority_fresh a w -> authority_fresh a w'.
Proof. intros Hw Hf id p Hp. eauto with worlds. Qed.

Lemma authority_fresh_sub a a' w :
  (forall id p, pending a' !! id = Some p -> pending a !! id = Some p) ->
  authority_fresh a w -> authority_fresh a' w.
Proof. intros Hsub Hf id p Hp. eauto. Qed.

Lemma authority_fresh_insert `{!EnvLaws} a id p w i j :
  authority_fresh a w -> id = mk_ApprovalId (uuid_at (uuids_minted w)) ->
  authority_fresh (authority_insert id p a) (mk_World i j (S (uuids_minted w))).
Proof.
  intros Hf -> id' p' Hp. simpl in Hp. rewrite lookup_insert in Hp. case_decide; subst; simpl.
  - apply unminted_next.
  - intros k Hk. apply (Hf _ _ Hp). simpl in Hk. lia.
Qed.

End Specs.

(** ** Properties *)

(** A request is admitted exactly within the authority's bounds: an
    admitted one has a valid action, a lifetime between one millisecond and the
    configured maximum, room below the capacity and no pending twin; it is
    stored under a fresh identifier with the deadline [now + ttl], and every
    refusal leaves the authority as it was. *)
Theorem approval_requests_are_bounded `{EnvLaws} t o action ttl a w r a' w' :
  authority_wf a -> authority_fresh a w -> request t o action ttl a w = (r, a', w') ->
  authority_wf a' /\ authority_fresh a' w' /\
  match r with
  | Return q =>
      is_valid_action action = true /\ Duration_from_millis 1 <= ttl <= max_ttl a
      /\ 1 <= expires_after_ms q <= 86400000
      /\ pending a !! request_approval_id q = None /\ operation_index a !! (t, o) = None
      /\ btree_len (pending a') = btree_len (pending a) + 1
      /\ pending a' = <[request_approval_id q :=
           mk_PendingApproval t o action (instant_at (instants_read w) + ttl)]> (pending a)
  | Raise e => a' = a /\ e ∈ [InvalidApprovalRequest; DuplicateOperation; PendingCapacityExceeded]
  | Panic => False
  end.
Proof.
  intros Hwf Hf Hrun. pose proof (request_exact t o action ttl a w Hwf Hf) as Hwp.
  unfold wp in Hwp. rewrite Hrun in Hwp. destruct Hwp as [Hw Hr]. destruct r as [q|e|]; [| |done].
  - destruct Hr as (Hact & Httl & Hid & Hix & Hroom & -> & -> & Hm & _). split_and!; try done.
    + by apply authority_insert_wf.
    + destruct w'. simpl in Hm. subst. by apply authority_fresh_insert.
    + apply Httl.
    + apply Httl.
    + by apply (expires_bounds ttl a).
    + by apply (expires_bounds ttl a).
    + simpl. by apply btree_len_insert_fresh.
  - destruct Hr as [-> He]. split_and!; [done | by eapply authority_fresh_mono | done |].
    destruct He as [->|[->| ->]]; set_solver.
Qed.

Lemma approval_requests_are_bounded_witness :
  exists q a' w',
    request (mk_TaskId 1) (mk_OperationId 2) "filesystem.write" 5000000 ApprovalAuthority_default world0
      = (Return q, a', w')
    /\ expires_after_ms q = 5 /\ authority_wf a'.
Proof.
  do 3 eexists. split; [vm_compute; reflexivity|]. split; [reflexivity|].
  refine (proj1 (approval_requests_are_bounded (mk_TaskId 1) (mk_OperationId 2) "filesystem.write"
           5000000 ApprovalAuthority_default world0 _ _ _ default_authority_wf _ _)).
  - intros id p Hp. simpl in Hp. by rewrite lookup_empty in Hp.
  - vm_compute. reflexivity.
Defined.

(** An approval is given at most once and rolls back exactly: approving
    removes the pending entry, so approving again finds nothing at any later
    time, and restoring the grant after a failed audit write gives back the
    authority that was there before. *)
Theorem approve_is_one_time_and_restorable `{Env} id a w g a' w' :
  authority_wf a -> approve id a w = (Return g, a', w') ->
  restore g a' = a /\ authority_wf a'
  /\ forall w2, (approve id a' w2).1 = (Raise NotFound, a')
                /\ (deny id a' w2).1 = (Raise NotFound, a').
Proof.
  intros Hwf Hrun. pose proof (approve_exact id a w) as Hwp. unfold wp in Hwp. rewrite Hrun in Hwp.
  destruct Hwp as (_ & _ & p & Hp & _ & -> & -> & _). split_and!.
  - unfold restore. simpl.
    replace (mk_PendingApproval _ _ _ _) with p by by destruct p. by apply authority_insert_remove.
  - by apply authority_remove_wf.
  - intros w2.
    assert (Hnone : pending (authority_remove id a).2 !! id = None).
    { change (pending (revoke id a) !! id = None). by rewrite revoke_pending, lookup_delete_eq. }
    unfold approve, deny, check_deadline, bind, gets, lift. by rewrite Hnone.
Qed.

Definition one_pending : ApprovalAuthority :=
  (request (mk_TaskId 1) (mk_OperationId 2) "filesystem.write" 5000000
     ApprovalAuthority_default world0).1.2.

Lemma one_pending_wf : authority_wf one_pending.
Proof.
  apply (authority_insert_wf (mk_ApprovalId 0)
    (mk_PendingApproval (mk_TaskId 1) (mk_OperationId 2) "filesystem.write" 5000000)
    ApprovalAuthority_default); try done. apply default_authority_wf.
Qed.

Lemma approve_is_one_time_and_restorable_witness :
  exists g a' w', approve (mk_ApprovalId 0) one_pending (mk_World 1 0 1) = (Return g, a', w')
    /\ restore g a' = one_pending.
Proof.
  do 3 eexists. split; [vm_compute; reflexivity|].
  refine (proj1 (approve_is_one_time_and_restorable (mk_ApprovalId 0) one_pending
                   (mk_World 1 0 1) _ _ _ one_pending_wf _)).
  vm_compute. reflexivity.
Defined.

(** A grant is bound to its request: whatever happens between the steps, a
    grant obtained from an admitted request authorizes only the same task,
    operation and action, and only before the request's own deadline. *)
Theorem grants_are_bound_to_their_request `{EnvLaws} {X} t o action ttl a w q a1 w1 a2 w2 g a3 w3
    t' o' action' (x : X) w4 receipt x' w5 :
  authority_wf a -> authority_fresh a w ->
  request t o action ttl a w = (Return q, a1, w1) ->
  pending a2 !! request_approval_id q = pending a1 !! request_approval_id q ->
  approve (request_approval_id q) a2 w2 = (Return g, a3, w3) ->
  grant_authorize g t' o' action' x w4 = (Return receipt, x', w5) ->
  t' = t /\ o' = o /\ action' = action
  /\ receipt_approval_id receipt = request_approval_id q
  /\ instant_at (instants_read w4) < instant_at (instants_read w) + max_ttl a.
Proof.
  intros Hwf Hf Hrq Hsame Hap Hau.
  pose proof (request_exact t o action ttl a w Hwf Hf) as H1. unfold wp in H1. rewrite Hrq in H1.
  destruct H1 as (_ & _ & Httl & _ & _ & _ & -> & -> & _).
  pose proof (approve_exact (mk_ApprovalId (uuid_at (uuids_minted w))) a2 w2) as H2.
  simpl in Hap, Hsame. unfold wp in H2. rewrite Hap in H2.
  destruct H2 as (_ & _ & p & Hp & _ & -> & _).
  rewrite Hp in Hsame. rewrite lookup_insert_eq in Hsame. simplify_eq. simpl in *.
  epose proof (grant_authorize_exact _ t' o' action' x w4) as H3. unfold wp in H3. rewrite Hau in H3.
  destruct H3 as (_ & _ & _ & -> & Hd & <- & <- & <-). simpl in *. split_and!; try done. lia.
Qed.

Lemma grants_are_bound_to_their_request_witness :
  exists g a3 w3 receipt w5,
    approve (mk_ApprovalId 0) one_pending (mk_World 1 0 1) = (Return g, a3, w3)
    /\ grant_authorize g (mk_TaskId 1) (mk_OperationId 2) "filesystem.write" tt w3
         = (Return receipt, tt, w5)
    /\ receipt_approval_id receipt = mk_ApprovalId 0.
Proof.
  do 5 eexists. split; [vm_compute; reflexivity|]. split; [vm_compute; reflexivity|].
  refine (proj1 (proj2 (proj2 (proj2 (grants_are_bound_to_their_request (mk_TaskId 1)
    (mk_OperationId 2) "filesystem.write" 5000000 ApprovalAuthority_default world0
    (mk_ApprovalRequest (mk_ApprovalId 0) (mk_TaskId 1) (mk_OperationId 2) "filesystem.write" 5)
    one_pending _
    one_pending (mk_World 1 0 1) _ _ _ (mk_TaskId 1) (mk_OperationId 2) "filesystem.write" tt (mk_World 2 0 1) _ tt _
    default_authority_wf _ _ eq_refl _ _))))); try (vm_compute; reflexivity).
  intros id p Hp. simpl in Hp. by rewrite lookup_empty in Hp.
Defined.

(** Expiry removes exactly the overdue requests: after [pending_count] at
    time [now] the authority holds precisely the requests whose deadline is
    still ahead, unchanged, and returns their number. *)
Theorem purge_removes_exactly_expired `{Env} {E} a w (r : outcome Z E) a' w' :
  authority_wf a -> pending_count a w = (r, a', w') ->
  r = Return (btree_len (pending a')) /\ authority_wf a'
  /\ forall id p, pending a' !! id = Some p <->
       pending a !! id = Some p /\ instant_at (instants_read w) < pa_deadline p.
Proof.
  intros Hwf. assert (Hwp : wp pending_count (fun (r : outcome Z E) a' w' =>
    r = Return (btree_len (pending a')) /\ authority_wf a' /\ forall id p, pending a' !! id = Some p <->
       pending a !! id = Some p /\ instant_at (instants_read w) < pa_deadline p) a w).
  { unfold pending_count. wp_step. eapply wp_mono; [by apply purge_expired_exact|].
    intros ? a1 w1 (-> & _ & Hwf1 & Hp). wp_steps. by split_and!. }
  unfold wp in Hwp. intros Hrun. by rewrite Hrun in Hwp.
Qed.

Lemma purge_removes_exactly_expired_witness :
  exists a' w', pending_count (E := ApprovalError) one_pending (mk_World 5 0 1) = (Return 0, a', w')
    /\ authority_wf a'.
Proof.
  do 2 eexists. split; [vm_compute; reflexivity|].
  refine (proj1 (proj2 (purge_removes_exactly_expired (E := ApprovalError) one_pending (mk_World 5 0 1) (Return 0) _ _
                          one_pending_wf _))).
  vm_compute. reflexivity.
Defined.
