(* ===== verification/Supervisor.v ===== *)
(** * Task supervisor (aios-runtime: supervisor.rs)

    The supervisor's state and every operation on it, generic in the event
    store.  Mutations happen in the order of the code, so that what an error
    leaves behind is visible. *)

From stdpp Require Import base numbers list gmap strings.
From Stdlib Require Import ZArith Lia.
From S2P Require Import Prelude RustStd TaskState TaskSpec Policy Event Approval.

Definition DEFAULT_MAX_TASKS : Z := 10000.

(** ** Data *)

Record TaskRecord := mk_TaskRecord {
  spec : TaskSpec;
  state : TaskState;
  started_at : option Z;
}.

Inductive OwnedCapabilityRequest :=
| OwnedFile (path : string) (access : FileAccess)
| OwnedNetwork (host : string) (transport : NetworkTransport) (port : Z)
| OwnedTool (tool : string) (action : string).

#[export] Instance OwnedCapabilityRequest_eq_dec : EqDecision OwnedCapabilityRequest.
Proof. solve_decision. Defined.

Definition from_borrowed (request : CapabilityRequest) : OwnedCapabilityRequest :=
  match request with
  | FileRequest path access => OwnedFile path access
  | NetworkRequest host transport port => OwnedNetwork host transport port
  | ToolRequest tool action => OwnedTool tool action
  end.

Definition as_borrowed (self : OwnedCapabilityRequest) : CapabilityRequest :=
  match self with
  | OwnedFile path access => FileRequest path access
  | OwnedNetwork host transport port => NetworkRequest host transport port
  | OwnedTool tool action => ToolRequest tool action
  end.

Definition owned_action (self : OwnedCapabilityRequest) : string :=
  match self with
  | OwnedFile _ Read => "filesystem.read"
  | OwnedFile _ Write => "filesystem.write"
  | OwnedNetwork _ _ _ => "network.egress"
  | OwnedTool _ action => action
  end.

Record PendingOperation := mk_PendingOperation {
  po_task_id : TaskId;
  po_operation_id : OperationId;
  po_request : OwnedCapabilityRequest;
}.

Record ApprovedOperation := mk_ApprovedOperation {
  ao_task_id : TaskId;
  ao_request : OwnedCapabilityRequest;
  ao_grant : ApprovalGrant;
}.

Record TaskSnapshot := mk_TaskSnapshot {
  snapshot_task_id : TaskId;
  snapshot_state : TaskState;
}.

Record TaskExecutionInput := mk_TaskExecutionInput {
  input_goal : string;
  capability_tools : list string;
  network_destinations : list NetworkDestination;
}.

Record TaskExecutionContext := mk_TaskExecutionContext {
  context_task_id : TaskId;
  context_budget : Budget;
  filesystem_capabilities : list FileCapability;
  context_started_at : Z;
}.

Inductive SubmitResult :=
| SubmitAccepted (task : TaskSnapshot)
| SubmitExisting (task : TaskSnapshot)
| SubmitRejected (task : TaskSnapshot) (errors : list ValidationError).

Inductive OperationAuthorization :=
| Allowed
| Denied (reason : DenialReason)
| AuthApprovalRequired (approval : ApprovalRequest).

Inductive SupervisorError :=
| TaskNotFound
| TaskNotRunning
| IdempotencyConflict
| CapacityExceeded
| InvalidStateTransition (error : StateTransitionError)
| EventStoreFailure (error : EventStoreError)
| ApprovalFailure (error : ApprovalError).

Record TaskSupervisor (S : Type) := mk_TaskSupervisor {
  tasks : gmap TaskId TaskRecord;
  recovered_tasks : gmap TaskId TaskState;
  idempotency_index : gmap string TaskId;
  event_store : S;
  approval_authority : ApprovalAuthority;
  pending_operations : gmap ApprovalId PendingOperation;
  approved_operations : gmap OperationId ApprovedOperation;
  max_tasks : Z;
}.

Arguments mk_TaskSupervisor {S} _ _ _ _ _ _ _ _.
Arguments tasks {S} _.
Arguments recovered_tasks {S} _.
Arguments idempotency_index {S} _.
Arguments event_store {S} _.
Arguments approval_authority {S} _.
Arguments pending_operations {S} _.
Arguments approved_operations {S} _.
Arguments max_tasks {S} _.

(** *** Field updates *)

Section Fields.
Context {S : Type}.
Implicit Types s : TaskSupervisor S.

Definition set_tasks (x : gmap TaskId TaskRecord) s : TaskSupervisor S :=
  mk_TaskSupervisor x (recovered_tasks s) (idempotency_index s) (event_store s)
    (approval_authority s) (pending_operations s) (approved_operations s) (max_tasks s).

Definition set_recovered (x : gmap TaskId TaskState) s : TaskSupervisor S :=
  mk_TaskSupervisor (tasks s) x (idempotency_index s) (event_store s)
    (approval_authority s) (pending_operations s) (approved_operations s) (max_tasks s).

Definition set_index (x : gmap string TaskId) s : TaskSupervisor S :=
  mk_TaskSupervisor (tasks s) (recovered_tasks s) x (event_store s)
    (approval_authority s) (pending_operations s) (approved_operations s) (max_tasks s).

Definition set_event_store (x : S) s : TaskSupervisor S :=
  mk_TaskSupervisor (tasks s) (recovered_tasks s) (idempotency_index s) x
    (approval_authority s) (pending_operations s) (approved_operations s) (max_tasks s).

Definition set_authority (x : ApprovalAuthority) s : TaskSupervisor S :=
  mk_TaskSupervisor (tasks s) (recovered_tasks s) (idempotency_index s) (event_store s)
    x (pending_operations s) (approved_operations s) (max_tasks s).

Definition set_pending (x : gmap ApprovalId PendingOperation) s : TaskSupervisor S :=
  mk_TaskSupervisor (tasks s) (recovered_tasks s) (idempotency_index s) (event_store s)
    (approval_authority s) x (approved_operations s) (max_tasks s).

Definition set_approved (x : gmap OperationId ApprovedOperation) s : TaskSupervisor S :=
  mk_TaskSupervisor (tasks s) (recovered_tasks s) (idempotency_index s) (event_store s)
    (approval_authority s) (pending_operations s) x (max_tasks s).

End Fields.

Definition with_state (next : TaskState) (r : TaskRecord) : TaskRecord :=
  mk_TaskRecord (spec r) next (started_at r).

Definition with_started_at (t : Z) (r : TaskRecord) : TaskRecord :=
  mk_TaskRecord (spec r) (state r) (Some t).

(** ** Operations *)

Section Operations.
Context `{Env} {S : Type} `{!EventStore S}.

Abbreviation Sup := (M (TaskSupervisor S) SupervisorError).

Definition TaskSupervisor_new (event_store : S) : TaskSupervisor S :=
  mk_TaskSupervisor ∅ ∅ ∅ event_store ApprovalAuthority_default ∅ ∅ DEFAULT_MAX_TASKS.

Definition with_max_tasks (event_store : S) (max_tasks : Z)
    : Result (TaskSupervisor S) SupervisorError :=
  if max_tasks =? 0 then Err CapacityExceeded
  else Ok (mk_TaskSupervisor ∅ ∅ ∅ event_store ApprovalAuthority_default ∅ ∅ max_tasks).

(** [self.event_store.append_batch(..)], its error converted by [?]. *)
Definition store_append (task_id : TaskId) (kinds : list TaskEventKind) : Sup (list TaskEvent) :=
  zoom event_store set_event_store (map_err EventStoreFailure (append_batch task_id kinds)).

Definition authority {A} (m : M ApprovalAuthority ApprovalError A) : Sup A :=
  zoom approval_authority set_authority (map_err ApprovalFailure m).

(** [self.tasks.get(&task_id).ok_or(SupervisorError::TaskNotFound)?] *)
Definition get_task (task_id : TaskId) : Sup TaskRecord :=
  let! r := gets (fun s => tasks s !! task_id) in lift (ok_or r TaskNotFound).

(** [self.tasks.get_mut(&task_id).ok_or(SupervisorError::TaskNotFound)?] and the
    assignment through it. *)
Definition update_task (task_id : TaskId) (f : TaskRecord -> TaskRecord) : Sup unit :=
  let! r := get_task task_id in
  modify (fun s => set_tasks (<[task_id := f r]> (tasks s)) s).

(** [let mut proposed = current; proposed.transition_to(next)?] *)
Definition propose (current next : TaskState) : Sup unit :=
  do! lift (res_map_err InvalidStateTransition (transition_to current next)) in ret tt.

Definition task_state (s : TaskSupervisor S) (task_id : TaskId) : option TaskState :=
  match tasks s !! task_id with
  | Some record => Some (state record)
  | None => recovered_tasks s !! task_id
  end.

Definition get (s : TaskSupervisor S) (task_id : TaskId) : option TaskSnapshot :=
  mk_TaskSnapshot task_id <$> task_state s task_id.

Definition recovered_task_ids (s : TaskSupervisor S) : list TaskId := btree_keys (recovered_tasks s).

(** The outcome of validation and the audit events of a submission. *)
Definition submission_events (validation : Result unit (list ValidationError))
    : TaskState * list TaskEventKind :=
  match validation with
  | Ok _ =>
      (Queued,
       [EvSubmitted; EvStateTransitioned Submitted Validating;
        EvStateTransitioned Validating Queued])
  | Err errors =>
      (Rejected,
       [EvSubmitted; EvStateTransitioned Submitted Validating;
        EvValidationFailed (len errors); EvStateTransitioned Validating Rejected])
  end.

Definition submit (spec : TaskSpec) : Sup SubmitResult :=
  let! indexed := gets (fun s => idempotency_index s !! idempotency_key spec) in
  match indexed with
  | Some task_id =>
      let! existing := get_task task_id in
      if negb (bool_decide (Supervisor.spec existing = spec)) then throw IdempotencyConflict
      else ret (SubmitExisting (mk_TaskSnapshot task_id (state existing)))
  | None =>
      let! full := gets (fun s =>
        max_tasks s <=? saturating_add usize_max (btree_len (tasks s)) (btree_len (recovered_tasks s))) in
      if full then throw CapacityExceeded
      else
        let! uuid := Uuid_now_v7 in
        let task_id := mk_TaskId uuid in
        let validation := validate spec in
        let '(state, event_kinds) := submission_events validation in
        do! store_append task_id event_kinds in
        do! modify (fun s => set_tasks (<[task_id := mk_TaskRecord spec state None]> (tasks s)) s) in
        do! modify (fun s => set_index (<[idempotency_key spec := task_id]> (idempotency_index s)) s) in
        let task := mk_TaskSnapshot task_id state in
        match validation with
        | Ok _ => ret (SubmitAccepted task)
        | Err errors => ret (SubmitRejected task errors)
        end
  end.

(** *** Transitions *)

Definition revocation_events (s : TaskSupervisor S) (task_id : TaskId) : list TaskEventKind :=
  omap (fun e : ApprovalId * PendingOperation =>
          if bool_decide (po_task_id e.2 = task_id)
          then Some (EvApprovalRevoked e.1 (po_operation_id e.2)) else None)
    (btree_entries (pending_operations s))
  ++ omap (fun e : OperationId * ApprovedOperation =>
          if bool_decide (ao_task_id e.2 = task_id)
          then Some (EvApprovalRevoked (grant_approval_id (ao_grant e.2)) e.1) else None)
    (btree_entries (approved_operations s)).

Definition invalidate_approvals (task_id : TaskId) : Sup unit :=
  let! pending_ids := gets (fun s =>
    omap (fun e : ApprovalId * PendingOperation =>
            if bool_decide (po_task_id e.2 = task_id) then Some e.1 else None)
      (btree_entries (pending_operations s))) in
  do! for_each (fun approval_id =>
        do! modify (fun s => set_authority (revoke approval_id (approval_authority s)) s) in
        modify (fun s => set_pending (delete approval_id (pending_operations s)) s))
      pending_ids in
  modify (fun s =>
    set_approved (filter (fun e => ao_task_id e.2 <> task_id) (approved_operations s)) s).

Definition apply_transition_with_failure (task_id : TaskId) (current next : TaskState)
    (failure : option ErrorCode) : Sup unit :=
  let! revoked := gets (fun s => if is_terminal next then revocation_events s task_id else []) in
  let event_kinds :=
    revoked ++ match failure with Some code => [EvTaskFailed code] | None => [] end
            ++ [EvStateTransitioned current next] in
  do! store_append task_id event_kinds in
  do! (if is_terminal next then invalidate_approvals task_id else ret tt) in
  let! record := gets (fun s => tasks s !! task_id) in
  match record with
  | Some record => modify (fun s => set_tasks (<[task_id := with_state next record]> (tasks s)) s)
  | None =>
      let! recovered := gets (fun s => recovered_tasks s !! task_id) in
      match recovered with
      | Some _ => modify (fun s => set_recovered (<[task_id := next]> (recovered_tasks s)) s)
      | None => throw TaskNotFound
      end
  end.

Definition apply_transition (task_id : TaskId) (current next : TaskState) : Sup unit :=
  apply_transition_with_failure task_id current next None.

Definition transition (task_id : TaskId) (next : TaskState) : Sup unit :=
  let! found := gets (fun s => task_state s task_id) in
  let! current := lift (ok_or found TaskNotFound) in
  do! propose current next in
  apply_transition task_id current next.

Definition start (task_id : TaskId) : Sup unit :=
  do! transition task_id Running in
  let! now := Instant_now in
  update_task task_id (with_started_at now).

Definition start_execution (task_id : TaskId) : Sup TaskExecutionInput :=
  let! record := get_task task_id in
  let caps := capabilities (spec record) in
  let destinations :=
    match network caps with DenyNetwork => [] | AllowNetwork destinations => destinations end in
  do! start task_id in
  ret (mk_TaskExecutionInput (goal (spec record)) (tools caps) destinations).

Definition succeed (task_id : TaskId) : Sup unit := transition task_id Succeeded.

Definition fail (task_id : TaskId) : Sup unit := transition task_id Failed.

Definition fail_budget_exceeded (task_id : TaskId) : Sup unit :=
  let! found := gets (fun s => task_state s task_id) in
  let! current := lift (ok_or found TaskNotFound) in
  do! propose current Failed in
  apply_transition_with_failure task_id current Failed (Some BudgetExceededCode).

Definition cancel (task_id : TaskId) : Sup bool :=
  let! found := gets (fun s => task_state s task_id) in
  let! current := lift (ok_or found TaskNotFound) in
  if is_terminal current then ret false
  else
    do! apply_transition task_id current Cancelled in
    ret true.

Definition events (s : TaskSupervisor S) (task_id : TaskId) (after_sequence : Z)
    : Result (list TaskEvent) SupervisorError :=
  match task_state s task_id with
  | None => Err TaskNotFound
  | Some _ => res_map_err EventStoreFailure (list_events (event_store s) task_id after_sequence)
  end.

(** *** Budgets *)

Definition execution_context (s : TaskSupervisor S) (task_id : TaskId)
    : Result TaskExecutionContext SupervisorError :=
  let? record := ok_or (tasks s !! task_id) TaskNotFound in
  if negb (bool_decide (state record = Running)) then Err TaskNotRunning
  else
    let? started := ok_or (started_at record) TaskNotRunning in
    Ok (mk_TaskExecutionContext task_id (budget (spec record))
          (filesystem (capabilities (spec record))) started).

(** [TaskExecutionContext::remaining_wall_time] at the time [now]. *)
Definition remaining_wall_time (c : TaskExecutionContext) (now : Z) : Z :=
  Duration_saturating_sub (Duration_from_secs (wall_time_seconds (context_budget c)))
    (elapsed_between (context_started_at c) now).

Definition wall_time_exceeded (task_id : TaskId) : Sup bool :=
  let! record := get_task task_id in
  match state record with
  | Running | WaitingApproval =>
      let! started := lift (ok_or (started_at record) TaskNotRunning) in
      let! now := Instant_now in
      ret (Duration_from_secs (wall_time_seconds (budget (spec record)))
             <=? elapsed_between started now)
  | _ => throw TaskNotRunning
  end.

(** *** Operations that need a policy decision *)

(** [CapabilityPolicy::from_task(&record.spec).expect(..).evaluate(..)] *)
Definition evaluate_stored (task_id : TaskId) (request : OwnedCapabilityRequest)
    : Sup PolicyDecision :=
  let! record := get_task task_id in
  match from_task (spec record) with
  | Ok policy => ret (evaluate policy (as_borrowed request))
  | Err _ => panic
  end.

(** One iteration of [expire_approvals]; the result is whether it counted. *)
Definition expire_one (approval_id : ApprovalId) : Sup bool :=
  let! found := gets (fun s => pending_operations s !! approval_id) in
  match found with
  | None => ret false
  | Some pending =>
      let task_id := po_task_id pending in
      let! record := get_task task_id in
      let current := state record in
      do! propose current Failed in
      do! store_append task_id
            [EvApprovalExpired approval_id (po_operation_id pending);
             EvStateTransitioned current Failed] in
      do! modify (fun s => set_authority (revoke approval_id (approval_authority s)) s) in
      do! modify (fun s => set_pending (delete approval_id (pending_operations s)) s) in
      do! update_task task_id (with_state Failed) in
      ret true
  end.

Fixpoint expire_loop (expired : list ApprovalId) (expired_count : Z) : Sup Z :=
  match expired with
  | [] => ret expired_count
  | approval_id :: expired' =>
      let! counted := expire_one approval_id in
      expire_loop expired' (if counted then expired_count + 1 else expired_count)
  end.

Definition expire_approvals : Sup Z :=
  let! expired := authority expired_ids in
  expire_loop expired 0.

Definition request_operation (task_id : TaskId) (request : CapabilityRequest) (approval_ttl : Z)
    : Sup OperationAuthorization :=
  do! expire_approvals in
  let! record := get_task task_id in
  let current := state record in
  do! propose current WaitingApproval in
  let owned_request := from_borrowed request in
  let! decision := evaluate_stored task_id owned_request in
  match decision with
  | Allow =>
      do! store_append task_id [EvOperationAllowed] in
      ret Allowed
  | Deny reason =>
      do! store_append task_id [EvOperationDenied reason] in
      ret (Denied reason)
  | ApprovalRequired =>
      let! waiting := gets (fun s =>
        existsb (fun p => bool_decide (po_task_id p = task_id)) (btree_values (pending_operations s))) in
      if waiting then throw (ApprovalFailure DuplicateOperation)
      else
        let! uuid := Uuid_now_v7 in
        let operation_id := mk_OperationId uuid in
        let! approval :=
          authority (Approval.request task_id operation_id (owned_action owned_request) approval_ttl) in
        let approval_id := request_approval_id approval in
        let! appended := attempt (store_append task_id
          [EvApprovalRequested approval_id operation_id;
           EvStateTransitioned current WaitingApproval]) in
        match appended with
        | Err error =>
            do! modify (fun s => set_authority (revoke approval_id (approval_authority s)) s) in
            throw error
        | Ok _ =>
            do! modify (fun s => set_pending
                  (<[approval_id := mk_PendingOperation task_id operation_id owned_request]>
                     (pending_operations s)) s) in
            do! update_task task_id (with_state WaitingApproval) in
            ret (AuthApprovalRequired approval)
        end
  end.

Definition approve_operation (approval_id : ApprovalId) : Sup TaskSnapshot :=
  do! expire_approvals in
  let! found := gets (fun s => pending_operations s !! approval_id) in
  let! pending := lift (ok_or found (ApprovalFailure NotFound)) in
  let task_id := po_task_id pending in
  let operation_id := po_operation_id pending in
  let! record := get_task task_id in
  let current := state record in
  do! propose current Running in
  let! grant := authority (approve approval_id) in
  let! appended := attempt (store_append task_id
    [EvApprovalGranted approval_id operation_id; EvStateTransitioned current Running]) in
  match appended with
  | Err error =>
      do! modify (fun s => set_authority (restore grant (approval_authority s)) s) in
      throw error
  | Ok _ =>
      let! found := gets (fun s => pending_operations s !! approval_id) in
      let! pending := lift (ok_or found (ApprovalFailure NotFound)) in
      do! modify (fun s => set_pending (delete approval_id (pending_operations s)) s) in
      do! modify (fun s => set_approved
            (<[operation_id := mk_ApprovedOperation task_id (po_request pending) grant]>
               (approved_operations s)) s) in
      do! update_task task_id (with_state Running) in
      ret (mk_TaskSnapshot task_id Running)
  end.

Definition deny_operation (approval_id : ApprovalId) : Sup TaskSnapshot :=
  do! expire_approvals in
  let! found := gets (fun s => pending_operations s !! approval_id) in
  let! pending := lift (ok_or found (ApprovalFailure NotFound)) in
  let task_id := po_task_id pending in
  let operation_id := po_operation_id pending in
  let! contained := gets (fun s => authority_contains approval_id (approval_authority s)) in
  if negb contained then throw (ApprovalFailure NotFound)
  else
    let! record := get_task task_id in
    let current := state record in
    do! propose current Failed in
    do! store_append task_id
          [EvApprovalDenied approval_id operation_id; EvStateTransitioned current Failed] in
    do! modify (fun s => set_authority (revoke approval_id (approval_authority s)) s) in
    do! modify (fun s => set_pending (delete approval_id (pending_operations s)) s) in
    do! update_task task_id (with_state Failed) in
    ret (mk_TaskSnapshot task_id Failed).

Definition authorize_operation (task_id : TaskId) (operation_id : OperationId)
    (request : CapabilityRequest) : Sup ApprovalReceipt :=
  let! record := get_task task_id in
  if negb (bool_decide (state record = Running)) then throw TaskNotRunning
  else
    let supplied := from_borrowed request in
    let! found := gets (fun s => approved_operations s !! operation_id) in
    let! approved := lift (ok_or found (ApprovalFailure NotFound)) in
    do! modify (fun s => set_approved (delete operation_id (approved_operations s)) s) in
    if negb (bool_decide (ao_task_id approved = task_id))
       || negb (bool_decide (ao_request approved = supplied))
    then throw (ApprovalFailure ScopeMismatch)
    else
      let! decision := evaluate_stored task_id supplied in
      if negb (bool_decide (decision = ApprovalRequired)) then throw (ApprovalFailure ScopeMismatch)
      else
        let approval_id := grant_approval_id (ao_grant approved) in
        let! receipt := map_err ApprovalFailure
          (grant_authorize (ao_grant approved) task_id operation_id (owned_action supplied)) in
        do! store_append task_id [EvApprovalConsumed approval_id operation_id] in
        ret receipt.

End Operations.
