(* ===== verification/Recovery.v ===== *)
(** * Replaying the audit log (aios-storage-sqlite: recover_snapshot; aios-runtime:
      TaskSupervisor::recover)

    The state machine that reads a task's log back, and the recovery of a
    supervisor from a store: every task that was not terminal is failed. *)

From stdpp Require Import base numbers list gmap strings.
From Stdlib Require Import ZArith Lia.
From S2P Require Import Prelude RustStd TaskState TaskSpec Policy Event Approval Supervisor.

(** ** One task *)

(** The part of the loop body after the sequence check. *)
Definition recover_kind (state : option TaskState) (pending_failure : bool) (kind : TaskEventKind)
    : Result (option TaskState * bool) EventStoreError :=
  if pending_failure then
    match kind with
    | EvStateTransitioned from to =>
        if bool_decide (state = Some from) && bool_decide (to = Failed)
        then Ok (Some to, false) else Err Corrupt
    | _ => Err Corrupt
    end
  else
    let accept_if (b : bool) := if b then Ok (state, false) else Err Corrupt in
    match kind with
    | EvSubmitted => if bool_decide (state = None) then Ok (Some Submitted, false) else Err Corrupt
    | EvStateTransitioned from to =>
        if bool_decide (state = Some from) && can_transition_to from to
        then Ok (Some to, false) else Err Corrupt
    | EvValidationFailed _ => accept_if (bool_decide (state = Some Validating))
    | EvTaskFailed _ =>
        if match state with Some current => negb (is_terminal current) | None => false end
        then Ok (state, true) else Err Corrupt
    | EvOperationAllowed | EvOperationDenied _ => accept_if (bool_decide (state = Some Running))
    | EvApprovalRequested _ _ => accept_if (bool_decide (state = Some Running))
    | EvApprovalGranted _ _ | EvApprovalDenied _ _ | EvApprovalExpired _ _ =>
        accept_if (bool_decide (state = Some WaitingApproval))
    | EvApprovalRevoked _ _ =>
        accept_if (bool_decide (state = Some Running) || bool_decide (state = Some WaitingApproval))
    | EvApprovalConsumed _ _ => accept_if (bool_decide (state = Some Running))
    end.

Fixpoint recover_loop (events : list TaskEvent) (state : option TaskState) (expected_sequence : Z)
    (pending_failure : bool) : Result (option TaskState * bool) EventStoreError :=
  match events with
  | [] => Ok (state, pending_failure)
  | event :: events' =>
      if negb (sequence event =? expected_sequence) then Err Corrupt
      else
        let? expected := ok_or (checked_add u64_max expected_sequence 1) SequenceExhausted in
        let? (state', pending') := recover_kind state pending_failure (kind event) in
        recover_loop events' state' expected pending'
  end.

Definition recover_snapshot (task_id : TaskId) (events : list TaskEvent)
    : Result TaskSnapshot EventStoreError :=
  let? (state, pending_failure) := recover_loop events None 1 false in
  if pending_failure then Err Corrupt
  else res_map (mk_TaskSnapshot task_id) (ok_or state Corrupt).

(** ** The store *)

Class RecoverableEventStore (S : Type) `{EventStore S} := {
  recover_task_snapshots : S -> Result (list TaskSnapshot) EventStoreError;
}.

(** [for .. .map(..).collect()] into a [Result]: the first error wins. *)
Fixpoint collect {A B E} (f : A -> Result B E) (l : list A) : Result (list B) E :=
  match l with
  | [] => Ok []
  | a :: l' =>
      let? b := f a in
      let? rest := collect f l' in
      Ok (b :: rest)
  end.

(** ** The supervisor *)

Fixpoint insert_recovered (snapshots : list TaskSnapshot) (recovered : gmap TaskId TaskState)
    : Result (gmap TaskId TaskState) EventStoreError :=
  match snapshots with
  | [] => Ok recovered
  | snapshot :: snapshots' =>
      if bool_decide (is_Some (recovered !! snapshot_task_id snapshot)) then Err Corrupt
      else insert_recovered snapshots'
             (<[snapshot_task_id snapshot := snapshot_state snapshot]> recovered)
  end.

Section Recover.
Context `{Env} {S : Type} `{!EventStore S}.

(** The tasks recovery has to fail, in the order of their identifiers. *)
Definition interrupted (recovered : gmap TaskId TaskState) : list (TaskId * TaskState) :=
  filter (fun e => is_terminal e.2 = false) (btree_entries recovered).

Definition fail_interrupted (e : TaskId * TaskState) : M (TaskSupervisor S) SupervisorError unit :=
  do! store_append e.1 [EvTaskFailed RuntimeRestarted; EvStateTransitioned e.2 Failed] in
  modify (fun s => set_recovered (<[e.1 := Failed]> (recovered_tasks s)) s).

(** Running a method on a supervisor under construction; its store is the
    durable one, also after an error. *)
Definition owning {E} (s : TaskSupervisor S) (m : M (TaskSupervisor S) E unit)
    : M S E (TaskSupervisor S) :=
  fun _ w =>
    match m s w with
    | (Return _, s', w') => (Return s', event_store s', w')
    | (Raise e, s', w') => (Raise e, event_store s', w')
    | (Panic, s', w') => (Panic, event_store s', w')
    end.

Definition recover `{!RecoverableEventStore S} (max_tasks : Z)
    : M S SupervisorError (TaskSupervisor S) :=
  if max_tasks =? 0 then throw CapacityExceeded
  else
    let! found := gets recover_task_snapshots in
    let! snapshots := lift (res_map_err EventStoreFailure found) in
    if max_tasks <? len snapshots then throw CapacityExceeded
    else
      let! recovered := lift (res_map_err EventStoreFailure (insert_recovered snapshots ∅)) in
      let! event_store := gets id in
      let! supervisor := lift (with_max_tasks event_store max_tasks) in
      let supervisor := set_recovered recovered supervisor in
      owning supervisor (for_each fail_interrupted (interrupted (recovered_tasks supervisor))).

End Recover.

(** ** Replay *)

Fixpoint replay_from (state : option TaskState) (pending_failure : bool) (kinds : list TaskEventKind)
    : Result (option TaskState * bool) EventStoreError :=
  match kinds with
  | [] => Ok (state, pending_failure)
  | k :: kinds' =>
      let? (state', pending') := recover_kind state pending_failure k in
      replay_from state' pending' kinds'
  end.

(** A log that replays to the state [t]. *)
Definition replays (kinds : list TaskEventKind) (t : TaskState) : Prop :=
  replay_from None false kinds = Ok (Some t, false).

Lemma replay_from_app st pf ks1 ks2 :
  replay_from st pf (ks1 ++ ks2) =
  let? (st', pf') := replay_from st pf ks1 in replay_from st' pf' ks2.
Proof.
  revert st pf. induction ks1 as [|k ks1 IH]; intros st pf; simpl; [done|].
  destruct (recover_kind st pf k) as [[st' pf']|]; simpl; [apply IH | done].
Qed.

Lemma replays_app ks1 ks2 t u :
  replays ks1 t -> replay_from (Some t) false ks2 = Ok (Some u, false) -> replays (ks1 ++ ks2) u.
Proof. unfold replays. intros H1 H2. rewrite replay_from_app, H1. done. Qed.

Lemma recover_loop_replay evs st n pf :
  contiguous_from n evs -> n + len evs <= u64_max ->
  recover_loop evs st n pf = replay_from st pf (kind <$> evs).
Proof.
  revert st n pf. induction evs as [|e evs IH]; intros st n pf Hc Hb; simpl; [done|].
  destruct Hc as [He Hc]. rewrite He, Z.eqb_refl. simpl.
  unfold len in Hb. simpl length in Hb. unfold checked_add.
  rewrite (proj2 (Z.leb_le _ _)) by lia. simpl.
  destruct (recover_kind st pf (kind e)) as [[st' pf']|]; simpl; [|done].
  apply IH; [done | unfold len; lia].
Qed.

Lemma recover_snapshot_replays tid evs t :
  contiguous_from 1 evs -> len evs < u64_max -> replays (kind <$> evs) t ->
  recover_snapshot tid evs = Ok (mk_TaskSnapshot tid t).
Proof.
  intros Hc Hb Hr. unfold recover_snapshot. rewrite recover_loop_replay by (done || lia).
  by rewrite Hr.
Qed.

(** Replaying one accepted transition, alone or after its cause. *)
Lemma replay_transition s t :
  lifecycle_step s t -> replay_from (Some s) false [EvStateTransitioned s t] = Ok (Some t, false).
Proof.
  intros Hst%can_transition_to_step. simpl. by rewrite bool_decide_eq_true_2, Hst by done.
Qed.

Lemma replay_failure s c :
  is_terminal s = false ->
  replay_from (Some s) false [EvTaskFailed c; EvStateTransitioned s Failed] = Ok (Some Failed, false).
Proof. intros Hs. simpl. rewrite Hs. simpl. by rewrite bool_decide_eq_true_2 by done. Qed.

(** Revocations do not move a running or waiting task. *)
Lemma replay_revocations s ks :
  s = Running \/ s = WaitingApproval ->
  Forall (fun k => exists a o, k = EvApprovalRevoked a o) ks ->
  replay_from (Some s) false ks = Ok (Some s, false).
Proof.
  intros Hs. induction 1 as [|k ks (a & o & ->) _ IH]; [done|].
  destruct Hs as [->| ->]; exact IH.
Qed.

(** Every accepted log is a lifecycle path: replay only moves along the
    transition table, or from a non-terminal state to failure. *)
Inductive audit_step : TaskState -> TaskState -> Prop :=
| audit_lifecycle s t : lifecycle_step s t -> audit_step s t
| audit_failure s : is_terminal s = false -> audit_step s Failed.

Lemma recover_kind_step s pf k st' pf' :
  recover_kind (Some s) pf k = Ok (st', pf') -> (pf = true -> is_terminal s = false) ->
  exists s', st' = Some s' /\ (s' = s \/ audit_step s s')
    /\ (pf' = true -> is_terminal s' = false).
Proof.
  intros Hk Hpf. unfold recover_kind in Hk. destruct pf.
  - destruct k as [|from to| | | | | | | | | |]; try done.
    destruct (bool_decide (Some s = Some from) && bool_decide (to = Failed)) eqn:E; [|done].
    simplify_eq. apply Bool.andb_true_iff in E as [_ E]. apply bool_decide_eq_true in E as ->.
    eexists. split_and!; [done | right; by constructor 2; auto | done].
  - destruct k; simpl in Hk; repeat case_match; simplify_eq; eexists; split_and!; eauto; try done.
    + rewrite Bool.andb_true_iff, bool_decide_eq_true in *.
      match goal with Hx : _ /\ _ |- _ => destruct Hx as [[= <-] Ht] end.
      right. constructor. by apply can_transition_to_step.
    + intros _. match goal with Hx : negb _ = true |- _ => by apply Bool.negb_true_iff in Hx end.
Qed.

Lemma replay_from_path ks s pf t :
  replay_from (Some s) pf ks = Ok (Some t, false) -> (pf = true -> is_terminal s = false) ->
  rtc audit_step s t.
Proof.
  revert s pf. induction ks as [|k ks IH]; intros s pf Hr Hpf; simpl in Hr.
  - simplify_eq. apply rtc_refl.
  - destruct (recover_kind (Some s) pf k) as [[st' pf']|] eqn:Hk; [|done]. simpl in Hr.
    apply recover_kind_step in Hk as (s' & -> & Hs & Hpf'); [|done].
    apply IH in Hr; [|done]. destruct Hs as [->|Hs]; [done | by eapply rtc_l].
Qed.

Lemma recover_loop_Ok_contiguous evs st n pf r :
  recover_loop evs st n pf = Ok r ->
  contiguous_from n evs /\ replay_from st pf (kind <$> evs) = Ok r.
Proof.
  revert st n pf. induction evs as [|e evs IH]; intros st n pf Hr; simpl in *; [done|].
  destruct (Z.eqb_spec (sequence e) n) as [He|]; [|done]. simpl in Hr. unfold checked_add in Hr.
  destruct (n + 1 <=? u64_max); [|done]. simpl in Hr.
  destruct (recover_kind st pf (kind e)) as [[st' pf']|]; simpl in *; [|done].
  apply IH in Hr as [Hc Hr]. done.
Qed.

Lemma insert_recovered_Ok snaps m m' :
  insert_recovered snaps m = Ok m' ->
  (forall t st, m' !! t = Some st <-> m !! t = Some st \/ mk_TaskSnapshot t st ∈ snaps)
  /\ NoDup (snapshot_task_id <$> snaps)
  /\ Forall (fun q => m !! snapshot_task_id q = None) snaps.
Proof.
  revert m. induction snaps as [|[t0 s0] snaps IH]; intros m Hm; simpl in Hm.
  - simplify_eq. split_and!; [|constructor..]. intros t st. set_solver.
  - case_bool_decide as Hs; [done|]. apply eq_None_not_Some in Hs. simpl in *.
    apply IH in Hm as (Hm & Hnd & Hout). rewrite Forall_forall in Hout. split_and!.
    + intros t st. rewrite Hm, lookup_insert, elem_of_cons. case_decide; subst; [|naive_solver].
      split; [naive_solver congruence|]. intros [?|[?|?]]; [congruence | left; congruence | auto].
    + constructor; [|done]. rewrite list_elem_of_fmap. intros (q & Ht & Hin).
      apply Hout in Hin. rewrite <-Ht, lookup_insert_eq in Hin. done.
    + constructor; [done|]. apply Forall_forall. intros q Hin. specialize (Hout q Hin).
      rewrite lookup_insert in Hout. by case_decide.
Qed.

Lemma insert_recovered_NoDup snaps m :
  NoDup (snapshot_task_id <$> snaps) -> Forall (fun q => m !! snapshot_task_id q = None) snaps ->
  exists m', insert_recovered snaps m = Ok m'.
Proof.
  revert m. induction snaps as [|q snaps IH]; intros m Hnd Hout; simpl; [eauto|].
  apply Forall_cons in Hout as [Hq Hout]. apply NoDup_cons in Hnd as [Hq' Hnd].
  rewrite bool_decide_eq_false_2 by (by rewrite Hq; intros [? ?]). apply IH; [done|].
  rewrite Forall_forall in *. intros q' Hin. rewrite lookup_insert_ne; [by apply Hout|].
  intros E. apply Hq'. rewrite E. by apply list_elem_of_fmap_2.
Qed.

Lemma insert_recovered_len snaps m m' :
  insert_recovered snaps m = Ok m' -> btree_len m' = btree_len m + len snaps.
Proof.
  revert m. induction snaps as [|q snaps IH]; intros m Hm; simpl in Hm.
  - simplify_eq. unfold len. simpl. lia.
  - case_bool_decide as Hs; [done|]. apply eq_None_not_Some in Hs. apply IH in Hm as ->.
    rewrite btree_len_insert_fresh by done. unfold len. simpl length. lia.
Qed.

Lemma collect_Ok {A B E} (f : A -> Result B E) l r :
  collect f l = Ok r <-> Forall2 (fun a b => f a = Ok b) l r.
Proof.
  revert r. induction l as [|a l IH]; intros r; simpl.
  - split; [by intros [= <-]; constructor | by inversion 1].
  - destruct (f a) as [b|e] eqn:Hf; simpl.
    + destruct (collect f l) as [k|e] eqn:Hk; simpl.
      * split; [intros [= <-]; constructor; [done | by apply IH]|].
        inversion 1 as [|? ? ? ? Hb Hl]; subst. apply IH in Hl. congruence.
      * split; [done|]. inversion 1 as [|? ? ? ? Hb Hl]; subst. apply IH in Hl. congruence.
    + split; [done|]. inversion 1; subst. congruence.
Qed.
