(* ===== verification/SupervisorInv.v ===== *)
(** * The supervisor's invariant

    Three groups of facts: what the log says of each task, what the task table
    and its indexes satisfy, and how pending and approved operations are tied to
    tasks and to the approval authority.  Each pure update of the supervisor has
    a lemma that keeps its group. *)

From stdpp Require Import base numbers list gmap strings.
From Stdlib Require Import ZArith Lia.
From S2P Require Import Prelude RustStd TaskState TaskSpec Policy Event Approval Supervisor Recovery.

Lemma as_borrowed_from_borrowed r : as_borrowed (from_borrowed r) = r.
Proof. by destruct r. Qed.

Lemma owned_action_request o : owned_action o = request_action (as_borrowed o).
Proof. by destruct o as [p []| |]. Qed.

(** The decision a stored operation was admitted with. *)
Definition needs_grant (r : TaskRecord) (request : OwnedCapabilityRequest) : Prop :=
  evaluate (mk_CapabilityPolicy (spec r)) (as_borrowed request) = ApprovalRequired.

Section Invariant.
Context `{EnvLaws} {S : Type} `{EventStoreLaws S}.

(** [strict] is true of runs in which [start] is not called on a task that
    waits for an approval. *)
Variable strict : bool.

(** ** The log *)

Record log_inv (es : S) (st : TaskId -> option TaskState) (w : World) : Prop := {
  li_store : store_wf es;
  li_known : forall t, store_log es t <> [] -> unminted w (task_uuid t);
  li_replays : strict = true -> forall t q, st t = Some q -> replays (kind <$> store_log es t) q;
  li_listed : forall t, store_log es t <> [] -> is_Some (st t);
}.

Definition same_logs (es es' : S) : Prop := forall t, store_log es' t = store_log es t.

Record extends (es : S) (t : TaskId) (ks : list TaskEventKind) (es' : S) : Prop := {
  ex_log : exists evs, store_log es' t = store_log es t ++ evs /\ (kind <$> evs) = ks;
  ex_other : forall u, u <> t -> store_log es' u = store_log es u;
}.

Lemma log_inv_same es es' st w w' :
  log_inv es st w -> store_wf es' -> same_logs es es' -> world_le w w' -> log_inv es' st w'.
Proof.
  intros [Hs Hk Hr Hn] Hs' Hl Hw. split; [done | | |].
  - intros t. rewrite Hl. eauto with worlds.
  - intros Hstrict t q. rewrite Hl. by apply Hr.
  - intros t. rewrite Hl. apply Hn.
Qed.

Lemma log_inv_append es es' st st' t ks q w w' :
  log_inv es st w -> store_wf es' -> extends es t ks es' -> world_le w w' ->
  unminted w' (task_uuid t) -> (forall u, u <> t -> st' u = st u) -> st' t = Some q ->
  (strict = true -> replays (kind <$> store_log es' t) q) ->
  log_inv es' st' w'.
Proof.
  intros [Hs Hk Hr Hn] Hs' [_ Ho] Hw Ht Hst Hq Hrep. split; [done | | |].
  - intros u Hu. destruct (decide (u = t)) as [->|Hne]; [done|].
    rewrite Ho in Hu by done. eauto with worlds.
  - intros Hstrict u p Hp. destruct (decide (u = t)) as [->|Hne].
    + rewrite Hq in Hp. simplify_eq. by apply Hrep.
    + rewrite Ho by done. rewrite Hst in Hp by done. by apply Hr.
  - intros u Hu. destruct (decide (u = t)) as [->|Hne]; [by rewrite Hq|].
    rewrite Ho in Hu by done. rewrite Hst by done. by apply Hn.
Qed.

(** An append that moves task [t] on from what its log said. *)
Lemma log_inv_move es es' st st' t ks p q w w' :
  log_inv es st w -> store_wf es' -> extends es t ks es' -> world_le w w' ->
  unminted w (task_uuid t) -> st t = Some p ->
  (forall u, st' u = if decide (u = t) then Some q else st u) ->
  (strict = true -> replay_from (Some p) false ks = Ok (Some q, false)) ->
  log_inv es' st' w'.
Proof.
  intros Hl Hs' Hex Hw Ht Hp Hst Hrep. eapply log_inv_append; eauto with worlds.
  - intros u Hu. by rewrite Hst, decide_False.
  - by rewrite Hst, decide_True.
  - intros Hstrict. destruct (ex_log _ _ _ _ Hex) as (evs & -> & <-). rewrite fmap_app.
    eapply replays_app; [by apply (li_replays _ _ _ Hl) | by apply Hrep].
Qed.

(** ** The task table *)

Record record_ok (r : TaskRecord) : Prop := {
  ro_state : state r <> Submitted /\ state r <> Validating;
  ro_valid : state r <> Rejected -> validate (spec r) = Ok tt;
  ro_rejected : state r = Rejected -> validate (spec r) <> Ok tt;
  ro_started : state r = Running \/ state r = WaitingApproval -> is_Some (started_at r);
  ro_queued : state r = Queued -> started_at r = None;
}.

Record table_inv (s : TaskSupervisor S) (w : World) : Prop := {
  ti_record : forall t r, tasks s !! t = Some r -> record_ok r;
  ti_fresh : forall t q, task_state s t = Some q -> unminted w (task_uuid t);
  ti_recovered : forall t q, recovered_tasks s !! t = Some q ->
    is_terminal q = true /\ tasks s !! t = None;
  ti_index : forall k t, idempotency_index s !! k = Some t <->
    exists r, tasks s !! t = Some r /\ idempotency_key (spec r) = k;
  ti_capacity : btree_len (tasks s) + btree_len (recovered_tasks s) <= max_tasks s;
  ti_limit : 0 < max_tasks s <= usize_max;
}.

Lemma task_state_update (s s' : TaskSupervisor S) t r u :
  tasks s' = <[t := r]> (tasks s) -> recovered_tasks s' = recovered_tasks s ->
  task_state s' u = if decide (u = t) then Some (state r) else task_state s u.
Proof.
  intros Ht Hr. unfold task_state. rewrite Ht, Hr, lookup_insert.
  destruct (decide (t = u)) as [->|]; [by rewrite decide_True | by rewrite decide_False].
Qed.

Lemma btree_len_insert_update {K V} `{Countable K} (m : gmap K V) k v :
  is_Some (m !! k) -> btree_len (<[k := v]> m) = btree_len m.
Proof. intros Hk. unfold btree_len. by rewrite map_size_insert_Some. Qed.

(** Two supervisors with the same table. *)
Record same_table (s s' : TaskSupervisor S) : Prop := {
  st_tasks : tasks s' = tasks s;
  st_recovered : recovered_tasks s' = recovered_tasks s;
  st_index : idempotency_index s' = idempotency_index s;
  st_max : max_tasks s' = max_tasks s;
}.

Lemma table_inv_same s s' w w' :
  table_inv s w -> same_table s s' -> world_le w w' -> table_inv s' w'.
Proof.
  intros [Hr Hf Hrec Hi Hc Hl] [Et Er Ei Em] Hw.
  split; rewrite ?Et, ?Er, ?Ei, ?Em; try done.
  intros t q. unfold task_state. rewrite Et, Er. intros Hq. eauto with worlds.
Qed.

(** Replacing the record of a task. *)
Lemma table_inv_update s t r r' w :
  table_inv s w -> tasks s !! t = Some r -> spec r' = spec r -> record_ok r' ->
  table_inv (set_tasks (<[t := r']> (tasks s)) s) w.
Proof.
  intros [Hr Hf Hrec Hi Hc Hl] Ht Hspec Hok. split; simpl; try done.
  - intros u q Hq. rewrite lookup_insert in Hq. case_decide; [by simplify_eq | eauto].
  - intros u q Hq. rewrite (task_state_update s _ t r') in Hq by done. case_decide; [subst | eauto].
    apply (Hf t (state r)). unfold task_state. by rewrite Ht.
  - intros u q Hq. destruct (Hrec u q Hq) as [? Hnone]. split; [done|].
    rewrite lookup_insert_ne; [done|]. congruence.
  - intros k u. rewrite Hi. split; intros (q & Hq & Hk).
    + destruct (decide (t = u)) as [<-|Hne].
      * exists r'. rewrite lookup_insert_eq. split; [done|]. congruence.
      * exists q. by rewrite lookup_insert_ne.
    + rewrite lookup_insert in Hq. case_decide; [|eauto]. simplify_eq. exists r. split; [done|].
      congruence.
  - rewrite btree_len_insert_update by eauto. done.
Qed.

(** ** Operations waiting for or holding a grant *)

Definition pending_ok (s : TaskSupervisor S) (id : ApprovalId) (po : PendingOperation) : Prop :=
  exists r deadline,
    tasks s !! po_task_id po = Some r
    /\ (state r = WaitingApproval \/ strict = false /\ state r = Running)
    /\ needs_grant r (po_request po)
    /\ pending (approval_authority s) !! id
        = Some (mk_PendingApproval (po_task_id po) (po_operation_id po)
                  (owned_action (po_request po)) deadline).

Definition approved_ok (s : TaskSupervisor S) (o : OperationId) (ao : ApprovedOperation) : Prop :=
  exists r, tasks s !! ao_task_id ao = Some r /\ state r <> Queued /\ needs_grant r (ao_request ao)
    /\ grant_task_id (ao_grant ao) = ao_task_id ao /\ grant_operation_id (ao_grant ao) = o
    /\ grant_action (ao_grant ao) = owned_action (ao_request ao).

Record ops_inv (s : TaskSupervisor S) (w : World) : Prop := {
  oi_authority : authority_wf (approval_authority s);
  oi_fresh : authority_fresh (approval_authority s) w;
  oi_pending : forall id po, pending_operations s !! id = Some po -> pending_ok s id po;
  oi_listed : forall id pa, pending (approval_authority s) !! id = Some pa ->
    is_Some (pending_operations s !! id);
  oi_waiting : forall t r, tasks s !! t = Some r -> state r = WaitingApproval ->
    exists id po, pending_operations s !! id = Some po /\ po_task_id po = t;
  oi_one : forall id1 id2 po1 po2,
    pending_operations s !! id1 = Some po1 -> pending_operations s !! id2 = Some po2 ->
    po_task_id po1 = po_task_id po2 \/ po_operation_id po1 = po_operation_id po2 -> id1 = id2;
  oi_op_fresh : forall id po, pending_operations s !! id = Some po ->
    unminted w (operation_uuid (po_operation_id po))
    /\ approved_operations s !! po_operation_id po = None;
  oi_approved : forall o ao, approved_operations s !! o = Some ao ->
    approved_ok s o ao /\ unminted w (operation_uuid o);
}.

(** Updates that forget operations: what is left of the pending operations
    keeps its authority entry, specifications do not change, and a task whose
    state changes neither waits nor has a pending operation left. *)
Record shrinks (s s' : TaskSupervisor S) : Prop := {
  sh_authority : authority_wf (approval_authority s');
  sh_pending : forall id po, pending_operations s' !! id = Some po ->
    pending_operations s !! id = Some po
    /\ pending (approval_authority s') !! id = pending (approval_authority s) !! id;
  sh_listed : forall id pa, pending (approval_authority s') !! id = Some pa ->
    pending (approval_authority s) !! id = Some pa
    /\ (is_Some (pending_operations s !! id) -> is_Some (pending_operations s' !! id));
  sh_approved : forall o ao, approved_operations s' !! o = Some ao ->
    approved_operations s !! o = Some ao;
  sh_tasks : forall t r, tasks s !! t = Some r ->
    exists r', tasks s' !! t = Some r' /\ spec r' = spec r
      /\ (state r' = state r /\ (forall id po, pending_operations s !! id = Some po ->
            po_task_id po = t -> pending_operations s' !! id = Some po)
          \/ state r' <> WaitingApproval /\ state r' <> Queued
             /\ (forall id po, pending_operations s' !! id = Some po -> po_task_id po = t ->
                   strict = false /\ state r' = Running));
  sh_no_new : forall t, tasks s !! t = None -> tasks s' !! t = None;
}.

Lemma ops_inv_shrink s s' w w' :
  ops_inv s w -> shrinks s s' -> world_le w w' -> ops_inv s' w'.
Proof.
  intros [Ha Hf Hp Hl Hwt Hone Hof Hap] [Ha' Hp' Hl' Hap' Ht Hn] Hw. split.
  - done.
  - eapply authority_fresh_mono; [done|]. eapply authority_fresh_sub; [|done].
    intros id pa Hpa. by apply Hl'.
  - intros id po Hpo. destruct (Hp' id po Hpo) as [Hold Hsame].
    destruct (Hp id po Hold) as (r & d & Hr & Hst & Hng & Hpa).
    destruct (Ht _ _ Hr) as (r' & Hr' & Hspec & Hcase). exists r', d.
    split_and!; [done | | by unfold needs_grant; rewrite Hspec | by rewrite Hsame].
    destruct Hcase as [[-> _]|(_ & _ & Hno)]; [done | right; eauto].
  - intros id pa Hpa. destruct (Hl' id pa Hpa) as [Hold Hkeep]. eauto.
  - intros t r' Hr' Hst. destruct (tasks s !! t) as [r|] eqn:Hr; [|by rewrite (Hn t Hr) in Hr'].
    destruct (Ht t r Hr) as (r'' & Hr'' & _ & Hcase). simplify_eq.
    destruct Hcase as [[E Hkeep]|[? _]]; [|done].
    destruct (Hwt t r Hr) as (id & po & Hpo & Hpt); [congruence|]. eauto.
  - intros id1 id2 po1 po2 Hpo1 Hpo2. apply Hp' in Hpo1 as [? _], Hpo2 as [? _]. eauto.
  - intros id po Hpo. apply Hp' in Hpo as [Hpo _]. destruct (Hof id po Hpo) as [Hu Hnone].
    split; [eauto with worlds|]. destruct (approved_operations s' !! _) eqn:E; [|done].
    apply Hap' in E. congruence.
  - intros o ao Hao. apply Hap' in Hao. destruct (Hap o ao Hao) as [(r & Hr & Hnq & Hng & ? & ? & ?) Hu].
    split; [|eauto with worlds]. destruct (Ht _ _ Hr) as (r' & Hr' & Hspec & Hcase).
    exists r'. split_and!; try done; [|by unfold needs_grant; rewrite Hspec].
    destruct Hcase as [[-> _]|(_ & ? & _)]; done.
Qed.

Lemma minted_next w i j k : (uuids_minted w <= k)%nat ->
  ~ unminted w (uuid_at k) /\ unminted (mk_World i j (Datatypes.S k)) (uuid_at k).
Proof.
  intros Hk. split; [intros Hu; by apply (Hu k)|].
  intros n Hn E. apply uuid_unique in E. simpl in Hn. lia.
Qed.

(** A new pending operation, its authority entry and the waiting task. *)
Definition suspend (t : TaskId) (r : TaskRecord) (id : ApprovalId) (o : OperationId)
    (req : OwnedCapabilityRequest) (deadline : Z) (s : TaskSupervisor S) : TaskSupervisor S :=
  set_tasks (<[t := with_state WaitingApproval r]> (tasks s))
    (set_pending (<[id := mk_PendingOperation t o req]> (pending_operations s))
      (set_authority (authority_insert id (mk_PendingApproval t o (owned_action req) deadline)
         (approval_authority s)) s)).

Lemma ops_inv_suspend s t r id o req d w w' :
  ops_inv s w -> world_le w w' -> tasks s !! t = Some r -> needs_grant r req ->
  (forall id' po, pending_operations s !! id' = Some po -> po_task_id po <> t) ->
  authority_wf (approval_authority (suspend t r id o req d s)) ->
  ~ unminted w (approval_uuid id) -> unminted w' (approval_uuid id) ->
  ~ unminted w (operation_uuid o) -> unminted w' (operation_uuid o) ->
  ops_inv (suspend t r id o req d s) w'.
Proof.
  intros [Ha Hf Hp Hl Hwt Hone Hof Hap] Hw Ht Hng Hno Ha' Hid Hid' Ho Ho'.
  assert (Hpid : pending_operations s !! id = None).
  { destruct (pending_operations s !! id) as [po|] eqn:E; [|done].
    destruct (Hp _ _ E) as (? & ? & _ & _ & _ & Hpa). by apply Hf in Hpa. }
  split; simpl.
  - done.
  - intros id' pa Hpa. simpl in Hpa. rewrite lookup_insert in Hpa.
    case_decide; [by subst | eauto with worlds].
  - intros id' po Hpo. rewrite lookup_insert in Hpo. case_decide.
    + simplify_eq. exists (with_state WaitingApproval r), d. simpl. rewrite !lookup_insert_eq. auto.
    + destruct (Hp id' po Hpo) as (r' & d' & Hr' & ?). exists r', d'. simpl.
      rewrite !lookup_insert_ne; [done..|]; intros E; by eapply Hno.
  - intros id' pa Hpa. rewrite lookup_insert in Hpa. rewrite lookup_insert. case_decide; [by eexists | eauto].
  - intros t' r' Hr' Hst. rewrite lookup_insert in Hr'. case_decide.
    + simplify_eq. exists id. rewrite lookup_insert_eq. eauto.
    + destruct (Hwt t' r' Hr' Hst) as (id' & po & Hpo & ?). exists id', po.
      rewrite lookup_insert_ne; [done|]. congruence.
  - intros id1 id2 po1 po2. rewrite !lookup_insert. repeat case_decide; subst; [done | | |eauto].
    + intros [= <-] Hpo2 [E|E]; simpl in E; [exfalso; eapply Hno; eauto|]. subst. by apply Hof in Hpo2 as [? _].
    + intros Hpo1 [= <-] [E|E]; simpl in E; [exfalso; eapply Hno; eauto|]. subst. by apply Hof in Hpo1 as [? _].
  - intros id' po Hpo. rewrite lookup_insert in Hpo. case_decide; simplify_eq; simpl.
    + split; [done|]. destruct (approved_operations s !! o) eqn:E; [|done]. by apply Hap in E as [_ ?].
    + destruct (Hof id' po Hpo). eauto with worlds.
  - intros o' ao Hao. destruct (Hap o' ao Hao) as [(r' & Hr' & Hnq & Hng' & ?) ?].
    split; [|eauto with worlds]. unfold approved_ok. simpl. rewrite lookup_insert. case_decide; [|eauto].
    simplify_eq. exists (with_state WaitingApproval r). auto.
Qed.

(** A grant obtained for an operation that is not pending any more. *)
Lemma ops_inv_insert_approved s o ao w :
  ops_inv s w -> approved_ok s o ao -> unminted w (operation_uuid o) ->
  (forall id po, pending_operations s !! id = Some po -> po_operation_id po <> o) ->
  ops_inv (set_approved (<[o := ao]> (approved_operations s)) s) w.
Proof.
  intros [Ha Hf Hp Hl Hwt Hone Hof Hap] Hok Hu Hno. split; simpl; try done.
  - intros id po Hpo. destruct (Hof id po Hpo) as [? Hnone]. split; [done|].
    rewrite lookup_insert_ne; [done|]. intros E. by eapply Hno.
  - intros o' ao' Hao. rewrite lookup_insert in Hao. case_decide; [by simplify_eq | by apply Hap].
Qed.

(** A new task that does not wait. *)
Lemma ops_inv_new_task s t r w w' :
  ops_inv s w -> world_le w w' -> tasks s !! t = None -> state r <> WaitingApproval ->
  ops_inv (set_tasks (<[t := r]> (tasks s)) s) w'.
Proof.
  intros [Ha Hf Hp Hl Hwt Hone Hof Hap] Hw Ht Hst.
  assert (Hkeep : forall u q, tasks s !! u = Some q -> <[t := r]> (tasks s) !! u = Some q)
    by (intros u q Hq; rewrite lookup_insert_ne; [done | congruence]).
  split; simpl; try done.
  - by eapply authority_fresh_mono.
  - intros id po Hpo. destruct (Hp id po Hpo) as (q & d & Hq & ?). exists q, d. eauto.
  - intros u q Hq Hwait. rewrite lookup_insert in Hq. case_decide; [congruence | eauto].
  - intros id po Hpo. destruct (Hof id po Hpo). eauto with worlds.
  - intros o ao Hao. destruct (Hap o ao Hao) as [(q & Hq & ?) ?]. split; [|eauto with worlds].
    exists q. eauto.
Qed.

(** ** The audit trail of operations *)

Definition logged (es : S) (t : TaskId) (k : TaskEventKind) : Prop := k ∈ kind <$> store_log es t.

(** Every pending operation was requested, and every approved one requested and
    granted, on the record. *)
Record audit_inv (es : S) (s : TaskSupervisor S) : Prop := {
  au_pending : forall id po, pending_operations s !! id = Some po ->
    logged es (po_task_id po) (EvApprovalRequested id (po_operation_id po));
  au_approved : forall o ao, approved_operations s !! o = Some ao ->
    logged es (ao_task_id ao) (EvApprovalRequested (grant_approval_id (ao_grant ao)) o)
    /\ logged es (ao_task_id ao) (EvApprovalGranted (grant_approval_id (ao_grant ao)) o);
}.

(** Logs only grow. *)
Definition grows (es es' : S) : Prop := forall t, store_log es t `prefix_of` store_log es' t.

Lemma extends_grows es t ks es' : extends es t ks es' -> grows es es'.
Proof.
  intros [(evs & He & _) Ho] u. destruct (decide (u = t)) as [->|Hne]; [rewrite He; by apply prefix_app_r|].
  by rewrite Ho.
Qed.

Lemma same_logs_grows es es' : same_logs es es' -> grows es es'.
Proof. intros Hs t. by rewrite Hs. Qed.

Lemma logged_grows es es' t k : grows es es' -> logged es t k -> logged es' t k.
Proof.
  unfold logged. intros Hg. destruct (Hg t) as [evs ->]. rewrite fmap_app. set_solver.
Qed.

Lemma extends_logged es t ks es' k : extends es t ks es' -> k ∈ ks -> logged es' t k.
Proof. intros [(evs & He & <-) _] Hk. unfold logged. rewrite He, fmap_app. set_solver. Qed.

Lemma audit_inv_grows es es' s s' :
  audit_inv es s -> grows es es' ->
  (forall id po, pending_operations s' !! id = Some po -> pending_operations s !! id = Some po) ->
  (forall o ao, approved_operations s' !! o = Some ao -> approved_operations s !! o = Some ao) ->
  audit_inv es' s'.
Proof.
  intros [Hp Ha] Hg Hp' Ha'. split.
  - intros id po Hpo. eapply logged_grows; eauto.
  - intros o ao Hao. destruct (Ha o ao); [by apply Ha'|]. split; by eapply logged_grows.
Qed.

Lemma audit_inv_shrinks es es' s s' :
  audit_inv es s -> grows es es' -> shrinks s s' -> audit_inv es' s'.
Proof.
  intros Hau Hg Hs. eapply audit_inv_grows; [done | done | |]; [|apply Hs].
  intros id po Hpo. by apply (sh_pending _ _ Hs).
Qed.

(** ** The whole invariant *)

Record sup_inv (s : TaskSupervisor S) (w : World) : Prop := {
  si_log : log_inv (event_store s) (task_state s) w;
  si_table : table_inv s w;
  si_ops : ops_inv s w;
  si_audit : audit_inv (event_store s) s;
}.

(** What an operation that reports an error leaves: everything as it was, the
    logs included. *)
Record unchanged (s s' : TaskSupervisor S) : Prop := {
  un_state : s' = set_event_store (event_store s') s;
  un_logs : same_logs (event_store s) (event_store s');
}.

Lemma unchanged_refl s : unchanged s s.
Proof. split; [by destruct s | done]. Qed.

Lemma shrinks_refl s s' :
  authority_wf (approval_authority s) -> tasks s' = tasks s ->
  approval_authority s' = approval_authority s -> pending_operations s' = pending_operations s ->
  approved_operations s' ⊆ approved_operations s -> shrinks s s'.
Proof.
  intros Ha Ht Hau Hp Hap.
  split; rewrite ?Ht, ?Hau, ?Hp; try done.
  - intros o ao Hao. by eapply lookup_weaken.
  - intros t r Hr. exists r. split_and!; [done..|]. by left.
Qed.

Lemma sup_inv_unchanged s s' w w' :
  sup_inv s w -> unchanged s s' -> store_wf (event_store s') -> world_le w w' -> sup_inv s' w'.
Proof.
  intros [Hl Ht Ho Hau] [Hs Hlog] Hwf Hw. rewrite Hs. split.
  - by eapply log_inv_same.
  - by eapply table_inv_same.
  - eapply ops_inv_shrink; [done | | done]. by apply shrinks_refl; [apply Ho | ..].
  - by eapply audit_inv_grows; [done | apply same_logs_grows | |].
Qed.

Lemma sup_inv_world s w w' : sup_inv s w -> world_le w w' -> sup_inv s w'.
Proof.
  intros Hi Hw. eapply sup_inv_unchanged; [done | apply unchanged_refl | apply Hi | done].
Qed.

End Invariant.
