(* ===== verification/SupervisorFacts.v ===== *)
(** * The supervisor's operations keep its invariant

    For every operation: its exact effect on success, what an error leaves
    behind, and that it never panics. *)

From stdpp Require Import base numbers list gmap strings.
From Stdlib Require Import ZArith Lia.
From S2P Require Import Prelude RustStd TaskState TaskSpec Policy Event Approval Supervisor Recovery.
From S2P Require Import SupervisorInv.

(** The first two parts of a postcondition, when they are hypotheses. *)
Ltac post := split; [done|]; split; [done|].

Section Facts.
Context `{EnvLaws} {S : Type} `{EventStoreLaws S}.
Variable strict : bool.
Implicit Types s : TaskSupervisor S.

(** ** Building blocks *)

Lemma wp_store_append t ks s w Q :
  store_wf (event_store s) ->
  (forall es' evs w', store_wf es' -> world_le w w' -> extends (event_store s) t ks es' ->
     Q (Return evs) (set_event_store es' s) w') ->
  (forall es' e w', store_wf es' -> world_le w w' -> same_logs (event_store s) es' ->
     Q (Raise (EventStoreFailure e)) (set_event_store es' s) w') ->
  wp (store_append t ks) Q s w.
Proof.
  intros Hwf Hok Herr. unfold store_append. wp_step. wp_step.
  eapply wp_mono; [by apply append_batch_spec|].
  intros [evs|e|] es' w' (Hwf' & Hw & Hr); [| | done].
  - destruct Hr as (Hk & Hlog & Ho). apply Hok; [done..|]. split; [eauto | done].
  - by apply Herr.
Qed.

Lemma wp_get_task t s w Q :
  match tasks s !! t with
  | Some r => Q (Return r) s w
  | None => Q (Raise TaskNotFound) s w
  end -> wp (get_task t) Q s w.
Proof. intros HQ. unfold get_task. wp_steps; done. Qed.

Lemma wp_update_task t f r s w (Q : outcome unit SupervisorError -> _ -> _ -> Prop) :
  tasks s !! t = Some r -> Q (Return tt) (set_tasks (<[t := f r]> (tasks s)) s) w ->
  wp (update_task t f) Q s w.
Proof. intros Hr HQ. unfold update_task. wp_step. apply wp_get_task. rewrite Hr. by wp_steps. Qed.

Lemma wp_propose c n s w (Q : outcome unit SupervisorError -> _ -> _ -> Prop) :
  (lifecycle_step c n -> Q (Return tt) s w) ->
  (~ lifecycle_step c n -> Q (Raise (InvalidStateTransition (mk_StateTransitionError c n))) s w) ->
  wp (propose c n) Q s w.
Proof.
  intros Hok Herr. unfold propose, transition_to. rewrite <-can_transition_to_step in Hok, Herr.
  destruct (can_transition_to c n) eqn:E; simpl; wp_steps; [by apply Hok | by apply Herr].
Qed.

Lemma wp_drop_all ids s w :
  authority_wf (approval_authority s) ->
  wp (for_each (fun id =>
        do! modify (fun s => set_authority (revoke id (approval_authority s)) s) in
        modify (fun s => set_pending (delete id (pending_operations s)) s)) ids)
    (fun (r : outcome unit SupervisorError) s' w' => r = Return tt /\ w' = w /\
      exists a' p', s' = set_pending p' (set_authority a' s) /\ authority_wf a'
        /\ (forall id, p' !! id = if decide (id ∈ ids) then None else pending_operations s !! id)
        /\ (forall id, pending a' !! id =
             if decide (id ∈ ids) then None else pending (approval_authority s) !! id)) s w.
Proof.
  revert s. induction ids as [|i ids IH]; intros s Hwf; simpl.
  - wp_steps. split_and!; [done..|]. exists (approval_authority s), (pending_operations s).
    split; [by destruct s|]. by split_and!.
  - wp_steps. eapply wp_mono; [by apply IH, revoke_wf|].
    intros r s' w' (-> & -> & a' & p' & -> & Hwf' & Hp & Ha). split_and!; [done..|].
    exists a', p'. split_and!; [done | done | |]; intros id; rewrite ?Hp, ?Ha; simpl;
      rewrite ?revoke_pending, lookup_delete; repeat case_decide; set_solver.
Qed.

(** The kinds of events a transition appends. *)
Definition transition_events s t (cur next : TaskState) (failure : option ErrorCode)
    : list TaskEventKind :=
  (if is_terminal next then revocation_events s t else [])
  ++ match failure with Some code => [EvTaskFailed code] | None => [] end
  ++ [EvStateTransitioned cur next].

(** What a transition to a terminal state leaves of the operations. *)
Record revoked s t s' : Prop := {
  rv_authority : authority_wf (approval_authority s');
  rv_pending : forall id, pending_operations s' !! id =
    match pending_operations s !! id with
    | Some po => if decide (po_task_id po = t) then None else Some po
    | None => None
    end;
  rv_entries : forall id, pending (approval_authority s') !! id =
    match pending_operations s !! id with
    | Some po => if decide (po_task_id po = t) then None else pending (approval_authority s) !! id
    | None => pending (approval_authority s) !! id
    end;
  rv_approved : approved_operations s' =
    filter (fun e => ao_task_id e.2 <> t) (approved_operations s);
}.

Lemma wp_invalidate t s w :
  authority_wf (approval_authority s) ->
  wp (invalidate_approvals t) (fun r s' w' => r = Return tt /\ w' = w /\ revoked s t s'
    /\ exists a p ap, s' = set_approved ap (set_pending p (set_authority a s))) s w.
Proof.
  intros Hwf. unfold invalidate_approvals. wp_step. wp_step. wp_step.
  eapply wp_mono; [by apply wp_drop_all|].
  intros r s' w' (-> & -> & a' & p' & -> & Hwf' & Hp & Ha). wp_steps.
  split_and!; [done | done | | by eauto].
  assert (Hin : forall id, id ∈ omap (fun e : ApprovalId * PendingOperation =>
      if bool_decide (po_task_id e.2 = t) then Some e.1 else None) (btree_entries (pending_operations s))
    <-> exists po, pending_operations s !! id = Some po /\ po_task_id po = t).
  { intros id. rewrite list_elem_of_omap. setoid_rewrite <-elem_of_btree_entries. split.
    - intros ([i po] & Hi & Hc). simpl in Hc. case_bool_decide; naive_solver.
    - intros (po & Hpo & Ht). exists (id, po). simpl. by rewrite bool_decide_eq_true_2. }
  split; simpl; [done | | | done]; intros id; rewrite ?Hp, ?Ha;
    destruct (decide (id ∈ _)) as [Hd|Hd]; rewrite Hin in Hd.
  - destruct Hd as (po & -> & Ht). by rewrite decide_True.
  - destruct (pending_operations s !! id) as [po|]; [|done]. rewrite decide_False; [done | naive_solver].
  - destruct Hd as (po & -> & Ht). by rewrite decide_True.
  - destruct (pending_operations s !! id) as [po|] eqn:E; [|done].
    rewrite decide_False; [done | naive_solver].
Qed.

(** ** Transitions *)

Lemma live_task_record s w t cur :
  table_inv s w -> task_state s t = Some cur -> is_terminal cur = false ->
  exists r, tasks s !! t = Some r /\ state r = cur.
Proof.
  intros Ht Hst Hcur. unfold task_state in Hst. destruct (tasks s !! t) as [r|]; [naive_solver|].
  apply (ti_recovered _ _ Ht) in Hst as [? _]. congruence.
Qed.

(** The state an accepted transition reaches, before [start] stamps the clock. *)
Definition moved s t r next es' s' : Prop :=
  exists a p ap,
    s' = set_tasks (<[t := with_state next r]> (tasks s))
           (set_approved ap (set_pending p (set_authority a (set_event_store es' s))))
    /\ if is_terminal next then revoked s t s'
       else a = approval_authority s /\ p = pending_operations s /\ ap = approved_operations s.

Lemma wp_apply_transition t cur next failure s w :
  sup_inv strict s w -> task_state s t = Some cur -> is_terminal cur = false ->
  wp (apply_transition_with_failure t cur next failure) (fun r s' w' => world_le w w' /\
    store_wf (event_store s') /\
    match r with
    | Return _ => exists rec es', tasks s !! t = Some rec /\ state rec = cur
        /\ moved s t rec next es' s'
        /\ extends (event_store s) t (transition_events s t cur next failure) es'
    | Raise e => unchanged s s' /\ exists se, e = EventStoreFailure se
    | Panic => False
    end) s w.
Proof.
  intros [Hl Ht Ho _] Hst Hcur. destruct (live_task_record s w t cur Ht Hst Hcur) as (r & Hr & Hrs).
  unfold apply_transition_with_failure. wp_step. wp_step. cbv zeta. wp_step.
  apply wp_store_append; [apply Hl | |].
  - intros es' evs w' Hwf' Hw Hex. cbn beta iota. wp_step. destruct (is_terminal next) eqn:Hnext.
    + eapply wp_mono; [apply wp_invalidate, Ho|].
      intros ? s1 w1 (-> & -> & Hrv & a & p & ap & ->). cbn beta iota. wp_step. wp_step. simpl tasks.
      rewrite Hr. wp_step. split; [done|]. split; [done|]. exists r, es'.
      split_and!; [done | done | | by unfold transition_events; rewrite Hnext].
      exists a, p, ap. split; [done|]. rewrite Hnext. by destruct Hrv.
    + wp_step. cbn beta iota. wp_step. wp_step. simpl tasks. rewrite Hr. wp_step.
      split; [done|]. split; [done|]. exists r, es'.
      split_and!; [done | done | | by unfold transition_events; rewrite Hnext].
      exists (approval_authority s), (pending_operations s), (approved_operations s).
      split; [by destruct s|]. by rewrite Hnext.
  - intros es' e w' Hwf' Hw Hsame. cbn beta iota.
    split; [done|]. split; [done|]. split; [by split | by eauto].
Qed.

Lemma revocation_events_shape s t :
  Forall (fun k => exists a o, k = EvApprovalRevoked a o) (revocation_events s t).
Proof.
  unfold revocation_events. apply Forall_app.
  split; apply Forall_forall; intros k (e & _ & Hk)%list_elem_of_omap;
    case_bool_decide; naive_solver.
Qed.

(** A task that has not run holds no operation. *)
Lemma quiet_task s w t r :
  ops_inv strict s w -> tasks s !! t = Some r -> state r = Queued -> revocation_events s t = [].
Proof.
  intros Ho Hr Hq. apply elem_of_nil_inv. intros k.
  unfold revocation_events. rewrite elem_of_app, !list_elem_of_omap.
  intros [([id po] & Hin & Hk)|([o ao] & Hin & Hk)]; simpl in Hk; case_bool_decide as Ht; [|done| |done];
    apply elem_of_btree_entries in Hin; subst t.
  - apply (oi_pending _ _ _ Ho) in Hin as (r' & d & Hr' & Hst & _). naive_solver congruence.
  - apply (oi_approved _ _ _ Ho) in Hin as [(r' & Hr' & Hnq & _) _]. naive_solver congruence.
Qed.

Lemma transition_replay s w t r next failure :
  ops_inv strict s w -> tasks s !! t = Some r -> lifecycle_step (state r) next ->
  (failure <> None -> next = Failed) -> record_ok r ->
  replay_from (Some (state r)) false (transition_events s t (state r) next failure)
  = Ok (Some next, false).
Proof.
  intros Ho Hr Hstep Hf Hok. unfold transition_events. rewrite replay_from_app.
  assert (Hrev : replay_from (Some (state r)) false
      (if is_terminal next then revocation_events s t else []) = Ok (Some (state r), false)).
  { destruct (is_terminal next); [|done].
    destruct (decide (state r = Running \/ state r = WaitingApproval)) as [Hd|Hd].
    - apply replay_revocations; [done | apply revocation_events_shape].
    - rewrite (quiet_task s w t r); [done..|]. destruct (ro_state _ Hok).
      destruct (state r); try tauto; by apply terminal_no_step in Hstep. }
  rewrite Hrev. cbn [res_bind]. destruct failure as [c|]; cbn [app].
  - rewrite Hf in * by done. apply replay_failure.
    destruct (is_terminal (state r)) eqn:E; [by apply terminal_no_step in Hstep | done].
  - by apply replay_transition.
Qed.

Lemma moved_tasks s t r next es' s' :
  moved s t r next es' s' -> tasks s' = <[t := with_state next r]> (tasks s)
    /\ event_store s' = es' /\ recovered_tasks s' = recovered_tasks s
    /\ idempotency_index s' = idempotency_index s /\ max_tasks s' = max_tasks s.
Proof. by intros (a & p & ap & -> & _). Qed.

Lemma moved_task_state s t r next es' s' u :
  moved s t r next es' s' -> tasks s !! t = Some r ->
  task_state s' u = if decide (u = t) then Some next else task_state s u.
Proof.
  intros (Ht & _ & Hr & _)%moved_tasks Htr. by apply (task_state_update s s' t (with_state next r)).
Qed.

Lemma moved_shrinks s w t r next es' s' :
  ops_inv strict s w -> moved s t r next es' s' -> tasks s !! t = Some r ->
  is_terminal next = true -> shrinks strict s s'.
Proof.
  intros Ho Hm Hr Hn. destruct (moved_tasks _ _ _ _ _ _ Hm) as (Ht & _).
  destruct Hm as (a & p & ap & -> & Hrv). rewrite Hn in Hrv. destruct Hrv as [Hwf Hp He Ha].
  simpl in *. split; simpl; try done.
  - intros id po. rewrite He, Hp. destruct (pending_operations s !! id) as [q|]; [|done].
    case_decide; naive_solver.
  - intros id pa. rewrite He, Hp. destruct (pending_operations s !! id) as [q|]; [|naive_solver].
    case_decide; naive_solver.
  - intros o ao. rewrite Ha. by intros [? _]%map_lookup_filter_Some.
  - intros u q Hq. rewrite lookup_insert. destruct (decide (t = u)) as [->|Hne].
    + simplify_eq. eexists. split_and!; [done | done |]. right.
      split_and!; [by destruct next | by destruct next |]. intros id po. rewrite Hp. destruct (pending_operations s !! id) as [q'|]; [|done].
      case_decide; naive_solver.
    + exists q. split_and!; [done..|]. left. split; [done|]. intros id po Hpo Hu.
      rewrite Hp, Hpo, decide_False; [done | congruence].
  - intros u Hu. rewrite lookup_insert_ne; [done | congruence].
Qed.

Lemma record_ok_move r next :
  record_ok r -> lifecycle_step (state r) next ->
  (next = Running \/ next = WaitingApproval -> is_Some (started_at r)) ->
  record_ok (with_state next r).
Proof.
  intros [[Hs1 Hs2] Hv Hrej Hst Hqu] Hstep Hn.
  assert (Hnr : state r <> Rejected) by (intros E; rewrite E in Hstep; by apply terminal_no_step in Hstep).
  split; simpl; [| by auto | | done |].
  - split; intros ->; inversion Hstep; congruence.
  - intros ->. inversion Hstep; congruence.
  - intros ->. inversion Hstep; congruence.
Qed.

Lemma tasks_known s w t r : sup_inv strict s w -> tasks s !! t = Some r -> task_state s t = Some (state r).
Proof. intros _ Hr. unfold task_state. by rewrite Hr. Qed.

Lemma table_inv_move s s' t r r' w w' :
  table_inv s w -> tasks s !! t = Some r -> spec r' = spec r -> record_ok r' -> world_le w w' ->
  tasks s' = <[t := r']> (tasks s) -> recovered_tasks s' = recovered_tasks s ->
  idempotency_index s' = idempotency_index s -> max_tasks s' = max_tasks s -> table_inv s' w'.
Proof.
  intros Hi Hr Hspec Hok Hw Ht Hrec Hidx Hmax.
  eapply table_inv_same; [by eapply table_inv_update | by split | done].
Qed.

(** The effect of a transition to a terminal state. *)
Record finished s t (cur next : TaskState) (failure : option ErrorCode) s' : Prop := {
  fi_state : forall u, task_state s' u = if decide (u = t) then Some next else task_state s u;
  fi_tasks : exists r, tasks s !! t = Some r /\ state r = cur
             /\ tasks s' = <[t := with_state next r]> (tasks s);
  fi_log : extends (event_store s) t (transition_events s t cur next failure) (event_store s');
  fi_revoked : revoked s t s';
}.

Lemma wp_apply_terminal t cur next failure s w :
  sup_inv strict s w -> task_state s t = Some cur -> lifecycle_step cur next ->
  is_terminal next = true -> (failure <> None -> next = Failed) ->
  wp (apply_transition_with_failure t cur next failure) (fun r s' w' =>
    sup_inv strict s' w' /\ world_le w w' /\
    match r with
    | Return _ => finished s t cur next failure s'
    | Raise e => unchanged s s' /\ exists se, e = EventStoreFailure se
    | Panic => False
    end) s w.
Proof.
  intros Hi Hst Hstep Hn Hf.
  assert (Hcur : is_terminal cur = false)
    by (destruct (is_terminal cur) eqn:E; [by apply terminal_no_step in Hstep | done]).
  eapply wp_mono; [by apply wp_apply_transition|].
  intros [u|e|] s' w' (Hw & Hwf & Hr); [| | done].
  2:{ split; [|done]. eapply sup_inv_unchanged; [done | apply Hr | done | done]. }
  destruct Hr as (r & es' & Htr & <- & Hm & Hex).
  destruct (moved_tasks _ _ _ _ _ _ Hm) as (Ht & Hes & Hrec & Hidx & Hmax).
  pose proof (fun u => moved_task_state _ _ _ _ _ _ u Hm Htr) as Hts.
  destruct Hi as [Hl Htab Ho Hau]. pose proof (ti_record _ _ Htab _ _ Htr) as Hok.
  split; [|split; [done|]].
  - split.
    + rewrite Hes in *. eapply log_inv_move; try done.
      * eapply ti_fresh; done.
      * intros _. by eapply transition_replay.
    + eapply (table_inv_move s s' t r (with_state next r)); try done.
      apply record_ok_move; try done. by destruct next; intros [?|?].
    + eapply ops_inv_shrink; [done | by eapply moved_shrinks | done].
    + rewrite Hes. eapply audit_inv_shrinks; [done | by eapply extends_grows | by eapply moved_shrinks].
  - split; [done | by exists r | by rewrite Hes |]. destruct Hm as (a & p & ap & -> & Hrv). by rewrite Hn in Hrv.
Qed.

(** [succeed] and [fail]. *)
Lemma wp_transition_terminal t next s w :
  sup_inv strict s w -> is_terminal next = true ->
  wp (transition t next) (fun r s' w' => sup_inv strict s' w' /\ world_le w w' /\
    match r with
    | Return _ => exists cur, task_state s t = Some cur /\ lifecycle_step cur next
        /\ finished s t cur next None s'
    | Raise e => unchanged s s' /\
        ((e = TaskNotFound /\ task_state s t = None)
         \/ (exists cur, task_state s t = Some cur /\ ~ lifecycle_step cur next
              /\ e = InvalidStateTransition (mk_StateTransitionError cur next))
         \/ exists se, e = EventStoreFailure se)
    | Panic => False
    end) s w.
Proof.
  intros Hi Hn. unfold transition. wp_step. wp_step. wp_step. wp_step.
  destruct (task_state s t) as [cur|] eqn:Hst; cbn [ok_or].
  2:{ post. split; [apply unchanged_refl | auto]. }
  wp_step. apply wp_propose; intros Hstep; cbn beta iota.
  - eapply wp_mono; [by apply wp_apply_terminal|].
    intros [u|e|] s' w' (Hi' & Hw & Hr); post; [by eauto | | done].
    destruct Hr as [? [se ->]]. eauto.
  - post. split; [apply unchanged_refl|]. right; left. by exists cur.
Qed.

Lemma wp_fail_budget_exceeded t s w :
  sup_inv strict s w ->
  wp (fail_budget_exceeded t) (fun r s' w' => sup_inv strict s' w' /\ world_le w w' /\
    match r with
    | Return _ => exists cur, task_state s t = Some cur /\ lifecycle_step cur Failed
        /\ finished s t cur Failed (Some BudgetExceededCode) s'
    | Raise e => unchanged s s'
    | Panic => False
    end) s w.
Proof.
  intros Hi. unfold fail_budget_exceeded. wp_step. wp_step. wp_step. wp_step.
  destruct (task_state s t) as [cur|] eqn:Hst; cbn [ok_or].
  2:{ post. apply unchanged_refl. }
  wp_step. apply wp_propose; intros Hstep; cbn beta iota.
  - eapply wp_mono; [by apply wp_apply_terminal|].
    intros [u|e|] s' w' (Hi' & Hw & Hr); post; [by eauto | apply Hr | done].
  - post. apply unchanged_refl.
Qed.

Lemma wp_cancel t s w :
  sup_inv strict s w ->
  wp (cancel t) (fun r s' w' => sup_inv strict s' w' /\ world_le w w' /\
    match r with
    | Return true => exists cur, task_state s t = Some cur /\ is_terminal cur = false
        /\ finished s t cur Cancelled None s'
    | Return false => s' = s /\ exists cur, task_state s t = Some cur /\ is_terminal cur = true
    | Raise e => unchanged s s'
    | Panic => False
    end) s w.
Proof.
  intros Hi. unfold cancel. wp_step. wp_step. wp_step. wp_step.
  destruct (task_state s t) as [cur|] eqn:Hst; cbn [ok_or].
  2:{ post. apply unchanged_refl. }
  destruct (is_terminal cur) eqn:Hcur; wp_step.
  - post. split; [done|]. by exists cur.
  - eapply wp_mono; [apply wp_apply_terminal; auto with lifecycle; done|].
    intros [u|e|] s' w' (Hi' & Hw & Hr); [wp_steps | | done]; post;
      [by eauto | apply Hr].
Qed.

Lemma shrinks_task s s' t r r' :
  authority_wf (approval_authority s) -> tasks s !! t = Some r -> spec r' = spec r ->
  tasks s' = <[t := r']> (tasks s) -> approval_authority s' = approval_authority s ->
  pending_operations s' = pending_operations s -> approved_operations s' = approved_operations s ->
  state r' <> WaitingApproval -> state r' <> Queued ->
  (forall id po, pending_operations s !! id = Some po -> po_task_id po = t ->
     strict = false /\ state r' = Running) ->
  shrinks strict s s'.
Proof.
  intros Ha Hr Hspec Ht Hau Hp Hap Hw Hq Hno.
  split; rewrite ?Ht, ?Hau, ?Hp, ?Hap; try done.
  - intros u q Hu. rewrite lookup_insert. destruct (decide (t = u)) as [->|Hne].
    + simplify_eq. exists r'. split_and!; [done | done |]. by right.
    + exists q. split_and!; [done..|]. by left.
  - intros u Hu. rewrite lookup_insert_ne; [done | congruence].
Qed.

(** ** Starting *)

Definition started s t r now s' : Prop :=
  s' = set_tasks (<[t := mk_TaskRecord (spec r) Running (Some now)]> (tasks s))
         (set_event_store (event_store s') s)
  /\ extends (event_store s) t [EvStateTransitioned (state r) Running] (event_store s').

Lemma sup_inv_started s t r now s' w w' :
  sup_inv strict s w -> tasks s !! t = Some r -> lifecycle_step (state r) Running ->
  (strict = true -> state r <> WaitingApproval) -> started s t r now s' ->
  store_wf (event_store s') -> world_le w w' -> sup_inv strict s' w'.
Proof.
  intros Hi Hr Hstep Hs [Hs' Hex] Hwf Hw. pose proof (tasks_known _ _ _ _ Hi Hr) as Hts.
  destruct Hi as [Hl Ht Ho Hau]. pose proof (ti_record _ _ Ht _ _ Hr) as Hok.
  assert (Hok' : record_ok (mk_TaskRecord (spec r) Running (Some now))).
  { split; simpl; [done | | done | by intros _ | done]. intros _. apply (ro_valid _ Hok).
    intros E. rewrite E in Hstep. inversion Hstep. }
  rewrite Hs'. split; simpl.
  - eapply log_inv_move; try done.
    + by eapply ti_fresh.
    + intros u. by apply (task_state_update s _ t (mk_TaskRecord (spec r) Running (Some now))).
    + intros _. by apply replay_transition.
  - by eapply (table_inv_move s _ t r (mk_TaskRecord (spec r) Running (Some now))).
  - eapply ops_inv_shrink; [done | | done].
    eapply (shrinks_task s _ t r (mk_TaskRecord (spec r) Running (Some now))); try done; [apply Ho|].
    intros id po Hpo Hpt. split; [|done]. destruct strict; [|done]. exfalso.
    destruct (oi_pending _ _ _ Ho _ _ Hpo) as (r' & d & Hr' & Hst & _). naive_solver congruence.
  - by eapply audit_inv_grows; [done | by eapply extends_grows | |].
Qed.

Lemma wp_start t s w :
  sup_inv strict s w -> (strict = true -> task_state s t <> Some WaitingApproval) ->
  wp (start t) (fun r s' w' => sup_inv strict s' w' /\ world_le w w' /\
    match r with
    | Return _ => exists r k, tasks s !! t = Some r /\ lifecycle_step (state r) Running
        /\ (instants_read w <= k)%nat /\ started s t r (instant_at k) s'
    | Raise e => unchanged s s'
    | Panic => False
    end) s w.
Proof.
  intros Hi Hs. unfold start, transition. wp_step. wp_step. wp_step. wp_step. wp_step.
  destruct (task_state s t) as [cur|] eqn:Hst; cbn [ok_or].
  2:{ post. apply unchanged_refl. }
  wp_step. apply wp_propose; intros Hstep; cbn beta iota; [|post; apply unchanged_refl].
  assert (Hcur : is_terminal cur = false)
    by (destruct (is_terminal cur) eqn:E; [by apply terminal_no_step in Hstep | done]).
  eapply wp_mono; [by apply wp_apply_transition|].
  intros [u|e|] s' w' (Hw & Hwf & Hr); cbn beta iota; [| | done].
  2:{ split; [|split; [done | apply Hr]]. eapply sup_inv_unchanged; [done | apply Hr | done..]. }
  destruct Hr as (r & es' & Htr & <- & (a & p & ap & -> & -> & -> & ->) & Hex).
  wp_step. wp_step. eapply wp_update_task; [apply lookup_insert_eq|].
  assert (Hst' : started s t r (instant_at (instants_read w'))
    (set_tasks (<[t := with_started_at (instant_at (instants_read w')) (with_state Running r)]>
       (<[t := with_state Running r]> (tasks s))) (set_event_store es' s))).
  { split; [|done]. by rewrite insert_insert_eq. }
  split; [|split].
  - eapply sup_inv_started; try done; [intros E1 E2; apply (Hs E1); congruence|]. destruct Hw. split; simpl; lia.
  - destruct Hw. split; simpl; lia.
  - exists r, (instants_read w'). split_and!; [done | done | apply Hw | done].
Qed.

Lemma wp_start_execution t s w :
  sup_inv strict s w -> (strict = true -> task_state s t <> Some WaitingApproval) ->
  wp (start_execution t) (fun r s' w' => sup_inv strict s' w' /\ world_le w w' /\
    match r with
    | Return input => exists r k, tasks s !! t = Some r /\ lifecycle_step (state r) Running
        /\ (instants_read w <= k)%nat /\ started s t r (instant_at k) s'
        /\ input_goal input = goal (spec r)
        /\ capability_tools input = tools (capabilities (spec r))
    | Raise e => unchanged s s'
    | Panic => False
    end) s w.
Proof.
  intros Hi Hs. unfold start_execution. wp_step. apply wp_get_task.
  destruct (tasks s !! t) as [r|] eqn:Hr; cbn beta iota; [|post; apply unchanged_refl].
  wp_step. eapply wp_mono; [by apply wp_start|].
  intros [u|e|] s' w' (Hi' & Hw & Hres); cbn beta iota; [wp_step | by post | done].
  destruct Hres as (r' & k & Hr' & ? & ? & ?). simplify_eq. post. exists r, k. by split_and!.
Qed.

(** ** Submission *)

Definition submitted s t (sp : TaskSpec) (st : TaskState) s' : Prop :=
  task_state s t = None /\ store_log (event_store s) t = []
  /\ s' = set_index (<[idempotency_key sp := t]> (idempotency_index s))
           (set_tasks (<[t := mk_TaskRecord sp st None]> (tasks s))
             (set_event_store (event_store s') s))
  /\ extends (event_store s) t (submission_events (validate sp)).2 (event_store s')
  /\ st = (submission_events (validate sp)).1.

Lemma record_ok_submitted sp :
  record_ok (mk_TaskRecord sp (submission_events (validate sp)).1 None).
Proof. destruct (validate sp) as [[]|es] eqn:E; split; simpl; try done; try (by intros [?|?]); congruence. Qed.

Lemma submission_replays sp :
  replays (submission_events (validate sp)).2 (submission_events (validate sp)).1.
Proof. by destruct (validate sp). Qed.

Lemma submission_state sp :
  (submission_events (validate sp)).1 = Queued \/ (submission_events (validate sp)).1 = Rejected.
Proof. destruct (validate sp); auto. Qed.

Lemma fresh_task s w i j :
  sup_inv strict s w ->
  let t := mk_TaskId (uuid_at (uuids_minted w)) in
  task_state s t = None /\ store_log (event_store s) t = []
  /\ unminted (mk_World i j (Datatypes.S (uuids_minted w))) (task_uuid t).
Proof.
  intros [Hl Ht _ _] t. destruct (minted_next w i j (uuids_minted w)) as [Hm Hn]; [done|]. split_and!.
  - destruct (task_state s t) eqn:E; [|done]. by apply (ti_fresh _ _ Ht) in E.
  - destruct (store_log (event_store s) t) eqn:E; [done|].
    destruct Hm. apply (li_known _ _ _ _ Hl t). by rewrite E.
  - done.
Qed.

Lemma table_inv_submit s t sp s' w w' st :
  table_inv s w -> world_le w w' -> submitted s t sp st s' -> unminted w' (task_uuid t) ->
  idempotency_index s !! idempotency_key sp = None ->
  btree_len (tasks s) + btree_len (recovered_tasks s) < max_tasks s -> table_inv s' w'.
Proof.
  intros [Hr Hf Hrec Hi Hc Hl] Hw (Hts & _ & Hs' & _ & ->) Hu Hk Hroom.
  assert (Ht : tasks s !! t = None) by (unfold task_state in Hts; by destruct (tasks s !! t)).
  assert (Hrt : recovered_tasks s !! t = None) by (unfold task_state in Hts; by rewrite Ht in Hts).
  rewrite Hs'. split; simpl; try done.
  - intros u q Hq. rewrite lookup_insert in Hq. case_decide; [|eauto]. simplify_eq.
    apply record_ok_submitted.
  - intros u q Hq. unfold task_state in Hq. simpl in Hq. rewrite lookup_insert in Hq.
    destruct (decide (t = u)) as [->|Hne]; [done|]. eapply unminted_mono; [done|].
    eapply (Hf u q). unfold task_state. done.
  - intros u q Hq. destruct (Hrec u q Hq). split; [done|].
    rewrite lookup_insert_ne; [done | congruence].
  - intros k u. rewrite !lookup_insert. repeat case_decide; subst.
    + split; [|done]. intros _. eexists. done.
    + split; [congruence|]. intros (q & Hq & Hqk). exfalso.
      assert (idempotency_index s !! idempotency_key sp = Some u) by (apply Hi; eauto). congruence.
    + split; [|naive_solver]. intros Hx. exfalso. apply Hi in Hx as (q & Hq & _). congruence.
    + apply Hi.
  - rewrite btree_len_insert_fresh by done. lia.
Qed.

Lemma sup_inv_submitted s t sp st s' w w' :
  sup_inv strict s w -> world_le w w' -> submitted s t sp st s' -> unminted w' (task_uuid t) ->
  store_wf (event_store s') -> idempotency_index s !! idempotency_key sp = None ->
  btree_len (tasks s) + btree_len (recovered_tasks s) < max_tasks s -> sup_inv strict s' w'.
Proof.
  intros [Hl Ht Ho Hau] Hw Hsub Hu Hwf Hk Hroom. split.
  - destruct Hsub as (Hts & Hlog & Hs' & Hex & ->).
    assert (Hst : forall u, task_state s' u = if decide (u = t)
                    then Some (submission_events (validate sp)).1 else task_state s u).
    { intros u. rewrite Hs'. by apply (task_state_update s _ t (mk_TaskRecord sp _ None)). }
    eapply (log_inv_append strict _ _ _ _ t); try done.
    + intros u Hne. by rewrite Hst, decide_False.
    + by rewrite Hst, decide_True.
    + intros _. destruct (ex_log _ _ _ _ Hex) as (evs & -> & Hk'). rewrite Hlog. simpl.
      rewrite Hk'. apply submission_replays.
  - by eapply table_inv_submit.
  - destruct Hsub as (Hts & _ & Hs' & _ & ->). rewrite Hs'.
    set (base := set_index (<[idempotency_key sp := t]> (idempotency_index s))
                   (set_event_store (event_store s') s)).
    change (ops_inv strict (set_tasks (<[t := mk_TaskRecord sp
      (submission_events (validate sp)).1 None]> (tasks base)) base) w').
    eapply ops_inv_new_task; [| reflexivity | |].
    + eapply ops_inv_shrink; [done | by apply shrinks_refl; [apply Ho | ..] | done].
    + simpl. unfold task_state in Hts. by destruct (tasks s !! t).
    + simpl. by destruct (submission_state sp) as [-> | ->].
  - destruct Hsub as (_ & _ & Hs' & Hex & _). rewrite Hs'.
    by eapply audit_inv_grows; [done | by eapply extends_grows | |].
Qed.

Lemma wp_submit sp s w :
  sup_inv strict s w ->
  wp (submit sp) (fun r s' w' => sup_inv strict s' w' /\ world_le w w' /\
    match r with
    | Return (SubmitAccepted q) => validate sp = Ok tt
        /\ q = mk_TaskSnapshot (mk_TaskId (uuid_at (uuids_minted w))) Queued
        /\ submitted s (snapshot_task_id q) sp Queued s'
    | Return (SubmitRejected q errors) => validate sp = Err errors
        /\ q = mk_TaskSnapshot (mk_TaskId (uuid_at (uuids_minted w))) Rejected
        /\ submitted s (snapshot_task_id q) sp Rejected s'
    | Return (SubmitExisting q) => s' = s /\ exists r,
        tasks s !! snapshot_task_id q = Some r /\ spec r = sp /\ snapshot_state q = state r
    | Raise e => unchanged s s' /\
        ((e = IdempotencyConflict /\ exists t r, tasks s !! t = Some r
            /\ idempotency_key (spec r) = idempotency_key sp /\ spec r <> sp)
         \/ (e = CapacityExceeded
              /\ max_tasks s <= btree_len (tasks s) + btree_len (recovered_tasks s))
         \/ exists se, e = EventStoreFailure se)
    | Panic => False
    end) s w.
Proof.
  intros Hi. unfold submit. wp_step. wp_step.
  destruct (idempotency_index s !! idempotency_key sp) as [t|] eqn:Hidx.
  { pose proof Hidx as (r & Hr & Hk)%(ti_index _ _ (si_table _ _ _ Hi)).
    wp_step. apply wp_get_task. rewrite Hr. case_bool_decide as Hsp; simpl; wp_step; post.
    - split; [done|]. by exists r.
    - split; [apply unchanged_refl|]. left. split; [done|]. by exists t, r. }
  wp_step. wp_step. destruct (ti_limit _ _ (si_table _ _ _ Hi)) as [_ Hlim].
  pose proof (ti_capacity _ _ (si_table _ _ _ Hi)) as Hcap. unfold saturating_add.
  rewrite Z.min_r by lia. destruct (Z.leb_spec (max_tasks s)
    (btree_len (tasks s) + btree_len (recovered_tasks s))) as [Hfull|Hroom].
  { wp_step. post. split; [apply unchanged_refl | auto]. }
  wp_step. wp_step. cbv zeta.
  destruct (fresh_task s w (instants_read w) (system_times_read w) Hi) as (Hts & Hlog & Hu).
  set (t := mk_TaskId (uuid_at (uuids_minted w))) in *.
  destruct (submission_events (validate sp)) as [st ks] eqn:Hse.
  wp_step. apply wp_store_append; [apply Hi | |].
  - intros es' evs w' Hwf' Hw Hex. cbn beta iota. wp_step. wp_step. wp_step. wp_step.
    assert (Hw0 : world_le w w') by (etrans; [|exact Hw]; split; simpl; lia).
    assert (Hsub : submitted s t sp st (set_index (<[idempotency_key sp := t]> (idempotency_index s))
      (set_tasks (<[t := mk_TaskRecord sp st None]> (tasks s)) (set_event_store es' s)))).
    { split_and!; [done | done | done | by rewrite Hse | by rewrite Hse]. }
    assert (Hinv : sup_inv strict (set_index (<[idempotency_key sp := t]> (idempotency_index s))
      (set_tasks (<[t := mk_TaskRecord sp st None]> (tasks s)) (set_event_store es' s))) w')
      by (eapply sup_inv_submitted; eauto with worlds).
    destruct (validate sp) as [[]|errs]; simpl in Hse; simplify_eq; wp_step; post; done.
  - intros es' e w' Hwf' Hw Hsame. cbn beta iota.
    assert (Hw0 : world_le w w') by (etrans; [|exact Hw]; split; simpl; lia).
    assert (Hun : unchanged s (set_event_store es' s)) by by split.
    split; [by eapply sup_inv_unchanged|]. split; [done|]. split; [done | by eauto].
Qed.

(** ** Closing a pending operation: denial and expiry *)

(** The pending operation [id] is forgotten and its task failed. *)
Definition fail_pending s id (po : PendingOperation) (r : TaskRecord) (es' : S) : TaskSupervisor S :=
  set_tasks (<[po_task_id po := with_state Failed r]> (tasks s))
    (set_pending (delete id (pending_operations s))
      (set_authority (revoke id (approval_authority s)) (set_event_store es' s))).

Lemma pending_record s w id po :
  ops_inv strict s w -> pending_operations s !! id = Some po ->
  exists r d, tasks s !! po_task_id po = Some r
    /\ (state r = WaitingApproval \/ strict = false /\ state r = Running)
    /\ needs_grant r (po_request po)
    /\ pending (approval_authority s) !! id
        = Some (mk_PendingApproval (po_task_id po) (po_operation_id po)
                  (owned_action (po_request po)) d).
Proof. intros Ho Hpo. exact (oi_pending _ _ _ Ho _ _ Hpo). Qed.

Lemma pending_can_fail r :
  state r = WaitingApproval \/ strict = false /\ state r = Running -> lifecycle_step (state r) Failed.
Proof. intros [-> | [_ ->]]; constructor. Qed.

Lemma shrinks_fail_pending s w id po r es' :
  ops_inv strict s w -> pending_operations s !! id = Some po ->
  tasks s !! po_task_id po = Some r -> shrinks strict s (fail_pending s id po r es').
Proof.
  intros Ho Hpo Hr. split; simpl.
  - apply revoke_wf, Ho.
  - intros id' po'. rewrite revoke_pending, !lookup_delete. by case_decide.
  - intros id' pa. rewrite revoke_pending, !lookup_delete. by case_decide.
  - done.
  - intros u q Hq. rewrite lookup_insert. destruct (decide (po_task_id po = u)) as [<-|Hne].
    + simplify_eq. eexists. split_and!; [done | done |]. right. split_and!; [done | done |].
      intros id' po'. rewrite lookup_delete. case_decide as Hid; [done|]. intros Hpo' Ht. exfalso.
      apply Hid. eapply (oi_one _ _ _ Ho); eauto.
    + exists q. split_and!; [done..|]. left. split; [done|]. intros id' po' Hpo' Ht.
      rewrite lookup_delete_ne; [done|]. intros ->. simplify_eq.
  - intros u Hu. rewrite lookup_insert_ne; [done | congruence].
Qed.

(** The event that closes a pending operation. *)
Definition closing (id : ApprovalId) (o : OperationId) (k : TaskEventKind) : Prop :=
  k = EvApprovalDenied id o \/ k = EvApprovalExpired id o.

Lemma sup_inv_fail_pending s id po r k es' w w' :
  sup_inv strict s w -> pending_operations s !! id = Some po -> tasks s !! po_task_id po = Some r ->
  closing id (po_operation_id po) k -> store_wf es' -> world_le w w' ->
  extends (event_store s) (po_task_id po) [k; EvStateTransitioned (state r) Failed] es' ->
  sup_inv strict (fail_pending s id po r es') w'.
Proof.
  intros Hi Hpo Hr Hk Hwf Hw Hex. pose proof (tasks_known _ _ _ _ Hi Hr) as Hts.
  destruct Hi as [Hl Ht Ho Hau]. destruct (pending_record s w id po Ho Hpo) as (r' & d & Hr' & Hst & _).
  simplify_eq. pose proof (ti_record _ _ Ht _ _ Hr) as Hok. split.
  - eapply log_inv_move; try done.
    + by eapply ti_fresh.
    + intros u. by apply (task_state_update s _ (po_task_id po) (with_state Failed r)).
    + intros Hs. destruct Hst as [->|[? _]]; [|congruence]. by destruct Hk as [->| ->].
  - eapply (table_inv_move s _ _ r (with_state Failed r)); try done.
    apply record_ok_move; [done | by apply pending_can_fail | by intros [?|?]].
  - eapply ops_inv_shrink; [done | by eapply shrinks_fail_pending | done].
  - eapply audit_inv_shrinks; [done | by eapply extends_grows | by eapply shrinks_fail_pending].
Qed.

Lemma wp_expire_one id s w :
  sup_inv strict s w ->
  wp (expire_one id) (fun r s' w' => sup_inv strict s' w' /\ world_le w w' /\
    match r with
    | Return true => exists po r es', pending_operations s !! id = Some po
        /\ tasks s !! po_task_id po = Some r /\ s' = fail_pending s id po r es'
        /\ extends (event_store s) (po_task_id po)
             [EvApprovalExpired id (po_operation_id po); EvStateTransitioned (state r) Failed] es'
    | Return false => s' = s /\ pending_operations s !! id = None
    | Raise e => unchanged s s' /\ exists se, e = EventStoreFailure se
    | Panic => False
    end) s w.
Proof.
  intros Hi. unfold expire_one. wp_step. wp_step.
  destruct (pending_operations s !! id) as [po|] eqn:Hpo; [|by wp_step; post].
  destruct (pending_record s w id po (si_ops _ _ _ Hi) Hpo) as (r & d & Hr & Hst & _ & _).
  cbv zeta. wp_step. apply wp_get_task. rewrite Hr. wp_step.
  apply wp_propose; intros Hstep; [|by destruct (Hstep (pending_can_fail r Hst))].
  wp_step. apply wp_store_append; [apply Hi | |]; cbn beta iota.
  - intros es' evs w' Hwf' Hw Hex. wp_step. wp_step. wp_step. wp_step. wp_step.
    eapply wp_update_task; [done|]. wp_step. split; [|split; [done|]].
    + change (sup_inv strict (fail_pending s id po r es') w').
      eapply sup_inv_fail_pending; try done. by right.
    + by exists po, r, es'.
  - intros es' e w' Hwf' Hw Hsame. assert (Hun : unchanged s (set_event_store es' s)) by by split.
    split; [by eapply sup_inv_unchanged|]. split; [done|]. split; [done | by eauto].
Qed.

(** ** Expiry *)

(** One overdue pending operation is closed. *)
Inductive expiry_step (now : Z) : relation (TaskSupervisor S) :=
| expiry_step_intro s id po pa r es' :
    pending_operations s !! id = Some po ->
    pending (approval_authority s) !! id = Some pa -> pa_deadline pa <= now ->
    tasks s !! po_task_id po = Some r ->
    extends (event_store s) (po_task_id po)
      [EvApprovalExpired id (po_operation_id po); EvStateTransitioned (state r) Failed] es' ->
    expiry_step now s (fail_pending s id po r es').

(** Overdue operations are closed one after another; the last append may have
    failed and changed nothing. *)
Definition expires (now : Z) s s' : Prop := exists s1, rtc (expiry_step now) s s1 /\ unchanged s1 s'.

Definition overdue (now : Z) s (id : ApprovalId) : Prop :=
  exists pa, pending (approval_authority s) !! id = Some pa /\ pa_deadline pa <= now.

Lemma wp_expire_loop now ids : forall count s w,
  sup_inv strict s w ->
  (forall id pa, id ∈ ids -> pending (approval_authority s) !! id = Some pa -> pa_deadline pa <= now) ->
  (forall id, overdue now s id -> id ∈ ids) ->
  wp (expire_loop ids count) (fun r s' w' => sup_inv strict s' w' /\ world_le w w' /\ expires now s s' /\
    match r with
    | Return n => (exists k, n = count + Z.of_nat k /\ nsteps (expiry_step now) k s s')
        /\ rtc (expiry_step now) s s' /\ forall id, ~ overdue now s' id
    | Raise e => exists se, e = EventStoreFailure se
    | Panic => False
    end) s w.
Proof.
  induction ids as [|i ids IH]; intros count s w Hi Hdue Hall; simpl.
  - wp_step. split; [done|]. split; [done|]. split; [exists s; split; [done | apply unchanged_refl]|].
    split_and!; [exists 0%nat; split; [lia | constructor] | done |].
    intros id Hid. by apply Hall, not_elem_of_nil in Hid.
  - wp_step. eapply wp_mono; [by apply wp_expire_one|].
    intros [[]|e|] s1 w1 (Hi1 & Hw1 & Hr); cbn beta iota; [| | |done].
    + destruct Hr as (po & r & es' & Hpo & Htr & -> & Hex).
      destruct (pending_record s w i po (si_ops _ _ _ Hi) Hpo) as (r' & d & _ & _ & _ & Hpa).
      assert (Hstep : expiry_step now s (fail_pending s i po r es')).
      { econstructor; try done. eapply Hdue; [|done]. set_solver. }
      eapply wp_mono; [apply IH|].
      * done.
      * intros id pa Hin. simpl. rewrite revoke_pending, lookup_delete. case_decide; [done|].
        apply Hdue. set_solver.
      * intros id (pa & Hp & Hd). simpl in Hp. rewrite revoke_pending, lookup_delete in Hp.
        case_decide as Hne; [done|].
        assert (Hin : id ∈ i :: ids) by (apply Hall; by exists pa). set_solver.
      * intros r2 s2 w2 (Hi2 & Hw2 & (s3 & Hrtc & Hun) & Hr2). split; [done|].
        split; [by etrans|]. split; [exists s3; split; [by eapply rtc_l | done]|].
        destruct r2 as [n|e|]; [|done..]. destruct Hr2 as ((k & -> & Hk) & Hrtc2 & ?).
        split_and!; [|by eapply rtc_l | done]. exists (Datatypes.S k). split; [lia | by econstructor].
    + destruct Hr as [-> Hnone]. eapply wp_mono; [apply IH|].
      * done.
      * intros id pa Hin. apply Hdue. set_solver.
      * intros id Hid. assert (Hin : id ∈ i :: ids) by by apply Hall.
        apply elem_of_cons in Hin as [->|?]; [|done]. destruct Hid as (pa & Hp & _).
        apply (oi_listed _ _ _ (si_ops _ _ _ Hi)) in Hp as [? ?]. congruence.
      * intros r2 s2 w2 (Hi2 & Hw2 & He & Hr2). split; [done|]. split; [by etrans|]. done.
    + destruct Hr as [Hun He]. split; [done|]. split; [done|]. split; [by exists s | done].
Qed.

Lemma wp_expire_approvals s w :
  sup_inv strict s w ->
  wp expire_approvals (fun r s' w' => sup_inv strict s' w' /\ world_le w w'
    /\ expires (instant_at (instants_read w)) s s' /\
    match r with
    | Return n => (exists k, n = Z.of_nat k /\ nsteps (expiry_step (instant_at (instants_read w))) k s s')
        /\ rtc (expiry_step (instant_at (instants_read w))) s s'
        /\ forall id, ~ overdue (instant_at (instants_read w)) s' id
    | Raise e => exists se, e = EventStoreFailure se
    | Panic => False
    end) s w.
Proof.
  intros Hi. unfold expire_approvals, authority, expired_ids. wp_steps.
  replace (set_authority (approval_authority s) s) with s by by destruct s.
  set (w1 := mk_World _ _ _). assert (Hw1 : world_le w w1) by (split; simpl; lia).
  eapply wp_mono; [apply (wp_expire_loop (instant_at (instants_read w)))|].
  - by eapply sup_inv_world.
  - intros id pa Hin Hpa. apply elem_of_expired_at in Hin as (p & Hp & Hd). congruence.
  - intros id (pa & Hpa & Hd). apply elem_of_expired_at. eauto.
  - intros r s' w' (? & Hw & ? & ?). split; [done|]. split; [by etrans | done].
Qed.

(** What expiry can do to a supervisor. *)
Lemma expiry_facts now s s' :
  rtc (expiry_step now) s s' ->
  approved_operations s' = approved_operations s /\ recovered_tasks s' = recovered_tasks s
  /\ (forall id po, pending_operations s' !! id = Some po -> pending_operations s !! id = Some po)
  /\ (forall id pa, pending (approval_authority s') !! id = Some pa ->
        pending (approval_authority s) !! id = Some pa)
  /\ forall t r', tasks s' !! t = Some r' -> exists r, tasks s !! t = Some r /\ spec r' = spec r
       /\ started_at r' = started_at r
       /\ (r' = r \/ state r' = Failed /\ exists id po, pending_operations s !! id = Some po
            /\ po_task_id po = t /\ overdue now s id).
Proof.
  induction 1 as [s|s1 s2 s3 Hstep _ IH]; [by split_and!; eauto 10|].
  destruct Hstep as [s id po pa r es' Hpo Hpa Hd Hr Hex].
  destruct IH as (Ha & Hrec & Hp & Hau & Ht). simpl in *. split_and!; [done | done | | |].
  - intros id' po' Hpo'. apply Hp in Hpo'. rewrite lookup_delete in Hpo'. by case_decide.
  - intros id' pa' Hpa'. apply Hau in Hpa'. rewrite revoke_pending, lookup_delete in Hpa'. by case_decide.
  - intros t r' Hr'. destruct (Ht t r' Hr') as (r1 & Hr1 & Hs1 & Hst1 & Hcase).
    rewrite lookup_insert in Hr1. case_decide as Ht1.
    + simplify_eq. exists r. split_and!; [done..|]. right. split.
      * by destruct Hcase as [->|[? _]].
      * exists id, po. split_and!; [done | done |]. by exists pa.
    + exists r1. split_and!; [done..|]. destruct Hcase as [->|(Hf & id' & po' & Hpo' & Hpt & pa' & Hpa' & Hd')];
        [by left|]. right. split; [done|]. rewrite lookup_delete in Hpo'. case_decide; [done|].
      exists id', po'. split_and!; [done | done |]. exists pa'. split; [|done].
      simpl in Hpa'. rewrite revoke_pending, lookup_delete in Hpa'. by case_decide.
Qed.

(** Closing the requests [closed], and nothing else: each was overdue, leaves the
    two tables, and its task fails with the expiry and the transition on record;
    the other requests stay, and a task without a closed request keeps its record
    and its log. *)
Record closes (now : Z) s (closed : list ApprovalId) s' : Prop := {
  cl_once : NoDup closed;
  cl_due : forall id, id ∈ closed -> is_Some (pending_operations s !! id) /\ overdue now s id;
  cl_pending : forall id, pending_operations s' !! id =
    if decide (id ∈ closed) then None else pending_operations s !! id;
  cl_authority : forall id, pending (approval_authority s') !! id =
    if decide (id ∈ closed) then None else pending (approval_authority s) !! id;
  cl_failed : forall id po rec, id ∈ closed -> pending_operations s !! id = Some po ->
    tasks s !! po_task_id po = Some rec ->
    tasks s' !! po_task_id po = Some (with_state Failed rec)
    /\ exists evs, store_log (event_store s') (po_task_id po) = store_log (event_store s) (po_task_id po) ++ evs
         /\ (kind <$> evs) = [EvApprovalExpired id (po_operation_id po); EvStateTransitioned (state rec) Failed];
  cl_kept : forall t,
    (forall id po, id ∈ closed -> pending_operations s !! id = Some po -> po_task_id po <> t) ->
    tasks s' !! t = tasks s !! t /\ store_log (event_store s') t = store_log (event_store s) t;
}.

Definition one_per_task s : Prop := forall id1 id2 po1 po2,
  pending_operations s !! id1 = Some po1 -> pending_operations s !! id2 = Some po2 ->
  po_task_id po1 = po_task_id po2 -> id1 = id2.

Lemma closes_nil now s : closes now s [] s.
Proof.
  split; try done; [by apply NoDup_nil_2 | by intros id ?%not_elem_of_nil | by intros id po rec ?%not_elem_of_nil].
Qed.

Lemma closes_cons now s id po pa r es' closed s' :
  one_per_task s -> pending_operations s !! id = Some po ->
  pending (approval_authority s) !! id = Some pa -> pa_deadline pa <= now ->
  tasks s !! po_task_id po = Some r ->
  extends (event_store s) (po_task_id po)
    [EvApprovalExpired id (po_operation_id po); EvStateTransitioned (state r) Failed] es' ->
  closes now (fail_pending s id po r es') closed s' -> closes now s (id :: closed) s'.
Proof.
  intros Hone Hpo Hpa Hd Hr [Hlog Hother] [Hnd Hdue Hp Hau Hf Hk]. simpl in *.
  assert (Hnin : id ∉ closed) by (intros Hin; destruct (Hdue id Hin) as [[? E] _]; by rewrite lookup_delete_eq in E).
  assert (Hfar : forall id' po', id' ∈ closed -> pending_operations s !! id' = Some po' ->
                   po_task_id po' <> po_task_id po).
  { intros id' po' Hin Hpo' E. apply Hnin. by rewrite <-(Hone id' id po' po Hpo' Hpo E). }
  split.
  - by apply NoDup_cons_2.
  - intros id' [->|Hin]%elem_of_cons; [split; [by eexists | by exists pa]|].
    destruct (Hdue id' Hin) as [Hs (pa' & Hpa' & ?)]. simpl in Hpa'.
    rewrite lookup_delete_ne in Hs by set_solver.
    rewrite revoke_pending, lookup_delete_ne in Hpa' by set_solver. split; [done | by exists pa'].
  - intros id'. rewrite Hp, lookup_delete. repeat case_decide; set_solver.
  - intros id'. rewrite Hau, revoke_pending, lookup_delete. repeat case_decide; set_solver.
  - intros id' po' rec [->|Hin]%elem_of_cons Hpo' Hrec.
    + simplify_eq. destruct (Hk (po_task_id po)) as [-> ->].
      * intros id' po' Hin Hpo'. rewrite lookup_delete_ne in Hpo' by set_solver. by eapply Hfar.
      * by rewrite lookup_insert_eq.
    + destruct (Hf id' po' rec Hin) as [-> (evs & Hl & Hke)].
      * rewrite lookup_delete_ne; [done | set_solver].
      * rewrite lookup_insert_ne; [done | by apply not_eq_sym, (Hfar id')].
      * rewrite Hother in Hl by by eapply Hfar. split; [done|]. by exists evs.
  - intros t Ht. assert (Hne : po_task_id po <> t) by (apply (Ht id); [set_solver | done]).
    destruct (Hk t) as [-> ->].
    + intros id' po' Hin Hpo'. rewrite lookup_delete_ne in Hpo' by set_solver. apply (Ht id'); [set_solver | done].
    + rewrite lookup_insert_ne, Hother by done. done.
Qed.

Lemma expiry_closes now k s s' :
  one_per_task s -> nsteps (expiry_step now) k s s' ->
  exists closed, length closed = k /\ closes now s closed s'.
Proof.
  intros Hone Hn. revert Hone. induction Hn as [s|k s1 s2 s3 Hstep _ IH]; intros Hone.
  - exists []. split; [done | apply closes_nil].
  - destruct Hstep as [s id po pa r es' Hpo Hpa Hd Hr Hex]. destruct IH as (closed & Hlen & Hc).
    + intros id1 id2 po1 po2. simpl. rewrite !lookup_delete. repeat case_decide; [done..|]. apply Hone.
    + exists (id :: closed). split; [simpl; by rewrite Hlen | by eapply closes_cons].
Qed.

End Facts.
