(* ===== verification/SupervisorOps.v ===== *)
(** * Requests, approvals and their consumption

    The operations that go through the approval authority: exact effects and
    preservation of the invariant. *)

From stdpp Require Import base numbers list gmap strings.
From Stdlib Require Import ZArith Lia.
From S2P Require Import Prelude RustStd TaskState TaskSpec Policy Event Approval Supervisor Recovery.
From S2P Require Import SupervisorInv SupervisorFacts.

Section Ops.
Context `{EnvLaws} {S : Type} `{EventStoreLaws S}.
Variable strict : bool.
Implicit Types s : TaskSupervisor S.

(** ** Shared steps *)

Lemma waiting_from c : lifecycle_step c WaitingApproval -> c = Running.
Proof. by inversion 1. Qed.

Lemma wp_evaluate_stored t r req s w (Q : outcome PolicyDecision SupervisorError -> _ -> _ -> Prop) :
  sup_inv strict s w -> tasks s !! t = Some r -> state r <> Rejected ->
  Q (Return (evaluate (mk_CapabilityPolicy (spec r)) (as_borrowed req))) s w ->
  wp (evaluate_stored t req) Q s w.
Proof.
  intros Hi Hr Hst HQ. unfold evaluate_stored. wp_step. apply wp_get_task. rewrite Hr.
  pose proof (ro_valid _ (ti_record _ _ (si_table _ _ _ Hi) _ _ Hr) Hst) as Hv.
  rewrite (proj2 (from_task_Ok (spec r) (mk_CapabilityPolicy (spec r)))) by done. by wp_step.
Qed.

(** An append that only adds to the log of a running task. *)
Lemma sup_inv_logged s t r ks es' w w' :
  sup_inv strict s w -> tasks s !! t = Some r -> store_wf es' -> world_le w w' ->
  extends (event_store s) t ks es' ->
  replay_from (Some (state r)) false ks = Ok (Some (state r), false) ->
  sup_inv strict (set_event_store es' s) w'.
Proof.
  intros Hi Hr Hwf Hw Hex Hk. pose proof (tasks_known _ _ _ _ _ Hi Hr) as Hts.
  destruct Hi as [Hl Ht Ho Hau]. split.
  - eapply (log_inv_move strict _ _ _ _ t ks (state r) (state r)); try done.
    + by eapply ti_fresh.
    + intros u. change (task_state (set_event_store es' s) u) with (task_state s u).
      case_decide; [by subst | done].
  - by eapply table_inv_same.
  - eapply ops_inv_shrink; [done | by apply shrinks_refl; [apply Ho | ..] | done].
  - by eapply audit_inv_grows; [done | by eapply extends_grows | |].
Qed.

(** ** Requests *)

Lemma no_pending_for s t :
  existsb (fun p => bool_decide (po_task_id p = t)) (btree_values (pending_operations s)) = false <->
  forall id po, pending_operations s !! id = Some po -> po_task_id po <> t.
Proof.
  rewrite <-Bool.not_true_iff_false, existsb_elem. setoid_rewrite elem_of_btree_values.
  setoid_rewrite bool_decide_eq_true. split.
  - intros Hno id po Hpo Ht. apply Hno. exists po. split; [by exists id | done].
  - intros Hno (po & [id Hpo] & Ht). by eapply Hno.
Qed.

Lemma sup_inv_suspend s t r id o req d es' w w' :
  sup_inv strict s w -> world_le w w' -> tasks s !! t = Some r -> state r = Running ->
  needs_grant r req ->
  (forall id' po, pending_operations s !! id' = Some po -> po_task_id po <> t) ->
  authority_wf (approval_authority (suspend t r id o req d s)) ->
  ~ unminted w (approval_uuid id) -> unminted w' (approval_uuid id) ->
  ~ unminted w (operation_uuid o) -> unminted w' (operation_uuid o) ->
  store_wf es' ->
  extends (event_store s) t
    [EvApprovalRequested id o; EvStateTransitioned Running WaitingApproval] es' ->
  sup_inv strict (suspend t r id o req d (set_event_store es' s)) w'.
Proof.
  intros Hi Hw Hr Hst Hng Hno Ha Hid Hid' Ho Ho' Hwf Hex.
  pose proof (tasks_known _ _ _ _ _ Hi Hr) as Hts. destruct Hi as [Hl Ht Hops Hau].
  pose proof (ti_record _ _ Ht _ _ Hr) as Hok. split.
  - eapply (log_inv_move strict _ _ _ _ t _ Running WaitingApproval); try done.
    + by eapply ti_fresh.
    + by rewrite Hts, Hst.
    + intros u. by apply (task_state_update s _ t (with_state WaitingApproval r)).
  - eapply (table_inv_move s _ t r (with_state WaitingApproval r)); try done.
    apply record_ok_move; [done | rewrite Hst; constructor |]. intros _.
    apply (ro_started _ Hok). auto.
  - eapply (ops_inv_suspend strict (set_event_store es' s) t r id o req d w); try done.
    eapply ops_inv_shrink; [done | by apply shrinks_refl; [apply Hops | ..] | done].
  - destruct (audit_inv_grows _ es' s s Hau) as [Hp Ha']; [by eapply extends_grows | done | done |].
    split; [|done]. intros id' po. simpl. rewrite lookup_insert. case_decide; [|by apply Hp].
    intros [= <-]. subst. eapply extends_logged; [done | set_solver].
Qed.

(** The possible results of [request_operation] on the supervisor [s1] that
    expiry left. *)
Definition request_result s1 t (req : CapabilityRequest) (ttl : Z) (w : World)
    (r : outcome OperationAuthorization SupervisorError) s' : Prop :=
  match r with
  | Return Allowed => exists rec, tasks s1 !! t = Some rec /\ state rec = Running
      /\ evaluate (mk_CapabilityPolicy (spec rec)) req = Allow
      /\ s' = set_event_store (event_store s') s1
      /\ extends (event_store s1) t [EvOperationAllowed] (event_store s')
  | Return (Denied reason) => exists rec, tasks s1 !! t = Some rec /\ state rec = Running
      /\ evaluate (mk_CapabilityPolicy (spec rec)) req = Deny reason
      /\ s' = set_event_store (event_store s') s1
      /\ extends (event_store s1) t [EvOperationDenied reason] (event_store s')
  | Return (AuthApprovalRequired q) => exists rec k es',
      tasks s1 !! t = Some rec /\ state rec = Running
      /\ evaluate (mk_CapabilityPolicy (spec rec)) req = ApprovalRequired
      /\ (forall id po, pending_operations s1 !! id = Some po -> po_task_id po <> t)
      /\ request_task_id q = t /\ requested_action q = request_action req
      /\ (instants_read w <= k)%nat
      /\ ~ unminted w (operation_uuid (request_operation_id q))
      /\ ~ unminted w (approval_uuid (request_approval_id q))
      /\ s' = suspend t rec (request_approval_id q) (request_operation_id q) (from_borrowed req)
                (instant_at k + ttl) (set_event_store es' s1)
      /\ extends (event_store s1) t
           [EvApprovalRequested (request_approval_id q) (request_operation_id q);
            EvStateTransitioned Running WaitingApproval] es'
  | Raise _ => unchanged s1 s'
  | Panic => False
  end.

Lemma not_unminted_mono w w' u : world_le w w' -> ~ unminted w' u -> ~ unminted w u.
Proof. intros Hw Hn Hu. apply Hn. by eapply unminted_mono. Qed.

(** The branch that asks the authority. *)
Lemma wp_request_approval s1 w1 t r req ttl :
  sup_inv strict s1 w1 -> tasks s1 !! t = Some r -> state r = Running ->
  evaluate (mk_CapabilityPolicy (spec r)) req = ApprovalRequired ->
  (forall id po, pending_operations s1 !! id = Some po -> po_task_id po <> t) ->
  wp (let! uuid := Uuid_now_v7 in
      let operation_id := mk_OperationId uuid in
      let! approval :=
        authority (Approval.request t operation_id (owned_action (from_borrowed req)) ttl) in
      let approval_id := request_approval_id approval in
      let! appended := attempt (store_append t
        [EvApprovalRequested approval_id operation_id;
         EvStateTransitioned (state r) WaitingApproval]) in
      match appended with
      | Err error =>
          do! modify (fun s => set_authority (revoke approval_id (approval_authority s)) s) in
          throw error
      | Ok _ =>
          do! modify (fun s => set_pending
                (<[approval_id := mk_PendingOperation t operation_id (from_borrowed req)]>
                   (pending_operations s)) s) in
          do! update_task t (with_state WaitingApproval) in
          ret (AuthApprovalRequired approval)
      end)
    (fun r s' w' => sup_inv strict s' w' /\ world_le w1 w' /\ request_result s1 t req ttl w1 r s') s1 w1.
Proof.
  intros Hi Hr Hst Hev Hno. destruct (si_ops _ _ _ Hi) as [Ha Hf _ _ _ _ _ _].
  wp_step. wp_step. cbv zeta. set (o := mk_OperationId (uuid_at (uuids_minted w1))).
  set (w2 := mk_World _ _ _). assert (Hw2 : world_le w1 w2) by (split; simpl; lia).
  wp_step. unfold authority. wp_step. wp_step.
  eapply wp_mono; [apply request_exact; [done | by eapply authority_fresh_mono]|].
  intros [q|e|] a' w3 [Hw3 Hq]; cbn beta iota; [| |done].
  2:{ destruct Hq as [-> _]. replace (set_authority (approval_authority s1) s1) with s1 by by destruct s1.
      split; [eapply sup_inv_world; [done | by etrans] | split; [by etrans | apply unchanged_refl]]. }
  set (id := mk_ApprovalId (uuid_at (uuids_minted w2))) in *.
  destruct Hq as (Hact & Httl & Hid & Hix & Hroom & -> & -> & Hm3 & _). simpl request_approval_id.
  wp_step. wp_step. apply wp_store_append; [apply Hi | |]; cbn beta iota.
  - intros es' evs w4 Hwf' Hw4 Hex. wp_step. wp_step. wp_step.
    eapply wp_update_task; [exact Hr|]. wp_step. cbn beta iota.
    assert (Hw : world_le w1 w4) by (etrans; [exact Hw2 | by etrans]).
    assert (Ho : ~ unminted w1 (operation_uuid o)) by (apply (minted_next w1 0 0); lia).
    assert (Hidm : ~ unminted w1 (approval_uuid id))
      by (eapply not_unminted_mono; [exact Hw2|]; apply (minted_next w2 0 0); lia).
    change (sup_inv strict (suspend t r id o (from_borrowed req)
      (instant_at (instants_read w2) + ttl) (set_event_store es' s1)) w4 /\ world_le w1 w4 /\
      request_result s1 t req ttl w1 (Return (AuthApprovalRequired (mk_ApprovalRequest id t o
        (owned_action (from_borrowed req)) (ttl / 1000000))))
        (suspend t r id o (from_borrowed req)
          (instant_at (instants_read w2) + ttl) (set_event_store es' s1))).
    simpl in Hex. rewrite Hst in Hex. split; [|split; [done|]].
    + eapply (sup_inv_suspend _ _ _ _ _ _ _ _ w1); try done.
      * unfold needs_grant. by rewrite as_borrowed_from_borrowed.
      * by apply authority_insert_wf.
      * destruct (minted_next w2 0 0 (uuids_minted w2)) as [_ Hu]; [done|]. eapply unminted_mono; [|exact Hu].
        destruct Hw4. split; simpl in *; lia.
      * destruct (minted_next w1 0 0 (uuids_minted w1)) as [_ Hu]; [done|]. eapply unminted_mono; [|exact Hu].
        destruct Hw3, Hw4. split; simpl in *; lia.
    + exists r, (instants_read w2), es'.
      split_and!; try done. simpl. by rewrite owned_action_request, as_borrowed_from_borrowed.
  - intros es' e w4 Hwf' Hw4 Hsame. wp_step. wp_step. wp_step. cbn beta iota.
    assert (Hw : world_le w1 w4) by (etrans; [exact Hw2 | by etrans]).
    simpl approval_authority. rewrite revoke_insert_fresh by done.
    assert (Hun : unchanged s1 (set_authority (approval_authority s1) (set_event_store es'
      (set_authority (authority_insert id (mk_PendingApproval t o (owned_action (from_borrowed req))
        (instant_at (instants_read w2) + ttl)) (approval_authority s1)) s1)))) by by split.
    split; [by eapply sup_inv_unchanged|]. split; [done | exact Hun].
Qed.

Lemma wp_request_operation t req ttl s w :
  sup_inv strict s w ->
  wp (request_operation t req ttl) (fun r s' w' => sup_inv strict s' w' /\ world_le w w' /\
    exists s1 w1, expires (instant_at (instants_read w)) s s1 /\ world_le w w1
      /\ request_result s1 t req ttl w1 r s'
      /\ match r with
         | Return _ => rtc (expiry_step (instant_at (instants_read w))) s s1
         | _ => True
         end) s w.
Proof.
  intros Hi. unfold request_operation. wp_step. eapply wp_mono; [by apply wp_expire_approvals|].
  intros [n|e|] s1 w1 (Hi1 & Hw1 & Hex1 & Hr1); cbn beta iota; [| |done].
  2:{ split; [done|]. split; [done|]. exists s1, w1. split_and!; try done. apply unchanged_refl. }
  destruct Hr1 as (_ & Hrtc & _).
  eapply (wp_mono _ (fun r s' w' =>
    sup_inv strict s' w' /\ world_le w1 w' /\ request_result s1 t req ttl w1 r s')).
  2:{ intros r s' w' (? & Hw' & Hres). split; [done|].
      split; [by etrans|]. exists s1, w1. split_and!; try done. by destruct r. }
  wp_step. apply wp_get_task. destruct (tasks s1 !! t) as [r|] eqn:Hr; cbn beta iota.
  2:{ post. apply unchanged_refl. }
  wp_step. apply wp_propose; intros Hstep; cbn beta iota; [|post; apply unchanged_refl].
  apply waiting_from in Hstep as Hst. wp_step.
  eapply wp_evaluate_stored; [done | done | by rewrite Hst |]. rewrite as_borrowed_from_borrowed.
  cbn beta iota. destruct (evaluate _ req) as [|reason|] eqn:Hev.
  1,2: wp_step; apply wp_store_append; [apply Hi1 | |]; cbn beta iota.
  - intros es' evs w2 Hwf Hw2 Hex. wp_step. split; [|split; [done|]].
    + eapply sup_inv_logged; try done. by rewrite Hst.
    + by exists r.
  - intros es' e w2 Hwf Hw2 Hsame. assert (Hun : unchanged s1 (set_event_store es' s1)) by by split.
    split; [by eapply sup_inv_unchanged|]. by split.
  - intros es' evs w2 Hwf Hw2 Hex. wp_step. split; [|split; [done|]].
    + eapply sup_inv_logged; try done. by rewrite Hst.
    + by exists r.
  - intros es' e w2 Hwf Hw2 Hsame. assert (Hun : unchanged s1 (set_event_store es' s1)) by by split.
    split; [by eapply sup_inv_unchanged|]. by split.
  - wp_step. wp_step. destruct (existsb _ _) eqn:Hwait; [wp_step; post; apply unchanged_refl|].
    rewrite no_pending_for in Hwait. by apply wp_request_approval.
Qed.

(** ** Approval *)

(** The pending operation becomes an approved one and its task runs again. *)
Definition resume s id (po : PendingOperation) (r : TaskRecord) (g : ApprovalGrant) (es' : S)
    : TaskSupervisor S :=
  set_tasks (<[po_task_id po := with_state Running r]> (tasks s))
    (set_approved (<[po_operation_id po := mk_ApprovedOperation (po_task_id po) (po_request po) g]>
                     (approved_operations s))
      (set_pending (delete id (pending_operations s))
        (set_authority (revoke id (approval_authority s)) (set_event_store es' s)))).

Definition grant_of id (po : PendingOperation) (deadline : Z) : ApprovalGrant :=
  mk_ApprovalGrant id (po_task_id po) (po_operation_id po) (owned_action (po_request po)) deadline.

Lemma sup_inv_resume s id po r d es' w w' :
  sup_inv strict s w -> pending_operations s !! id = Some po ->
  tasks s !! po_task_id po = Some r -> state r = WaitingApproval -> store_wf es' -> world_le w w' ->
  extends (event_store s) (po_task_id po)
    [EvApprovalGranted id (po_operation_id po); EvStateTransitioned WaitingApproval Running] es' ->
  sup_inv strict (resume s id po r (grant_of id po d) es') w'.
Proof.
  intros Hi Hpo Hr Hst Hwf Hw Hex. pose proof (tasks_known _ _ _ _ _ Hi Hr) as Hts.
  destruct Hi as [Hl Ht Ho Hau]. pose proof (ti_record _ _ Ht _ _ Hr) as Hok.
  destruct (pending_record _ _ _ _ _ Ho Hpo) as (r' & d' & Hr' & _ & Hng & Hpa). simplify_eq. split.
  - eapply (log_inv_move strict _ _ _ _ (po_task_id po) _ WaitingApproval Running); try done.
    + by eapply ti_fresh.
    + by rewrite Hts, Hst.
    + intros u. by apply (task_state_update s _ (po_task_id po) (with_state Running r)).
  - eapply (table_inv_move s _ (po_task_id po) r (with_state Running r)); try done.
    apply record_ok_move; [done | rewrite Hst; constructor |]. intros _.
    apply (ro_started _ Hok). auto.
  - set (base := set_tasks (<[po_task_id po := with_state Running r]> (tasks s))
      (set_pending (delete id (pending_operations s))
        (set_authority (revoke id (approval_authority s)) (set_event_store es' s)))).
    change (ops_inv strict (set_approved (<[po_operation_id po := mk_ApprovedOperation (po_task_id po)
      (po_request po) (grant_of id po d)]> (approved_operations base)) base) w').
    apply ops_inv_insert_approved.
    + eapply ops_inv_shrink; [done | | done].
      destruct (shrinks_fail_pending strict s w id po r es' Ho Hpo Hr) as [Ha Hp Hli Hap Htk Hn].
      split; simpl in *; try done;
        [|intros u Hu; rewrite lookup_insert_ne; [done | congruence]].
      intros u q Hq. rewrite lookup_insert. destruct (decide (po_task_id po = u)) as [<-|Hne].
      * simplify_eq. eexists. split_and!; [done | done |]. right. split_and!; [done | done |].
        intros id' po'. rewrite lookup_delete. case_decide as Hid; [done|]. intros Hpo' Hpt. exfalso.
        apply Hid. eapply (oi_one _ _ _ Ho); eauto.
      * destruct (Htk u q Hq) as (q' & Hq' & ?). rewrite lookup_insert_ne in Hq' by done. simplify_eq.
        eauto.
    + exists (with_state Running r). simpl. rewrite lookup_insert_eq. by split_and!.
    + destruct (oi_op_fresh _ _ _ Ho _ _ Hpo). eauto with worlds.
    + intros id' po'. simpl. rewrite lookup_delete. case_decide as Hid; [done|]. intros Hpo' E.
      apply Hid. eapply (oi_one _ _ _ Ho); eauto.
  - destruct (audit_inv_grows _ es' s s Hau) as [Hp Ha]; [by eapply extends_grows | done | done |].
    split; simpl.
    + intros id' po'. rewrite lookup_delete. case_decide; [done | by apply Hp].
    + intros o ao. rewrite lookup_insert. case_decide; [|by apply Ha]. intros [= <-]. subst. simpl.
      split; [by apply Hp | eapply extends_logged; [done | set_solver]].
Qed.

Definition approve_result s1 id (r : outcome TaskSnapshot SupervisorError) s' : Prop :=
  match r with
  | Return q => exists po rec d k es',
      pending_operations s1 !! id = Some po /\ tasks s1 !! po_task_id po = Some rec
      /\ state rec = WaitingApproval /\ instant_at k < d
      /\ pending (approval_authority s1) !! id
          = Some (mk_PendingApproval (po_task_id po) (po_operation_id po)
                    (owned_action (po_request po)) d)
      /\ q = mk_TaskSnapshot (po_task_id po) Running
      /\ s' = resume s1 id po rec (grant_of id po d) es'
      /\ extends (event_store s1) (po_task_id po)
           [EvApprovalGranted id (po_operation_id po); EvStateTransitioned WaitingApproval Running] es'
  | Raise _ => unchanged s1 s'
  | Panic => False
  end.

(** The operations below first expire, then act on what is left. *)
Definition after_expiry {A} s w (result : TaskSupervisor S -> outcome A SupervisorError ->
    TaskSupervisor S -> Prop) (r : outcome A SupervisorError) s' w' : Prop :=
  sup_inv strict s' w' /\ world_le w w' /\
  exists s1 w1, sup_inv strict s1 w1 /\ expires (instant_at (instants_read w)) s s1 /\ result s1 r s'
    /\ match r with
       | Return _ => rtc (expiry_step (instant_at (instants_read w))) s s1
           /\ forall id, ~ overdue (instant_at (instants_read w)) s1 id
       | _ => True
       end.

Lemma wp_after_expiry {A} (m : M (TaskSupervisor S) SupervisorError A)
    (result : TaskSupervisor S -> outcome A SupervisorError -> TaskSupervisor S -> Prop) s w :
  sup_inv strict s w ->
  (forall s1 e s', unchanged s1 s' -> result s1 (Raise e) s') ->
  (forall s1 w1, sup_inv strict s1 w1 ->
     wp m (fun r s' w' => sup_inv strict s' w' /\ world_le w1 w' /\ result s1 r s') s1 w1) ->
  wp (do! expire_approvals in m) (after_expiry s w result) s w.
Proof.
  intros Hi Herr Hm. wp_step. eapply wp_mono; [by apply wp_expire_approvals|].
  intros [n|e|] s1 w1 (Hi1 & Hw1 & Hex1 & Hr1); cbn beta iota; [| |done].
  - eapply wp_mono; [by apply Hm|]. intros r s' w' (? & Hw & Hres). split; [done|].
    split; [by etrans|]. exists s1, w1. split_and!; try done. destruct r; [|done..].
    by destruct Hr1 as (_ & ? & ?).
  - split; [done|]. split; [done|]. exists s1, w1. split_and!; try done. apply Herr, unchanged_refl.
Qed.

Lemma wp_approve_operation id s w :
  sup_inv strict s w ->
  wp (approve_operation id) (after_expiry s w (fun s1 => approve_result s1 id)) s w.
Proof.
  intros Hi. apply wp_after_expiry; [done | done |]. clear s w Hi. intros s w Hi.
  wp_step. wp_step. wp_step. wp_step.
  destruct (pending_operations s !! id) as [po|] eqn:Hpo; cbn [ok_or]; [|post; apply unchanged_refl].
  destruct (pending_record _ _ _ _ _ (si_ops _ _ _ Hi) Hpo) as (r & d & Hr & Hst & Hng & Hpa).
  cbv zeta. wp_step. apply wp_get_task. rewrite Hr. wp_step.
  apply wp_propose; intros Hstep; cbn beta iota; [|post; apply unchanged_refl].
  assert (Hwait : state r = WaitingApproval)
    by (destruct Hst as [?|[_ E]]; [done | rewrite E in Hstep; inversion Hstep]).
  wp_step. unfold authority. wp_step. wp_step. eapply wp_mono; [apply approve_exact|].
  intros [g|e|] a' w1 (Hw1 & _ & Hg); cbn beta iota; [| |done].
  2:{ destruct Hg as [-> _]. replace (set_authority (approval_authority s) s) with s by by destruct s.
      split; [by eapply sup_inv_world | split; [done | apply unchanged_refl]]. }
  destruct Hg as (pa & Hpa' & Hlt & -> & -> & _). rewrite Hpa in Hpa'. simplify_eq. simpl in Hlt |- *.
  wp_step. wp_step. rewrite Hwait. apply wp_store_append; [apply Hi | |]; cbn beta iota.
  - intros es' evs w2 Hwf Hw2 Hex. wp_step. wp_step. wp_step. wp_step. simpl pending_operations.
    rewrite Hpo. cbn [ok_or]. wp_step. wp_step. wp_step. wp_step. wp_step.
    eapply wp_update_task; [exact Hr|]. wp_step. cbn beta iota.
    change (sup_inv strict (resume s id po r (grant_of id po d) es') w2 /\ world_le w w2 /\
      approve_result s id (Return (mk_TaskSnapshot (po_task_id po) Running))
        (resume s id po r (grant_of id po d) es')).
    assert (Hw : world_le w w2) by by etrans.
    split; [by eapply sup_inv_resume|]. split; [done|].
    exists po, r, d, (instants_read w), es'. by split_and!.
  - intros es' e w2 Hwf Hw2 Hsame. wp_step. wp_step. wp_step. cbn beta iota. simpl approval_authority.
    unfold restore. simpl. rewrite authority_insert_remove; [|apply (si_ops _ _ _ Hi) | done].
    assert (Hun : unchanged s (set_authority (approval_authority s) (set_event_store es'
      (set_authority (authority_remove id (approval_authority s)).2 s)))) by by split.
    assert (Hw : world_le w w2) by by etrans.
    split; [by eapply sup_inv_unchanged|]. by split.
Qed.

(** ** Denial *)

Definition deny_result s1 id (r : outcome TaskSnapshot SupervisorError) s' : Prop :=
  match r with
  | Return q => exists po rec es',
      pending_operations s1 !! id = Some po /\ tasks s1 !! po_task_id po = Some rec
      /\ q = mk_TaskSnapshot (po_task_id po) Failed /\ s' = fail_pending s1 id po rec es'
      /\ extends (event_store s1) (po_task_id po)
           [EvApprovalDenied id (po_operation_id po); EvStateTransitioned (state rec) Failed] es'
  | Raise _ => unchanged s1 s'
  | Panic => False
  end.

Lemma wp_deny_operation id s w :
  sup_inv strict s w ->
  wp (deny_operation id) (after_expiry s w (fun s1 => deny_result s1 id)) s w.
Proof.
  intros Hi. apply wp_after_expiry; [done | done |]. clear s w Hi. intros s w Hi.
  wp_step. wp_step. wp_step. wp_step.
  destruct (pending_operations s !! id) as [po|] eqn:Hpo; cbn [ok_or]; [|post; apply unchanged_refl].
  destruct (pending_record _ _ _ _ _ (si_ops _ _ _ Hi) Hpo) as (r & d & Hr & Hst & Hng & Hpa).
  cbv zeta. wp_step. wp_step. unfold authority_contains.
  rewrite bool_decide_eq_true_2 by (rewrite Hpa; by eexists). cbn [negb].
  wp_step. apply wp_get_task. rewrite Hr. wp_step.
  apply wp_propose; intros Hstep; cbn beta iota; [|post; apply unchanged_refl].
  wp_step. apply wp_store_append; [apply Hi | |]; cbn beta iota.
  - intros es' evs w' Hwf' Hw Hex. wp_step. wp_step. wp_step. wp_step. wp_step.
    eapply wp_update_task; [done|]. wp_step.
    change (sup_inv strict (fail_pending s id po r es') w' /\ world_le w w' /\
      deny_result s id (Return (mk_TaskSnapshot (po_task_id po) Failed)) (fail_pending s id po r es')).
    split; [|split; [done|]].
    + eapply sup_inv_fail_pending; try done. by left.
    + by exists po, r, es'.
  - intros es' e w' Hwf' Hw Hsame. assert (Hun : unchanged s (set_event_store es' s)) by by split.
    split; [by eapply sup_inv_unchanged|]. by split.
Qed.

(** ** Consumption *)

Definition consume s o : TaskSupervisor S := set_approved (delete o (approved_operations s)) s.

Lemma sup_inv_consume s o w : sup_inv strict s w -> sup_inv strict (consume s o) w.
Proof.
  intros [Hl Ht Ho Hau]. assert (Hsh : shrinks strict s (consume s o))
    by (apply shrinks_refl; [apply Ho | done..|]; apply delete_subseteq).
  split; [done | by eapply table_inv_same | by eapply ops_inv_shrink |].
  by eapply audit_inv_shrinks; [| apply same_logs_grows |].
Qed.

Lemma wp_authorize_operation t o req s w :
  sup_inv strict s w ->
  wp (authorize_operation t o req) (fun r s' w' => sup_inv strict s' w' /\ world_le w w' /\
    match r with
    | Return receipt => exists rec ao,
        tasks s !! t = Some rec /\ state rec = Running
        /\ approved_operations s !! o = Some ao /\ ao_task_id ao = t
        /\ as_borrowed (ao_request ao) = req
        /\ evaluate (mk_CapabilityPolicy (spec rec)) req = ApprovalRequired
        /\ instant_at (instants_read w) < grant_deadline (ao_grant ao)
        /\ receipt_approval_id receipt = grant_approval_id (ao_grant ao)
        /\ s' = set_event_store (event_store s') (consume s o)
        /\ extends (event_store s) t
             [EvApprovalConsumed (grant_approval_id (ao_grant ao)) o] (event_store s')
    | Raise _ => unchanged s s' \/ unchanged (consume s o) s'
    | Panic => False
    end) s w.
Proof.
  intros Hi. unfold authorize_operation. wp_step. apply wp_get_task.
  destruct (tasks s !! t) as [r|] eqn:Hr; cbn beta iota; [|post; left; apply unchanged_refl].
  case_bool_decide as Hst; cbn [negb]; [|wp_step; post; left; apply unchanged_refl].
  cbv zeta. wp_step. wp_step. wp_step. wp_step.
  destruct (approved_operations s !! o) as [ao|] eqn:Hao; cbn [ok_or]; [|post; left; apply unchanged_refl].
  destruct (oi_approved _ _ _ (si_ops _ _ _ Hi) _ _ Hao) as [(r' & Hr' & _ & Hng & Hgt & Hgo & Hga) _].
  wp_step. wp_step. cbn beta iota. change (set_approved (delete o (approved_operations s)) s) with (consume s o).
  pose proof (sup_inv_consume s o w Hi) as Hi'.
  destruct (_ || _) eqn:Hscope; [wp_step; post; right; apply unchanged_refl|].
  rewrite Bool.orb_false_iff, !Bool.negb_false_iff, !bool_decide_eq_true in Hscope.
  destruct Hscope as [Ht Hreq]. wp_step. eapply wp_evaluate_stored; [done | done | by rewrite Hst |].
  cbn beta iota. rewrite as_borrowed_from_borrowed.
  case_bool_decide as Hdec; cbn [negb]; [|wp_step; post; right; apply unchanged_refl].
  wp_step. wp_step. eapply wp_mono; [apply grant_authorize_exact|].
  intros [receipt|e|] s1 w1 (-> & Hw1 & _ & Hg); cbn beta iota; [| |done].
  2:{ split; [by eapply sup_inv_world|]. split; [done|]. right. apply unchanged_refl. }
  destruct Hg as (-> & Hlt & _). wp_step. apply wp_store_append; [apply Hi | |]; cbn beta iota.
  - intros es' evs w2 Hwf Hw2 Hex. wp_step. assert (Hw : world_le w w2) by by etrans.
    split; [|split; [done|]].
    + eapply (sup_inv_logged _ t r); try done. by rewrite Hst.
    + exists r, ao. split_and!; try done. rewrite Hreq. apply as_borrowed_from_borrowed.
  - intros es' e w2 Hwf Hw2 Hsame. assert (Hw : world_le w w2) by by etrans.
    assert (Hun : unchanged (consume s o) (set_event_store es' (consume s o))) by by split.
    split; [by eapply sup_inv_unchanged|]. split; [done | by right].
Qed.

End Ops.
