(* ===== verification/RecoveryFacts.v ===== *)
(** * Recovery of a supervisor

    What a recoverable store promises, and that recovery fails every interrupted
    task and establishes the supervisor's invariant. *)

From stdpp Require Import base numbers list gmap strings.
From Stdlib Require Import ZArith Lia.
From S2P Require Import Prelude RustStd TaskState TaskSpec Policy Event Approval Supervisor Recovery.
From S2P Require Import SupervisorInv SupervisorFacts.

(** What recovery relies on: one snapshot per task with a log, and the log
    replays to the snapshot's state. *)
Class RecoverableLaws (S : Type) `{EventStoreLaws S, !RecoverableEventStore S} : Prop := {
  recover_snapshots_sound : forall s snaps,
    store_wf s -> recover_task_snapshots s = Ok snaps ->
    NoDup (snapshot_task_id <$> snaps)
    /\ (forall t, store_log s t <> [] <-> t ∈ snapshot_task_id <$> snaps)
    /\ forall t q, mk_TaskSnapshot t q ∈ snaps -> replays (kind <$> store_log s t) q;
}.

Lemma recover_snapshot_Ok tid evs snap :
  recover_snapshot tid evs = Ok snap ->
  exists q, snap = mk_TaskSnapshot tid q /\ contiguous_from 1 evs /\ replays (kind <$> evs) q.
Proof.
  unfold recover_snapshot. destruct (recover_loop evs None 1 false) as [[st pf]|e] eqn:E; [|done].
  simpl. destruct pf; [done|]. destruct st as [q|]; [|done]. intros [= <-].
  apply recover_loop_Ok_contiguous in E as [Hc Hr]. by exists q.
Qed.

(** ** The replay of every listed task *)

Section Listed.
Context {S : Type} `{EventStoreLaws S}.

Lemma listed_snapshots s ids snaps :
  store_wf s ->
  collect (fun task_id => let? events := list_events s task_id 0 in recover_snapshot task_id events) ids
    = Ok snaps ->
  snapshot_task_id <$> snaps = ids
  /\ forall t q, mk_TaskSnapshot t q ∈ snaps -> replays (kind <$> store_log s t) q.
Proof.
  intros Hwf Hc. apply collect_Ok in Hc. induction Hc as [|t snap ids snaps Ht _ IH].
  - split; [done|]. intros t q Hin. by apply not_elem_of_nil in Hin.
  - destruct IH as [Hids Hrep].
    destruct (list_events s t 0) as [evs|] eqn:Hl; simpl in Ht; [|done].
    apply list_events_spec in Hl; [|done].
    rewrite contiguous_filter_zero in Hl by by apply store_contiguous.
    apply recover_snapshot_Ok in Ht as (q0 & -> & _ & Hr0). split; [by rewrite fmap_cons, Hids|].
    intros u q [E|Hin]%elem_of_cons; [|by apply Hrep]. injection E as -> ->. by subst.
Qed.

End Listed.

(** ** Recovery *)

Section Recover.
Context `{EnvLaws} {S : Type} `{EventStoreLaws S}.

(** The state of a task after recovery. *)
Definition settle (q : TaskState) : TaskState := if is_terminal q then q else Failed.

Definition restart_events (q : TaskState) : list TaskEventKind :=
  [EvTaskFailed RuntimeRestarted; EvStateTransitioned q Failed].

(** The supervisor while recovery works through the interrupted tasks. *)
Definition recovering (m : gmap TaskId TaskState) (es : S) (max : Z) : TaskSupervisor S :=
  mk_TaskSupervisor ∅ m ∅ es ApprovalAuthority_default ∅ ∅ max.

(** A log as recovery found it, or closed by the restart events. *)
Definition restarted (es es' : S) (t : TaskId) (q : TaskState) : Prop :=
  exists evs, store_log es' t = store_log es t ++ evs /\ (kind <$> evs) = restart_events q.

Lemma wp_fail_interrupted t q m es max w :
  store_wf es ->
  wp (fail_interrupted (t, q)) (fun r s' w' => world_le w w' /\ exists es', store_wf es' /\
    match r with
    | Return _ => s' = recovering (<[t := Failed]> m) es' max /\ extends es t (restart_events q) es'
    | Raise _ => s' = recovering m es' max /\ same_logs es es'
    | Panic => False
    end) (recovering m es max) w.
Proof.
  intros Hwf. unfold fail_interrupted. wp_step. apply wp_store_append; [done | |]; cbn beta iota.
  - intros es' evs w' Hwf' Hw Hex. wp_step. split; [done|]. by exists es'.
  - intros es' e w' Hwf' Hw Hs. split; [done|]. by exists es'.
Qed.

Lemma wp_fail_all max todo : forall m es w,
  store_wf es -> NoDup todo.*1 ->
  wp (for_each fail_interrupted todo) (fun r s' w' => world_le w w' /\ exists m' es', store_wf es'
    /\ s' = recovering m' es' max
    /\ (forall t, t ∉ todo.*1 -> store_log es' t = store_log es t /\ m' !! t = m !! t)
    /\ match r with
       | Return _ => forall t q, (t, q) ∈ todo -> restarted es es' t q /\ m' !! t = Some Failed
       | Raise _ => forall t q, (t, q) ∈ todo ->
           store_log es' t = store_log es t \/ restarted es es' t q
       | Panic => False
       end) (recovering m es max) w.
Proof.
  induction todo as [|[t q] todo IH]; intros m es w Hwf Hnd; simpl.
  { wp_step. split; [done|]. exists m, es. split_and!; try done.
    intros t q Hin. by apply not_elem_of_nil in Hin. }
  apply NoDup_cons in Hnd as [Ht Hnd]. wp_step. eapply wp_mono; [by apply wp_fail_interrupted|].
  intros [u|e|] s1 w1 (Hw1 & es1 & Hwf1 & Hr); cbn beta iota; [| |done].
  - destruct Hr as [-> [(evs & Hlog & Hk) Ho]]. eapply wp_mono; [by apply IH|].
    intros r s2 w2 (Hw2 & m2 & es2 & Hwf2 & -> & Hout & Hr2). split; [by etrans|].
    exists m2, es2. split_and!; try done.
    + intros u' Hu. apply not_elem_of_cons in Hu as [Hne Hu].
      destruct (Hout u' Hu) as [-> ->]. by rewrite Ho, lookup_insert_ne by done.
    + destruct (Hout t Ht) as [Hlt Hmt].
      assert (Hhead : restarted es es2 t q) by (exists evs; by rewrite Hlt).
      assert (Htail : forall t' q', (t', q') ∈ todo -> store_log es1 t' = store_log es t').
      { intros t' q' Hin. apply Ho. intros ->. apply Ht. by apply (list_elem_of_fmap_2 fst) in Hin. }
      destruct r as [u'|e|]; [| |done]; intros t' q' [[= -> ->]|Hin]%elem_of_cons.
      * by rewrite Hmt, lookup_insert_eq.
      * destruct (Hr2 t' q' Hin) as [(evs' & He & Hk') ?]. split; [|done].
        exists evs'. by rewrite He, (Htail t' q').
      * auto.
      * destruct (Hr2 t' q' Hin) as [He|(evs' & He & Hk')].
        -- left. by rewrite He, (Htail t' q').
        -- right. exists evs'. by rewrite He, (Htail t' q').
  - destruct Hr as [-> Hs]. split; [done|]. exists m, es1. split_and!; try done.
    intros t' q' _. by left.
Qed.

Lemma interrupted_spec (m : gmap TaskId TaskState) :
  NoDup (interrupted m).*1
  /\ forall t q, (t, q) ∈ interrupted m <-> m !! t = Some q /\ is_terminal q = false.
Proof.
  split.
  - eapply sublist_NoDup; [apply (btree_keys_NoDup m)|].
    unfold btree_keys, interrupted. apply fmap_sublist, sublist_filter.
  - intros t q. unfold interrupted. rewrite list_elem_of_filter, elem_of_btree_entries. tauto.
Qed.

(** ** The recovered supervisor satisfies the invariant *)

Lemma btree_len_same {K V W} `{Countable K} (m : gmap K V) (m' : gmap K W) :
  (forall k, is_Some (m !! k) <-> is_Some (m' !! k)) -> btree_len m = btree_len m'.
Proof.
  intros Hk. unfold btree_len. rewrite <-!(size_dom (D := gset K)). do 2 f_equal.
  apply set_eq. intros k. by rewrite !elem_of_dom.
Qed.

Lemma recovered_inv strict (m : gmap TaskId TaskState) es max w :
  store_wf es -> 0 < max <= usize_max -> btree_len m <= max ->
  (forall t, store_log es t <> [] -> unminted w (task_uuid t)) ->
  (forall t q, m !! t = Some q ->
     is_terminal q = true /\ store_log es t <> [] /\ replays (kind <$> store_log es t) q) ->
  (forall t, store_log es t <> [] -> is_Some (m !! t)) ->
  sup_inv strict (recovering m es max) w.
Proof.
  intros Hwf Hmax Hlen Hk Hm Hn.
  assert (Hts : forall t, task_state (recovering m es max) t = m !! t)
    by (intros t; unfold task_state; simpl; by rewrite lookup_empty).
  split.
  - split; [done | done | |by intros t; rewrite Hts; apply Hn].
    intros _ t q. rewrite Hts. by intros [_ [_ ?]]%Hm.
  - split; simpl; try done.
    + intros t q. rewrite Hts. intros [_ [? _]]%Hm. by apply Hk.
    + by intros t q [? _]%Hm.
    + intros k t. rewrite lookup_empty. split; [done|]. intros (r & Hr & _). by rewrite lookup_empty in Hr.
  - split; simpl; try (by intros t q; rewrite ?lookup_empty). apply default_authority_wf.
  - split; simpl; by intros ? ?; rewrite lookup_empty.
Qed.

(** What recovery did to each log: nothing to those of terminal tasks. *)
Definition recovered_log (es es' : S) (t : TaskId) (q : TaskState) : Prop :=
  if is_terminal q then store_log es' t = store_log es t else restarted es es' t q.

Lemma recovered_log_replays es es' t q :
  replays (kind <$> store_log es t) q -> recovered_log es es' t q ->
  replays (kind <$> store_log es' t) (settle q).
Proof.
  intros Hr. unfold recovered_log, settle. destruct (is_terminal q) eqn:Hq.
  - by intros ->.
  - intros (evs & -> & Hk). rewrite fmap_app, Hk. eapply replays_app; [done | by apply replay_failure].
Qed.

Lemma wp_owning {E} (s : TaskSupervisor S) (m : M (TaskSupervisor S) E unit) Q es w :
  wp m (fun r s' w' =>
    match r with
    | Return _ => Q (Return s') (event_store s') w'
    | Raise e => Q (Raise e) (event_store s') w'
    | Panic => Q Panic (event_store s') w'
    end) s w ->
  wp (owning s m) Q es w.
Proof. unfold wp, owning. by destruct (m s w) as [[[u|e|] s'] w']. Qed.

Lemma replays_nonempty l q : replays (kind <$> l) q -> l <> [].
Proof. by intros Hr ->. Qed.

Lemma replays_unique l q q' : replays l q -> replays l q' -> q = q'.
Proof. unfold replays. intros H1' H2'. congruence. Qed.

Section Table.
Context (es : S) (m : gmap TaskId TaskState).

(** The table recovery starts from: one entry per log, its replayed state. *)
Hypothesis m_log : forall t q, m !! t = Some q <-> replays (kind <$> store_log es t) q.
Hypothesis m_listed : forall t, store_log es t <> [] -> is_Some (m !! t).

Lemma fail_all_recovers strict max w es' m' :
  store_wf es' -> 0 < max <= usize_max -> btree_len m <= max ->
  (forall t, store_log es t <> [] -> unminted w (task_uuid t)) ->
  (forall t, t ∉ (interrupted m).*1 -> store_log es' t = store_log es t /\ m' !! t = m !! t) ->
  (forall t q, (t, q) ∈ interrupted m -> restarted es es' t q /\ m' !! t = Some Failed) ->
  sup_inv strict (recovering m' es' max) w
  /\ (forall t q, m !! t = Some q -> m' !! t = Some (settle q) /\ recovered_log es es' t q)
  /\ (forall t, m' !! t = None <-> store_log es t = [])
  /\ forall t, store_log es t = [] -> store_log es' t = [].
Proof.
  intros Hwf Hmax Hlen Hk Hout Hin. destruct (interrupted_spec m) as [_ Hint].
  assert (Heach : forall t q, m !! t = Some q -> m' !! t = Some (settle q) /\ recovered_log es es' t q).
  { intros t q Hq. unfold settle, recovered_log. destruct (is_terminal q) eqn:Ht.
    - destruct (Hout t) as [-> ->]; [|done]. rewrite list_elem_of_fmap.
      intros ([t' q'] & -> & Hi). apply Hint in Hi as [? ?]. simpl in *. congruence.
    - destruct (Hin t q) as [? ?]; [by apply Hint | done]. }
  assert (Hnone : forall t, m !! t = None -> store_log es' t = [] /\ m' !! t = None).
  { intros t Ht. destruct (Hout t) as [-> ->].
    - rewrite list_elem_of_fmap. intros ([t' q'] & -> & Hi). apply Hint in Hi as [? ?]. simpl in *. congruence.
    - split; [|done]. destruct (store_log es t) eqn:E; [done|].
      destruct (m_listed t) as [? ?]; [by rewrite E | congruence]. }
  split_and!; [|done| |].
  - apply recovered_inv; try done.
    + rewrite (btree_len_same m' m); [done|]. intros t. destruct (m !! t) as [q|] eqn:E.
      * destruct (Heach t q E) as [-> _]. by split; eexists.
      * destruct (Hnone t E) as [_ ->]. done.
    + intros t Ht. destruct (m !! t) as [q|] eqn:E; [|by destruct (Hnone t E) as [? _]].
      apply Hk. apply m_log in E. by eapply replays_nonempty.
    + intros t q Hq. destruct (m !! t) as [q0|] eqn:E; [|destruct (Hnone t E); congruence].
      destruct (Heach t q0 E) as [Hq' Hlog]. rewrite Hq in Hq'. simplify_eq.
      assert (Hr : replays (kind <$> store_log es' t) (settle q0))
        by (eapply recovered_log_replays; [by apply m_log | done]).
      split_and!; [|by eapply replays_nonempty | done]. unfold settle. by destruct (is_terminal q0) eqn:?.
    + intros t Ht. destruct (m !! t) as [q|] eqn:E; [|by destruct (Hnone t E) as [? _]].
      destruct (Heach t q E) as [-> _]. by eexists.
  - intros t. destruct (m !! t) as [q|] eqn:E.
    + destruct (Heach t q E) as [-> _]. split; [done|]. intros Hl. apply m_log in E.
      by apply replays_nonempty in E.
    + destruct (Hnone t E) as [_ Hn]. split; [|done]. intros _.
      destruct (store_log es t) eqn:El; [done|]. destruct (m_listed t) as [? ?]; [by rewrite El | congruence].
  - intros t Hl. destruct (m !! t) as [q|] eqn:E; [|by apply Hnone].
    apply m_log in E. by apply replays_nonempty in E.
Qed.

End Table.

Context `{!RecoverableEventStore S, !RecoverableLaws S}.

(** The table built from the snapshots of a store. *)
Lemma recovered_table es snaps m :
  store_wf es -> recover_task_snapshots es = Ok snaps -> insert_recovered snaps ∅ = Ok m ->
  (forall t q, m !! t = Some q <-> replays (kind <$> store_log es t) q)
  /\ forall t, store_log es t <> [] -> is_Some (m !! t).
Proof.
  intros Hwf Hsn Hm. destruct (recover_snapshots_sound es snaps Hwf Hsn) as (_ & Hlisted & Hrep).
  destruct (insert_recovered_Ok _ _ _ Hm) as (Hmem & _ & _).
  assert (Hl : forall t, store_log es t <> [] -> is_Some (m !! t)).
  { intros t Ht. apply Hlisted, list_elem_of_fmap in Ht as ([t' q] & -> & Hin). exists q.
    apply Hmem. by right. }
  assert (Hr : forall t q, m !! t = Some q -> replays (kind <$> store_log es t) q).
  { intros t q [Hq|Hq]%Hmem; [by rewrite lookup_empty in Hq | by apply Hrep]. }
  split; [|done]. intros t q. split; [apply Hr|]. intros Hq.
  destruct (Hl t) as [q' Hq']; [by eapply replays_nonempty|]. rewrite Hq'. f_equal.
  eapply replays_unique; [by apply Hr | done].
Qed.

Lemma wp_recover strict max es w :
  store_wf es -> 0 < max <= usize_max ->
  (forall t, store_log es t <> [] -> unminted w (task_uuid t)) ->
  wp (recover max) (fun r es' w' => world_le w w' /\ store_wf es' /\
    match r with
    | Return s => sup_inv strict s w' /\ event_store s = es' /\ tasks s = ∅
        /\ pending_operations s = ∅ /\ approved_operations s = ∅ /\ idempotency_index s = ∅
        /\ (forall t q, replays (kind <$> store_log es t) q ->
              task_state s t = Some (settle q) /\ recovered_log es es' t q)
        /\ (forall t, task_state s t = None <-> store_log es t = [])
        /\ forall t, store_log es t = [] -> store_log es' t = []
    | Raise _ => forall t, store_log es' t = store_log es t
        \/ exists q, replays (kind <$> store_log es t) q /\ is_terminal q = false /\ restarted es es' t q
    | Panic => False
    end) es w.
Proof.
  intros Hwf Hmax Hk. unfold recover. rewrite (proj2 (Z.eqb_neq max 0)) by lia.
  wp_step. wp_step. wp_step. wp_step.
  destruct (recover_task_snapshots es) as [snaps|e] eqn:Hsn; simpl; [|by split_and!; auto].
  destruct (recover_snapshots_sound es snaps Hwf Hsn) as (Hnd & _ & _).
  destruct (Z.ltb_spec max (len snaps)) as [|Hlen]; [by wp_step; split_and!; auto|].
  destruct (insert_recovered_NoDup snaps ∅ Hnd) as [m Hm];
    [by apply Forall_forall; intros; rewrite lookup_empty|].
  rewrite Hm. destruct (recovered_table es snaps m Hwf Hsn Hm) as [Hlog Hlisted].
  pose proof (insert_recovered_len _ _ _ Hm) as Hml.
  wp_step. wp_step. cbn [res_map_err]. wp_step. wp_step. wp_step. unfold with_max_tasks.
  rewrite (proj2 (Z.eqb_neq max 0)) by lia. wp_step. cbv zeta. apply wp_owning.
  destruct (interrupted_spec m) as [Hnd' Hint].
  eapply wp_mono; [by apply (wp_fail_all max (interrupted m) m es)|].
  intros r s' w' (Hw & m' & es' & Hwf' & -> & Hout & Hr).
  destruct r as [u|e|]; [| |done]; (split; [done|]; split; [done|]).
  - destruct (fail_all_recovers es m Hlog Hlisted strict max w' es' m') as (Hi & Heach & Hnone & Hempty);
      try done.
    + unfold btree_len in *. rewrite map_size_empty in Hml. lia.
    + intros t Ht. eauto with worlds.
    + assert (Hts : forall t, task_state (recovering m' es' max) t = m' !! t)
        by (intros t; unfold task_state; simpl; by rewrite lookup_empty).
      split_and!; try done.
      * intros t q Hq. rewrite Hts. by apply Heach, Hlog.
  - intros t. simpl. destruct (decide (t ∈ (interrupted m).*1)) as [Hin|Hni]; [|left; by apply Hout].
    apply list_elem_of_fmap in Hin as ([t' q] & -> & Hin). destruct (Hr _ _ Hin) as [?|?]; [by left|].
    right. exists q. apply Hint in Hin as [? ?]. split_and!; [by apply Hlog | done | done].
Qed.

End Recover.
