(* ===== verification/SupervisorRun.v ===== *)
(** * Runs of the supervisor

    Public calls, the supervisors they reach, and what every call does to every
    task: it moves it along the lifecycle and never changes its contract. *)

From stdpp Require Import base numbers list gmap strings.
From Stdlib Require Import ZArith Lia.
From S2P Require Import Prelude RustStd TaskState TaskSpec Policy Event Approval Supervisor Recovery.
From S2P Require Import SupervisorInv SupervisorFacts SupervisorOps RecoveryFacts.

(** A call of the supervisor's public interface that can change it. *)
Inductive Call :=
| CallSubmit (sp : TaskSpec)
| CallStart (t : TaskId)
| CallStartExecution (t : TaskId)
| CallRequest (t : TaskId) (request : CapabilityRequest) (ttl : Z)
| CallApprove (id : ApprovalId)
| CallDeny (id : ApprovalId)
| CallAuthorize (t : TaskId) (o : OperationId) (request : CapabilityRequest)
| CallExpire
| CallSucceed (t : TaskId)
| CallFail (t : TaskId)
| CallFailBudget (t : TaskId)
| CallCancel (t : TaskId).

Section Run.
Context `{EnvLaws} {S : Type} `{EventStoreLaws S}.
Implicit Types s : TaskSupervisor S.

Definition discard {A} (m : M (TaskSupervisor S) SupervisorError A)
    : M (TaskSupervisor S) SupervisorError unit := do! m in ret tt.

Definition run_call (c : Call) : M (TaskSupervisor S) SupervisorError unit :=
  match c with
  | CallSubmit sp => discard (submit sp)
  | CallStart t => start t
  | CallStartExecution t => discard (start_execution t)
  | CallRequest t request ttl => discard (request_operation t request ttl)
  | CallApprove id => discard (approve_operation id)
  | CallDeny id => discard (deny_operation id)
  | CallAuthorize t o request => discard (authorize_operation t o request)
  | CallExpire => discard expire_approvals
  | CallSucceed t => succeed t
  | CallFail t => fail t
  | CallFailBudget t => fail_budget_exceeded t
  | CallCancel t => discard (cancel t)
  end.

(** A caller is disciplined when it does not start a task that waits for an
    approval. *)
Definition disciplined s (c : Call) : Prop :=
  match c with
  | CallStart t | CallStartExecution t => task_state s t <> Some WaitingApproval
  | _ => True
  end.

Section Strict.
Variable strict : bool.

Inductive reachable : TaskSupervisor S -> World -> Prop :=
| reachable_init es max s w :
    store_wf es -> (forall t, store_log es t = []) -> 0 < max <= usize_max ->
    with_max_tasks es max = Ok s -> reachable s w
| reachable_recover (R : RecoverableEventStore S) es max s es' w w' :
    RecoverableLaws S -> store_wf es -> 0 < max <= usize_max ->
    (forall t, store_log es t <> [] -> unminted w (task_uuid t)) ->
    recover max es w = (Return s, es', w') -> reachable s w'
| reachable_call s w c r s' w' :
    reachable s w -> (strict = true -> disciplined s c) ->
    run_call c s w = (r, s', w') -> reachable s' w'
| reachable_time s w w' : reachable s w -> world_le w w' -> reachable s w'.

(** ** Evolution of the tasks *)

Record task_evolves (r r' : TaskRecord) : Prop := {
  te_spec : spec r' = spec r;
  te_state : rtc lifecycle_step (state r) (state r');
  te_started : strict = true -> is_Some (started_at r) -> started_at r' = started_at r;
}.

Definition evolves s s' : Prop :=
  forall t r, tasks s !! t = Some r -> exists r', tasks s' !! t = Some r' /\ task_evolves r r'.

#[export] Instance task_evolves_preorder : PreOrder task_evolves.
Proof.
  split.
  - intros r. split; [done | apply rtc_refl | done].
  - intros r1 r2 r3 [H12 H12' H12''] [H23 H23' H23'']. split; [congruence | by etrans |].
    intros Hs Hi. rewrite H23''; [auto | done |]. by rewrite H12''.
Qed.

#[export] Instance evolves_preorder : PreOrder evolves.
Proof.
  split.
  - intros s t r Hr. exists r. split; [done | reflexivity].
  - intros s1 s2 s3 H12 H23 t r Hr. destruct (H12 t r Hr) as (r2 & Hr2 & He2).
    destruct (H23 t r2 Hr2) as (r3 & Hr3 & He3). exists r3. split; [done | by etrans].
Qed.

Lemma evolves_same s s' : tasks s' = tasks s -> evolves s s'.
Proof. intros E t r Hr. exists r. rewrite E. split; [done | reflexivity]. Qed.

Lemma evolves_update s s' t r r' :
  tasks s !! t = Some r -> tasks s' = <[t := r']> (tasks s) -> task_evolves r r' -> evolves s s'.
Proof.
  intros Hr Hs' He u q Hq. rewrite Hs', lookup_insert. case_decide; [simplify_eq; by exists r'|].
  exists q. split; [done | reflexivity].
Qed.

Lemma task_evolves_step r next :
  lifecycle_step (state r) next -> task_evolves r (with_state next r).
Proof. intros Hstep. split; [done | by apply rtc_once | done]. Qed.

Lemma unchanged_evolves s s' : unchanged s s' -> evolves s s'.
Proof. intros [E _]. apply evolves_same. by rewrite E. Qed.

Lemma expiry_evolves now s s' w :
  ops_inv strict s w -> rtc (expiry_step now) s s' -> evolves s s'.
Proof.
  intros Ho Hrtc. assert (Hin : evolves s s' /\ ops_inv strict s' w); [|by apply Hin].
  induction Hrtc as [s|s1 s2 s3 Hstep _ IH]; [by split|].
  destruct Hstep as [s id po pa r es' Hpo Hpa Hd Hr Hex].
  destruct (pending_record _ _ _ _ _ Ho Hpo) as (r' & d & Hr' & Hst & _). simplify_eq.
  assert (H12 : evolves s (fail_pending s id po r es')).
  { eapply evolves_update; [done | done |]. by apply task_evolves_step, (pending_can_fail strict). }
  destruct IH as [H23 Ho3]; [|split; [by etrans | done]].
  eapply ops_inv_shrink; [done | by eapply shrinks_fail_pending | done].
Qed.

Lemma expires_evolves now s s' w : ops_inv strict s w -> expires now s s' -> evolves s s'.
Proof.
  intros Ho (s1 & Hrtc & Hun). etrans; [by eapply expiry_evolves | by apply unchanged_evolves].
Qed.

Lemma finished_evolves s t cur next failure s' :
  finished s t cur next failure s' -> lifecycle_step cur next -> evolves s s'.
Proof.
  intros [_ (r & Hr & <- & Ht) _ _] Hstep. eapply evolves_update; [done | done |].
  by apply task_evolves_step.
Qed.

Lemma started_evolves s w t r now s' :
  sup_inv strict s w -> tasks s !! t = Some r -> lifecycle_step (state r) Running ->
  (strict = true -> state r <> WaitingApproval) -> started s t r now s' -> evolves s s'.
Proof.
  intros Hi Hr Hstep Hs [E _]. eapply evolves_update; [done | by rewrite E |].
  split; [done | by apply rtc_once |]. intros Hstrict [n Hn].
  assert (Hq : state r = Queued) by (inversion Hstep; try done; exfalso; by apply Hs).
  apply (ro_queued _ (ti_record _ _ (si_table _ _ _ Hi) _ _ Hr)) in Hq. congruence.
Qed.

Lemma request_evolves s1 t req ttl w r s' : request_result s1 t req ttl w r s' -> evolves s1 s'.
Proof.
  destruct r as [[| |q]|e|]; simpl.
  - intros (rec & _ & _ & _ & E & _). apply evolves_same. by rewrite E.
  - intros (rec & _ & _ & _ & E & _). apply evolves_same. by rewrite E.
  - intros (rec & k & es' & Hr & Hst & _ & _ & _ & _ & _ & _ & _ & -> & _).
    eapply evolves_update; [done | done |]. apply task_evolves_step. rewrite Hst. constructor.
  - apply unchanged_evolves.
  - done.
Qed.

Lemma approve_evolves s1 id r s' : approve_result s1 id r s' -> evolves s1 s'.
Proof.
  destruct r as [q|e|]; simpl; [|apply unchanged_evolves | done].
  intros (po & rec & d & k & es' & _ & Hr & Hst & _ & _ & _ & -> & _).
  eapply evolves_update; [done | done |]. apply task_evolves_step. rewrite Hst. constructor.
Qed.

Lemma deny_evolves s1 w id r s' : ops_inv strict s1 w -> deny_result s1 id r s' -> evolves s1 s'.
Proof.
  intros Ho. destruct r as [q|e|]; simpl; [|apply unchanged_evolves | done].
  intros (po & rec & es' & Hpo & Hr & _ & -> & _).
  destruct (pending_record _ _ _ _ _ Ho Hpo) as (r' & d & Hr' & Hst & _). simplify_eq.
  eapply evolves_update; [done | done |]. by apply task_evolves_step, (pending_can_fail strict).
Qed.

Lemma submitted_evolves s t sp st s' : submitted s t sp st s' -> evolves s s'.
Proof.
  intros (Hts & _ & E & _) u r Hr. rewrite E. exists r. split; [|reflexivity]. simpl.
  rewrite lookup_insert_ne; [done|]. intros <-. unfold task_state in Hts. by rewrite Hr in Hts.
Qed.

(** ** Evolution of the logs *)

(** The tasks evolve and the logs only grow. *)
Definition advances s s' : Prop := evolves s s' /\ grows (event_store s) (event_store s').

#[export] Instance advances_preorder : PreOrder advances.
Proof.
  split.
  - intros s. split; [reflexivity | by intros t].
  - intros s1 s2 s3 [E1 G1] [E2 G2]. split; [by etrans | intros t; by transitivity (store_log (event_store s2) t)].
Qed.

Lemma unchanged_advances s s' : unchanged s s' -> advances s s'.
Proof. intros Hun. split; [by apply unchanged_evolves | by apply same_logs_grows, Hun]. Qed.

Lemma expiry_grows now s s' : rtc (expiry_step now) s s' -> grows (event_store s) (event_store s').
Proof.
  induction 1 as [s|s1 s2 s3 [s id po pa r es' _ _ _ _ Hex] _ IH]; [by intros t|].
  intros t. transitivity (store_log es' t); [by eapply extends_grows | apply IH].
Qed.

Lemma expires_advances now s s' w : ops_inv strict s w -> expires now s s' -> advances s s'.
Proof.
  intros Ho (s1 & Hrtc & Hun). etrans; [|by apply unchanged_advances].
  split; [by eapply expiry_evolves | by eapply expiry_grows].
Qed.

Lemma finished_advances s t cur next failure s' :
  finished s t cur next failure s' -> lifecycle_step cur next -> advances s s'.
Proof. intros Hf Hstep. split; [by eapply finished_evolves | by eapply extends_grows, Hf]. Qed.

Lemma started_advances s w t r now s' :
  sup_inv strict s w -> tasks s !! t = Some r -> lifecycle_step (state r) Running ->
  (strict = true -> state r <> WaitingApproval) -> started s t r now s' -> advances s s'.
Proof. intros Hi Hr Hstep Hs Hst. split; [by eapply started_evolves | by eapply extends_grows, Hst]. Qed.

Lemma request_advances s1 t req ttl w r s' : request_result s1 t req ttl w r s' -> advances s1 s'.
Proof.
  intros Hr. split; [by eapply request_evolves|]. destruct r as [[| |q]|e|]; simpl in Hr; [| | | |done].
  - destruct Hr as (rec & _ & _ & _ & _ & Hex). by eapply extends_grows.
  - destruct Hr as (rec & _ & _ & _ & _ & Hex). by eapply extends_grows.
  - destruct Hr as (rec & k & es' & _ & _ & _ & _ & _ & _ & _ & _ & _ & -> & Hex). by eapply extends_grows.
  - by apply unchanged_advances.
Qed.

Lemma approve_advances s1 id r s' : approve_result s1 id r s' -> advances s1 s'.
Proof.
  intros Hr. split; [by eapply approve_evolves|]. destruct r as [q|e|]; simpl in Hr; [|by apply unchanged_advances | done].
  destruct Hr as (po & rec & d & k & es' & _ & _ & _ & _ & _ & _ & -> & Hex). by eapply extends_grows.
Qed.

Lemma deny_advances s1 w id r s' : ops_inv strict s1 w -> deny_result s1 id r s' -> advances s1 s'.
Proof.
  intros Ho Hr. split; [by eapply deny_evolves|]. destruct r as [q|e|]; simpl in Hr; [|by apply unchanged_advances | done].
  destruct Hr as (po & rec & es' & _ & _ & _ & -> & Hex). by eapply extends_grows.
Qed.

Lemma submitted_advances s t sp st s' : submitted s t sp st s' -> advances s s'.
Proof. intros Hs. split; [by eapply submitted_evolves | by eapply extends_grows, Hs]. Qed.

(** ** Every call *)

Definition good_step s w s' w' : Prop := sup_inv strict s' w' /\ world_le w w' /\ advances s s'.

Lemma wp_good {A} (m : M (TaskSupervisor S) SupervisorError A) Post s w :
  wp m (fun r s' w' => sup_inv strict s' w' /\ world_le w w' /\ Post r s' w') s w ->
  (forall r s' w', Post r s' w' -> r <> Panic /\ advances s s') ->
  wp (discard m) (fun r s' w' => r <> Panic /\ good_step s w s' w') s w.
Proof.
  intros Hm HP. unfold discard. wp_step. eapply wp_mono; [exact Hm|].
  intros [a|e|] s' w' (? & ? & Hpost); apply HP in Hpost as [Hr ?]; [wp_step| |done];
    (split; [done|]; by split_and!).
Qed.

Lemma discard_unit (m : M (TaskSupervisor S) SupervisorError unit) Q s w :
  wp (discard m) Q s w -> wp m Q s w.
Proof. unfold wp, discard, bind. by destruct (m s w) as [[[[]|e|] s'] w']. Qed.

Lemma disciplined_start s t :
  (strict = true -> task_state s t <> Some WaitingApproval) ->
  forall r, tasks s !! t = Some r -> strict = true -> state r <> WaitingApproval.
Proof. intros Hd r Hr Hs E. apply (Hd Hs). unfold task_state. rewrite Hr. congruence. Qed.

Lemma submit_good sp s w :
  sup_inv strict s w ->
  wp (discard (submit sp)) (fun r s' w' => r <> Panic /\ good_step s w s' w') s w.
Proof.
  intros Hi. eapply wp_good; [by apply wp_submit|].
  intros [[q|q|q errs]|e|] s' w' Hr; try done; (split; [done|]).
  - destruct Hr as (_ & _ & Hs). by eapply submitted_advances.
  - destruct Hr as [-> _]. reflexivity.
  - destruct Hr as (_ & _ & Hs). by eapply submitted_advances.
  - apply unchanged_advances, Hr.
Qed.

Lemma start_good t s w :
  sup_inv strict s w -> (strict = true -> task_state s t <> Some WaitingApproval) ->
  wp (discard (start t)) (fun r s' w' => r <> Panic /\ good_step s w s' w') s w
  /\ wp (discard (start_execution t)) (fun r s' w' => r <> Panic /\ good_step s w s' w') s w.
Proof.
  intros Hi Hd. pose proof (disciplined_start s t Hd) as Hd'. split.
  - eapply wp_good; [by apply wp_start|].
    intros [u|e|] s' w' Hr; [|split; [done | by apply unchanged_advances] | done]. split; [done|].
    destruct Hr as (r & k & Htr & Hstep & _ & Hst). eapply started_advances; eauto.
  - eapply wp_good; [by apply wp_start_execution|].
    intros [u|e|] s' w' Hr; [|split; [done | by apply unchanged_advances] | done]. split; [done|].
    destruct Hr as (r & k & Htr & Hstep & _ & Hst & _). eapply started_advances; eauto.
Qed.

Lemma approval_good id s w :
  sup_inv strict s w ->
  wp (discard (approve_operation id)) (fun r s' w' => r <> Panic /\ good_step s w s' w') s w
  /\ wp (discard (deny_operation id)) (fun r s' w' => r <> Panic /\ good_step s w s' w') s w.
Proof.
  intros Hi. split.
  - eapply wp_good; [by apply wp_approve_operation|].
    intros r s' w' (s1 & w1 & _ & He & Hr & _). split; [by intros ->|].
    etrans; [eapply expires_advances; [apply Hi | done] | by eapply approve_advances].
  - eapply wp_good; [by apply wp_deny_operation|].
    intros r s' w' (s1 & w1 & Hi1 & He & Hr & _). split; [by intros ->|].
    etrans; [eapply expires_advances; [apply Hi | done] | eapply deny_advances; [apply Hi1 | done]].
Qed.

Lemma request_good t req ttl s w :
  sup_inv strict s w ->
  wp (discard (request_operation t req ttl)) (fun r s' w' => r <> Panic /\ good_step s w s' w') s w.
Proof.
  intros Hi. eapply wp_good; [by apply wp_request_operation|].
  intros r s' w' (s1 & w1 & He & _ & Hr & _). split; [by intros ->|].
  etrans; [eapply expires_advances; [apply Hi | done] | by eapply request_advances].
Qed.

Lemma authorize_good t o req s w :
  sup_inv strict s w ->
  wp (discard (authorize_operation t o req)) (fun r s' w' => r <> Panic /\ good_step s w s' w') s w.
Proof.
  intros Hi. eapply wp_good; [by apply wp_authorize_operation|].
  intros [q|e|] s' w' Hr; [| |done]; (split; [done|]).
  - destruct Hr as (rec & ao & _ & _ & _ & _ & _ & _ & _ & _ & E & Hex).
    split; [apply evolves_same; by rewrite E | by eapply extends_grows].
  - destruct Hr as [Hr|Hr]; [by apply unchanged_advances|]. by apply unchanged_advances in Hr.
Qed.

Lemma finish_good t next s w :
  sup_inv strict s w -> is_terminal next = true ->
  wp (discard (transition t next)) (fun r s' w' => r <> Panic /\ good_step s w s' w') s w
  /\ wp (discard (fail_budget_exceeded t)) (fun r s' w' => r <> Panic /\ good_step s w s' w') s w
  /\ wp (discard (cancel t)) (fun r s' w' => r <> Panic /\ good_step s w s' w') s w.
Proof.
  intros Hi Hn. split_and!.
  - eapply wp_good; [by apply wp_transition_terminal|].
    intros [u|e|] s' w' Hr; [|split; [done | apply unchanged_advances, Hr] | done]. split; [done|].
    destruct Hr as (cur & _ & Hstep & Hf). by eapply finished_advances.
  - eapply wp_good; [by apply wp_fail_budget_exceeded|].
    intros [u|e|] s' w' Hr; [|split; [done | by apply unchanged_advances] | done]. split; [done|].
    destruct Hr as (cur & _ & Hstep & Hf). by eapply finished_advances.
  - eapply wp_good; [by apply wp_cancel|].
    intros [[]|e|] s' w' Hr; [| |split; [done | by apply unchanged_advances] | done]; (split; [done|]).
    + destruct Hr as (cur & _ & Hc & Hf). eapply finished_advances; [done | by constructor].
    + by destruct Hr as [-> _].
Qed.

Lemma wp_run_call c s w :
  sup_inv strict s w -> (strict = true -> disciplined s c) ->
  wp (run_call c) (fun r s' w' => r <> Panic /\ good_step s w s' w') s w.
Proof.
  intros Hi Hd. destruct c as [sp|t|t|t req ttl|id|id|t o req| |t|t|t|t]; simpl in *.
  - by apply submit_good.
  - by apply discard_unit, start_good.
  - by apply start_good.
  - by apply request_good.
  - by apply approval_good.
  - by apply approval_good.
  - by apply authorize_good.
  - eapply wp_good; [by apply wp_expire_approvals|]. intros r s' w' [He Hr].
    split; [by intros -> | eapply expires_advances; [apply Hi | done]].
  - by apply discard_unit, finish_good.
  - by apply discard_unit, finish_good.
  - by apply discard_unit, (finish_good t Failed).
  - by apply (finish_good t Failed).
Qed.

Lemma init_inv es max s w :
  store_wf es -> (forall t, store_log es t = []) -> 0 < max <= usize_max ->
  with_max_tasks es max = Ok s -> sup_inv strict s w.
Proof.
  intros Hwf Hlog Hmax. unfold with_max_tasks. destruct (Z.eqb_spec max 0); [done|]. intros [= <-].
  split; simpl.
  - split; [done | by intros t; rewrite Hlog | |by intros t; rewrite Hlog]. intros _ t q. unfold task_state. simpl.
    by rewrite !lookup_empty.
  - split; simpl; try (by intros t q; rewrite !lookup_empty); [| | unfold btree_len; rewrite !map_size_empty; lia | done].
    + intros t q. unfold task_state. simpl. by rewrite !lookup_empty.
    + intros k t. rewrite lookup_empty. split; [done|]. intros (r & Hr & _). by rewrite lookup_empty in Hr.
  - split; simpl; try (by intros t q; rewrite ?lookup_empty).
    apply default_authority_wf.
  - split; simpl; by intros ? ?; rewrite lookup_empty.
Qed.

Lemma reachable_inv s w : reachable s w -> sup_inv strict s w.
Proof.
  induction 1 as [es max s w Hwf Hlog Hmax Hs|R es max s es' w w' HR Hwf Hmax Hk Hrun|s w c r s' w' _ IH Hd Hrun|s w w' _ IH Hw].
  - by eapply init_inv.
  - pose proof (wp_recover strict max es w Hwf Hmax Hk) as Hwp. unfold wp in Hwp.
    rewrite Hrun in Hwp. apply Hwp.
  - pose proof (wp_run_call c s w IH Hd) as Hwp. unfold wp in Hwp. rewrite Hrun in Hwp. apply Hwp.
  - by eapply sup_inv_world.
Qed.

End Strict.
End Run.
