(* ===== verification/SupervisorProps.v ===== *)
(** * Properties of the supervisor

    The statements about whole runs, each with a run that meets its hypotheses. *)

From stdpp Require Import base numbers list gmap strings.
From Stdlib Require Import ZArith Lia.
From S2P Require Import Prelude RustStd TaskState TaskSpec Policy Event Approval Supervisor Recovery.
From S2P Require Import SupervisorInv SupervisorFacts SupervisorOps RecoveryFacts SupervisorRun.

(** ** Sequences of calls *)

Section Calls.
Context `{EnvLaws} {S : Type} `{EventStoreLaws S}.

Fixpoint run_calls (cs : list Call) (s : TaskSupervisor S) (w : World) : TaskSupervisor S * World :=
  match cs with
  | [] => (s, w)
  | c :: cs' => let '(_, s', w') := run_call c s w in run_calls cs' s' w'
  end.

Definition disciplined_call (s : TaskSupervisor S) (c : Call) : bool :=
  match c with
  | CallStart t | CallStartExecution t => negb (bool_decide (task_state s t = Some WaitingApproval))
  | _ => true
  end.

Fixpoint disciplined_calls (cs : list Call) (s : TaskSupervisor S) (w : World) : bool :=
  match cs with
  | [] => true
  | c :: cs' =>
      disciplined_call s c && (let '(_, s', w') := run_call c s w in disciplined_calls cs' s' w')
  end.

Lemma run_calls_reachable strict cs s w :
  reachable strict s w -> (strict = true -> disciplined_calls cs s w = true) ->
  reachable strict (run_calls cs s w).1 (run_calls cs s w).2.
Proof.
  revert s w. induction cs as [|c cs IH]; intros s w Hr Hd; simpl; [done|].
  destruct (run_call c s w) as [[r s'] w'] eqn:Hrun. simpl in Hd. rewrite Hrun in Hd.
  apply IH; [|by intros Hs; apply Hd, Bool.andb_true_iff in Hs as [_ ?]].
  eapply reachable_call; [done | | done].
  intros Hs. apply Hd, Bool.andb_true_iff in Hs as [Hc _].
  destruct c; simpl in *; try done; by rewrite Bool.negb_true_iff, bool_decide_eq_false in Hc.
Qed.

End Calls.

(** A fresh supervisor on an empty in-memory store. *)
Definition demo_supervisor : TaskSupervisor InMemoryEventStore :=
  mk_TaskSupervisor ∅ ∅ ∅ InMemoryEventStore_default ApprovalAuthority_default ∅ ∅ 10.

Lemma demo_reachable strict w : reachable strict demo_supervisor w.
Proof.
  apply (reachable_init strict InMemoryEventStore_default 10); try done.
Qed.

Definition demo_task : TaskId := mk_TaskId 0.
Definition commit_request : CapabilityRequest := ToolRequest "test_runner" "git.commit".

(** Submit a task, start it and ask for an operation that needs approval. *)
Definition demo_calls : list Call :=
  [CallSubmit example_task; CallStart demo_task;
   CallRequest demo_task commit_request (Duration_from_secs 60)].

Definition demo_run (cs : list Call) : TaskSupervisor InMemoryEventStore * World :=
  run_calls cs demo_supervisor world0.

Lemma demo_reach strict cs :
  disciplined_calls cs demo_supervisor world0 = true ->
  reachable strict (demo_run cs).1 (demo_run cs).2.
Proof. intros Hd. apply run_calls_reachable; [apply demo_reachable | done]. Qed.

Section Shared.
Context `{EnvLaws} {S : Type} `{EventStoreLaws S}.

Lemma run_call_good strict s w c r s' w' :
  reachable strict s w -> (strict = true -> disciplined s c) -> run_call c s w = (r, s', w') ->
  r <> Panic /\ good_step strict s w s' w'.
Proof.
  intros Hr%reachable_inv Hd Hrun. pose proof (wp_run_call strict c s w Hr Hd) as Hwp.
  unfold wp in Hwp. by rewrite Hrun in Hwp.
Qed.

(** A postcondition as a fact about a run. *)
Lemma wp_run {X E A} (m : M X E A) Q x w r x' w' : wp m Q x w -> m x w = (r, x', w') -> Q r x' w'.
Proof. unfold wp. intros Hq E'. by rewrite E' in Hq. Qed.

Lemma run_discard {A} (m : M (TaskSupervisor S) SupervisorError A) s w e s' w' :
  discard m s w = (Raise e, s', w') -> m s w = (Raise e, s', w').
Proof. unfold discard, bind. destruct (m s w) as [[[a|e'|] s1] w1]; naive_solver. Qed.

Lemma pending_len (s : TaskSupervisor S) w strict :
  ops_inv strict s w -> btree_len (pending_operations s) = btree_len (pending (approval_authority s)).
Proof.
  intros Ho. apply btree_len_same. intros id. split.
  - intros [po Hpo]. destruct (pending_record _ _ _ _ _ Ho Hpo) as (r & d & _ & _ & _ & ->). by eexists.
  - intros [pa Hpa]. by eapply oi_listed.
Qed.

End Shared.

(** ** Invariant of every reachable supervisor *)

(** C6: Whatever public calls are made and however the store fails, no call
    panics (in particular the two [expect] on stored specifications never fire)
    and the supervisor stays coherent: a waiting task has exactly one pending
    operation, the pending operations are the authority's entries, bounded by
    its capacity, and the tasks stay within their limit. *)
Theorem reachable_supervisors_are_coherent `{EnvLaws} {St} `{EventStoreLaws St} strict (s : TaskSupervisor St) w c r s' w' :
  reachable strict s w -> (strict = true -> disciplined s c) -> run_call c s w = (r, s', w') ->
  r <> Panic
  /\ (forall t rec, tasks s' !! t = Some rec -> state rec = WaitingApproval ->
        exists id po, pending_operations s' !! id = Some po /\ po_task_id po = t
          /\ forall id' po', pending_operations s' !! id' = Some po' -> po_task_id po' = t -> id' = id)
  /\ (forall id, is_Some (pending_operations s' !! id) <->
                 is_Some (pending (approval_authority s') !! id))
  /\ btree_len (pending_operations s') <= MAX_MAX_PENDING_APPROVALS
  /\ btree_len (tasks s') + btree_len (recovered_tasks s') <= max_tasks s'.
Proof.
  intros Hr Hd Hrun. destruct (run_call_good strict s w c r s' w' Hr Hd Hrun) as (Hp & Hi & _ & _).
  destruct Hi as [_ Ht Ho _]. split_and!; [done | | | | apply Ht].
  - intros t rec Hrec Hst. destruct (oi_waiting _ _ _ Ho t rec Hrec Hst) as (id & po & Hpo & Hpt).
    exists id, po. split_and!; [done..|]. intros id' po' Hpo' Hpt'.
    eapply (oi_one _ _ _ Ho); eauto. left. congruence.
  - intros id. split.
    + intros [po Hpo]. destruct (pending_record _ _ _ _ _ Ho Hpo) as (rec & d & _ & _ & _ & ->). by eexists.
    + intros [pa Hpa]. by eapply oi_listed.
  - rewrite (pending_len s' w' strict Ho). pose proof (oi_authority _ _ _ Ho) as Ha.
    pose proof (aw_limit _ Ha). pose proof (aw_bounded _ Ha). lia.
Qed.

Lemma reachable_supervisors_are_coherent_witness :
  let '(s, w) := demo_run demo_calls in
  (run_call (CallDeny (mk_ApprovalId 2)) s w).1.1 <> Panic.
Proof.
  assert (Hr : reachable true (demo_run demo_calls).1 (demo_run demo_calls).2)
    by (apply demo_reach; vm_compute; reflexivity).
  destruct (demo_run demo_calls) as [s w]. simpl in Hr.
  destruct (run_call (CallDeny (mk_ApprovalId 2)) s w) as [[r s'] w'] eqn:E. simpl.
  exact (proj1 (reachable_supervisors_are_coherent true s w (CallDeny (mk_ApprovalId 2)) r s' w' Hr
           (fun _ => I) E)).
Defined.

Lemma contiguous_lookup k l n e :
  contiguous_from k l -> l !! n = Some e -> sequence e = k + Z.of_nat n.
Proof.
  revert k n. induction l as [|x l IH]; intros k n Hc He; [done|]. destruct Hc as [Hx Hc].
  destruct n as [|n]; simpl in He; [injection He as <-; lia|]. specialize (IH _ _ Hc He). lia.
Qed.

(** C7: States stay well typed: in every reachable supervisor each stored event
    belongs to the task whose log holds it, carries its position as its sequence
    number, and its number and time fit [u64]; no task is stored in one of the two
    transient states; a task is rejected exactly when its specification is invalid; a
    queued task has no start time and a running or waiting one has; what was recovered
    is terminal and apart from the live tasks; and every table is within its [usize]
    limit. *)
Theorem reachable_states_are_well_typed `{EnvLaws} {St} `{EventStoreLaws St} strict (s : TaskSupervisor St) w :
  reachable strict s w ->
  (forall t n e, store_log (event_store s) t !! n = Some e ->
     event_typed t e /\ sequence e = Z.of_nat n + 1)
  /\ (forall t r, tasks s !! t = Some r ->
        state r <> Submitted /\ state r <> Validating /\ (state r = Rejected <-> ~ spec_valid (spec r))
        /\ (state r = Queued -> started_at r = None)
        /\ (state r = Running \/ state r = WaitingApproval -> is_Some (started_at r)))
  /\ (forall t q, recovered_tasks s !! t = Some q -> is_terminal q = true /\ tasks s !! t = None)
  /\ btree_len (tasks s) + btree_len (recovered_tasks s) <= max_tasks s <= usize_max
  /\ btree_len (pending (approval_authority s)) <= max_pending (approval_authority s) <= usize_max.
Proof.
  intros Hi%reachable_inv. destruct Hi as [Hl Ht Ho _]. split_and!; try apply Ht.
  - intros t n e He. split.
    + apply (Forall_lookup_1 _ _ _ _ (store_typed _ t (li_store _ _ _ _ Hl)) He).
    + rewrite (contiguous_lookup 1 _ n e (store_contiguous _ t (li_store _ _ _ _ Hl)) He). lia.
  - intros t r Hr. destruct (ti_record _ _ Ht t r Hr) as [[? ?] Hv Hj Hs Hq]. split_and!; try done.
    rewrite <-validate_Ok. split; [done|]. intros Hn. destruct (decide (state r = Rejected)); [done|]. by destruct Hn; apply Hv.
  - apply Ho.
  - pose proof (aw_limit _ (oi_authority _ _ _ Ho)) as Hlim. unfold MAX_MAX_PENDING_APPROVALS, usize_max in *. lia.
Qed.

Lemma reachable_states_are_well_typed_witness :
  let s := (demo_run demo_calls).1 in
  exists e, store_log (event_store s) demo_task !! 2%nat = Some e /\ sequence e = 3 /\ event_typed demo_task e.
Proof.
  intros s. assert (Hr : reachable true (demo_run demo_calls).1 (demo_run demo_calls).2)
    by (apply demo_reach; vm_compute; reflexivity).
  eexists. split; [vm_compute; reflexivity|]. split; [reflexivity|].
  exact (proj1 (proj1 (reachable_states_are_well_typed true s _ Hr) demo_task 2%nat _ eq_refl)).
Defined.

(** C25: The supervisor refines the lifecycle: every call moves every task
    along transitions of the lifecycle table, never changes a stored
    specification, only ever appends to the audit logs, and, when waiting tasks are
    not started again, never changes the start time from which the wall-time budget is
    measured. *)
Theorem calls_follow_the_lifecycle `{EnvLaws} {St} `{EventStoreLaws St} strict (s : TaskSupervisor St) w c r s' w' t rec :
  reachable strict s w -> (strict = true -> disciplined s c) -> run_call c s w = (r, s', w') ->
  tasks s !! t = Some rec ->
  exists rec', tasks s' !! t = Some rec' /\ spec rec' = spec rec
    /\ rtc lifecycle_step (state rec) (state rec')
    /\ (strict = true -> is_Some (started_at rec) -> started_at rec' = started_at rec)
    /\ forall u, store_log (event_store s) u `prefix_of` store_log (event_store s') u.
Proof.
  intros Hr Hd Hrun Hrec. destruct (run_call_good strict s w c r s' w' Hr Hd Hrun) as (_ & _ & _ & He & Hg).
  destruct (He t rec Hrec) as (rec' & Hrec' & [? ? ?]). by exists rec'.
Qed.

Lemma calls_follow_the_lifecycle_witness :
  exists rec rec',
    tasks (demo_run demo_calls).1 !! demo_task = Some rec
    /\ tasks (demo_run (demo_calls ++ [CallApprove (mk_ApprovalId 2)])).1 !! demo_task = Some rec'
    /\ state rec = WaitingApproval /\ state rec' = Running
    /\ started_at rec' = started_at rec.
Proof.
  assert (Hr : reachable true (demo_run demo_calls).1 (demo_run demo_calls).2)
    by (apply demo_reach; vm_compute; reflexivity).
  do 2 eexists. split; [vm_compute; reflexivity|]. split; [vm_compute; reflexivity|].
  split; [reflexivity|]. split; [reflexivity|].
  destruct (calls_follow_the_lifecycle true (demo_run demo_calls).1 (demo_run demo_calls).2
    (CallApprove (mk_ApprovalId 2)) (Return tt)
    (demo_run (demo_calls ++ [CallApprove (mk_ApprovalId 2)])).1
    (demo_run (demo_calls ++ [CallApprove (mk_ApprovalId 2)])).2 demo_task
    (mk_TaskRecord example_task WaitingApproval (Some 0)) Hr (fun _ => I))
    as (rec' & Hrec' & _ & _ & Hst & _); [vm_compute; reflexivity | vm_compute; reflexivity |].
  vm_compute in Hrec'. injection Hrec' as <-. apply Hst; [reflexivity | eexists; reflexivity].
Defined.

(** C8: The audit log determines the state: in every run in which no waiting task
    is started again, and for a log of fewer than [u64::MAX] events, replaying a
    task's log, as the persistent store does at start-up, gives exactly the state the
    supervisor holds in memory.  Without the first condition the replay can fail:
    [SqliteProps] shows the run. *)
Theorem log_replays_to_state `{EnvLaws} {St} `{EventStoreLaws St} (s : TaskSupervisor St) w t q :
  reachable true s w -> task_state s t = Some q -> len (store_log (event_store s) t) < u64_max ->
  recover_snapshot t (store_log (event_store s) t) = Ok (mk_TaskSnapshot t q).
Proof.
  intros [Hl _ _ _]%reachable_inv Hq Hlen. apply recover_snapshot_replays; [|done|].
  - apply store_contiguous, Hl.
  - by apply (li_replays _ _ _ _ Hl).
Qed.

Lemma log_replays_to_state_witness :
  recover_snapshot demo_task (log_of (event_store (demo_run demo_calls).1) demo_task)
  = Ok (mk_TaskSnapshot demo_task WaitingApproval).
Proof.
  refine (log_replays_to_state (demo_run demo_calls).1 (demo_run demo_calls).2 demo_task
            WaitingApproval _ _ _);
    [apply demo_reach; vm_compute; reflexivity | vm_compute; reflexivity | vm_compute; reflexivity].
Defined.

(** C26: Audit comes first: a call that reports an error has changed nothing but
    what it had already recorded, in whatever run, runs that start a waiting task
    again included.  Submission, start and the terminal calls leave
    tasks, operations, authority and logs as they were; requests, approvals,
    denials and expiry leave what the preceding expiry of overdue requests left; a
    failed consumption at most drops the grant it was offered. *)
Theorem failed_calls_leave_no_trace `{EnvLaws} {St} `{EventStoreLaws St} strict (s : TaskSupervisor St) w c e s' w' :
  reachable strict s w -> (strict = true -> disciplined s c) -> run_call c s w = (Raise e, s', w') ->
  match c with
  | CallRequest _ _ _ | CallApprove _ | CallDeny _ | CallExpire =>
      exists s1, expires (instant_at (instants_read w)) s s1 /\ unchanged s1 s'
  | CallAuthorize _ o _ => unchanged s s' \/ unchanged (consume s o) s'
  | _ => unchanged s s'
  end.
Proof.
  intros Hi%reachable_inv Hd Hrun.
  destruct c as [sp|t|t|t req ttl|id|id|t o req| |t|t|t|t]; simpl in *; try apply run_discard in Hrun.
  - apply (wp_run _ _ _ _ _ _ _ (wp_submit strict sp s w Hi)) in Hrun. apply Hrun.
  - apply (wp_run _ _ _ _ _ _ _ (wp_start strict t s w Hi Hd)) in Hrun. apply Hrun.
  - apply (wp_run _ _ _ _ _ _ _ (wp_start_execution strict t s w Hi Hd)) in Hrun. apply Hrun.
  - apply (wp_run _ _ _ _ _ _ _ (wp_request_operation strict t req ttl s w Hi)) in Hrun.
    destruct Hrun as (_ & _ & s1 & w1 & ? & _ & ? & _). by exists s1.
  - apply (wp_run _ _ _ _ _ _ _ (wp_approve_operation strict id s w Hi)) in Hrun.
    destruct Hrun as (_ & _ & s1 & w1 & _ & ? & ? & _). by exists s1.
  - apply (wp_run _ _ _ _ _ _ _ (wp_deny_operation strict id s w Hi)) in Hrun.
    destruct Hrun as (_ & _ & s1 & w1 & _ & ? & ? & _). by exists s1.
  - apply (wp_run _ _ _ _ _ _ _ (wp_authorize_operation strict t o req s w Hi)) in Hrun. apply Hrun.
  - apply (wp_run _ _ _ _ _ _ _ (wp_expire_approvals strict s w Hi)) in Hrun.
    destruct Hrun as (_ & _ & (s1 & Hrtc & Hun) & _). exists s'. split; [by exists s1 | apply unchanged_refl].
  - apply (wp_run _ _ _ _ _ _ _ (wp_transition_terminal strict t Succeeded s w Hi eq_refl)) in Hrun. apply Hrun.
  - apply (wp_run _ _ _ _ _ _ _ (wp_transition_terminal strict t Failed s w Hi eq_refl)) in Hrun. apply Hrun.
  - apply (wp_run _ _ _ _ _ _ _ (wp_fail_budget_exceeded strict t s w Hi)) in Hrun. apply Hrun.
  - apply (wp_run _ _ _ _ _ _ _ (wp_cancel strict t s w Hi)) in Hrun. apply Hrun.
Qed.

(** The run starts the waiting task again before the failing call. *)
Lemma failed_calls_leave_no_trace_witness :
  unchanged (demo_run (demo_calls ++ [CallStart demo_task])).1
    (demo_run (demo_calls ++ [CallStart demo_task; CallStart demo_task])).1.
Proof.
  assert (Hr : reachable false (demo_run (demo_calls ++ [CallStart demo_task])).1
                 (demo_run (demo_calls ++ [CallStart demo_task])).2)
    by (apply run_calls_reachable; [apply demo_reachable | discriminate]).
  refine (failed_calls_leave_no_trace false _ _
           (CallStart demo_task)
           (InvalidStateTransition (mk_StateTransitionError Running Running))
           (demo_run (demo_calls ++ [CallStart demo_task; CallStart demo_task])).1
           (demo_run (demo_calls ++ [CallStart demo_task; CallStart demo_task])).2 Hr _ _).
  - discriminate.
  - vm_compute. reflexivity.
Defined.

(** Submission is idempotent: in whatever state the supervisor is,
    submitting again under the idempotency key of a task it holds returns that
    task in its current state when the specification is the same and is refused as
    a conflict otherwise; in both cases nothing changes. *)
Theorem submission_is_idempotent `{EnvLaws} {St} `{EventStoreLaws St} strict
    (s : TaskSupervisor St) w t rec sp :
  reachable strict s w -> tasks s !! t = Some rec ->
  idempotency_key sp = idempotency_key (spec rec) ->
  submit sp s w =
    (if bool_decide (spec rec = sp) then Return (SubmitExisting (mk_TaskSnapshot t (state rec)))
     else Raise IdempotencyConflict, s, w).
Proof.
  intros [_ Ht _ _]%reachable_inv Hrec Hk. unfold submit, bind, gets.
  assert (Hix : idempotency_index s !! idempotency_key sp = Some t).
  { apply (ti_index _ _ Ht). rewrite Hk. by exists rec. }
  rewrite Hix. unfold get_task, bind, gets, lift. rewrite Hrec. simpl.
  by case_bool_decide.
Qed.

Lemma submission_is_idempotent_witness :
  submit example_task (demo_run demo_calls).1 (demo_run demo_calls).2
  = (Return (SubmitExisting (mk_TaskSnapshot demo_task WaitingApproval)),
     (demo_run demo_calls).1, (demo_run demo_calls).2).
Proof.
  assert (Hr : reachable true (demo_run demo_calls).1 (demo_run demo_calls).2)
    by (apply demo_reach; vm_compute; reflexivity).
  refine (submission_is_idempotent true _ _ demo_task
           (mk_TaskRecord example_task WaitingApproval (Some 0)) example_task Hr _ eq_refl).
  vm_compute. reflexivity.
Defined.

(** Only validated work is queued: a submission is accepted exactly with a
    specification that satisfies the Task contract, under a new identifier with
    an empty log, and its three events are on record; an invalid one is stored
    as rejected with the number of its errors on record. *)
Theorem submission_validates_and_records `{EnvLaws} {St} `{EventStoreLaws St} strict
    (s : TaskSupervisor St) w sp r s' w' :
  reachable strict s w -> submit sp s w = (Return r, s', w') ->
  match r with
  | SubmitAccepted q => spec_valid sp /\ snapshot_state q = Queued
      /\ task_state s (snapshot_task_id q) = None
      /\ tasks s' !! snapshot_task_id q = Some (mk_TaskRecord sp Queued None)
      /\ (kind <$> store_log (event_store s') (snapshot_task_id q))
         = [EvSubmitted; EvStateTransitioned Submitted Validating;
            EvStateTransitioned Validating Queued]
  | SubmitRejected q errors => ~ spec_valid sp /\ snapshot_state q = Rejected
      /\ task_state s (snapshot_task_id q) = None
      /\ tasks s' !! snapshot_task_id q = Some (mk_TaskRecord sp Rejected None)
      /\ EvValidationFailed (len errors) ∈ kind <$> store_log (event_store s') (snapshot_task_id q)
  | SubmitExisting q => s' = s /\ task_state s (snapshot_task_id q) = Some (snapshot_state q)
  end.
Proof.
  intros Hi%reachable_inv Hrun.
  apply (wp_run _ _ _ _ _ _ _ (wp_submit strict sp s w Hi)) in Hrun as (_ & _ & Hr).
  destruct r as [q|q|q errs].
  - destruct Hr as (Hv & -> & Hts & Hlog & E & [(evs & He & Hk) _] & _). simpl in *.
    rewrite Hv in Hk. split_and!; [by apply validate_Ok | done | done | |].
    + rewrite E. simpl. by rewrite lookup_insert_eq.
    + by rewrite He, Hlog, app_nil_l, Hk.
  - destruct Hr as (-> & rec & Hrec & _ & ->). split; [done|]. unfold task_state. by rewrite Hrec.
  - destruct Hr as (Hv & -> & Hts & Hlog & E & [(evs & He & Hk) _] & _). simpl in *.
    rewrite Hv in Hk. split_and!; [|done | done | |].
    + intros Hs%validate_Ok. congruence.
    + rewrite E. simpl. by rewrite lookup_insert_eq.
    + rewrite He, Hlog, app_nil_l, Hk. set_solver.
Qed.

Lemma submission_validates_and_records_witness :
  exists s' w',
    submit example_task demo_supervisor world0
      = (Return (SubmitAccepted (mk_TaskSnapshot demo_task Queued)), s', w')
    /\ spec_valid example_task.
Proof.
  do 2 eexists. split; [vm_compute; reflexivity|].
  refine (proj1 (submission_validates_and_records true demo_supervisor world0 example_task
           (SubmitAccepted (mk_TaskSnapshot demo_task Queued)) _ _ (demo_reachable true world0) _)).
  vm_compute. reflexivity.
Defined.

(** The operations of a task that are open: those waiting for a decision, under
    their approval, and those approved and not yet used, under the approval of
    their grant. *)
Definition open_operation {St} (s : TaskSupervisor St) (t : TaskId) (a : ApprovalId) (o : OperationId) : Prop :=
  (exists po, pending_operations s !! a = Some po /\ po_task_id po = t /\ po_operation_id po = o)
  \/ (exists ao, approved_operations s !! o = Some ao /\ ao_task_id ao = t
        /\ grant_approval_id (ao_grant ao) = a).

Section Revocation.
Context `{EnvLaws} {S : Type} `{EventStoreLaws S}.

Lemma NoDup_omap_key {A B K} (f : A -> option B) (key : B -> K) (l : list A) :
  (forall x x' y y', x ∈ l -> x' ∈ l -> f x = Some y -> f x' = Some y' -> key y = key y' -> x = x') ->
  NoDup l -> NoDup (key <$> omap f l).
Proof.
  intros Hf. induction l as [|x l IH]; simpl; [constructor|]. intros [Hx Hl]%NoDup_cons.
  assert (IH' : NoDup (key <$> omap f l)) by (apply IH; [|done]; intros; eapply Hf; eauto; set_solver).
  destruct (f x) as [y|] eqn:E; simpl; [|done]. apply NoDup_cons. split; [|done].
  intros (y' & Ek & (x' & Hx' & Ef)%list_elem_of_omap)%list_elem_of_fmap. apply Hx.
  rewrite (Hf x x' y y'); set_solver.
Qed.

Lemma NoDup_btree_entries {K V} `{Countable K, !BTreeKey K} (m : gmap K V) : NoDup (btree_entries m).
Proof. rewrite btree_entries_perm. apply NoDup_map_to_list. Qed.

(** The revocations recorded are those of the open operations, each operation once. *)
Lemma revocation_events_open strict (s : TaskSupervisor S) w t :
  ops_inv strict s w ->
  exists revs, revocation_events s t = (fun p => EvApprovalRevoked p.1 p.2) <$> revs
    /\ NoDup revs.*2 /\ forall a o, (a, o) ∈ revs <-> open_operation s t a o.
Proof.
  intros Ho.
  set (f := fun e : ApprovalId * PendingOperation =>
          if bool_decide (po_task_id e.2 = t) then Some (e.1, po_operation_id e.2) else None).
  set (g := fun e : OperationId * ApprovedOperation =>
          if bool_decide (ao_task_id e.2 = t) then Some (grant_approval_id (ao_grant e.2), e.1) else None).
  assert (Hf : forall a o, (a, o) ∈ omap f (btree_entries (pending_operations s)) <->
            exists po, pending_operations s !! a = Some po /\ po_task_id po = t /\ po_operation_id po = o).
  { intros a o. rewrite list_elem_of_omap. setoid_rewrite <-elem_of_btree_entries. unfold f. split.
    - intros ([id po] & Hin & E). simpl in E. case_bool_decide; naive_solver.
    - intros (po & Hin & Ht & <-). exists (a, po). simpl. by rewrite bool_decide_true. }
  assert (Hg : forall a o, (a, o) ∈ omap g (btree_entries (approved_operations s)) <->
            exists ao, approved_operations s !! o = Some ao /\ ao_task_id ao = t /\ grant_approval_id (ao_grant ao) = a).
  { intros a o. rewrite list_elem_of_omap. setoid_rewrite <-elem_of_btree_entries. unfold g. split.
    - intros ([o' ao] & Hin & E). simpl in E. case_bool_decide; naive_solver.
    - intros (ao & Hin & Ht & <-). exists (o, ao). simpl. by rewrite bool_decide_true. }
  exists (omap f (btree_entries (pending_operations s)) ++ omap g (btree_entries (approved_operations s))).
  split_and!.
  - unfold revocation_events, f, g. rewrite fmap_app, !list_fmap_omap.
    f_equal; apply list_omap_ext, Forall_Forall2_diag, Forall_forall; intros [? ?] _; simpl; by case_bool_decide.
  - rewrite fmap_app, NoDup_app. split_and!.
    + apply NoDup_omap_key; [|apply NoDup_btree_entries].
      intros [a po] [a' po'] y y' Hx%elem_of_btree_entries Hx'%elem_of_btree_entries. unfold f. simpl.
      repeat case_bool_decide; intros [= <-] [= <-]; simpl; try done. intros E.
      assert (a = a') as <- by (eapply (oi_one _ _ _ Ho); eauto). naive_solver.
    + intros o ([a ?] & -> & (po & Hpo & _ & <-)%Hf)%list_elem_of_fmap. simpl.
      destruct (oi_op_fresh _ _ _ Ho _ _ Hpo) as [_ Hn].
      intros ([a' ?] & E & (ao & Hao & _)%Hg)%list_elem_of_fmap. simpl in E. congruence.
    + apply NoDup_omap_key; [|apply NoDup_btree_entries].
      intros [o ao] [o' ao'] y y' Hx%elem_of_btree_entries Hx'%elem_of_btree_entries. unfold g. simpl.
      repeat case_bool_decide; intros [= <-] [= <-]; simpl; naive_solver congruence.
  - intros a o. by rewrite elem_of_app, Hf, Hg.
Qed.

End Revocation.

(** C27: A terminal call ends a task completely: when cancelling, succeeding or
    failing reports success, the task is in that state; its log grew by the
    revocations of its open operations (every pending and every approved one,
    each exactly once and under its approval) followed by the transition, and by
    nothing else; none of them is left, and the other tasks keep theirs. *)
Theorem terminal_calls_revoke_everything `{EnvLaws} {St} `{EventStoreLaws St} strict
    (s : TaskSupervisor St) w t next s' w' :
  reachable strict s w ->
  (next = Succeeded /\ succeed t s w = (Return tt, s', w'))
  \/ (next = Failed /\ fail t s w = (Return tt, s', w'))
  \/ (next = Cancelled /\ cancel t s w = (Return true, s', w')) ->
  exists cur revs evs, task_state s t = Some cur /\ lifecycle_step cur next
    /\ task_state s' t = Some next
    /\ store_log (event_store s') t = store_log (event_store s) t ++ evs
    /\ (kind <$> evs) = ((fun p => EvApprovalRevoked p.1 p.2) <$> revs) ++ [EvStateTransitioned cur next]
    /\ NoDup revs.*2
    /\ (forall a o, (a, o) ∈ revs <-> open_operation s t a o)
    /\ (forall a o, ~ open_operation s' t a o)
    /\ (forall u a o, u <> t -> open_operation s' u a o <-> open_operation s u a o)
    /\ (forall id po, pending_operations s' !! id = Some po <->
          pending_operations s !! id = Some po /\ po_task_id po <> t)
    /\ (forall o ao, approved_operations s' !! o = Some ao <->
          approved_operations s !! o = Some ao /\ ao_task_id ao <> t).
Proof.
  intros Hi%reachable_inv Hcase.
  assert (Hn : is_terminal next = true) by (by destruct Hcase as [[-> _]|[[-> _]|[-> _]]]).
  assert (Hf : exists cur, task_state s t = Some cur /\ lifecycle_step cur next
                 /\ finished s t cur next None s').
  { destruct Hcase as [[-> Hrun]|[[-> Hrun]|[-> Hrun]]].
    - by apply (wp_run _ _ _ _ _ _ _ (wp_transition_terminal strict t Succeeded s w Hi eq_refl)) in Hrun
        as (_ & _ & ?).
    - by apply (wp_run _ _ _ _ _ _ _ (wp_transition_terminal strict t Failed s w Hi eq_refl)) in Hrun
        as (_ & _ & ?).
    - apply (wp_run _ _ _ _ _ _ _ (wp_cancel strict t s w Hi)) in Hrun as (_ & _ & cur & ? & ? & ?).
      exists cur. split_and!; [done | by constructor | done]. }
  destruct Hf as (cur & Hst & Hstep & [Hs' _ Hlog Hrv]).
  destruct (ex_log _ _ _ _ Hlog) as (evs & Hgrow & Hk). unfold transition_events in Hk. rewrite Hn in Hk.
  destruct (revocation_events_open strict s w t (si_ops _ _ _ Hi)) as (revs & Hrevs & Hnd & Hin).
  assert (Hpend : forall id po, pending_operations s' !! id = Some po <->
                    pending_operations s !! id = Some po /\ po_task_id po <> t).
  { intros id po. rewrite (rv_pending _ _ _ Hrv). destruct (pending_operations s !! id) as [q|]; [|naive_solver].
    case_decide; naive_solver. }
  assert (Happ : forall o ao, approved_operations s' !! o = Some ao <->
                   approved_operations s !! o = Some ao /\ ao_task_id ao <> t).
  { intros o ao. rewrite (rv_approved _ _ _ Hrv). by rewrite map_lookup_filter_Some. }
  exists cur, revs, evs. split_and!; try done.
  - by rewrite Hs', decide_True.
  - by rewrite Hk, Hrevs.
  - unfold open_operation. intros a o. setoid_rewrite Hpend. setoid_rewrite Happ. naive_solver.
  - unfold open_operation. intros u a o Hu. setoid_rewrite Hpend. setoid_rewrite Happ. naive_solver.
Qed.

(** One operation of the task waits, another has been approved and not used: both
    revocations are recorded. *)
Definition two_open_calls : list Call :=
  demo_calls ++ [CallApprove (mk_ApprovalId 2); CallRequest demo_task commit_request (Duration_from_secs 60)].

Lemma terminal_calls_revoke_everything_witness :
  open_operation (demo_run two_open_calls).1 demo_task (mk_ApprovalId 2) (mk_OperationId 1)
  /\ exists evs, store_log (event_store (demo_run (two_open_calls ++ [CallCancel demo_task])).1) demo_task
    = store_log (event_store (demo_run two_open_calls).1) demo_task ++ evs
    /\ EvApprovalRevoked (mk_ApprovalId 2) (mk_OperationId 1) ∈ kind <$> evs.
Proof.
  assert (Hr : reachable true (demo_run two_open_calls).1 (demo_run two_open_calls).2)
    by (apply demo_reach; vm_compute; reflexivity).
  assert (Ho : open_operation (demo_run two_open_calls).1 demo_task (mk_ApprovalId 2) (mk_OperationId 1)).
  { right. eexists. split; [vm_compute; reflexivity|]. split; reflexivity. }
  split; [exact Ho|].
  destruct (terminal_calls_revoke_everything true (demo_run two_open_calls).1 (demo_run two_open_calls).2
    demo_task Cancelled (demo_run (two_open_calls ++ [CallCancel demo_task])).1
    (demo_run (two_open_calls ++ [CallCancel demo_task])).2 Hr)
    as (cur & revs & evs & _ & _ & _ & He & Hk & _ & Hin & _).
  - right. right. split; [reflexivity | vm_compute; reflexivity].
  - exists evs. split; [exact He|]. rewrite Hk. apply elem_of_app. left.
    apply list_elem_of_fmap. exists (mk_ApprovalId 2, mk_OperationId 1). split; [reflexivity|].
    apply Hin. exact Ho.
Defined.
