(* ===== verification/ApprovalProps.v ===== *)
(** * Properties of the approval workflow of the supervisor *)

From stdpp Require Import base numbers list gmap strings.
From Stdlib Require Import ZArith Lia.
From S2P Require Import Prelude RustStd TaskState TaskSpec Policy Event Approval Supervisor Recovery.
From S2P Require Import SupervisorInv SupervisorFacts SupervisorOps RecoveryFacts SupervisorRun SupervisorProps.

Lemma reachable_valid `{EnvLaws} {St} `{EventStoreLaws St} strict (s : TaskSupervisor St) w t rec :
  sup_inv strict s w -> tasks s !! t = Some rec -> state rec <> Rejected -> spec_valid (spec rec).
Proof.
  intros Hi Hrec Hst. apply validate_Ok.
  exact (ro_valid _ (ti_record _ _ (si_table _ _ _ Hi) _ _ Hrec) Hst).
Qed.

Lemma valid_decides t r : spec_valid t -> decides t r (evaluate (mk_CapabilityPolicy t) r).
Proof. intros Hv. apply evaluate_decides, (sv_files t Hv). Qed.

Lemma request_decided `{EnvLaws} {St} `{EventStoreLaws St} strict
    (s : TaskSupervisor St) w t req ttl a s' w' :
  sup_inv strict s w -> request_operation t req ttl s w = (Return a, s', w') ->
  exists rec d, tasks s !! t = Some rec /\ state rec = Running /\ decides (spec rec) req d /\
  match a with
  | Allowed => d = Allow /\ task_state s' t = Some Running
      /\ logged (event_store s') t EvOperationAllowed
  | Denied reason => d = Deny reason /\ task_state s' t = Some Running
      /\ logged (event_store s') t (EvOperationDenied reason)
  | AuthApprovalRequired q => d = ApprovalRequired /\ task_state s' t = Some WaitingApproval
      /\ pending_operations s' !! request_approval_id q
         = Some (mk_PendingOperation t (request_operation_id q) (from_borrowed req))
      /\ logged (event_store s') t
           (EvApprovalRequested (request_approval_id q) (request_operation_id q))
  end.
Proof.
  intros Hi Hrun.
  apply (wp_run _ _ _ _ _ _ _ (wp_request_operation strict t req ttl s w Hi)) in Hrun
    as (Hi' & _ & s1 & w1 & _ & _ & Hres & Hrtc).
  destruct (expiry_facts _ _ _ Hrtc) as (_ & _ & _ & _ & Ht).
  assert (Hback : forall rec1, tasks s1 !! t = Some rec1 -> state rec1 = Running ->
    tasks s !! t = Some rec1 /\ decides (spec rec1) req (evaluate (mk_CapabilityPolicy (spec rec1)) req)).
  { intros rec1 Hrec1 Hst. destruct (Ht t rec1 Hrec1) as (rec & Hrec & _ & _ & Hc).
    destruct Hc as [->|[? _]]; [|congruence]. split; [done|]. apply valid_decides.
    apply (reachable_valid strict s w t); [done | done | by rewrite Hst]. }
  destruct a as [|reason|q]; simpl in Hres.
  - destruct Hres as (rec & Hrec & Hst & Hev & E & Hex). destruct (Hback rec Hrec Hst) as [? Hd].
    rewrite Hev in Hd. exists rec, Allow. split_and!; try done.
    + rewrite E. unfold task_state. simpl. by rewrite Hrec, Hst.
    + eapply extends_logged; [done | set_solver].
  - destruct Hres as (rec & Hrec & Hst & Hev & E & Hex). destruct (Hback rec Hrec Hst) as [? Hd].
    rewrite Hev in Hd. exists rec, (Deny reason). split_and!; try done.
    + rewrite E. unfold task_state. simpl. by rewrite Hrec, Hst.
    + eapply extends_logged; [done | set_solver].
  - destruct Hres as (rec & k & es' & Hrec & Hst & Hev & _ & _ & _ & _ & _ & _ & -> & Hex).
    destruct (Hback rec Hrec Hst) as [? Hd]. rewrite Hev in Hd. exists rec, ApprovalRequired.
    split_and!; try done.
    + unfold task_state. simpl. by rewrite lookup_insert_eq.
    + simpl. by rewrite lookup_insert_eq.
    + eapply extends_logged; [done | set_solver].
Qed.

(** C24: An operation is answered by the policy of its task and put on record:
    only a running task can ask, [Allowed] is returned exactly for requests the
    task's contract allows without approval, [Denied] carries the policy's reason,
    and a request that needs approval suspends the task with a single pending
    operation that retains the request. *)
Theorem requests_follow_the_policy `{EnvLaws} {St} `{EventStoreLaws St} strict
    (s : TaskSupervisor St) w t req ttl a s' w' :
  reachable strict s w -> request_operation t req ttl s w = (Return a, s', w') ->
  exists rec d, tasks s !! t = Some rec /\ state rec = Running /\ decides (spec rec) req d /\
  match a with
  | Allowed => d = Allow /\ task_state s' t = Some Running
      /\ logged (event_store s') t EvOperationAllowed
  | Denied reason => d = Deny reason /\ task_state s' t = Some Running
      /\ logged (event_store s') t (EvOperationDenied reason)
  | AuthApprovalRequired q => d = ApprovalRequired /\ task_state s' t = Some WaitingApproval
      /\ pending_operations s' !! request_approval_id q
         = Some (mk_PendingOperation t (request_operation_id q) (from_borrowed req))
      /\ logged (event_store s') t
           (EvApprovalRequested (request_approval_id q) (request_operation_id q))
  end.
Proof. intros Hi%reachable_inv. by apply (request_decided strict). Qed.

Lemma requests_follow_the_policy_witness :
  let s := (demo_run [CallSubmit example_task; CallStart demo_task]).1 in
  let w := (demo_run [CallSubmit example_task; CallStart demo_task]).2 in
  let path := "/etc/passwd"%string in
  exists rec d, tasks s !! demo_task = Some rec /\ decides (spec rec) (FileRequest path Read) d
    /\ d = Deny CapabilityNotGranted.
Proof.
  intros s w path.
  assert (Hr : reachable true s w) by (apply demo_reach; vm_compute; reflexivity).
  destruct (requests_follow_the_policy true s w demo_task (FileRequest path Read)
    (Duration_from_secs 60) (Denied CapabilityNotGranted)
    (request_operation demo_task (FileRequest path Read) (Duration_from_secs 60) s w).1.2
    (request_operation demo_task (FileRequest path Read) (Duration_from_secs 60) s w).2 Hr)
    as (rec & d & Hrec & _ & Hd & -> & _); [vm_compute; reflexivity|].
  exists rec, (Deny CapabilityNotGranted). split; [exact Hrec|]. split; [exact Hd | reflexivity].
Defined.

Lemma approve_resumed `{EnvLaws} {St} `{EventStoreLaws St} strict
    (s : TaskSupervisor St) w id q s' w' :
  sup_inv strict s w -> approve_operation id s w = (Return q, s', w') ->
  exists po deadline, pending_operations s !! id = Some po
    /\ pending (approval_authority s) !! id
       = Some (mk_PendingApproval (po_task_id po) (po_operation_id po)
                 (owned_action (po_request po)) deadline)
    /\ instant_at (instants_read w) < deadline
    /\ q = mk_TaskSnapshot (po_task_id po) Running
    /\ task_state s (po_task_id po) = Some WaitingApproval
    /\ task_state s' (po_task_id po) = Some Running
    /\ pending_operations s' !! id = None
    /\ approved_operations s' !! po_operation_id po
       = Some (mk_ApprovedOperation (po_task_id po) (po_request po) (grant_of id po deadline))
    /\ logged (event_store s') (po_task_id po) (EvApprovalRequested id (po_operation_id po))
    /\ logged (event_store s') (po_task_id po) (EvApprovalGranted id (po_operation_id po)).
Proof.
  intros Hi Hrun.
  apply (wp_run _ _ _ _ _ _ _ (wp_approve_operation strict id s w Hi)) in Hrun
    as (Hi' & _ & s1 & w1 & Hi1 & _ & Hres & Hrtc & Hno).
  destruct Hres as (po & rec & d & k & es' & Hpo & Hrec & Hst & _ & Hpa & -> & -> & Hex).
  destruct (expiry_facts _ _ _ Hrtc) as (_ & _ & Hp & Hau & Ht).
  destruct (Ht _ _ Hrec) as (rec0 & Hrec0 & _ & _ & Hc).
  destruct Hc as [->|[? _]]; [|congruence].
  exists po, d. split_and!; try done.
  - by apply Hp.
  - by apply Hau.
  - apply Z.nle_gt. intros Hle. apply (Hno id). eexists. by split.
  - unfold task_state. by rewrite Hrec0, Hst.
  - unfold task_state. simpl. by rewrite lookup_insert_eq.
  - simpl. by rewrite lookup_delete_eq.
  - simpl. by rewrite lookup_insert_eq.
  - eapply logged_grows; [by eapply extends_grows|]. by apply (au_pending _ _ (si_audit _ _ _ Hi1)).
  - eapply extends_logged; [done | set_solver].
Qed.

(** Approval resumes exactly what was requested: an approved operation was
    pending, its deadline ahead on the monotonic clock, and its task waiting; the
    task runs again and the grant, bound to the operation's own task, identifier,
    action and deadline, is kept with the retained request, all on record. *)
Theorem approval_resumes_the_pending_operation `{EnvLaws} {St} `{EventStoreLaws St} strict
    (s : TaskSupervisor St) w id q s' w' :
  reachable strict s w -> approve_operation id s w = (Return q, s', w') ->
  exists po deadline, pending_operations s !! id = Some po
    /\ pending (approval_authority s) !! id
       = Some (mk_PendingApproval (po_task_id po) (po_operation_id po)
                 (owned_action (po_request po)) deadline)
    /\ instant_at (instants_read w) < deadline
    /\ q = mk_TaskSnapshot (po_task_id po) Running
    /\ task_state s (po_task_id po) = Some WaitingApproval
    /\ task_state s' (po_task_id po) = Some Running
    /\ pending_operations s' !! id = None
    /\ approved_operations s' !! po_operation_id po
       = Some (mk_ApprovedOperation (po_task_id po) (po_request po) (grant_of id po deadline))
    /\ logged (event_store s') (po_task_id po) (EvApprovalRequested id (po_operation_id po))
    /\ logged (event_store s') (po_task_id po) (EvApprovalGranted id (po_operation_id po)).
Proof. intros Hi%reachable_inv. by apply (approve_resumed strict). Qed.

Lemma approval_resumes_the_pending_operation_witness :
  exists s' w',
    approve_operation (mk_ApprovalId 2) (demo_run demo_calls).1 (demo_run demo_calls).2
      = (Return (mk_TaskSnapshot demo_task Running), s', w')
    /\ logged (event_store s') demo_task (EvApprovalGranted (mk_ApprovalId 2) (mk_OperationId 1)).
Proof.
  assert (Hr : reachable true (demo_run demo_calls).1 (demo_run demo_calls).2)
    by (apply demo_reach; vm_compute; reflexivity).
  exists (demo_run (demo_calls ++ [CallApprove (mk_ApprovalId 2)])).1,
    (demo_run (demo_calls ++ [CallApprove (mk_ApprovalId 2)])).2.
  assert (Hrun : approve_operation (mk_ApprovalId 2) (demo_run demo_calls).1 (demo_run demo_calls).2
    = (Return (mk_TaskSnapshot demo_task Running),
       (demo_run (demo_calls ++ [CallApprove (mk_ApprovalId 2)])).1,
       (demo_run (demo_calls ++ [CallApprove (mk_ApprovalId 2)])).2)) by (vm_compute; reflexivity).
  split; [exact Hrun|].
  destruct (approval_resumes_the_pending_operation true _ _ _ _ _ _ Hr Hrun)
    as (po & d & Hpo & _ & _ & _ & _ & _ & _ & _ & _ & Hlog).
  vm_compute in Hpo. injection Hpo as <-. exact Hlog.
Defined.

Lemma receipt_audited `{EnvLaws} {St} `{EventStoreLaws St} strict
    (s : TaskSupervisor St) w t o req receipt s' w' :
  sup_inv strict s w -> authorize_operation t o req s w = (Return receipt, s', w') ->
  let id := receipt_approval_id receipt in
  (exists rec ao, tasks s !! t = Some rec /\ state rec = Running
     /\ approved_operations s !! o = Some ao /\ ao_task_id ao = t
     /\ as_borrowed (ao_request ao) = req /\ decides (spec rec) req ApprovalRequired
     /\ instant_at (instants_read w) < grant_deadline (ao_grant ao)
     /\ id = grant_approval_id (ao_grant ao))
  /\ logged (event_store s') t (EvApprovalRequested id o)
  /\ logged (event_store s') t (EvApprovalGranted id o)
  /\ logged (event_store s') t (EvApprovalConsumed id o)
  /\ forall req2 w2, (authorize_operation t o req2 s' w2).1.1 = Raise (ApprovalFailure NotFound).
Proof.
  intros Hi Hrun.
  apply (wp_run _ _ _ _ _ _ _ (wp_authorize_operation strict t o req s w Hi)) in Hrun
    as (Hi' & _ & rec & ao & Hrec & Hst & Hao & Hat & Hreq & Hev & Hlt & Hid & E & Hex).
  simpl. rewrite Hid. destruct (au_approved _ _ (si_audit _ _ _ Hi) _ _ Hao) as [Hl1 Hl2].
  rewrite Hat in Hl1, Hl2. split_and!.
  - exists rec, ao. split_and!; try done. rewrite <-Hev. apply valid_decides.
    apply (reachable_valid strict s w t); [done | done | by rewrite Hst].
  - eapply logged_grows; [by eapply extends_grows | done].
  - eapply logged_grows; [by eapply extends_grows | done].
  - eapply extends_logged; [done | set_solver].
  - intros req2 w2. rewrite E. unfold authorize_operation, get_task, bind, gets, lift. simpl.
    rewrite Hrec. simpl. rewrite bool_decide_eq_true_2 by done. simpl.
    by rewrite lookup_delete_eq.
Qed.

(** C1: A receipt proves one audited approval: it is returned only while the
    task runs, before the grant's deadline, for the very request that was
    approved, which the policy still wants approved; the request, the grant and
    the consumption are on record; and the grant is gone, so a second attempt with
    the same operation finds nothing. *)
Theorem receipts_prove_an_audited_approval `{EnvLaws} {St} `{EventStoreLaws St} strict
    (s : TaskSupervisor St) w t o req receipt s' w' :
  reachable strict s w -> authorize_operation t o req s w = (Return receipt, s', w') ->
  let id := receipt_approval_id receipt in
  (exists rec ao, tasks s !! t = Some rec /\ state rec = Running
     /\ approved_operations s !! o = Some ao /\ ao_task_id ao = t
     /\ as_borrowed (ao_request ao) = req /\ decides (spec rec) req ApprovalRequired
     /\ instant_at (instants_read w) < grant_deadline (ao_grant ao)
     /\ id = grant_approval_id (ao_grant ao))
  /\ logged (event_store s') t (EvApprovalRequested id o)
  /\ logged (event_store s') t (EvApprovalGranted id o)
  /\ logged (event_store s') t (EvApprovalConsumed id o)
  /\ forall req2 w2, (authorize_operation t o req2 s' w2).1.1 = Raise (ApprovalFailure NotFound).
Proof. intros Hi%reachable_inv. by apply (receipt_audited strict). Qed.

Lemma receipts_prove_an_audited_approval_witness :
  let s := (demo_run (demo_calls ++ [CallApprove (mk_ApprovalId 2)])).1 in
  let w := (demo_run (demo_calls ++ [CallApprove (mk_ApprovalId 2)])).2 in
  let s' := (authorize_operation demo_task (mk_OperationId 1) commit_request s w).1.2 in
  logged (event_store s') demo_task (EvApprovalConsumed (mk_ApprovalId 2) (mk_OperationId 1)).
Proof.
  intros s w s'.
  assert (Hr : reachable true s w) by (apply demo_reach; vm_compute; reflexivity).
  assert (Hrun : authorize_operation demo_task (mk_OperationId 1) commit_request s w
    = (Return (mk_ApprovalReceipt (mk_ApprovalId 2)), s',
       (authorize_operation demo_task (mk_OperationId 1) commit_request s w).2))
    by (vm_compute; reflexivity).
  exact (proj1 (proj2 (proj2 (proj2
    (receipts_prove_an_audited_approval true s w _ _ _ _ _ _ Hr Hrun))))).
Defined.


(** One request with five milliseconds to live and, of another task, one with a
    minute: after ten the first is overdue and the second is not. *)
Definition another_task_spec : TaskSpec :=
  mk_TaskSpec "another-key" (goal example_task) (capabilities example_task)
    (budget example_task) (approval example_task).

Definition short_calls : list Call :=
  [CallSubmit example_task; CallStart demo_task;
   CallRequest demo_task commit_request (Duration_from_millis 5);
   CallSubmit another_task_spec; CallStart (mk_TaskId 3);
   CallRequest (mk_TaskId 3) commit_request (Duration_from_secs 60)].


(** ** Identifiers of pending operations *)

Section Kept.
Context `{EnvLaws} {St : Type} `{EventStoreLaws St}.
Implicit Types s : TaskSupervisor St.

(** A call only adds pending operations under new identifiers. *)
Definition pending_kept s w s' : Prop := forall id po,
  pending_operations s' !! id = Some po ->
  pending_operations s !! id = Some po \/ ~ unminted w (approval_uuid id).

Lemma unchanged_kept s w s' : unchanged s s' -> pending_kept s w s'.
Proof. intros [E _] id po. rewrite E. auto. Qed.

Lemma kept_after s w s1 s' :
  (forall id po, pending_operations s1 !! id = Some po -> pending_operations s !! id = Some po) ->
  pending_kept s1 w s' -> pending_kept s w s'.
Proof. intros Hsub Hk id po Hpo. destruct (Hk id po Hpo); auto. Qed.

Lemma expires_subset now s s' :
  expires now s s' ->
  forall id po, pending_operations s' !! id = Some po -> pending_operations s !! id = Some po.
Proof.
  intros (s1 & Hrtc & [E _]) id po. rewrite E. simpl.
  destruct (expiry_facts _ _ _ Hrtc) as (_ & _ & Hp & _). apply Hp.
Qed.

Lemma request_kept strict t req ttl s w r s' w' :
  sup_inv strict s w -> request_operation t req ttl s w = (r, s', w') -> pending_kept s w s'.
Proof.
  intros Hi Hrun. apply (wp_run _ _ _ _ _ _ _ (wp_request_operation strict t req ttl s w Hi)) in Hrun
    as (_ & _ & s1 & w1 & He & Hw1 & Hres & _).
  eapply kept_after; [by eapply expires_subset|]. destruct r as [[| |q]|e|]; simpl in Hres; [| | | |done].
  - destruct Hres as (rec & _ & _ & _ & E & _). intros id po. rewrite E. auto.
  - destruct Hres as (rec & _ & _ & _ & E & _). intros id po. rewrite E. auto.
  - destruct Hres as (rec & k & es' & _ & _ & _ & _ & _ & _ & _ & _ & Hid & -> & _). intros id po. simpl.
    rewrite lookup_insert. case_decide; [|auto]. subst. right. by eapply not_unminted_mono.
  - by apply unchanged_kept.
Qed.

Lemma approve_kept strict id s w r s' w' :
  sup_inv strict s w -> approve_operation id s w = (r, s', w') -> pending_kept s w s'.
Proof.
  intros Hi Hrun. apply (wp_run _ _ _ _ _ _ _ (wp_approve_operation strict id s w Hi)) in Hrun
    as (_ & _ & s1 & w1 & _ & He & Hres & _).
  eapply kept_after; [by eapply expires_subset|]. destruct r as [q|e|]; simpl in Hres; [| |done].
  - destruct Hres as (po & rec & d & k & es' & _ & _ & _ & _ & _ & _ & -> & _). intros id' po'. simpl.
    rewrite lookup_delete. case_decide; [done | auto].
  - by apply unchanged_kept.
Qed.

Lemma deny_kept strict id s w r s' w' :
  sup_inv strict s w -> deny_operation id s w = (r, s', w') -> pending_kept s w s'.
Proof.
  intros Hi Hrun. apply (wp_run _ _ _ _ _ _ _ (wp_deny_operation strict id s w Hi)) in Hrun
    as (_ & _ & s1 & w1 & _ & He & Hres & _).
  eapply kept_after; [by eapply expires_subset|]. destruct r as [q|e|]; simpl in Hres; [| |done].
  - destruct Hres as (po & rec & es' & _ & _ & _ & -> & _). intros id' po'. simpl.
    rewrite lookup_delete. case_decide; [done | auto].
  - by apply unchanged_kept.
Qed.

Lemma authorize_kept strict t o req s w r s' w' :
  sup_inv strict s w -> authorize_operation t o req s w = (r, s', w') ->
  forall id po, pending_operations s' !! id = Some po -> pending_operations s !! id = Some po.
Proof.
  intros Hi Hrun. apply (wp_run _ _ _ _ _ _ _ (wp_authorize_operation strict t o req s w Hi)) in Hrun
    as (_ & _ & Hres). intros id po. destruct r as [q|e|]; [| |done].
  - destruct Hres as (rec & ao & _ & _ & _ & _ & _ & _ & _ & _ & E & _). by rewrite E.
  - destruct Hres as [[E _]|[E _]]; by rewrite E.
Qed.

Lemma revoked_kept s w t s' : revoked s t s' -> pending_kept s w s'.
Proof.
  intros Hrv id po. rewrite (rv_pending _ _ _ Hrv). destruct (pending_operations s !! id); [|done].
  case_decide; [done | auto].
Qed.

Lemma submit_kept strict sp s w r s' w' :
  sup_inv strict s w -> submit sp s w = (r, s', w') -> pending_kept s w s'.
Proof.
  intros Hi Hrun. apply (wp_run _ _ _ _ _ _ _ (wp_submit strict sp s w Hi)) in Hrun as (_ & _ & Hr).
  destruct r as [[q|q|q errs]|e|]; [| | | |done].
  - destruct Hr as (_ & _ & _ & _ & E & _). intros id po. rewrite E. auto.
  - destruct Hr as [-> _]. intros id po. auto.
  - destruct Hr as (_ & _ & _ & _ & E & _). intros id po. rewrite E. auto.
  - apply unchanged_kept, Hr.
Qed.

Lemma start_kept strict t s w :
  sup_inv strict s w -> (strict = true -> task_state s t <> Some WaitingApproval) ->
  (forall r s' w', start t s w = (r, s', w') -> pending_kept s w s')
  /\ forall r s' w', start_execution t s w = (r, s', w') -> pending_kept s w s'.
Proof.
  intros Hi Hd. split; intros r s' w' Hrun.
  - apply (wp_run _ _ _ _ _ _ _ (wp_start strict t s w Hi Hd)) in Hrun as (_ & _ & Hr).
    destruct r as [u|e|]; [|by apply unchanged_kept | done].
    destruct Hr as (rec & k & _ & _ & _ & E & _). intros id po. rewrite E. auto.
  - apply (wp_run _ _ _ _ _ _ _ (wp_start_execution strict t s w Hi Hd)) in Hrun as (_ & _ & Hr).
    destruct r as [u|e|]; [|by apply unchanged_kept | done].
    destruct Hr as (rec & k & _ & _ & _ & [E _] & _). intros id po. rewrite E. auto.
Qed.

Lemma finish_kept strict t next s w :
  sup_inv strict s w -> is_terminal next = true ->
  (forall r s' w', transition t next s w = (r, s', w') -> pending_kept s w s')
  /\ (forall r s' w', fail_budget_exceeded t s w = (r, s', w') -> pending_kept s w s')
  /\ forall r s' w', cancel t s w = (r, s', w') -> pending_kept s w s'.
Proof.
  intros Hi Hn. split_and!; intros r s' w' Hrun.
  - apply (wp_run _ _ _ _ _ _ _ (wp_transition_terminal strict t next s w Hi Hn)) in Hrun as (_ & _ & Hr).
    destruct r as [u|e|]; [|apply unchanged_kept, Hr | done].
    destruct Hr as (cur & _ & _ & [_ _ _ Hrv]). by eapply revoked_kept.
  - apply (wp_run _ _ _ _ _ _ _ (wp_fail_budget_exceeded strict t s w Hi)) in Hrun as (_ & _ & Hr).
    destruct r as [u|e|]; [|by apply unchanged_kept | done].
    destruct Hr as (cur & _ & _ & [_ _ _ Hrv]). by eapply revoked_kept.
  - apply (wp_run _ _ _ _ _ _ _ (wp_cancel strict t s w Hi)) in Hrun as (_ & _ & Hr).
    destruct r as [[]|e|]; [| |by apply unchanged_kept | done].
    + destruct Hr as (cur & _ & _ & [_ _ _ Hrv]). by eapply revoked_kept.
    + destruct Hr as [-> _]. intros id po. auto.
Qed.

Lemma discard_state {A} (m : M (TaskSupervisor St) SupervisorError A) s w r s' w' :
  discard m s w = (r, s', w') -> exists r0, m s w = (r0, s', w').
Proof. unfold discard, bind. destruct (m s w) as [[[a|e'|] s1] w1]; intros [= <- <- <-]; by eexists. Qed.

Lemma call_kept strict c s w r s' w' :
  sup_inv strict s w -> (strict = true -> disciplined s c) -> run_call c s w = (r, s', w') ->
  pending_kept s w s'.
Proof.
  intros Hi Hd Hrun.
  destruct c as [sp|t|t|t req ttl|id|id|t o req| |t|t|t|t]; simpl in *;
    try (apply discard_state in Hrun as [r0 Hrun]).
  - by eapply submit_kept.
  - by eapply (proj1 (start_kept strict t s w Hi Hd)).
  - by eapply (proj2 (start_kept strict t s w Hi Hd)).
  - by eapply request_kept.
  - by eapply approve_kept.
  - by eapply deny_kept.
  - intros id po Hpo. left. by eapply authorize_kept.
  - apply (wp_run _ _ _ _ _ _ _ (wp_expire_approvals strict s w Hi)) in Hrun as (_ & _ & He & _).
    intros id po Hpo. left. by eapply expires_subset.
  - by eapply (proj1 (finish_kept strict t Succeeded s w Hi eq_refl)).
  - by eapply (proj1 (finish_kept strict t Failed s w Hi eq_refl)).
  - by eapply (proj1 (proj2 (finish_kept strict t Failed s w Hi eq_refl))).
  - by eapply (proj2 (proj2 (finish_kept strict t Failed s w Hi eq_refl))).
Qed.

End Kept.
