(* ===== verification/Isolation.v ===== *)
(** * Tasks are isolated from each other

    What the supervisor holds of one task; a call changes it for the tasks the call
    concerns and for no other, over whole runs. *)

From stdpp Require Import base numbers list gmap strings.
From Stdlib Require Import ZArith Lia.
From S2P Require Import Prelude RustStd TaskState TaskSpec Policy Event Approval Supervisor Recovery.
From S2P Require Import SupervisorInv SupervisorFacts SupervisorOps RecoveryFacts SupervisorRun SupervisorProps.
From S2P Require Import ApprovalProps.

(** Everything the supervisor holds of one task. *)
Record Holdings := mk_Holdings {
  held_record : option TaskRecord;
  held_recovered : option TaskState;
  held_keys : gmap string TaskId;
  held_log : list TaskEvent;
  held_pending : gmap ApprovalId PendingOperation;
  held_approvals : gmap ApprovalId PendingApproval;
  held_approved : gmap OperationId ApprovedOperation;
}.

Section Isolation.
Context `{EnvLaws} {S : Type} `{EventStoreLaws S}.
Implicit Types s : TaskSupervisor S.

Definition holdings (u : TaskId) s : Holdings :=
  mk_Holdings (tasks s !! u) (recovered_tasks s !! u)
    (filter (fun e => e.2 = u) (idempotency_index s))
    (store_log (event_store s) u)
    (filter (fun e => po_task_id e.2 = u) (pending_operations s))
    (filter (fun e => pa_task_id e.2 = u) (pending (approval_authority s)))
    (filter (fun e => ao_task_id e.2 = u) (approved_operations s)).

(** Two supervisors hold the same of the task [u]. *)
Definition same_holdings (u : TaskId) : relation (TaskSupervisor S) :=
  fun s s' => holdings u s = holdings u s'.

#[local] Instance same_holdings_equivalence u : Equivalence (same_holdings u).
Proof.
  split; unfold same_holdings.
  - by intros s.
  - by intros s s' ->.
  - by intros s1 s2 s3 -> ->.
Qed.

(** ** Frames of the maps *)

Lemma filter_insert_other {K V} `{Countable K} (P : K * V -> Prop) `{!forall x, Decision (P x)}
    (m : gmap K V) k v :
  ~ P (k, v) -> (forall v', m !! k = Some v' -> ~ P (k, v')) ->
  filter P (<[k := v]> m) = filter P m.
Proof.
  intros Hv Hm. rewrite map_filter_insert, decide_False by done.
  rewrite map_filter_delete, delete_id; [done|]. apply map_lookup_filter_None. right. auto.
Qed.

Lemma filter_delete_other {K V} `{Countable K} (P : K * V -> Prop) `{!forall x, Decision (P x)}
    (m : gmap K V) k :
  (forall v', m !! k = Some v' -> ~ P (k, v')) -> filter P (delete k m) = filter P m.
Proof.
  intros Hm. rewrite map_filter_delete, delete_id; [done|]. apply map_lookup_filter_None. right. auto.
Qed.

Lemma filter_same_entries {K V} `{Countable K} (P : K * V -> Prop) `{!forall x, Decision (P x)}
    (m m' : gmap K V) :
  (forall k v, P (k, v) -> m !! k = Some v <-> m' !! k = Some v) -> filter P m = filter P m'.
Proof.
  intros Heq. apply map_eq. intros k. apply option_eq. intros v.
  rewrite !map_lookup_filter_Some. naive_solver.
Qed.

(** ** Frames of the effects *)

Variable strict : bool.
Variable u : TaskId.

Lemma unchanged_same_holdings s s' : unchanged s s' -> same_holdings u s s'.
Proof. intros [E Hl]. unfold same_holdings, holdings. rewrite Hl. by rewrite E. Qed.

(** With the invariant, a task's record and state determine its other entries in
    the tables. *)
Lemma same_holdings_tables s s' w w' :
  table_inv s w -> table_inv s' w' ->
  tasks s' !! u = tasks s !! u -> task_state s' u = task_state s u ->
  store_log (event_store s') u = store_log (event_store s) u ->
  held_pending (holdings u s') = held_pending (holdings u s) ->
  held_approvals (holdings u s') = held_approvals (holdings u s) ->
  held_approved (holdings u s') = held_approved (holdings u s) -> same_holdings u s s'.
Proof.
  intros Hi Hi' Ht Hst Hlog Hp Ha Hap. unfold same_holdings, holdings in *. simpl in *.
  rewrite Ht, Hlog, Hp, Ha, Hap. f_equal.
  - unfold task_state in Hst. rewrite Ht in Hst. destruct (tasks s !! u) as [r|] eqn:E; [|done].
    assert (Hn : forall (x : TaskSupervisor S) y, table_inv x y -> tasks x !! u = Some r -> recovered_tasks x !! u = None).
    { intros x y Hx Hr. destruct (recovered_tasks x !! u) eqn:Er; [|done].
      apply (ti_recovered _ _ Hx) in Er as [_ ?]. congruence. }
    by rewrite (Hn s w Hi E), (Hn s' w' Hi' Ht).
  - apply filter_same_entries. simpl. intros k v ->.
    by rewrite (ti_index _ _ Hi), (ti_index _ _ Hi'), Ht.
Qed.

Lemma fail_pending_same_holdings s w id po r es' ks :
  ops_inv strict s w -> pending_operations s !! id = Some po -> po_task_id po <> u ->
  extends (event_store s) (po_task_id po) ks es' -> same_holdings u s (fail_pending s id po r es').
Proof.
  intros Ho Hpo Hne Hex. destruct (pending_record _ _ _ _ _ Ho Hpo) as (r' & d & _ & _ & _ & Hpa).
  unfold same_holdings, holdings. simpl.
  rewrite lookup_insert_ne, (ex_other _ _ _ _ Hex), revoke_pending by done.
  rewrite !filter_delete_other; [done | |]; intros v Hv; simplify_eq; done.
Qed.

(** Some approval the task [u] waits for is overdue. *)
Definition due (now : Z) s : Prop :=
  map_Exists (fun _ pa => pa_task_id pa = u /\ pa_deadline pa <= now) (pending (approval_authority s)).

Lemma expiry_same_holdings now s s' w :
  ops_inv strict s w -> rtc (expiry_step now) s s' -> ~ due now s ->
  same_holdings u s s' /\ ops_inv strict s' w.
Proof.
  intros Ho Hrtc. induction Hrtc as [s|s1 s2 s3 Hstep _ IH]; intros Hd; [by split|].
  destruct Hstep as [s id po pa r es' Hpo Hpa Hle Hr Hex].
  assert (Hne : po_task_id po <> u).
  { intros E. apply Hd, (map_Exists_lookup_2 _ _ id pa Hpa).
    destruct (pending_record _ _ _ _ _ Ho Hpo) as (r' & d & _ & _ & _ & ?). by simplify_eq. }
  assert (Hv : same_holdings u s (fail_pending s id po r es')) by by eapply fail_pending_same_holdings.
  assert (Hnd : ~ due now (fail_pending s id po r es')).
  { intros (id' & pa' & Hpa' & Hu)%map_Exists_lookup_1. simpl in Hpa'.
    rewrite revoke_pending, lookup_delete in Hpa'. case_decide; [done|].
    by apply Hd, (map_Exists_lookup_2 _ _ id' pa'). }
  destruct (IH (ops_inv_shrink _ _ _ w w Ho (shrinks_fail_pending _ _ _ _ _ _ es' Ho Hpo Hr) (reflexivity w)) Hnd)
    as [Hv' Ho']. split; [by etrans | done].
Qed.

Lemma expires_same_holdings now s s' w :
  ops_inv strict s w -> expires now s s' -> ~ due now s -> same_holdings u s s'.
Proof.
  intros Ho (s1 & Hrtc & Hun) Hd. etrans; [by eapply expiry_same_holdings | by apply unchanged_same_holdings].
Qed.

Lemma logged_same_holdings s s' t ks :
  s' = set_event_store (event_store s') s -> extends (event_store s) t ks (event_store s') -> t <> u ->
  same_holdings u s s'.
Proof.
  intros E Hex Hne. unfold same_holdings, holdings. rewrite (ex_other _ _ _ _ Hex) by done. by rewrite E.
Qed.

Lemma suspend_same_holdings s t r id o req d es' ks :
  t <> u -> pending_operations s !! id = None -> pending (approval_authority s) !! id = None ->
  extends (event_store s) t ks es' -> same_holdings u s (suspend t r id o req d (set_event_store es' s)).
Proof.
  intros Hne Hp Ha Hex. unfold same_holdings, holdings. simpl.
  rewrite lookup_insert_ne, (ex_other _ _ _ _ Hex) by done.
  rewrite !filter_insert_other; [done | | | |]; simpl; congruence.
Qed.

Lemma resume_same_holdings s w id po r g es' ks :
  ops_inv strict s w -> pending_operations s !! id = Some po -> po_task_id po <> u ->
  extends (event_store s) (po_task_id po) ks es' -> same_holdings u s (resume s id po r g es').
Proof.
  intros Ho Hpo Hne Hex. destruct (pending_record _ _ _ _ _ Ho Hpo) as (r' & d & _ & _ & _ & Hpa).
  destruct (oi_op_fresh _ _ _ Ho _ _ Hpo) as [_ Hnone]. unfold same_holdings, holdings. simpl.
  rewrite lookup_insert_ne, (ex_other _ _ _ _ Hex), revoke_pending by done.
  rewrite filter_insert_other; [|done | congruence].
  rewrite !filter_delete_other; [done | |]; intros v Hv; simplify_eq; done.
Qed.

Lemma consume_same_holdings s o :
  (forall ao, approved_operations s !! o = Some ao -> ao_task_id ao <> u) -> same_holdings u s (consume s o).
Proof. intros Ho. unfold same_holdings, holdings. simpl. by rewrite filter_delete_other. Qed.

Lemma finished_same_holdings s s' w w' t cur next failure :
  sup_inv strict s w -> sup_inv strict s' w' -> t <> u -> finished s t cur next failure s' ->
  same_holdings u s s'.
Proof.
  intros Hi Hi' Hne [Hs (r & Hr & _ & Ht) Hlog Hrv].
  eapply same_holdings_tables; [apply Hi | apply Hi' | | | | | |]; simpl.
  - by rewrite Ht, lookup_insert_ne.
  - by rewrite Hs, decide_False.
  - by apply (ex_other _ _ _ _ Hlog).
  - apply filter_same_entries. simpl. intros id po Hu. rewrite (rv_pending _ _ _ Hrv).
    destruct (pending_operations s !! id) as [q|]; [|done]. case_decide; naive_solver.
  - apply filter_same_entries. simpl. intros id pa Hu. rewrite (rv_entries _ _ _ Hrv).
    destruct (pending_operations s !! id) as [q|] eqn:Hq; [|done]. case_decide as Hqt; [|done].
    destruct (pending_record _ _ _ _ _ (si_ops _ _ _ Hi) Hq) as (r' & d & _ & _ & _ & ->).
    split; [done|]. intros [= <-]. simpl in Hu. congruence.
  - rewrite (rv_approved _ _ _ Hrv). apply filter_same_entries. simpl. intros o ao Hu.
    rewrite map_lookup_filter_Some. simpl. naive_solver.
Qed.

Lemma started_same_holdings s t r now s' : t <> u -> started s t r now s' -> same_holdings u s s'.
Proof.
  intros Hne [E Hex]. unfold same_holdings, holdings. rewrite (ex_other _ _ _ _ Hex) by done.
  rewrite E. simpl. by rewrite lookup_insert_ne.
Qed.

Lemma submitted_same_holdings s s' w w' t sp st :
  sup_inv strict s w -> sup_inv strict s' w' -> t <> u -> submitted s t sp st s' -> same_holdings u s s'.
Proof.
  intros Hi Hi' Hne (_ & _ & E & Hex & _).
  assert (Ht : tasks s' !! u = tasks s !! u) by (rewrite E; simpl; by rewrite lookup_insert_ne).
  eapply same_holdings_tables; [apply Hi | apply Hi' | done | | | | |]; simpl.
  - unfold task_state. by rewrite Ht, E.
  - by apply (ex_other _ _ _ _ Hex).
  - by rewrite E.
  - by rewrite E.
  - by rewrite E.
Qed.

(** ** Calls *)

(** The tasks a call is about: the one it names, or the one whose approval or whose
    approved operation it names; a submission is about a task that does not exist. *)
Definition concerns s (c : Call) : Prop :=
  match c with
  | CallSubmit _ => task_state s u = None
  | CallStart t | CallStartExecution t | CallRequest t _ _ | CallSucceed t | CallFail t
  | CallFailBudget t | CallCancel t => t = u
  | CallApprove id | CallDeny id => po_task_id <$> pending_operations s !! id = Some u
  | CallAuthorize t o _ => t = u \/ ao_task_id <$> approved_operations s !! o = Some u
  | CallExpire => False
  end.

#[export] Instance concerns_dec s c : Decision (concerns s c).
Proof. destruct c; simpl; apply _. Defined.

(** The calls that first expire what is overdue. *)
Definition expires_first (c : Call) : bool :=
  match c with
  | CallRequest _ _ _ | CallApprove _ | CallDeny _ | CallExpire => true
  | _ => false
  end.

(** Whether the call [c] may change what is held of [u]. *)
Definition affects s (w : World) (c : Call) : bool :=
  bool_decide (concerns s c)
  || expires_first c && bool_decide (due (instant_at (instants_read w)) s).

Fixpoint spared (cs : list Call) s w : bool :=
  match cs with
  | [] => true
  | c :: cs' =>
      negb (affects s w c) && (let '(_, s', w') := run_call c s w in spared cs' s' w')
  end.

Lemma request_same_holdings s w s1 w1 t req ttl r s' :
  sup_inv strict s w -> expires (instant_at (instants_read w)) s s1 -> world_le w w1 ->
  request_result s1 t req ttl w1 r s' -> t <> u -> same_holdings u s1 s'.
Proof.
  intros Hi (s2 & Hrtc & Hun) Hw1 Hr Hne. destruct r as [[| |q]|e|]; simpl in Hr; [| | | |done].
  - destruct Hr as (rec & _ & _ & _ & E & Hex). by eapply logged_same_holdings.
  - destruct Hr as (rec & _ & _ & _ & E & Hex). by eapply logged_same_holdings.
  - destruct Hr as (rec & k & es' & _ & _ & _ & _ & _ & _ & _ & _ & Hid & -> & Hex).
    destruct (expiry_facts _ _ _ Hrtc) as (_ & _ & Hp & Ha & _).
    assert (Hfresh : pending (approval_authority s) !! request_approval_id q = None).
    { destruct (pending (approval_authority s) !! request_approval_id q) eqn:E; [|done].
      destruct Hid. eapply unminted_mono; [done|]. by eapply (oi_fresh _ _ _ (si_ops _ _ _ Hi)). }
    destruct Hun as [E1 _]. eapply suspend_same_holdings; [done | | | done]; rewrite E1; simpl.
    + destruct (pending_operations s2 !! _) as [po|] eqn:E; [|done]. apply Hp in E.
      destruct (pending_record _ _ _ _ _ (si_ops _ _ _ Hi) E) as (? & ? & _ & _ & _ & ?). congruence.
    + destruct (pending (approval_authority s2) !! request_approval_id q) as [pa|] eqn:E; [|done]. apply Ha in E. congruence.
  - by apply unchanged_same_holdings.
Qed.

Lemma approve_same_holdings s1 w1 id r s' :
  sup_inv strict s1 w1 -> approve_result s1 id r s' -> po_task_id <$> pending_operations s1 !! id <> Some u ->
  same_holdings u s1 s'.
Proof.
  intros Hi Hr Hne. destruct r as [q|e|]; simpl in Hr; [|by apply unchanged_same_holdings | done].
  destruct Hr as (po & rec & d & k & es' & Hpo & _ & _ & _ & _ & _ & -> & Hex).
  rewrite Hpo in Hne. eapply resume_same_holdings; [apply Hi | done | | done]. simpl in Hne. congruence.
Qed.

Lemma deny_same_holdings s1 w1 id r s' :
  sup_inv strict s1 w1 -> deny_result s1 id r s' -> po_task_id <$> pending_operations s1 !! id <> Some u ->
  same_holdings u s1 s'.
Proof.
  intros Hi Hr Hne. destruct r as [q|e|]; simpl in Hr; [|by apply unchanged_same_holdings | done].
  destruct Hr as (po & rec & es' & Hpo & _ & _ & -> & Hex).
  rewrite Hpo in Hne. eapply fail_pending_same_holdings; [apply Hi | done | | done]. simpl in Hne. congruence.
Qed.

(** What expiry leaves of another task's pending operation. *)
Lemma expires_pending_of now s s1 id :
  expires now s s1 -> po_task_id <$> pending_operations s !! id <> Some u ->
  po_task_id <$> pending_operations s1 !! id <> Some u.
Proof.
  intros (s2 & Hrtc & [E1 _]) Hne. rewrite E1. simpl. destruct (expiry_facts _ _ _ Hrtc) as (_ & _ & Hp & _).
  destruct (pending_operations s2 !! id) as [po|] eqn:E; [|done]. by rewrite (Hp _ _ E) in Hne.
Qed.

Lemma authorize_same_holdings t o req s w (r : outcome ApprovalReceipt SupervisorError) s' w' :
  sup_inv strict s w -> authorize_operation t o req s w = (r, s', w') ->
  ~ (t = u \/ ao_task_id <$> approved_operations s !! o = Some u) -> same_holdings u s s'.
Proof.
  intros Hi Hrun Hc.
  apply (wp_run _ _ _ _ _ _ _ (wp_authorize_operation strict t o req s w Hi)) in Hrun as (_ & _ & Hr).
  assert (Hv : same_holdings u s (consume s o)).
  { apply consume_same_holdings. intros ao Hao E. apply Hc. right. rewrite Hao. simpl. congruence. }
  destruct r as [q|e|]; [| |done].
  - destruct Hr as (rec & ao & _ & _ & _ & _ & _ & _ & _ & _ & E & Hex). etrans; [exact Hv|].
    eapply logged_same_holdings; [done | done | naive_solver].
  - destruct Hr as [Hr|Hr]; [by apply unchanged_same_holdings|]. etrans; [exact Hv | by apply unchanged_same_holdings].
Qed.

(** The calls that end a task. *)
Lemma finish_same_holdings t next s w :
  sup_inv strict s w -> is_terminal next = true -> t <> u ->
  (forall r s' w', transition t next s w = (r, s', w') -> same_holdings u s s')
  /\ (forall r s' w', fail_budget_exceeded t s w = (r, s', w') -> same_holdings u s s')
  /\ (forall r s' w', cancel t s w = (r, s', w') -> same_holdings u s s').
Proof.
  intros Hi Hn Hne. split_and!; intros r s' w' Hrun.
  - apply (wp_run _ _ _ _ _ _ _ (wp_transition_terminal strict t next s w Hi Hn)) in Hrun as (Hi' & _ & Hr).
    destruct r as [[]|e|]; [|by apply unchanged_same_holdings, Hr|done].
    destruct Hr as (cur & _ & _ & Hf). by eapply finished_same_holdings.
  - apply (wp_run _ _ _ _ _ _ _ (wp_fail_budget_exceeded strict t s w Hi)) in Hrun as (Hi' & _ & Hr).
    destruct r as [[]|e|]; [|by apply unchanged_same_holdings|done].
    destruct Hr as (cur & _ & _ & Hf). by eapply finished_same_holdings.
  - apply (wp_run _ _ _ _ _ _ _ (wp_cancel strict t s w Hi)) in Hrun as (Hi' & _ & Hr).
    destruct r as [[]|e|]; [| |by apply unchanged_same_holdings|done].
    + destruct Hr as (cur & _ & _ & Hf). by eapply finished_same_holdings.
    + by destruct Hr as [-> _].
Qed.

Lemma disciplined_call_spec s c : disciplined_call s c = true -> disciplined s c.
Proof. destruct c; simpl; try done; by rewrite Bool.negb_true_iff, bool_decide_eq_false. Qed.

Lemma call_same_holdings c s w r s' w' :
  sup_inv strict s w -> (strict = true -> disciplined s c) -> run_call c s w = (r, s', w') ->
  affects s w c = false -> same_holdings u s s'.
Proof.
  intros Hi Hd Hrun Haff. unfold affects in Haff. apply Bool.orb_false_iff in Haff as [Hc Hx].
  apply bool_decide_eq_false in Hc.
  assert (Hdue : expires_first c = true -> ~ due (instant_at (instants_read w)) s).
  { intros E. by rewrite E, Bool.andb_true_l, bool_decide_eq_false in Hx. }
  assert (Hexp : forall s1, expires_first c = true ->
    expires (instant_at (instants_read w)) s s1 -> same_holdings u s s1).
  { intros s1 E He. eapply expires_same_holdings; [apply Hi | done | by apply Hdue]. }
  destruct c as [sp|t|t|t req ttl|id|id|t o req| |t|t|t|t]; simpl in Hc, Hd, Hrun;
    try (apply discard_state in Hrun as [r0 Hrun]).
  - apply (wp_run _ _ _ _ _ _ _ (wp_submit strict sp s w Hi)) in Hrun as (Hi' & _ & Hr).
    destruct r0 as [[q|q|q errs]|e|]; [| | | |done].
    1,3: destruct Hr as (_ & _ & Hs); eapply submitted_same_holdings; [done | done | | done];
      intros E; apply Hc; rewrite <-E; apply Hs.
    + by destruct Hr as [-> _].
    + by apply unchanged_same_holdings, Hr.
  - apply (wp_run _ _ _ _ _ _ _ (wp_start strict t s w Hi Hd)) in Hrun as (_ & _ & Hr).
    destruct r as [[]|e|]; [|by apply unchanged_same_holdings|done].
    destruct Hr as (rec & k & _ & _ & _ & Hs). by eapply started_same_holdings.
  - apply (wp_run _ _ _ _ _ _ _ (wp_start_execution strict t s w Hi Hd)) in Hrun as (_ & _ & Hr).
    destruct r0 as [a|e|]; [|by apply unchanged_same_holdings|done].
    destruct Hr as (rec & k & _ & _ & _ & Hs & _). by eapply started_same_holdings.
  - apply (wp_run _ _ _ _ _ _ _ (wp_request_operation strict t req ttl s w Hi)) in Hrun
      as (_ & _ & s1 & w1 & He & Hw1 & Hr & _).
    etrans; [by apply Hexp | by eapply request_same_holdings].
  - apply (wp_run _ _ _ _ _ _ _ (wp_approve_operation strict id s w Hi)) in Hrun
      as (_ & _ & s1 & w1 & Hi1 & He & Hr & _).
    etrans; [by apply Hexp | eapply approve_same_holdings; [done | done | by eapply expires_pending_of]].
  - apply (wp_run _ _ _ _ _ _ _ (wp_deny_operation strict id s w Hi)) in Hrun
      as (_ & _ & s1 & w1 & Hi1 & He & Hr & _).
    etrans; [by apply Hexp | eapply deny_same_holdings; [done | done | by eapply expires_pending_of]].
  - by eapply authorize_same_holdings.
  - apply (wp_run _ _ _ _ _ _ _ (wp_expire_approvals strict s w Hi)) in Hrun as (_ & _ & He & _).
    by apply Hexp.
  - by eapply (proj1 (finish_same_holdings t Succeeded s w Hi eq_refl Hc)).
  - by eapply (proj1 (finish_same_holdings t Failed s w Hi eq_refl Hc)).
  - by eapply (proj1 (proj2 (finish_same_holdings t Failed s w Hi eq_refl Hc))).
  - by eapply (proj2 (proj2 (finish_same_holdings t Failed s w Hi eq_refl Hc))).
Qed.

Lemma run_same_holdings cs s w :
  reachable strict s w -> (strict = true -> disciplined_calls cs s w = true) ->
  spared cs s w = true -> same_holdings u s (run_calls cs s w).1.
Proof.
  revert s w. induction cs as [|c cs IH]; intros s w Hr Hd Hsp; simpl in *; [done|].
  destruct (run_call c s w) as [[r s'] w'] eqn:Hrun.
  apply Bool.andb_true_iff in Hsp as [Hc Hsp]. apply Bool.negb_true_iff in Hc.
  assert (Hd1 : strict = true -> disciplined s c).
  { intros Hs. apply Hd, Bool.andb_true_iff in Hs as [Hs _]. by apply disciplined_call_spec. }
  transitivity s'; [eapply call_same_holdings; [by apply reachable_inv | done..]|].
  apply IH; [by eapply reachable_call | | done].
  intros Hs. by apply Hd, Bool.andb_true_iff in Hs as [_ ?].
Qed.

(** The queries about a task depend on nothing else. *)
Lemma same_holdings_answers s s' :
  same_holdings u s s' -> get s' u = get s u /\ execution_context s' u = execution_context s u.
Proof.
  intros E. injection E as Ht Hrec _ _ _ _ _. split.
  - unfold get, task_state. by rewrite Ht, Hrec.
  - unfold execution_context. by rewrite Ht.
Qed.

End Isolation.

(** C10: Tasks are isolated: along every run, with every store failure, nothing the
    supervisor holds of a task (its record and contract, its state, its audit log, its
    idempotency key, its pending and its approved operations and their approvals)
    changes unless a call names the task, its approval or its approved operation, or its
    own approval is overdue when approvals expire; so the state and the execution
    context reported for it stay the same as well. *)
Theorem tasks_are_isolated `{EnvLaws} {St} `{EventStoreLaws St} strict (s : TaskSupervisor St) w cs u :
  reachable strict s w -> (strict = true -> disciplined_calls cs s w = true) ->
  spared u cs s w = true ->
  let s' := (run_calls cs s w).1 in
  holdings u s' = holdings u s
  /\ get s' u = get s u /\ execution_context s' u = execution_context s u.
Proof.
  intros Hr Hd Hsp s'. pose proof (run_same_holdings strict u cs s w Hr Hd Hsp) as Hv.
  split; [by symmetry | by apply same_holdings_answers].
Qed.

(** Another task with its own key. *)
Definition other_task : TaskSpec :=
  mk_TaskSpec "isolation-2" (goal example_task) (capabilities example_task) (budget example_task)
    (approval example_task).

(** The other task is submitted, started, asks, is approved, consumes and is cancelled. *)
Definition other_calls : list Call :=
  [CallSubmit other_task; CallStart (mk_TaskId 3);
   CallRequest (mk_TaskId 3) commit_request (Duration_from_secs 60);
   CallApprove (mk_ApprovalId 5); CallAuthorize (mk_TaskId 3) (mk_OperationId 4) commit_request;
   CallCancel (mk_TaskId 3)].

Lemma tasks_are_isolated_witness :
  let s := (demo_run demo_calls).1 in
  let s' := (run_calls other_calls (demo_run demo_calls).1 (demo_run demo_calls).2).1 in
  task_state s' (mk_TaskId 3) = Some Cancelled
  /\ length (store_log (event_store s') (mk_TaskId 3)) = 10%nat
  /\ holdings demo_task s' = holdings demo_task s
  /\ held_record (holdings demo_task s) <> None.
Proof.
  assert (Hr : reachable true (demo_run demo_calls).1 (demo_run demo_calls).2)
    by (apply demo_reach; vm_compute; reflexivity).
  split; [vm_compute; reflexivity|]. split; [vm_compute; reflexivity|]. split; [|by vm_compute].
  assert (Hd : disciplined_calls other_calls (demo_run demo_calls).1 (demo_run demo_calls).2 = true)
    by (vm_compute; reflexivity).
  assert (Hs : spared demo_task other_calls (demo_run demo_calls).1 (demo_run demo_calls).2 = true)
    by (vm_compute; reflexivity).
  exact (proj1 (tasks_are_isolated true (demo_run demo_calls).1 (demo_run demo_calls).2
    other_calls demo_task Hr (fun _ => Hd) Hs)).
Defined.
