(* ===== verification/RecoveryProps.v ===== *)
(** * Properties of budgets and recovery, and runs that show their limits *)

From stdpp Require Import base numbers list gmap strings.
From Stdlib Require Import ZArith Lia.
From S2P Require Import Prelude RustStd TaskState TaskSpec Policy Event Approval Supervisor Recovery.
From S2P Require Import SupervisorInv SupervisorFacts SupervisorOps RecoveryFacts SupervisorRun SupervisorProps.

(** ** Wall-time budgets *)

(** A running task always has an execution context with its own budget and
    start time, and the two wall-time checks agree: the remaining time is within
    the budget and is zero exactly when the exceeded test holds. *)
Theorem running_tasks_have_a_budget `{EnvLaws} {St} `{EventStoreLaws St} strict
    (s : TaskSupervisor St) w t rec :
  reachable strict s w -> tasks s !! t = Some rec -> state rec = Running ->
  exists c started, execution_context s t = Ok c /\ started_at rec = Some started
    /\ context_budget c = budget (spec rec) /\ context_started_at c = started
    /\ (0 <= wall_time_seconds (budget (spec rec)) ->
        forall now, 0 <= remaining_wall_time c now <= Duration_from_secs (wall_time_seconds (budget (spec rec)))
        /\ (remaining_wall_time c now = 0 <->
            (Duration_from_secs (wall_time_seconds (budget (spec rec)))
               <=? elapsed_between started now) = true)).
Proof.
  intros [_ Ht _ _]%reachable_inv Hrec Hst.
  destruct (ro_started _ (ti_record _ _ Ht _ _ Hrec)) as [started Hs]; [auto|].
  eexists _, started. split_and!; [| done | | |].
  - unfold execution_context. rewrite Hrec. simpl. rewrite bool_decide_eq_true_2 by done. simpl.
    by rewrite Hs.
  - done.
  - done.
  - intros Hb now. unfold remaining_wall_time, Duration_saturating_sub, elapsed_between, Duration_from_secs.
    simpl. rewrite Z.leb_le. lia.
Qed.

Definition running_calls : list Call := [CallSubmit example_task; CallStart demo_task].

Lemma running_tasks_have_a_budget_witness :
  exists c started, execution_context (demo_run running_calls).1 demo_task = Ok c
    /\ context_started_at c = started /\ started = 0.
Proof.
  assert (Hr : reachable true (demo_run running_calls).1 (demo_run running_calls).2)
    by (apply demo_reach; vm_compute; reflexivity).
  destruct (running_tasks_have_a_budget true (demo_run running_calls).1 (demo_run running_calls).2
    demo_task (mk_TaskRecord example_task Running (Some 0)) Hr) as (c & st & Hc & [= <-] & _ & Hs & _);
    [vm_compute; reflexivity | reflexivity |].
  by exists c, 0.
Defined.

Section Evolution.
Context `{EnvLaws} {St : Type} `{EventStoreLaws St}.

Lemma run_calls_evolves strict cs (s : TaskSupervisor St) w :
  reachable strict s w -> (strict = true -> disciplined_calls cs s w = true) ->
  evolves strict s (run_calls cs s w).1 /\ world_le w (run_calls cs s w).2.
Proof.
  revert s w. induction cs as [|c cs IH]; intros s w Hr Hd; simpl.
  - split; [|done]. by apply evolves_same.
  - destruct (run_call c s w) as [[r s'] w'] eqn:Hrun. simpl in Hd. rewrite Hrun in Hd.
    assert (Hc : strict = true -> disciplined s c).
    { intros Hs. apply Hd, Bool.andb_true_iff in Hs as [Hc _].
      destruct c; simpl in *; try done; by rewrite Bool.negb_true_iff, bool_decide_eq_false in Hc. }
    destruct (run_call_good strict s w c r s' w' Hr Hc Hrun) as (_ & _ & Hw & He & _).
    destruct (IH s' w') as [He' Hw'].
    + by eapply reachable_call.
    + by intros Hs; apply Hd, Bool.andb_true_iff in Hs as [_ ?].
    + split; by etrans.
Qed.

End Evolution.

(** The wall-time budget cannot be refilled: in runs that do not start a
    waiting task again, once the exceeded test holds for a task it holds after
    every further sequence of calls for as long as the task runs or waits. *)
Theorem wall_time_cannot_be_reset `{EnvLaws} {St} `{EventStoreLaws St}
    (s : TaskSupervisor St) w t s1 w1 cs q :
  reachable true s w -> wall_time_exceeded t s w = (Return true, s1, w1) ->
  disciplined_calls cs s w1 = true ->
  task_state (run_calls cs s w1).1 t = Some q -> q = Running \/ q = WaitingApproval ->
  (wall_time_exceeded t (run_calls cs s w1).1 (run_calls cs s w1).2).1.1 = Return true.
Proof.
  intros Hr Hx Hd Hq Hlive.
  assert (Hx' : exists rec started, tasks s !! t = Some rec /\ started_at rec = Some started
    /\ w1 = mk_World (Datatypes.S (instants_read w)) (system_times_read w) (uuids_minted w)
    /\ Duration_from_secs (wall_time_seconds (budget (spec rec)))
       <= elapsed_between started (instant_at (instants_read w))).
  { unfold wall_time_exceeded, get_task, bind, gets, lift in Hx.
    destruct (tasks s !! t) as [rec|]; [|done]. simpl in Hx.
    destruct (state rec); try done; destruct (started_at rec) as [st|] eqn:Hst; try done; simpl in Hx;
      injection Hx as Hx _ <-; exists rec, st; split_and!; try done; by apply Z.leb_le. }
  destruct Hx' as (rec & started & Hrec & Hst & -> & Hle).
  set (w1 := mk_World _ _ _) in *. assert (Hw1 : world_le w w1) by (split; simpl; lia).
  assert (Hr1 : reachable true s w1) by by eapply reachable_time.
  destruct (run_calls_evolves true cs s w1 Hr1 (fun _ => Hd)) as [He Hw2].
  destruct (He t rec Hrec) as (rec' & Hrec' & [Hsp _ Hstart]).
  rewrite Hst in Hstart. specialize (Hstart eq_refl ltac:(by eexists)).
  unfold task_state in Hq. rewrite Hrec' in Hq. injection Hq as <-.
  unfold wall_time_exceeded, get_task, bind, gets, lift. rewrite Hrec'. simpl.
  assert (Hmono : elapsed_between started (instant_at (instants_read w))
    <= elapsed_between started (instant_at (instants_read (run_calls cs s w1).2))).
  { unfold elapsed_between. destruct Hw2 as [Hw2 _]. simpl in Hw2.
    pose proof (instant_monotone (instants_read w) (instants_read (run_calls cs s w1).2)). lia. }
  destruct Hlive as [-> | ->]; rewrite Hstart; simpl; rewrite Hsp; f_equal; apply Z.leb_le; lia.
Qed.

(** The example task with one second of wall time. *)
Definition hasty_task : TaskSpec :=
  mk_TaskSpec (idempotency_key example_task) (goal example_task) (capabilities example_task)
    (mk_Budget 1 8589934592 2) (approval example_task).

Definition hasty_calls : list Call := [CallSubmit hasty_task; CallStart demo_task].

Lemma wall_time_cannot_be_reset_witness :
  let s := (demo_run hasty_calls).1 in
  let w := mk_World 1005 4 1 in
  let w1 := mk_World 1006 4 1 in
  let cs := [CallRequest demo_task commit_request (Duration_from_secs 60)] in
  (wall_time_exceeded demo_task (run_calls cs s w1).1 (run_calls cs s w1).2).1.1 = Return true.
Proof.
  intros s w w1 cs.
  assert (Hr : reachable true s w).
  { apply (reachable_time true s (demo_run hasty_calls).2).
    - apply demo_reach. vm_compute. reflexivity.
    - split; apply Nat.leb_le; vm_compute; reflexivity. }
  refine (wall_time_cannot_be_reset s w demo_task s w1 cs WaitingApproval Hr _ _ _ _).
  - vm_compute. reflexivity.
  - vm_compute. reflexivity.
  - vm_compute. reflexivity.
  - right. reflexivity.
Defined.

(** ** Recovery *)

(** Recovery closes what a crash interrupted: when it succeeds, every task
    with a log is known again in the state its log replays to, or [Failed] with a
    restart failure appended to its log if that state was not terminal; the new
    log replays to the new state; and no task input, idempotency key, pending or
    approved operation comes back. *)
Theorem recovery_fails_interrupted_tasks `{EnvLaws} {St} `{EventStoreLaws St}
    `{!RecoverableEventStore St, !RecoverableLaws St} max (es : St) w s es' w' :
  store_wf es -> 0 < max <= usize_max ->
  (forall t, store_log es t <> [] -> unminted w (task_uuid t)) ->
  recover max es w = (Return s, es', w') ->
  (forall t q, replays (kind <$> store_log es t) q ->
     task_state s t = Some (settle q) /\ is_terminal (settle q) = true
     /\ recovered_log es es' t q /\ replays (kind <$> store_log es' t) (settle q))
  /\ (forall t, task_state s t = None <-> store_log es t = [])
  /\ tasks s = ∅ /\ idempotency_index s = ∅ /\ pending_operations s = ∅ /\ approved_operations s = ∅.
Proof.
  intros Hwf Hmax Hk Hrun.
  apply (wp_run _ _ _ _ _ _ _ (wp_recover true max es w Hwf Hmax Hk)) in Hrun
    as (_ & _ & _ & _ & Ht & Hp & Ha & Hx & Heach & Hnone & _).
  split_and!; try done. intros t q Hq. destruct (Heach t q Hq) as [Hs Hl].
  split_and!; try done; [unfold settle; by destruct (is_terminal q) eqn:? | by eapply recovered_log_replays].
Qed.

(** Recovery is idempotent: recovering again from the store a successful
    recovery left appends nothing and finds every task in the same state. *)
Theorem recovery_is_idempotent `{EnvLaws} {St} `{EventStoreLaws St}
    `{!RecoverableEventStore St, !RecoverableLaws St} max (es : St) w s es' w' s2 es2 w2 :
  store_wf es -> 0 < max <= usize_max ->
  (forall t, store_log es t <> [] -> unminted w (task_uuid t)) ->
  recover max es w = (Return s, es', w') -> recover max es' w' = (Return s2, es2, w2) ->
  forall t, store_log es2 t = store_log es' t /\ task_state s2 t = task_state s t.
Proof.
  intros Hwf Hmax Hk Hrun Hrun2 t.
  apply (wp_run _ _ _ _ _ _ _ (wp_recover true max es w Hwf Hmax Hk)) in Hrun
    as (Hw & Hwf' & Hi & Hes & Htk & _ & _ & _ & _ & Hnone & Hempty).
  assert (Hk' : forall t, store_log es' t <> [] -> unminted w' (task_uuid t))
    by (rewrite <-Hes; apply (li_known _ _ _ _ (si_log _ _ _ Hi))).
  apply (wp_run _ _ _ _ _ _ _ (wp_recover true max es' w' Hwf' Hmax Hk')) in Hrun2
    as (_ & _ & _ & _ & _ & _ & _ & _ & Heach2 & Hnone2 & Hempty2).
  destruct (task_state s t) as [q|] eqn:Hq.
  - pose proof (li_replays _ _ _ _ (si_log _ _ _ Hi) eq_refl t q Hq) as Hr. rewrite Hes in Hr.
    unfold task_state in Hq. rewrite Htk, lookup_empty in Hq.
    apply (ti_recovered _ _ (si_table _ _ _ Hi)) in Hq as [Hterm _].
    destruct (Heach2 t q Hr) as [Hs2 Hl2]. unfold settle, recovered_log in *. by rewrite Hterm in *.
  - apply Hnone, Hempty in Hq as Hnil. split; [by rewrite Hnil; apply Hempty2 | by apply Hnone2].
Qed.

(** ** What an undisciplined caller breaks *)

(** An operation is approved but not consumed, a second one is denied. *)
Definition stale_grant_calls : list Call :=
  demo_calls ++ [CallApprove (mk_ApprovalId 2);
                 CallRequest demo_task commit_request (Duration_from_secs 60);
                 CallDeny (mk_ApprovalId 4)].

(** Denial fails a task without revoking its other grant: an operation
    that was approved and not yet consumed stays in the supervisor after its task
    failed by a denial, and the log has no revocation of it. *)
Theorem denial_keeps_unused_grants :
  let s := (demo_run stale_grant_calls).1 in
  task_state s demo_task = Some Failed
  /\ is_Some (approved_operations s !! mk_OperationId 1)
  /\ ~ logged (event_store s) demo_task (EvApprovalRevoked (mk_ApprovalId 2) (mk_OperationId 1)).
Proof.
  split; [vm_compute; reflexivity|]. split; [eexists; vm_compute; reflexivity|].
  unfold logged. apply (bool_decide_unpack _). vm_compute. exact I.
Qed.

(** ** One full log blocks every approval *)

Definition crowded_supervisor : TaskSupervisor InMemoryEventStore :=
  mk_TaskSupervisor ∅ ∅ ∅ (mk_InMemoryEventStore ∅ 7) ApprovalAuthority_default ∅ ∅ 10.

Definition other_task_spec : TaskSpec :=
  mk_TaskSpec "another-key" (goal example_task) (capabilities example_task)
    (budget example_task) (approval example_task).

(** The first task waits with one event left in its log; the second one runs. *)
Definition crowded_calls : list Call :=
  [CallSubmit example_task; CallStart demo_task;
   CallRequest demo_task commit_request (Duration_from_millis 5);
   CallSubmit other_task_spec; CallStart (mk_TaskId 3)].

(** One task with a full log stops the approvals of all: when a pending
    request of a task whose log cannot take two more events is overdue, the expiry
    pass fails, and with it every request of another, running task, be it one that
    needs approval or one the policy allows. *)
Theorem full_log_blocks_other_tasks :
  let s := (run_calls crowded_calls crowded_supervisor world0).1 in
  let late := mk_World 20 10 4 in
  task_state s (mk_TaskId 3) = Some Running
  /\ (request_operation (mk_TaskId 3) commit_request (Duration_from_secs 60) s late).1.1
     = Raise (EventStoreFailure StoreCapacityExceeded)
  /\ (request_operation (mk_TaskId 3) (FileRequest "/workspace/project/a" Read) 1000000 s late).1.1
     = Raise (EventStoreFailure StoreCapacityExceeded)
  /\ (expire_approvals s late).1.1 = Raise (EventStoreFailure StoreCapacityExceeded).
Proof. split_and!; vm_compute; reflexivity. Qed.
