(* ===== verification/SqliteStore.v ===== *)
(** * The SQLite event store (aios-storage-sqlite: lib.rs)

    The persistent store of the daemon.  SQLite and its driver, the JSON text
    of an event and the text of an identifier are parameters with their
    documented behaviour as laws; the store's own statements, checks and
    conversions are definitions, and the store is an instance of the same
    interface as the in-memory one, so every theorem on supervisors holds for it. *)

From stdpp Require Import base numbers list gmap strings sorting.
From Stdlib Require Import ZArith Lia.
From S2P Require Import Prelude RustStd TaskState TaskSpec Policy Event Approval Supervisor Recovery.
From S2P Require Import SupervisorInv SupervisorFacts SupervisorOps RecoveryFacts.

Definition SCHEMA_VERSION : Z := 1.
Definition DEFAULT_BUSY_TIMEOUT : Z := Duration_from_secs 5.
Definition i64_max : Z := 2 ^ 63 - 1.

(** ** The database *)

(** A row of the table [task_events]. *)
Record Row := mk_Row {
  row_task_id : string;
  row_sequence : Z;
  row_occurred_at : Z;
  row_event_json : string;
}.

#[export] Instance Row_eq_dec : EqDecision Row.
Proof. solve_decision. Defined.

(** The statements without a result. *)
Inductive Statement :=
| BusyTimeout (timeout : Z)
| PragmaForeignKeysOn
| PragmaJournalModeWal
| BeginTransaction
| CreateSchema
| PragmaUserVersion (version : Z)
| InsertEvent (row : Row)
| CommitTransaction.

(** A connection; [None] is any error of the driver, whose kind the store
    drops, also for a single row of an answer. *)
Class Sqlite (C : Type) := {
  sql_execute : Statement -> C -> option unit * C;
  sql_rollback : C -> C;
  sql_user_version : C -> option Z;
  (** SELECT COUNT( * ), COALESCE(MAX(sequence), 0) .. WHERE task_id = ?1 *)
  sql_count_max : C -> string -> option (Z * Z);
  (** SELECT sequence, occurred_at_unix_ms, event_json .. WHERE task_id = ?1 AND
      sequence > ?2 ORDER BY sequence *)
  sql_select_after : C -> string -> Z -> option (list (option (Z * Z * string)));
  (** SELECT DISTINCT task_id .. ORDER BY task_id *)
  sql_select_ids : C -> option (list (option string));
}.

(** The text of an event and of an identifier (serde_json, uuid). *)
Class EventText := {
  encode_kind : TaskEventKind -> option string;
  decode_kind : string -> option TaskEventKind;
  task_id_text : TaskId -> string;
  parse_task_id : string -> option TaskId;
}.

(** The directory entry of a database file. *)
Record FileMetadata := mk_FileMetadata { is_symlink : bool; is_file : bool; file_mode : Z }.

Inductive MetadataError := FileNotFound | FileOtherError.

(** The file system around the database, and the driver's way to open it. *)
Class DatabaseFiles (F C : Type) := {
  symlink_metadata : F -> string -> Result FileMetadata MetadataError;
  create_new_file : string -> Z -> F -> option unit * F;
  connection_open : F -> string -> option C;
  connection_open_in_memory : F -> option C;
}.

(** ** The store *)

Record SqliteEventStore (C : Type) := mk_SqliteEventStore {
  connection : C;
  sqlite_max_events_per_task : Z;
}.
Arguments mk_SqliteEventStore {C} _ _.
Arguments connection {C} _.
Arguments sqlite_max_events_per_task {C} _.

Section Store.
Context `{Env, EventText} {C : Type} `{!Sqlite C}.

Abbreviation Sql := (M (SqliteEventStore C) EventStoreError).

Definition set_connection (c : C) (s : SqliteEventStore C) : SqliteEventStore C :=
  mk_SqliteEventStore c (sqlite_max_events_per_task s).

(** [statement.map_err(|_| EventStoreError::Unavailable)] *)
Definition execute_statement (statement : Statement) : M C EventStoreError unit := fun c w =>
  match sql_execute statement c with
  | (Some _, c') => (Return tt, c', w)
  | (None, c') => (Raise Unavailable, c', w)
  end.

(** A [Transaction] that is dropped before it is committed rolls back. *)
Definition in_transaction {X A} (rollback : X -> X) (body : M X EventStoreError A)
    : M X EventStoreError A := fun x w =>
  match body x w with
  | (Return a, x', w') => (Return a, x', w')
  | (Raise e, x', w') => (Raise e, rollback x', w')
  | (Panic, x', w') => (Panic, rollback x', w')
  end.

Definition store_statement (statement : Statement) : Sql unit :=
  zoom connection set_connection (execute_statement statement).

Definition rollback_store (s : SqliteEventStore C) : SqliteEventStore C :=
  set_connection (sql_rollback (connection s)) s.

(** [SqliteEventStore::initialize] on a connection. *)
Definition initialize (max_events_per_task : Z) (enable_wal : bool)
    : M C EventStoreError Z :=
  do! execute_statement (BusyTimeout DEFAULT_BUSY_TIMEOUT) in
  do! execute_statement PragmaForeignKeysOn in
  do! (if enable_wal then execute_statement PragmaJournalModeWal else ret tt) in
  let! version := gets sql_user_version in
  let! schema_version := lift (ok_or version Unavailable) in
  if schema_version =? 0 then
    do! execute_statement BeginTransaction in
    in_transaction sql_rollback
      (do! execute_statement CreateSchema in
       do! execute_statement (PragmaUserVersion SCHEMA_VERSION) in
       do! execute_statement CommitTransaction in
       ret max_events_per_task)
  else if schema_version =? SCHEMA_VERSION then ret max_events_per_task
  else throw Corrupt.

(** *** Opening *)

(** [initialize] consumes the connection and returns the store. *)
Definition initialized {F} (c : C) (max_events_per_task : Z) (enable_wal : bool)
    : M F EventStoreError (SqliteEventStore C) := fun f w =>
  match initialize max_events_per_task enable_wal c w with
  | (Return limit, c', w') => (Return (mk_SqliteEventStore c' limit), f, w')
  | (Raise e, _, w') => (Raise e, f, w')
  | (Panic, _, w') => (Panic, f, w')
  end.

Definition prepare_database_file {F} `{!DatabaseFiles F C} (path : string) : M F EventStoreError unit :=
  let! found := gets (fun f => symlink_metadata f path) in
  match found with
  | Ok metadata =>
      if is_symlink metadata || negb (is_file metadata) then throw InsecurePermissions
      else if negb (Z.land (file_mode metadata) 63 =? 0) then throw InsecurePermissions
      else ret tt
  | Err FileNotFound =>
      fun f w => match create_new_file path 384 f with
                 | (Some _, f') => (Return tt, f', w)
                 | (None, f') => (Raise Unavailable, f', w)
                 end
  | Err FileOtherError => throw Unavailable
  end.

Definition Sqlite_open {F} `{!DatabaseFiles F C} (path : string) (max_events_per_task : Z)
    : M F EventStoreError (SqliteEventStore C) :=
  if max_events_per_task =? 0 then throw StoreCapacityExceeded
  else
    do! prepare_database_file path in
    let! opened := gets (fun f => connection_open f path) in
    let! c := lift (ok_or opened Unavailable) in
    initialized c max_events_per_task true.

Definition Sqlite_open_in_memory {F} `{!DatabaseFiles F C} (max_events_per_task : Z)
    : M F EventStoreError (SqliteEventStore C) :=
  if max_events_per_task =? 0 then throw StoreCapacityExceeded
  else
    let! opened := gets connection_open_in_memory in
    let! c := lift (ok_or opened Unavailable) in
    initialized c max_events_per_task false.

(** *** Appending and reading *)

(** The loop over [kinds.iter().enumerate()]. *)
Fixpoint insert_events (task_id : TaskId) (first_sequence offset : Z) (kinds : list TaskEventKind)
    : Sql (list TaskEvent) :=
  match kinds with
  | [] => ret []
  | kind :: kinds' =>
      let! offset_u64 := lift (ok_or (try_into u64_max offset) SequenceExhausted) in
      let! number := lift (ok_or (checked_add u64_max first_sequence offset_u64) SequenceExhausted) in
      let! event := TaskEvent_now task_id number kind in
      let! sequence_sql := lift (ok_or (try_into i64_max (sequence event)) SequenceExhausted) in
      let! occurred_at_sql :=
        lift (ok_or (try_into i64_max (occurred_at_unix_ms event)) SequenceExhausted) in
      let! event_json := lift (ok_or (encode_kind (Event.kind event)) Unavailable) in
      do! store_statement
            (InsertEvent (mk_Row (task_id_text task_id) sequence_sql occurred_at_sql event_json)) in
      let! appended := insert_events task_id first_sequence (offset + 1) kinds' in
      ret (event :: appended)
  end.

Definition Sqlite_append_batch (task_id : TaskId) (kinds : list TaskEventKind) : Sql (list TaskEvent) :=
  if bool_decide (kinds = []) then ret []
  else
    do! store_statement BeginTransaction in
    in_transaction rollback_store
      (let! counted := gets (fun s => sql_count_max (connection s) (task_id_text task_id)) in
       let! counts := lift (ok_or counted Unavailable) in
       let! existing_count := lift (ok_or (try_into usize_max counts.1) Corrupt) in
       let! resulting_count :=
         lift (ok_or (checked_add usize_max existing_count (len kinds)) StoreCapacityExceeded) in
       let! limit := gets sqlite_max_events_per_task in
       if limit <? resulting_count then throw StoreCapacityExceeded
       else
         let! last_sequence := lift (ok_or (try_into u64_max counts.2) Corrupt) in
         let! first_sequence := lift (ok_or (checked_add u64_max last_sequence 1) SequenceExhausted) in
         let! appended := insert_events task_id first_sequence 0 kinds in
         do! store_statement CommitTransaction in
         ret appended).

(** The closure over one row of the answer. *)
Definition read_row (task_id : TaskId) (row : option (Z * Z * string)) : Result TaskEvent EventStoreError :=
  let? values := ok_or row Unavailable in
  let? number := ok_or (try_into u64_max values.1.1) Corrupt in
  let? occurred_at := ok_or (try_into u64_max values.1.2) Corrupt in
  let? kind := ok_or (decode_kind values.2) Corrupt in
  Ok (mk_TaskEvent task_id number occurred_at kind).

Definition Sqlite_list (s : SqliteEventStore C) (task_id : TaskId) (after_sequence : Z)
    : Result (list TaskEvent) EventStoreError :=
  let? after := ok_or (try_into i64_max after_sequence) SequenceExhausted in
  let? rows := ok_or (sql_select_after (connection s) (task_id_text task_id) after) Unavailable in
  collect (read_row task_id) rows.

#[export] Instance Sqlite_EventStore : EventStore (SqliteEventStore C) := {|
  append_batch := Sqlite_append_batch;
  list_events := Sqlite_list;
|}.

Definition Sqlite_recover_task_snapshots (s : SqliteEventStore C)
    : Result (list TaskSnapshot) EventStoreError :=
  let? rows := ok_or (sql_select_ids (connection s)) Unavailable in
  let? task_ids := collect (fun row => ok_or row Unavailable) rows in
  collect (fun text =>
    let? task_id := ok_or (parse_task_id text) Corrupt in
    let? events := Sqlite_list s task_id 0 in
    recover_snapshot task_id events) task_ids.

#[export] Instance Sqlite_RecoverableEventStore : RecoverableEventStore (SqliteEventStore C) :=
  {| recover_task_snapshots := Sqlite_recover_task_snapshots |}.

End Store.

(** ** What the store relies on *)

(** Event and identifier texts are read back as what was written. *)
Class EventTextLaws `{EventText} : Prop := {
  decode_encode : forall k text, encode_kind k = Some text -> decode_kind text = Some k;
  parse_text : forall t, parse_task_id (task_id_text t) = Some t;
}.

(** SQLite: statements inside a transaction show at once and are undone by a
    rollback; a committed transaction stays; a failed statement leaves what the
    transaction started from; queries answer about the table. *)
Class SqliteLaws (C : Type) `{Sqlite C} := {
  sql_rows : C -> list Row;
  sql_saved : C -> list Row;
  sql_version : C -> Z;
  begin_spec : forall c r c', sql_execute BeginTransaction c = (r, c') ->
    sql_rows c' = sql_rows c /\ (r = Some tt -> sql_saved c' = sql_rows c);
  insert_spec : forall row c r c', sql_execute (InsertEvent row) c = (r, c') ->
    sql_saved c' = sql_saved c
    /\ (r = Some tt -> sql_rows c' = sql_rows c ++ [row]
         /\ ((row_task_id row, row_sequence row)
             ∉ ((fun q => (row_task_id q, row_sequence q)) <$> sql_rows c))
         /\ 0 < row_sequence row /\ 0 <= row_occurred_at row);
  commit_spec : forall c r c', sql_execute CommitTransaction c = (r, c') ->
    sql_saved c' = sql_saved c /\ (r = Some tt -> sql_rows c' = sql_rows c);
  rollback_spec : forall c, sql_rows (sql_rollback c) = sql_saved c;
  settings_spec : forall q c r c',
    (exists timeout, q = BusyTimeout timeout) \/ q = PragmaForeignKeysOn \/ q = PragmaJournalModeWal ->
    sql_execute q c = (r, c') -> sql_rows c' = sql_rows c /\ sql_version c' = sql_version c;
  user_version_spec : forall c v, sql_user_version c = Some v -> v = sql_version c;
  count_max_spec : forall c text n m, sql_count_max c text = Some (n, m) ->
    let rows := filter (fun r => row_task_id r = text) (sql_rows c) in
    n = len rows /\ m ∈ 0 :: (row_sequence <$> rows) /\ Forall (fun r => row_sequence r <= m) rows;
  select_after_spec : forall c text after answer, sql_select_after c text after = Some answer ->
    exists rows, rows ≡ₚ filter (fun r => row_task_id r = text /\ after < row_sequence r) (sql_rows c)
      /\ Sorted (fun r q => row_sequence r <= row_sequence q) rows
      /\ Forall2 (fun a r => a = None
           \/ a = Some (row_sequence r, row_occurred_at r, row_event_json r)) answer rows;
  select_ids_spec : forall c answer, sql_select_ids c = Some answer ->
    exists texts, NoDup texts /\ (forall text, text ∈ texts <-> text ∈ row_task_id <$> sql_rows c)
      /\ Forall2 (fun a text => a = None \/ a = Some text) answer texts;
}.

(** ** The store implements the interface *)

Section Facts.
Context `{Env, EventTextLaws} {C : Type} `{SqliteLaws C}.
Implicit Types (s : SqliteEventStore C) (c : C).

(** A row read back as an event of a task. *)
Definition row_event (t : TaskId) (r : Row) : option TaskEvent :=
  match read_row t (Some (row_sequence r, row_occurred_at r, row_event_json r)) with
  | Ok e => Some e
  | Err _ => None
  end.

Definition reads (t : TaskId) (r : Row) (e : TaskEvent) : Prop :=
  row_task_id r = task_id_text t /\ row_sequence r <= i64_max /\ row_event t r = Some e.

Definition rows_of c (t : TaskId) : list Row :=
  filter (fun r => row_task_id r = task_id_text t) (sql_rows c).

Definition sqlite_log s (t : TaskId) : list TaskEvent := omap (row_event t) (rows_of (connection s) t).

(** Every row is an event of some task, and the events of a task are numbered
    from one without gaps. *)
Record sqlite_wf s : Prop := {
  sq_rows : forall r, r ∈ sql_rows (connection s) -> exists t e, reads t r e;
  sq_contiguous : forall t, contiguous_from 1 (sqlite_log s t);
}.

Lemma text_inj t u : task_id_text t = task_id_text u -> t = u.
Proof. intros E. pose proof (parse_text t) as Ht. rewrite E, parse_text in Ht. congruence. Qed.

Lemma log_reads s t : sqlite_wf s -> Forall2 (reads t) (rows_of (connection s) t) (sqlite_log s t).
Proof.
  intros [Hr _]. unfold sqlite_log.
  assert (Hall : forall r, r ∈ rows_of (connection s) t -> exists e, reads t r e).
  { intros r [Ht Hin]%list_elem_of_filter. destruct (Hr r Hin) as (u & e & Hu & He).
    exists e. assert (u = t) as -> by (apply text_inj; congruence). done. }
  induction (rows_of (connection s) t) as [|r rs IH]; simpl; [constructor|].
  destruct (Hall r) as (e & He); [left|]. rewrite (proj2 (proj2 He)).
  constructor; [done|]. apply IH. intros q Hq. apply Hall. by right.
Qed.

Lemma row_event_Some t r e :
  row_event t r = Some e <->
  0 <= row_sequence r <= u64_max /\ 0 <= row_occurred_at r <= u64_max
  /\ exists k, decode_kind (row_event_json r) = Some k
      /\ e = mk_TaskEvent t (row_sequence r) (row_occurred_at r) k.
Proof.
  unfold row_event, read_row, try_into. cbn [fst snd ok_or res_bind].
  destruct ((0 <=? row_sequence r) && (row_sequence r <=? u64_max)) eqn:Hs; cbn [ok_or res_bind];
    [|split; [done|]; intros (? & _); bool_prop; destruct Hs; lia].
  destruct ((0 <=? row_occurred_at r) && (row_occurred_at r <=? u64_max)) eqn:Ho; cbn [ok_or res_bind];
    [|split; [done|]; intros (_ & ? & _); bool_prop; destruct Ho; lia].
  bool_prop. destruct (decode_kind (row_event_json r)) as [k|]; cbn [ok_or res_bind].
  - split; [intros [= <-]; eauto | by intros (_ & _ & ? & [= ->] & ->)].
  - split; [done | by intros (_ & _ & ? & ? & _)].
Qed.

Lemma reads_sequences t rs evs : Forall2 (reads t) rs evs -> row_sequence <$> rs = sequence <$> evs.
Proof.
  induction 1 as [|r e rs evs (_ & _ & He) _ IH]; [done|].
  apply row_event_Some in He as (_ & _ & k & _ & ->). by rewrite !fmap_cons, IH.
Qed.

Lemma contiguous_max first l m :
  contiguous_from first l -> 1 <= first -> m ∈ (first - 1) :: (sequence <$> l) ->
  Forall (fun n => n <= m) (sequence <$> l) -> m = first - 1 + len l.
Proof.
  revert first. induction l as [|e l IH]; intros first Hc Hf Hin Hall.
  - apply list_elem_of_singleton in Hin. unfold len. simpl. lia.
  - destruct Hc as [He Hc]. rewrite fmap_cons in Hin, Hall. apply Forall_cons in Hall as [Hm Hall].
    rewrite (IH (first + 1)); [unfold len; simpl length; lia | done | lia | | done].
    replace (first + 1 - 1) with first by lia. rewrite He in Hin, Hm.
    apply elem_of_cons in Hin as [Hm'|Hin]; [lia | done].
Qed.

Lemma count_max_log s t n m :
  sqlite_wf s -> sql_count_max (connection s) (task_id_text t) = Some (n, m) ->
  n = len (sqlite_log s t) /\ m = len (sqlite_log s t).
Proof.
  intros Hwf Hq. apply count_max_spec in Hq as (Hn & Hin & Hall).
  pose proof (log_reads s t Hwf) as Hr. pose proof (reads_sequences _ _ _ Hr) as Hseq.
  change (filter _ _) with (rows_of (connection s) t) in Hn, Hin, Hall. rewrite Hseq in Hin.
  split; [subst n; unfold len; f_equal; by eapply Forall2_length|].
  rewrite (contiguous_max 1 (sqlite_log s t) m); [lia | apply Hwf | lia | done|].
  rewrite <-Hseq. by apply Forall_fmap.
Qed.

Lemma wp_in_transaction {X A} rollback (body : M X EventStoreError A) Q x w :
  wp body (fun r x' w' =>
    match r with
    | Return a => Q (Return a) x' w'
    | Raise e => Q (Raise e) (rollback x') w'
    | Panic => Q Panic (rollback x') w'
    end) x w ->
  wp (in_transaction rollback body) Q x w.
Proof. unfold wp, in_transaction. by destruct (body x w) as [[[a|e|] x'] w']. Qed.

Lemma wp_execute_statement q c w Q :
  (forall r c', sql_execute q c = (r, c') ->
     match r with Some _ => Q (Return tt) c' w | None => Q (Raise Unavailable) c' w end) ->
  wp (execute_statement q) Q c w.
Proof.
  intros Hq. unfold wp, execute_statement. destruct (sql_execute q c) as [[[]|] c'] eqn:E;
    by specialize (Hq _ _ eq_refl).
Qed.

(** The rows a batch inserts are the events it returns. *)
Lemma wp_insert_events t first kinds : forall offset s w,
  0 < first -> 0 <= offset ->
  wp (insert_events t first offset kinds) (fun r s' w' =>
    world_le w w' /\ sqlite_max_events_per_task s' = sqlite_max_events_per_task s
    /\ sql_saved (connection s') = sql_saved (connection s) /\
    match r with
    | Return evs => (kind <$> evs) = kinds /\ contiguous_from (first + offset) evs
        /\ exists rs, sql_rows (connection s') = sql_rows (connection s) ++ rs /\ Forall2 (reads t) rs evs
    | Raise _ => True
    | Panic => False
    end) s w.
Proof.
  induction kinds as [|k kinds IH]; intros offset s w Hf Ho; simpl.
  { wp_steps. split_and!; try done. exists []. by rewrite app_nil_r. }
  wp_step. wp_step. wp_step; [|done]. apply try_into_Some in Hcase as [-> _].
  wp_step. wp_step. wp_step; [|done]. apply checked_add_Some in Hcase as [-> _].
  wp_step. eapply wp_mono; [apply wp_TaskEvent_now; lia|]. intros r s1 w1 (-> & Hw1 & at' & -> & _).
  cbn [sequence occurred_at_unix_ms Event.kind].
  wp_step. wp_step. wp_step; [|done]. apply try_into_Some in Hcase as [-> Hseq].
  wp_step. wp_step. wp_step; [|done]. apply try_into_Some in Hcase as [-> Hat].
  wp_step. wp_step. wp_step; [|done]. wp_step. unfold store_statement. wp_step.
  apply wp_execute_statement. intros r c' Hins. apply insert_spec in Hins as [Hsaved Hins].
  destruct r as [[]|]; [|done]. destruct (Hins eq_refl) as (Hrows & _ & _ & _).
  wp_step. eapply wp_mono; [apply (IH (offset + 1)); lia|].
  intros r s2 w2 (Hw2 & Hmax & Hsv & Hr). simpl in Hmax, Hsv, Hr.
  assert (Hw : world_le w w2) by by etrans. rewrite <-Hsaved, <-Hsv.
  destruct r as [evs|e|]; [|done..]. destruct Hr as (Hk & Hc & rs & Hrs & Hrd). wp_step.
  split_and!; try done; [by rewrite fmap_cons, Hk | simpl; by rewrite <-Z.add_assoc|].
  exists (mk_Row (task_id_text t) (first + offset) at' s0 :: rs).
  split; [by rewrite Hrs, Hrows, <-app_assoc|]. constructor; [|done]. split_and!; [done | simpl; lia|].
  apply row_event_Some. simpl. unfold u64_max, i64_max in *. split_and!; try lia.
  exists k. split; [by apply decode_encode | done].
Qed.

(** Logs depend on the rows only. *)
Lemma sqlite_log_rows s s' t :
  sql_rows (connection s') = sql_rows (connection s) -> sqlite_log s' t = sqlite_log s t.
Proof. intros E. unfold sqlite_log, rows_of. by rewrite E. Qed.

Lemma sqlite_wf_rows s s' :
  sql_rows (connection s') = sql_rows (connection s) -> sqlite_wf s -> sqlite_wf s'.
Proof.
  intros E [Hr Hc]. split; [by rewrite E|]. intros t. by rewrite (sqlite_log_rows s).
Qed.

Lemma rows_of_reads t u rs evs : Forall2 (reads t) rs evs ->
  omap (row_event u) (filter (fun r => row_task_id r = task_id_text u) rs)
  = if decide (u = t) then evs else [].
Proof.
  induction 1 as [|r e rs evs (Ht & _ & He) _ IH]; [by case_decide|].
  rewrite filter_cons, Ht. destruct (decide (u = t)) as [->|Hu].
  - rewrite decide_True by done. cbn [omap list_omap]. by rewrite He, <-IH.
  - rewrite decide_False by (intros E; apply Hu; symmetry; by apply text_inj). by rewrite IH.
Qed.

Lemma sqlite_log_append s s' t rs evs u :
  sql_rows (connection s') = sql_rows (connection s) ++ rs -> Forall2 (reads t) rs evs ->
  sqlite_log s' u = sqlite_log s u ++ (if decide (u = t) then evs else []).
Proof.
  intros E Hr. unfold sqlite_log, rows_of. by rewrite E, filter_app, omap_app, (rows_of_reads t u rs evs).
Qed.

Lemma sqlite_wf_append s s' t rs evs :
  sqlite_wf s -> sql_rows (connection s') = sql_rows (connection s) ++ rs ->
  Forall2 (reads t) rs evs -> contiguous_from (len (sqlite_log s t) + 1) evs -> sqlite_wf s'.
Proof.
  intros [Hr Hc] E Hrd Hev. split.
  - intros r. rewrite E, elem_of_app. intros [Hin|Hin]; [by apply Hr|].
    apply list_elem_of_lookup in Hin as [i Hi].
    destruct (Forall2_lookup_l _ _ _ _ _ Hrd Hi) as (e & _ & He). by exists t, e.
  - intros u. rewrite (sqlite_log_append s s' t rs evs u E Hrd), contiguous_app.
    split; [apply Hc|]. case_decide; [subst u; by rewrite Z.add_comm | done].
Qed.

(** What an append does: the whole batch with the next numbers, or nothing. *)
Lemma Sqlite_append_batch_exact t kinds s w :
  sqlite_wf s ->
  wp (Sqlite_append_batch t kinds) (fun r s' w' =>
    world_le w w' /\ sqlite_max_events_per_task s' = sqlite_max_events_per_task s /\
    match r with
    | Return evs => (kind <$> evs) = kinds /\ contiguous_from (len (sqlite_log s t) + 1) evs
        /\ (kinds = [] \/ len (sqlite_log s t) + len kinds <= sqlite_max_events_per_task s)
        /\ exists rs, sql_rows (connection s') = sql_rows (connection s) ++ rs /\ Forall2 (reads t) rs evs
    | Raise _ => sql_rows (connection s') = sql_rows (connection s)
    | Panic => False
    end) s w.
Proof.
  intros Hwf. unfold Sqlite_append_batch. case_bool_decide as Hk.
  { subst kinds. wp_steps. split_and!; try done; [by left|]. exists []. by rewrite app_nil_r. }
  wp_step. unfold store_statement at 1. wp_step. apply wp_execute_statement.
  intros r c' Hb. apply begin_spec in Hb as [Hrows Hsaved]. destruct r as [[]|]; [|by split_and!].
  specialize (Hsaved eq_refl). apply wp_in_transaction.
  assert (Hback : forall c2, sql_saved c2 = sql_saved c' ->
            sql_rows (sql_rollback c2) = sql_rows (connection s))
    by (intros c2 E; by rewrite rollback_spec, E).
  wp_step. wp_step. wp_step. wp_step. simpl connection.
  destruct (sql_count_max c' (task_id_text t)) as [[n m]|] eqn:Hq; cbn [ok_or];
    [|split_and!; [done | done | by apply Hback]].
  assert (Hq' : n = len (sqlite_log s t) /\ m = len (sqlite_log s t)).
  { rewrite <-(sqlite_log_rows s (set_connection c' s) t Hrows).
    apply (count_max_log (set_connection c' s) t n m); [by eapply sqlite_wf_rows | done]. }
  destruct Hq' as [-> ->]. cbn [fst snd].
  wp_step. wp_step. wp_step; [|split_and!; [done | done | by apply Hback]].
  apply try_into_Some in Hcase as [-> _].
  wp_step. wp_step. wp_step; [|split_and!; [done | done | by apply Hback]].
  apply checked_add_Some in Hcase as [-> _]. wp_step. wp_step. simpl sqlite_max_events_per_task.
  destruct (Z.ltb_spec (sqlite_max_events_per_task s) (len (sqlite_log s t) + len kinds)).
  { wp_step. split_and!; [done | done | by apply Hback]. }
  wp_step. wp_step. wp_step; [|split_and!; [done | done | by apply Hback]].
  apply try_into_Some in Hcase as [-> _].
  wp_step. wp_step. wp_step; [|split_and!; [done | done | by apply Hback]].
  apply checked_add_Some in Hcase as [-> _].
  pose proof (len_nonneg (sqlite_log s t)).
  wp_step. eapply wp_mono; [apply wp_insert_events; lia|]. simpl.
  intros r s1 w1 (Hw & Hmax & Hsv & Hr). destruct r as [evs|e|]; [|split_and!; [done | done | by apply Hback]|done].
  destruct Hr as (Hkd & Hc & rs & Hrs & Hrd). wp_step. unfold store_statement. wp_step.
  apply wp_execute_statement. intros r c2 Hcm. apply commit_spec in Hcm as [Hsv2 Hrw].
  destruct r as [[]|]; [|split_and!; [done | done | apply Hback; simpl; congruence]].
  wp_step. simpl. split_and!; try done; [by rewrite Z.add_0_r in Hc | by right|].
  exists rs. split; [by rewrite (Hrw eq_refl), Hrs, Hrows | done].
Qed.

(** ** Reading the log *)

Abbreviation ascending := (StronglySorted (fun r q : Row => row_sequence r < row_sequence q)).

Lemma ascending_filter P `{forall r, Decision (P r)} rs : ascending rs -> ascending (filter P rs).
Proof.
  induction 1 as [|r rs Hs IH Hr]; [constructor|]. rewrite filter_cons. case_decide; [|done].
  constructor; [done|]. apply Forall_forall. intros q [_ Hq]%list_elem_of_filter.
  by apply (proj1 (Forall_forall _ _) Hr).
Qed.

Lemma reads_ascending t rs evs k :
  Forall2 (reads t) rs evs -> contiguous_from k evs ->
  ascending rs /\ Forall (fun r => k <= row_sequence r) rs.
Proof.
  intros Hr. revert k. induction Hr as [|r e rs evs (_ & _ & He) _ IH]; intros k Hc; [by repeat constructor|].
  destruct Hc as [Hk Hc]. destruct (IH _ Hc) as [Hs Hall].
  apply row_event_Some in He as (_ & _ & ? & _ & ->). simpl in Hk.
  split; (constructor; [first [done | lia]|]); (eapply Forall_impl; [exact Hall|]); simpl; lia.
Qed.

(** [ORDER BY sequence] has one answer when the numbers differ. *)
Lemma order_by_unique rows rs :
  ascending rs -> rows ≡ₚ rs -> Sorted (fun r q => row_sequence r <= row_sequence q) rows -> rows = rs.
Proof.
  intros Ha Hp Hs. assert (Hinj : forall x y, x ∈ rs -> y ∈ rs -> row_sequence x = row_sequence y -> x = y).
  { clear Hp Hs. induction Ha as [|r rs _ IH Hr]; intros x y Hx Hy E; [by apply not_elem_of_nil in Hx|].
    rewrite Forall_forall in Hr. apply elem_of_cons in Hx as [->|Hx], Hy as [->|Hy]; [done| | |by apply IH].
    - specialize (Hr y Hy). lia.
    - specialize (Hr x Hx). lia. }
  apply (StronglySorted_unique_strong (fun r q => row_sequence r <= row_sequence q)); [| | |exact Hp].
  - intros x y Hx Hy Hxy Hyx. rewrite Hp in Hx. apply Hinj; [done | done|]. simpl in *. lia.
  - apply Sorted_StronglySorted; [|exact Hs]. intros x y z. simpl. lia.
  - clear Hp Hs Hinj. induction Ha as [|r rs _ IH Hr]; constructor; [done|].
    eapply Forall_impl; [done|]. simpl. lia.
Qed.

Lemma fetched_rows t answer rows evs :
  Forall2 (fun a r => a = None \/ a = Some (row_sequence r, row_occurred_at r, row_event_json r)) answer rows ->
  Forall2 (fun a e => read_row t a = Ok e) answer evs ->
  Forall2 (fun r e => row_event t r = Some e) rows evs.
Proof.
  intros Ha. revert evs. induction Ha as [|a r answer rows Har _ IH]; intros evs He;
    inversion He as [|? e ? evs' Hae Hrest]; subst; constructor; [|by apply IH].
  destruct Har as [->| ->]; [done|]. unfold row_event. by rewrite Hae.
Qed.

Lemma filter_reads t rs evs after :
  Forall2 (reads t) rs evs ->
  Forall2 (fun r e => row_event t r = Some e)
    (filter (fun r => after < row_sequence r) rs) (filter (fun e => after < sequence e) evs).
Proof.
  induction 1 as [|r e rs evs (_ & _ & He) _ IH]; [constructor|].
  pose proof He as (_ & _ & k & _ & E)%row_event_Some. rewrite !filter_cons, E. simpl.
  case_decide; [|done]. constructor; [by rewrite <-E | done].
Qed.

Lemma Sqlite_list_exact s t after evs :
  sqlite_wf s -> Sqlite_list s t after = Ok evs ->
  evs = filter (fun e => after < sequence e) (sqlite_log s t).
Proof.
  intros Hwf. unfold Sqlite_list. destruct (try_into i64_max after) as [n|] eqn:Hn; [|done].
  apply try_into_Some in Hn as [-> _]. cbn [ok_or res_bind].
  destruct (sql_select_after _ _ _) as [answer|] eqn:Hq; [|done]. cbn [ok_or res_bind].
  intros Hc%collect_Ok. apply select_after_spec in Hq as (rows & Hp & Hs & Hf).
  pose proof (log_reads s t Hwf) as Hr.
  destruct (reads_ascending t _ _ 1 Hr (sq_contiguous s Hwf t)) as [Ha _].
  assert (Hrows : rows = filter (fun r => after < row_sequence r) (rows_of (connection s) t)).
  { apply order_by_unique; [by apply ascending_filter | | done].
    rewrite Hp. unfold rows_of. rewrite list_filter_filter.
    erewrite (list_filter_iff _ _); [reflexivity|]. simpl. tauto. }
  pose proof (fetched_rows t _ _ _ Hf Hc) as He. subst rows.
  pose proof (filter_reads t _ _ after Hr) as Hl. clear -He Hl.
  revert Hl. generalize (filter (fun e => after < sequence e) (sqlite_log s t)).
  induction He as [|r e rs evs He _ IH]; intros l Hl; inversion Hl; subst; [done|].
  f_equal; [congruence | by apply IH].
Qed.

Lemma contiguous_from_le k l e : contiguous_from k l -> e ∈ l -> k <= sequence e.
Proof.
  revert k. induction l as [|x l IH]; intros k Hc He; [by apply not_elem_of_nil in He|].
  destruct Hc as [Hx Hc]. apply elem_of_cons in He as [->|He]; [lia|]. specialize (IH _ Hc He). lia.
Qed.

Lemma sqlite_log_typed s t : sqlite_wf s -> Forall (event_typed t) (sqlite_log s t).
Proof.
  intros Hwf. apply Forall_forall. intros e He.
  pose proof (contiguous_from_le 1 _ _ (sq_contiguous _ Hwf t) He) as Hpos.
  apply list_elem_of_lookup in He as [i Hi].
  destruct (Forall2_lookup_r _ _ _ _ _ (log_reads s t Hwf) Hi) as (r & _ & _ & _ & Hr).
  apply row_event_Some in Hr as (Hs & Ho & k & _ & ->). split; simpl in *; [done | lia | lia].
Qed.

#[export, refine] Instance Sqlite_EventStoreLaws : EventStoreLaws (SqliteEventStore C) := {|
  store_wf := sqlite_wf;
  store_log := sqlite_log;
|}.
Proof.
  - intros s t Hwf. apply Hwf.
  - apply sqlite_log_typed.
  - intros t kinds s w Hwf. eapply wp_mono; [by apply Sqlite_append_batch_exact|].
    intros r s' w' (Hw & _ & Hr). destruct r as [evs|e|]; [| |done].
    + destruct Hr as (Hk & Hc & _ & rs & Hrs & Hrd). split_and!; try done.
      * by eapply sqlite_wf_append.
      * by rewrite (sqlite_log_append s s' t rs evs t), decide_True by done.
      * intros u Hu. rewrite (sqlite_log_append s s' t rs evs u) by done.
        by rewrite decide_False, app_nil_r.
    + split_and!; [by eapply sqlite_wf_rows | done|]. intros u. by apply sqlite_log_rows.
  - intros s t after evs. apply Sqlite_list_exact.
Defined.

(** ** Recovery reads every task once *)

Lemma fetched_texts answer texts ids :
  Forall2 (fun a text => a = None \/ a = Some text) answer texts ->
  Forall2 (fun (a : option string) text => ok_or a Unavailable = Ok text) answer ids -> ids = texts.
Proof.
  intros Ha. revert ids. induction Ha as [|a text answer texts Hat _ IH]; intros ids Hi;
    inversion Hi as [|? id ? ids' Hid Hrest]; subst; [done|].
  f_equal; [|by apply IH]. destruct Hat as [->| ->]; by simplify_eq/=.
Qed.

Lemma log_nonempty s t :
  sqlite_wf s -> sqlite_log s t <> [] <-> task_id_text t ∈ row_task_id <$> sql_rows (connection s).
Proof.
  intros Hwf. pose proof (log_reads s t Hwf) as Hr. rewrite list_elem_of_fmap.
  split.
  - intros Hne. destruct (rows_of (connection s) t) as [|r rs] eqn:Hd;
      [by apply Forall2_nil_inv_l in Hr|].
    assert (Hin : r ∈ rows_of (connection s) t) by (rewrite Hd; left).
    apply list_elem_of_filter in Hin as [Hrow Hin]. by exists r.
  - intros (r & Ht & Hin) Hnil. rewrite Hnil in Hr. apply Forall2_nil_inv_r in Hr.
    assert (Hr' : r ∈ rows_of (connection s) t) by by apply list_elem_of_filter.
    rewrite Hr in Hr'. by apply not_elem_of_nil in Hr'.
Qed.

Lemma parsed_snapshots s texts snaps :
  sqlite_wf s -> (forall text, text ∈ texts -> text ∈ row_task_id <$> sql_rows (connection s)) ->
  collect (fun text =>
    let? task_id := ok_or (parse_task_id text) Corrupt in
    let? events := Sqlite_list s task_id 0 in
    recover_snapshot task_id events) texts = Ok snaps ->
  exists ids, texts = task_id_text <$> ids
    /\ collect (fun t => let? events := list_events s t 0 in recover_snapshot t events) ids = Ok snaps.
Proof.
  intros Hwf Hin Hc%collect_Ok. setoid_rewrite collect_Ok.
  induction Hc as [|text snap texts snaps Ht _ IH]; [by exists []|].
  destruct IH as (ids & -> & Hids); [intros u Hu; apply Hin; by right|].
  assert (Hr : text ∈ row_task_id <$> sql_rows (connection s)) by (apply Hin; left).
  apply list_elem_of_fmap in Hr as (r & -> & Hr). destruct (sq_rows s Hwf r Hr) as (t & e & Htext & _).
  rewrite Htext, parse_text in Ht. cbn [ok_or res_bind] in Ht.
  exists (t :: ids). split; [by rewrite Htext | by constructor].
Qed.

#[export] Instance Sqlite_RecoverableLaws : RecoverableLaws (SqliteEventStore C).
Proof.
  split. intros s snaps Hwf. change (store_wf s) with (sqlite_wf s) in Hwf.
  change (recover_task_snapshots s) with (Sqlite_recover_task_snapshots s).
  unfold Sqlite_recover_task_snapshots. destruct (sql_select_ids _) as [answer|] eqn:Hq; [|done].
  cbn [ok_or res_bind]. destruct (collect _ answer) as [found|] eqn:Hf; [|done]. cbn [res_bind].
  apply collect_Ok in Hf. apply select_ids_spec in Hq as (texts & Hnd & Hin & Ha).
  rewrite (fetched_texts _ _ _ Ha Hf). clear Ha Hf found. intros Hc.
  destruct (parsed_snapshots s texts snaps Hwf (fun text => proj1 (Hin text)) Hc) as (ids & -> & Hids).
  assert (Hst : store_wf s) by exact Hwf.
  destruct (listed_snapshots s ids snaps Hst Hids) as [Hsn Hrep]. rewrite Hsn.
  split_and!; [by apply NoDup_fmap_1 in Hnd | | done].
  intros t. change (store_log s t) with (sqlite_log s t). rewrite (log_nonempty s t Hwf), <-Hin.
  rewrite list_elem_of_fmap. split; [|by exists t]. by intros (u & ->%text_inj & Hu).
Qed.

End Facts.
