(* ===== verification/SqliteProps.v ===== *)
(** * Properties of the SQLite event store

    Appending is atomic under every failure of the database, opening keeps the
    data, and what a supervisor over this store recorded survives a restart, unless a
    caller starts a task that waits for an approval. *)

From stdpp Require Import base numbers list gmap strings sorting.
From Stdlib Require Import ZArith Lia Ascii.
From S2P Require Import Prelude RustStd TaskState TaskSpec Policy Event Approval Supervisor Recovery.
From S2P Require Import SupervisorInv SupervisorFacts SupervisorOps RecoveryFacts SupervisorRun SupervisorProps SqliteStore.

Section Facts.
Context `{EnvLaws, EventTextLaws} {C : Type} `{SqliteLaws C}.
Implicit Types s : SqliteEventStore C.

Lemma collect_Err {A B E} (f : A -> Result B E) l e :
  collect f l = Err e -> exists a, a ∈ l /\ f a = Err e.
Proof.
  induction l as [|a l IH]; simpl; [done|]. destruct (f a) as [b|e'] eqn:Ha; simpl.
  - destruct (collect f l) as [r|e']; simpl; [done|]. intros [= ->].
    destruct (IH eq_refl) as (x & Hx & Hfx). exists x. split; [by right | done].
  - intros [= ->]. exists a. split; [left | done].
Qed.

Lemma Forall2_elem_l {A B} (P : A -> B -> Prop) l k a :
  Forall2 P l k -> a ∈ l -> exists b, b ∈ k /\ P a b.
Proof.
  intros Hf [i Hi]%list_elem_of_lookup. destruct (Forall2_lookup_l _ _ _ _ _ Hf Hi) as (b & Hb & Hp).
  exists b. split; [by eapply list_elem_of_lookup_2 | done].
Qed.

(** Reading the whole log of a well-formed store fails only with the driver. *)
Lemma Sqlite_list_error s t e : sqlite_wf s -> Sqlite_list s t 0 = Err e -> e = Unavailable.
Proof.
  intros Hwf. unfold Sqlite_list. cbn [ok_or res_bind try_into Z.leb andb].
  replace (try_into i64_max 0) with (Some 0) by done. cbn [ok_or res_bind].
  destruct (sql_select_after _ _ _) as [answer|] eqn:Hq; cbn [ok_or res_bind]; [|by intros [= <-]].
  intros (a & Ha & Hr)%collect_Err. apply select_after_spec in Hq as (rows & Hp & _ & Hf).
  destruct (Forall2_elem_l _ _ _ _ Hf Ha) as (r & Hin & [->| ->]); [by injection Hr as <-|].
  rewrite Hp in Hin. apply list_elem_of_filter in Hin as [[Ht _] Hin].
  destruct (sq_rows s Hwf r Hin) as (u & ev & Hu & _ & He).
  assert (u = t) as -> by (apply text_inj; congruence).
  unfold row_event in He. rewrite Hr in He. done.
Qed.

Lemma contiguous_len_last k l n :
  contiguous_from k l -> Forall (fun e => sequence e <= n) l -> l <> [] -> k - 1 + len l <= n.
Proof.
  revert k. induction l as [|e l IH]; intros k Hc Hall Hne; [done|]. destruct Hc as [He Hc].
  apply Forall_cons in Hall as [Hen Hall]. destruct l as [|e' l]; [unfold len; simpl; lia|].
  specialize (IH _ Hc Hall ltac:(done)). unfold len in *. simpl length in *. lia.
Qed.

Lemma sqlite_log_bounded s t : sqlite_wf s -> len (sqlite_log s t) < u64_max.
Proof.
  intros Hwf. destruct (decide (sqlite_log s t = [])) as [->|Hne]; [done|].
  pose proof (log_reads s t Hwf) as Hr.
  assert (Hall : Forall (fun e => sequence e <= i64_max) (sqlite_log s t)).
  { clear Hne. induction Hr as [|r e rs evs (_ & Hi & He) _ IH]; constructor; [|done].
    apply row_event_Some in He as (_ & _ & k & _ & ->). done. }
  pose proof (contiguous_len_last 1 _ _ (sq_contiguous s Hwf t) Hall Hne).
  unfold i64_max, u64_max in *. lia.
Qed.

(** Opening refuses unknown schemas and keeps the rows of a known one. *)
Lemma wp_initialize limit wal (c : C) w :
  wp (initialize limit wal) (fun r c' _ =>
    match r with
    | Return n => n = limit /\ (sql_version c = 0 \/ sql_version c = SCHEMA_VERSION
        /\ sql_rows c' = sql_rows c)
    | Raise Corrupt => sql_version c <> 0 /\ sql_version c <> SCHEMA_VERSION /\ sql_rows c' = sql_rows c
    | Raise e => e = Unavailable
    | Panic => False
    end) c w.
Proof.
  assert (Hset : forall q x w (Q : outcome unit EventStoreError -> C -> World -> Prop),
    (exists n, q = BusyTimeout n) \/ q = PragmaForeignKeysOn \/ q = PragmaJournalModeWal ->
    (forall x', sql_rows x' = sql_rows x -> sql_version x' = sql_version x -> Q (Return tt) x' w) ->
    (forall x', Q (Raise Unavailable) x' w) -> wp (execute_statement q) Q x w).
  { intros q x v Q Hq Hok Herr. apply wp_execute_statement. intros [[]|] x' Hx; [|done].
    destruct (settings_spec q x _ x' Hq Hx). by apply Hok. }
  unfold initialize. wp_step. apply Hset; [eauto | | done]. intros c1 R1 V1.
  wp_step. apply Hset; [eauto | | done]. intros c2 R2 V2. wp_step.
  assert (Hwal : wp (if wal then execute_statement PragmaJournalModeWal else ret tt)
    (fun r c3 w3 => match r with
       | Return _ => sql_rows c3 = sql_rows c2 /\ sql_version c3 = sql_version c2
       | Raise e => e = Unavailable | Panic => False end) c2 w).
  { destruct wal; [|by wp_step]. apply Hset; [eauto | done | done]. }
  eapply wp_mono; [exact Hwal|]. intros [[]|e|] c3 w3 Hr; [destruct Hr as [R3 V3] | by subst | done].
  wp_step. wp_step. wp_step. wp_step.
  destruct (sql_user_version c3) as [v|] eqn:Hv; cbn [ok_or]; [|done].
  apply user_version_spec in Hv. rewrite V3, V2, V1 in Hv. subst v.
  destruct (Z.eqb_spec (sql_version c) 0) as [Hz|Hz].
  - wp_step. apply wp_execute_statement. intros [[]|] c4 _; [|done]. apply wp_in_transaction.
    do 3 (wp_step; apply wp_execute_statement; intros [[]|] ? _; [|done]). wp_step. auto.
  - destruct (Z.eqb_spec (sql_version c) SCHEMA_VERSION) as [Hs|Hs]; wp_step.
    + split; [done|]. right. split; [done | congruence].
    + split_and!; [done | done | congruence].
Qed.

(** An open store comes from a file no one else may access and keeps its rows. *)
Lemma Sqlite_open_exact {F} `{!DatabaseFiles F C} path limit (f : F) w s f' w' :
  Sqlite_open path limit f w = (Return s, f', w') ->
  limit <> 0 /\ sqlite_max_events_per_task s = limit
  /\ match symlink_metadata f path with
     | Ok m => is_symlink m = false /\ is_file m = true /\ Z.land (file_mode m) 63 = 0 /\ f' = f
     | Err FileNotFound => create_new_file path 384 f = (Some tt, f')
     | Err FileOtherError => False
     end
  /\ exists c, connection_open f' path = Some c
       /\ (sql_version c = SCHEMA_VERSION -> sql_rows (connection s) = sql_rows c)
       /\ (sql_version c = 0 \/ sql_version c = SCHEMA_VERSION).
Proof.
  unfold Sqlite_open. destruct (Z.eqb_spec limit 0) as [|Hl]; [done|]. unfold bind at 1.
  destruct (prepare_database_file path f w) as [[[[]|e|] f1] w1] eqn:Hp; [|done..].
  unfold bind, gets, lift. destruct (connection_open f1 path) as [c|] eqn:Hc; [|done]. simpl.
  unfold initialized. pose proof (wp_initialize limit true c w1) as Hwp. unfold wp in Hwp.
  destruct (initialize limit true c w1) as [[[n|e|] c'] w2]; [|done..]. intros [= <- <- <-].
  destruct Hwp as [-> Hv]. split_and!; [done | done | |].
  - unfold prepare_database_file, bind, gets in Hp. destruct (symlink_metadata f path) as [m|[]].
    + destruct (is_symlink m) eqn:Hs, (is_file m) eqn:Hf; simpl in Hp; try done.
      destruct (Z.eqb_spec (Z.land (file_mode m) 63) 0); simpl in Hp; [|done]. by injection Hp as <- <-.
    + destruct (create_new_file path 384 f) as [[[]|] f2]; [|done]. by injection Hp as <- <-.
    + done.
  - exists c. unfold SCHEMA_VERSION in *. split_and!; [done | |]; destruct Hv as [Hv|[Hv ?]]; auto. lia.
Qed.

(** Every log a supervisor left can be replayed. *)
Lemma snapshots_error (sup : TaskSupervisor (SqliteEventStore C)) w e :
  sup_inv true sup w -> Sqlite_recover_task_snapshots (event_store sup) = Err e -> e = Unavailable.
Proof.
  intros [Hl _ _ _]. set (s := event_store sup). assert (Hwf : sqlite_wf s) by apply Hl.
  unfold Sqlite_recover_task_snapshots.
  destruct (sql_select_ids _) as [answer|] eqn:Hq; cbn [ok_or res_bind]; [|by intros [= <-]].
  destruct (collect _ answer) as [found|e'] eqn:Hf; cbn [res_bind].
  2:{ intros [= ->]. apply collect_Err in Hf as ([text|] & _ & Hr); by simplify_eq/=. }
  apply collect_Ok in Hf. apply select_ids_spec in Hq as (texts & _ & Hin & Ha).
  rewrite (fetched_texts _ _ _ Ha Hf). intros (text & Ht & Hr)%collect_Err.
  apply Hin in Ht. pose proof Ht as (r & Er & Hrow)%list_elem_of_fmap.
  destruct (sq_rows s Hwf r Hrow) as (t & ev & Htext & _). rewrite Er, Htext in *.
  rewrite parse_text in Hr. cbn [ok_or res_bind] in Hr.
  destruct (Sqlite_list s t 0) as [evs|e'] eqn:Hls; cbn [res_bind] in Hr.
  2:{ injection Hr as ->. by eapply Sqlite_list_error. }
  apply Sqlite_list_exact in Hls; [|done].
  rewrite contiguous_filter_zero in Hls by apply Hwf. subst evs.
  destruct (li_listed _ _ _ _ Hl t) as [q Hqs]; [by apply (log_nonempty s t Hwf)|].
  pose proof (li_replays _ _ _ _ Hl eq_refl t q Hqs) as Hrep.
  rewrite (recover_snapshot_replays t (sqlite_log s t) q) in Hr; [done | apply Hwf | | done].
  by apply sqlite_log_bounded.
Qed.

End Facts.

(** ** A concrete database for the witnesses *)

Module MemDb.

Record Db := mk_Db { db_rows : list Row; db_saved : list Row; db_version : Z; db_full : Z }.

Definition row_le : relation Row := fun r q => row_sequence r <= row_sequence q.

#[export] Instance row_le_dec : RelDecision row_le := fun r q => decide (row_sequence r <= row_sequence q).
#[export] Instance row_le_total : Total row_le.
Proof. intros r q. unfold row_le. lia. Qed.

Definition accepts (row : Row) (rows : list Row) : bool :=
  bool_decide ((row_task_id row, row_sequence row)
                 ∉ ((fun q => (row_task_id q, row_sequence q)) <$> rows))
  && (0 <? row_sequence row) && (0 <=? row_occurred_at row).

(** The disk has room for [db_full] rows. *)
Definition execute_db (q : Statement) (c : Db) : option unit * Db :=
  match q with
  | BeginTransaction => (Some tt, mk_Db (db_rows c) (db_rows c) (db_version c) (db_full c))
  | CreateSchema => (Some tt, mk_Db [] (db_saved c) (db_version c) (db_full c))
  | PragmaUserVersion v => (Some tt, mk_Db (db_rows c) (db_saved c) v (db_full c))
  | InsertEvent row =>
      if accepts row (db_rows c) && (len (db_rows c) <? db_full c)
      then (Some tt, mk_Db (db_rows c ++ [row]) (db_saved c) (db_version c) (db_full c))
      else (None, c)
  | _ => (Some tt, c)
  end.

#[export] Instance db_sqlite : Sqlite Db := {|
  sql_execute := execute_db;
  sql_rollback c := mk_Db (db_saved c) (db_saved c) (db_version c) (db_full c);
  sql_user_version c := Some (db_version c);
  sql_count_max c text :=
    let rows := filter (fun r => row_task_id r = text) (db_rows c) in
    Some (len rows, foldr Z.max 0 (row_sequence <$> rows));
  sql_select_after c text after :=
    Some ((fun r => Some (row_sequence r, row_occurred_at r, row_event_json r)) <$>
            merge_sort row_le
              (filter (fun r => row_task_id r = text /\ after < row_sequence r) (db_rows c)));
  sql_select_ids c := Some (Some <$> remove_dups (row_task_id <$> db_rows c));
|}.

Lemma max_of_rows (l : list Z) :
  foldr Z.max 0 l ∈ 0 :: l /\ Forall (fun n => n <= foldr Z.max 0 l) l.
Proof.
  induction l as [|n l [IH1 IH2]]; simpl; [split; [left | done]|].
  destruct (Z.max_spec n (foldr Z.max 0 l)) as [[? ->]|[? ->]].
  - split; [set_solver|]. constructor; [lia | done].
  - split; [set_solver|]. constructor; [done|]. eapply Forall_impl; [done|]. simpl. lia.
Qed.

Lemma fetched_all {A B} (f : A -> B) l : Forall2 (fun a r => a = None \/ a = Some (f r)) ((fun r => Some (f r)) <$> l) l.
Proof. induction l; constructor; auto. Qed.

#[export, refine] Instance db_laws : SqliteLaws Db := {|
  sql_rows := db_rows; sql_saved := db_saved; sql_version := db_version |}.
Proof.
  - by intros c r c' [= <- <-].
  - intros row c r c'. simpl. unfold accepts. destruct (_ && _) eqn:E; intros [= <- <-]; [|done].
    split; [done|]. intros _. rewrite !andb_true_iff, bool_decide_eq_true, Z.ltb_lt, Z.leb_le in E.
    simpl. tauto.
  - by intros c r c' [= <- <-].
  - done.
  - intros q c r c' [[n ->]|[->| ->]] [= <- <-]; done.
  - by intros c v [= <-].
  - intros c text n m [= <- <-]. split; [done|].
    destruct (max_of_rows (row_sequence <$> filter (fun r => row_task_id r = text) (db_rows c))) as [H1' H2'].
    split; [done|]. rewrite Forall_fmap in H2'. exact H2'.
  - intros c text after answer [= <-]. eexists. split; [apply (merge_sort_Permutation row_le)|].
    split; [by apply (Sorted_merge_sort row_le)|]. apply (fetched_all (fun r => (_, _, _))).
  - intros c answer [= <-]. eexists. split; [apply NoDup_remove_dups|].
    split; [intros text; by rewrite elem_of_remove_dups|]. apply (fetched_all (fun text => text)).
Defined.

(** Texts: identifiers in binary, and a table of event texts. *)
Fixpoint bits (p : positive) : string :=
  match p with
  | xH => "h"
  | xO p => String "0"%char (bits p)
  | xI p => String "1"%char (bits p)
  end.

Fixpoint unbits (s : string) : option positive :=
  match s with
  | EmptyString => None
  | String c s' =>
      if bool_decide (c = "0"%char) then xO <$> unbits s'
      else if bool_decide (c = "1"%char) then xI <$> unbits s'
      else if bool_decide (s' = EmptyString) then Some xH else None
  end.

Definition kind_texts : list (TaskEventKind * string) :=
  [(EvSubmitted, "submitted"); (EvStateTransitioned Submitted Validating, "validating");
   (EvStateTransitioned Validating Queued, "queued"); (EvStateTransitioned Queued Running, "running");
   (EvApprovalRequested (mk_ApprovalId 2) (mk_OperationId 1), "approval 2 of operation 1");
   (EvStateTransitioned Running WaitingApproval, "waiting");
   (EvTaskFailed RuntimeRestarted, "restarted");
   (EvStateTransitioned WaitingApproval Failed, "failed");
   (EvStateTransitioned WaitingApproval Running, "resumed");
   (EvApprovalDenied (mk_ApprovalId 2) (mk_OperationId 1), "denied approval 2 of operation 1");
   (EvStateTransitioned Running Failed, "failed running")].

#[export] Instance demo_text : EventText := {|
  encode_kind k := snd <$> find (fun e => bool_decide (e.1 = k)) kind_texts;
  decode_kind text := fst <$> find (fun e => bool_decide (e.2 = text)) kind_texts;
  task_id_text t := match task_uuid t with N0 => "zero" | Npos p => bits p end;
  parse_task_id text :=
    if bool_decide (text = "zero") then Some (mk_TaskId 0)
    else (fun p => mk_TaskId (Npos p)) <$> unbits text;
|}.

#[export] Instance demo_text_laws : EventTextLaws.
Proof.
  assert (Hb : forall p, unbits (bits p) = Some p).
  { induction p as [p IH|p IH|]; simpl; [by rewrite IH | by rewrite IH | done]. }
  split.
  - intros k text. simpl. repeat (case_bool_decide as E; [intros [= <-]; subst k; reflexivity|clear E]); done.
  - intros [[|p]]; simpl; [done|]. rewrite bool_decide_eq_false_2; [by rewrite Hb|]. by destruct p.
Qed.

Definition empty_db : Db := mk_Db [] [] 1 100.
Definition empty_store : SqliteEventStore Db := mk_SqliteEventStore empty_db 100.

Definition supervisor : TaskSupervisor (SqliteEventStore Db) :=
  mk_TaskSupervisor ∅ ∅ ∅ empty_store ApprovalAuthority_default ∅ ∅ 10.

Lemma empty_store_wf n : sqlite_wf (mk_SqliteEventStore empty_db n).
Proof. split; [|done]. intros r Hr. by apply not_elem_of_nil in Hr. Qed.

Definition run : TaskSupervisor (SqliteEventStore Db) * World := run_calls demo_calls supervisor world0.

Lemma run_reachable : reachable true run.1 run.2.
Proof.
  apply run_calls_reachable; [|vm_compute; reflexivity].
  apply (reachable_init true empty_store 10); try done. apply empty_store_wf.
Qed.

End MemDb.
Import MemDb.

(** ** Properties *)

(** C23: Appending to the database is atomic whatever statement fails: either the
    whole batch is in the log of its task, numbered on from what was there and
    within the limit, and no other log changed, or every log is as it was. *)
Theorem sqlite_append_is_atomic `{Env, EventTextLaws} {C} `{SqliteLaws C} t kinds
    (s : SqliteEventStore C) w r s' w' :
  sqlite_wf s -> Sqlite_append_batch t kinds s w = (r, s', w') ->
  sqlite_wf s' /\
  match r with
  | Return evs => (kind <$> evs) = kinds /\ contiguous_from (len (sqlite_log s t) + 1) evs
      /\ (kinds = [] \/ len (sqlite_log s t) + len kinds <= sqlite_max_events_per_task s)
      /\ forall u, sqlite_log s' u = sqlite_log s u ++ (if decide (u = t) then evs else [])
  | Raise _ => forall u, sqlite_log s' u = sqlite_log s u
  | Panic => False
  end.
Proof.
  intros Hwf Hrun. pose proof (Sqlite_append_batch_exact t kinds s w Hwf) as Hwp.
  unfold wp in Hwp. rewrite Hrun in Hwp. destruct Hwp as (_ & _ & Hr).
  destruct r as [evs|e|]; [| |done].
  - destruct Hr as (Hk & Hc & Hl & rs & Hrs & Hrd). split; [by eapply sqlite_wf_append|].
    split_and!; try done. intros u. by eapply sqlite_log_append.
  - split; [by eapply sqlite_wf_rows|]. intros u. by apply sqlite_log_rows.
Qed.

(** A disk with room for two rows: a batch of three is rolled back. *)
Definition full_disk_store : SqliteEventStore Db := mk_SqliteEventStore (mk_Db [] [] 1 2) 100.

Definition full_disk_append : outcome (list TaskEvent) EventStoreError * SqliteEventStore Db * World :=
  Sqlite_append_batch (mk_TaskId 3)
    [EvSubmitted; EvStateTransitioned Submitted Validating; EvStateTransitioned Validating Queued]
    full_disk_store world0.

Lemma sqlite_append_is_atomic_witness :
  full_disk_append.1.1 = Raise Unavailable
  /\ forall u, sqlite_log full_disk_append.1.2 u = sqlite_log full_disk_store u.
Proof.
  split; [vm_compute; reflexivity|].
  assert (Hwf : sqlite_wf full_disk_store) by (split; [intros r Hr; by apply not_elem_of_nil in Hr | done]).
  destruct (sqlite_append_is_atomic (mk_TaskId 3)
    [EvSubmitted; EvStateTransitioned Submitted Validating; EvStateTransitioned Validating Queued]
    full_disk_store world0 (Raise Unavailable) full_disk_append.1.2 full_disk_append.2 Hwf) as [_ Hlog];
    [vm_compute; reflexivity|].
  exact Hlog.
Defined.

(** Recovery after any disciplined run: no log is corrupt, and the tasks are found. *)
Lemma restart_finds_tasks `{EnvLaws, EventTextLaws} {C} `{SqliteLaws C}
    (s : TaskSupervisor (SqliteEventStore C)) w :
  sup_inv true s w ->
  (forall e, Sqlite_recover_task_snapshots (event_store s) = Err e -> e = Unavailable)
  /\ forall max s' es' w', 0 < max <= usize_max ->
       recover max (event_store s) w = (Return s', es', w') ->
       forall t, task_state s' t = settle <$> task_state s t.
Proof.
  intros Hi. split; [intros e; by eapply snapshots_error|].
  intros max s' es' w' Hmax Hrun t. destruct Hi as [[Hwf Hk Hr Hn] _ _ _].
  pose proof (wp_recover true max (event_store s) w Hwf Hmax Hk) as Hwp. unfold wp in Hwp.
  rewrite Hrun in Hwp. destruct Hwp as (_ & _ & _ & _ & _ & _ & _ & _ & Heach & Hnone & _).
  destruct (task_state s t) as [q|] eqn:Hq; simpl.
  - apply Heach. by apply Hr.
  - apply Hnone. destruct (store_log (event_store s) t) eqn:E; [done|].
    destruct (Hn t) as [? ?]; [by rewrite E | congruence].
Qed.

(** C9: What was recorded survives a restart: for a supervisor over the database
    that has served any calls in which no waiting task was started again, its logs
    are never found corrupt, only the driver can fail; and when recovery succeeds
    the new supervisor knows exactly the same tasks, the terminal ones in their state
    and every other one failed. *)
Theorem tasks_survive_a_restart `{EnvLaws, EventTextLaws} {C} `{SqliteLaws C}
    (s : TaskSupervisor (SqliteEventStore C)) w :
  reachable true s w ->
  (forall e, Sqlite_recover_task_snapshots (event_store s) = Err e -> e = Unavailable)
  /\ forall max s' es' w', 0 < max <= usize_max ->
       recover max (event_store s) w = (Return s', es', w') ->
       forall t, task_state s' t = settle <$> task_state s t.
Proof. intros Hi%reachable_inv. by apply restart_finds_tasks. Qed.

Lemma tasks_survive_a_restart_witness :
  let recovered := recover 10 (event_store MemDb.run.1) MemDb.run.2 in
  exists s', recovered.1.1 = Return s' /\ task_state MemDb.run.1 demo_task = Some WaitingApproval
    /\ task_state s' demo_task = Some Failed.
Proof.
  intros recovered.
  destruct recovered as [[[s'|e|] es'] w'] eqn:Hrun; [|vm_compute in Hrun; discriminate..].
  exists s'. split; [reflexivity|]. split; [vm_compute; reflexivity|].
  destruct (tasks_survive_a_restart MemDb.run.1 MemDb.run.2 MemDb.run_reachable) as [_ Hall].
  rewrite (Hall 10 s' es' w'); [vm_compute; reflexivity | unfold usize_max; lia | exact Hrun].
Defined.

(** ** What an undisciplined caller breaks *)

Section Restarted.
Context `{EnvLaws} {St : Type} `{EventStoreLaws St}.
Implicit Types s : TaskSupervisor St.

(** A denial recorded while the task runs cannot be replayed. *)
Lemma denied_running_corrupt (es : St) es' t id o from :
  store_wf es' -> replays (kind <$> store_log es t) Running ->
  extends es t [EvApprovalDenied id o; EvStateTransitioned from Failed] es' ->
  len (store_log es' t) < u64_max ->
  recover_snapshot t (store_log es' t) = Err Corrupt
  /\ forall q, ~ replays (kind <$> store_log es' t) q.
Proof.
  intros Hwf Hr [(evs & Hl & Hk) _] Hlen.
  assert (E : replay_from None false (kind <$> store_log es' t) = Err Corrupt)
    by (rewrite Hl, fmap_app, Hk, replay_from_app, Hr; done).
  split; [|intros q Hq; unfold replays in Hq; congruence].
  unfold recover_snapshot. rewrite recover_loop_replay; [by rewrite E | by apply store_contiguous | lia].
Qed.

(** Expiry before the denial of [id] leaves the task of [id] alone. *)
Lemma expiry_spares now s s1 id po :
  one_per_task s -> rtc (expiry_step now) s s1 -> pending_operations s1 !! id = Some po ->
  tasks s1 !! po_task_id po = tasks s !! po_task_id po
  /\ store_log (event_store s1) (po_task_id po) = store_log (event_store s) (po_task_id po).
Proof.
  intros Hone (k & Hk)%rtc_nsteps Hpo. destruct (expiry_closes now k s s1 Hone Hk) as (closed & _ & Hc).
  rewrite (cl_pending _ _ _ _ Hc) in Hpo. case_decide as Hid; [done|].
  apply (cl_kept _ _ _ _ Hc). intros id' po' Hin Hpo' E. apply Hid.
  by rewrite <-(Hone id' id po' po Hpo' Hpo E).
Qed.

(** The invariant for disciplined runs contains that of all runs. *)
Lemma reachable_lax s w : reachable true s w -> reachable false s w.
Proof.
  induction 1 as [es max s w|R es max s es' w w' Hl Hwf Hmax Hk Hrun|s w c r s' w' _ IH _ Hrun|s w w' _ IH Hw].
  - by eapply reachable_init.
  - by eapply reachable_recover.
  - by eapply reachable_call.
  - by eapply reachable_time.
Qed.

(** A store with a log that does not replay cannot be recovered. *)
Lemma unreplayable_unrecoverable `{!RecoverableEventStore St, !RecoverableLaws St} (es : St) t max w s' es' w' :
  store_wf es -> store_log es t <> [] -> (forall q, ~ replays (kind <$> store_log es t) q) ->
  recover max es w <> (Return s', es', w').
Proof.
  intros Hwf Hne Hno. unfold recover. destruct (max =? 0); [done|]. unfold bind, gets, lift.
  destruct (recover_task_snapshots es) as [snaps|e] eqn:E; simpl; [exfalso|done].
  destruct (recover_snapshots_sound es snaps Hwf E) as (_ & Hin & Hrep).
  apply Hin, list_elem_of_fmap in Hne as ([t' q] & -> & Hq). by apply (Hno q), Hrep.
Qed.

End Restarted.


