(* ===== verification/Execution.v ===== *)
(** * Execution gate (aios-runtime: execution.rs)

    The gate retains complete operations while their approval is pending and
    runs its adapter only after the supervisor authorized the operation.  The
    adapter is any implementation of the trait. *)

From stdpp Require Import base numbers list gmap strings.
From Stdlib Require Import ZArith Lia.
From S2P Require Import Prelude RustStd TaskState TaskSpec Policy Event Approval Supervisor Recovery.
From S2P Require Import SupervisorInv SupervisorFacts SupervisorOps RecoveryFacts SupervisorRun SupervisorProps ApprovalProps.

(** ** Traits *)

Class GuardedOperation (O : Type) := capability_request : O -> CapabilityRequest.

Class ExecutionAdapter (A O Output Error : Type) := execute : O -> M A Error Output.

(** An adapter reads the clocks like everyone else. *)
Class AdapterLaws (A O Output Error : Type) `{ExecutionAdapter A O Output Error} : Prop :=
  execute_world : forall op a w, world_le w (execute op a w).2.

(** ** Data *)

Record Executed (T : Type) := mk_Executed { output : T; executed_approval : option ApprovalReceipt }.
Arguments mk_Executed {T} _ _.
Arguments output {T} _.
Arguments executed_approval {T} _.

Inductive ExecutionOutcome (T : Type) :=
| OutcomeExecuted (executed : Executed T)
| OutcomeDenied (reason : DenialReason)
| OutcomeApprovalRequired (approval : ApprovalRequest).
Arguments OutcomeExecuted {T} _.
Arguments OutcomeDenied {T} _.
Arguments OutcomeApprovalRequired {T} _.

Inductive ExecutionError (E : Type) :=
| ExecutionSupervisor (error : SupervisorError)
| ExecutionAdapterFailed (error : E)
| OperationNotFound.
Arguments ExecutionSupervisor {E} _.
Arguments ExecutionAdapterFailed {E} _.
Arguments OperationNotFound {E}.

Definition display_ExecutionError {E} (e : ExecutionError E) : string :=
  match e with
  | ExecutionSupervisor _ => "operation authorization failed"
  | ExecutionAdapterFailed _ => "adapter execution failed"
  | OperationNotFound => "pending operation not found"
  end.

Record PendingExecution (O : Type) := mk_PendingExecution {
  pe_task_id : TaskId;
  pe_approval_id : ApprovalId;
  pe_operation : O;
}.
Arguments mk_PendingExecution {O} _ _ _.
Arguments pe_task_id {O} _.
Arguments pe_approval_id {O} _.
Arguments pe_operation {O} _.

Record ExecutionGate (A O : Type) := mk_ExecutionGate {
  adapter : A;
  gate_pending : gmap OperationId (PendingExecution O);
  approval_index : gmap ApprovalId OperationId;
}.
Arguments mk_ExecutionGate {A O} _ _ _.
Arguments adapter {A O} _.
Arguments gate_pending {A O} _.
Arguments approval_index {A O} _.

(** ** Operations *)

Section Gate.
Context `{Env} {A O Output Error S : Type}.
Context `{!GuardedOperation O, !ExecutionAdapter A O Output Error, !EventStore S}.

(** A method of the gate that borrows the supervisor mutably. *)
Abbreviation Gated := (M (ExecutionGate A O * TaskSupervisor S) (ExecutionError Error)).

Definition ExecutionGate_new (a : A) : ExecutionGate A O := mk_ExecutionGate a ∅ ∅.

Definition set_adapter (a : A) (g : ExecutionGate A O) : ExecutionGate A O :=
  mk_ExecutionGate a (gate_pending g) (approval_index g).

(** [supervisor.method(..)?] *)
Definition on_supervisor {B} (m : M (TaskSupervisor S) SupervisorError B) : Gated B :=
  zoom snd (fun s x => (x.1, s)) (map_err ExecutionSupervisor m).

Definition gate_update (f : ExecutionGate A O -> ExecutionGate A O) : Gated unit :=
  modify (fun x => (f x.1, x.2)).

(** [self.adapter.execute(operation).map(..).map_err(ExecutionError::Adapter)] *)
Definition run_adapter (operation : O) : Gated Output :=
  zoom (fun x => adapter x.1) (fun a x => (set_adapter a x.1, x.2))
    (map_err ExecutionAdapterFailed (execute operation)).

(** [debug_assert!(previous.is_none())] is compiled out of release builds; that it
    cannot fail in the others is [retained_operation_is_new] of [ExecutionProps]. *)
Definition gate_request (task_id : TaskId) (operation : O) (approval_ttl : Z)
    : Gated (ExecutionOutcome Output) :=
  let! authorization :=
    on_supervisor (request_operation task_id (capability_request operation) approval_ttl) in
  match authorization with
  | Allowed =>
      let! out := run_adapter operation in
      ret (OutcomeExecuted (mk_Executed out None))
  | Denied reason => ret (OutcomeDenied reason)
  | AuthApprovalRequired approval =>
      do! gate_update (fun g => mk_ExecutionGate (adapter g)
            (<[request_operation_id approval :=
                 mk_PendingExecution task_id (request_approval_id approval) operation]> (gate_pending g))
            (approval_index g)) in
      do! gate_update (fun g => mk_ExecutionGate (adapter g) (gate_pending g)
            (<[request_approval_id approval := request_operation_id approval]> (approval_index g))) in
      ret (OutcomeApprovalRequired approval)
  end.

(** [remove_pending] with the receiver's new value. *)
Definition remove_pending (approval_id : ApprovalId) (operation_id : OperationId)
    (g : ExecutionGate A O) : option (PendingExecution O) * ExecutionGate A O :=
  (gate_pending g !! operation_id,
   mk_ExecutionGate (adapter g) (delete operation_id (gate_pending g))
     (delete approval_id (approval_index g))).

Definition approve_and_execute (approval_id : ApprovalId) : Gated (Executed Output) :=
  let! indexed := gets (fun x => approval_index x.1 !! approval_id) in
  let! operation_id := lift (ok_or indexed OperationNotFound) in
  let! retained := gets (fun x => bool_decide (is_Some (gate_pending x.1 !! operation_id))) in
  if negb retained then throw OperationNotFound
  else
    do! on_supervisor (approve_operation approval_id) in
    let! found := gets (fun x => (remove_pending approval_id operation_id x.1).1) in
    do! gate_update (fun g => (remove_pending approval_id operation_id g).2) in
    let! pending := lift (ok_or found OperationNotFound) in
    let! approval := on_supervisor (authorize_operation (pe_task_id pending) operation_id
                                      (capability_request (pe_operation pending))) in
    let! out := run_adapter (pe_operation pending) in
    ret (mk_Executed out (Some approval)).

Definition gate_deny (approval_id : ApprovalId) : Gated TaskSnapshot :=
  let! indexed := gets (fun x => approval_index x.1 !! approval_id) in
  let! operation_id := lift (ok_or indexed OperationNotFound) in
  let! task := on_supervisor (deny_operation approval_id) in
  do! gate_update (fun g => (remove_pending approval_id operation_id g).2) in
  ret task.

(** One iteration of the loop of [remove_task]. *)
Definition remove_operation (g : ExecutionGate A O) (operation_id : OperationId) : ExecutionGate A O :=
  match gate_pending g !! operation_id with
  | Some pending =>
      mk_ExecutionGate (adapter g) (delete operation_id (gate_pending g))
        (delete (pe_approval_id pending) (approval_index g))
  | None => mk_ExecutionGate (adapter g) (delete operation_id (gate_pending g)) (approval_index g)
  end.

Definition remove_task (task_id : TaskId) (g : ExecutionGate A O) : ExecutionGate A O :=
  let operation_ids :=
    omap (fun e : OperationId * PendingExecution O =>
            if bool_decide (pe_task_id e.2 = task_id) then Some e.1 else None)
      (btree_entries (gate_pending g)) in
  foldl remove_operation g operation_ids.

Definition purge_terminal (s : TaskSupervisor S) (g : ExecutionGate A O) : ExecutionGate A O :=
  let task_ids :=
    omap (fun p : PendingExecution O =>
            match get s (pe_task_id p) with
            | Some task => if is_terminal (snapshot_state task) then Some (pe_task_id p) else None
            | None => None
            end)
      (btree_values (gate_pending g)) in
  foldl (fun g task_id => remove_task task_id g) g task_ids.

Definition gate_expire : Gated Z :=
  let! expired := on_supervisor expire_approvals in
  do! modify (fun x => (purge_terminal x.2 x.1, x.2)) in
  ret expired.

Definition gate_cancel (task_id : TaskId) : Gated bool :=
  let! changed := on_supervisor (cancel task_id) in
  do! gate_update (remove_task task_id) in
  ret changed.

Definition gate_pending_count (g : ExecutionGate A O) : Z := btree_len (gate_pending g).

End Gate.

(** ** Invariant of a gate *)

Section GateFacts.
Context `{EnvLaws} {A O Output Error S : Type}.
Context `{!GuardedOperation O, !ExecutionAdapter A O Output Error, !AdapterLaws A O Output Error}.
Context `{EventStoreLaws S}.
Implicit Types (g : ExecutionGate A O) (s : TaskSupervisor S).

(** The index is the inverse of the retained operations, and their identifiers
    are in the past of the generator. *)
Record gate_inv g (w : World) : Prop := {
  gi_index : forall id o, approval_index g !! id = Some o <->
    exists pe, gate_pending g !! o = Some pe /\ pe_approval_id pe = id;
  gi_fresh : forall o pe, gate_pending g !! o = Some pe ->
    unminted w (operation_uuid o) /\ unminted w (approval_uuid (pe_approval_id pe));
}.

Lemma gate_new_inv a w : gate_inv (ExecutionGate_new a) w.
Proof.
  split; simpl.
  - intros id o. rewrite lookup_empty. split; [done|]. intros (pe & Hpe & _). by rewrite lookup_empty in Hpe.
  - intros o pe. by rewrite lookup_empty.
Qed.

Lemma gate_inv_mono g g' w w' :
  gate_inv g w -> world_le w w' -> gate_pending g' = gate_pending g ->
  approval_index g' = approval_index g -> gate_inv g' w'.
Proof.
  intros [Hi Hf] Hw Hp Ha. split; rewrite Hp, ?Ha; [done|].
  intros o pe Hpe. destruct (Hf o pe Hpe). eauto with worlds.
Qed.

Lemma gate_index_unique g w o1 o2 pe1 pe2 :
  gate_inv g w -> gate_pending g !! o1 = Some pe1 -> gate_pending g !! o2 = Some pe2 ->
  pe_approval_id pe1 = pe_approval_id pe2 -> o1 = o2.
Proof.
  intros [Hi _] H1' H2' E.
  assert (approval_index g !! pe_approval_id pe2 = Some o1) by (apply Hi; eauto).
  assert (approval_index g !! pe_approval_id pe2 = Some o2) by (apply Hi; eauto). congruence.
Qed.

(** Dropping one retained operation with its index entry. *)
Lemma remove_operation_inv g o w : gate_inv g w -> gate_inv (remove_operation g o) w.
Proof.
  intros Hg. pose proof (gate_index_unique g w) as Hu. pose proof Hg as [Hi Hf].
  unfold remove_operation. destruct (gate_pending g !! o) as [pe|] eqn:Hpe; split; simpl.
  - intros id o'. rewrite lookup_delete. case_decide as Hid.
    + subst id. split; [done|]. intros (pe' & Hpe' & E). rewrite lookup_delete in Hpe'.
      case_decide as Ho; [done|]. destruct Ho. by eapply Hu.
    + rewrite Hi. split; intros (pe' & Hpe' & E); exists pe'; (split; [|done]).
      * rewrite lookup_delete_ne; [done|]. intros ->. by simplify_eq.
      * rewrite lookup_delete in Hpe'. by case_decide.
  - intros o' pe'. rewrite lookup_delete. case_decide; [done | apply Hf].
  - rewrite (delete_id _ o) by done. done.
  - rewrite (delete_id _ o) by done. done.
Qed.

Lemma remove_operations_inv os g w : gate_inv g w -> gate_inv (foldl remove_operation g os) w.
Proof. revert g. induction os as [|o os IH]; intros g Hg; simpl; [done | by apply IH, remove_operation_inv]. Qed.

Lemma remove_task_inv t g w : gate_inv g w -> gate_inv (remove_task t g) w.
Proof. apply remove_operations_inv. Qed.

Lemma remove_operations_pending os g o :
  gate_pending (foldl remove_operation g os) !! o
  = if decide (o ∈ os) then None else gate_pending g !! o.
Proof.
  revert g. induction os as [|o' os IH]; intros g; simpl; [done|]. rewrite IH.
  assert (Hr : gate_pending (remove_operation g o') = delete o' (gate_pending g))
    by (unfold remove_operation; by destruct (gate_pending g !! o')).
  rewrite Hr, lookup_delete. repeat case_decide; set_solver.
Qed.

Lemma remove_operations_adapter os g : adapter (foldl remove_operation g os) = adapter g.
Proof.
  revert g. induction os as [|o os IH]; intros g; simpl; [done|]. rewrite IH. unfold remove_operation.
  by destruct (gate_pending g !! o).
Qed.

(** [remove_task] drops exactly the operations of the task. *)
Lemma remove_task_pending t g o pe :
  gate_pending (remove_task t g) !! o = Some pe <->
  gate_pending g !! o = Some pe /\ pe_task_id pe <> t.
Proof.
  unfold remove_task. rewrite remove_operations_pending.
  assert (Hin : o ∈ omap (fun e : OperationId * PendingExecution O =>
      if bool_decide (pe_task_id e.2 = t) then Some e.1 else None) (btree_entries (gate_pending g))
    <-> exists pe, gate_pending g !! o = Some pe /\ pe_task_id pe = t).
  { rewrite list_elem_of_omap. split.
    - intros ([o' pe'] & Hi & Hc). simpl in Hc. apply elem_of_btree_entries in Hi.
      case_bool_decide; naive_solver.
    - intros (pe' & Hpe & Ht). exists (o, pe'). rewrite elem_of_btree_entries. split; [done|]. simpl.
      by rewrite bool_decide_eq_true_2. }
  case_decide as Hd; rewrite Hin in Hd; naive_solver.
Qed.

Lemma remove_tasks_pending ts g o pe :
  gate_pending (foldl (fun g t => remove_task t g) g ts) !! o = Some pe <->
  gate_pending g !! o = Some pe /\ pe_task_id pe ∉ ts.
Proof.
  revert g. induction ts as [|t ts IH]; intros g; simpl.
  - set_solver.
  - rewrite IH, remove_task_pending. set_solver.
Qed.

Lemma remove_tasks_inv ts g w :
  gate_inv g w -> gate_inv (foldl (fun g t => remove_task t g) g ts) w.
Proof. revert g. induction ts as [|t ts IH]; intros g Hg; simpl; [done | by apply IH, remove_task_inv]. Qed.

(** [purge_terminal] keeps exactly the operations of tasks that are not
    known to be terminal. *)
Lemma purge_terminal_pending s g o pe :
  gate_pending (purge_terminal s g) !! o = Some pe <->
  gate_pending g !! o = Some pe
  /\ forall q, task_state s (pe_task_id pe) = Some q -> is_terminal q = false.
Proof.
  unfold purge_terminal. rewrite remove_tasks_pending. apply and_iff_under. intros Hpe.
  rewrite list_elem_of_omap. unfold get. split.
  - intros Hno q Hq. apply Bool.not_true_iff_false. intros Ht. apply Hno. exists pe.
    rewrite elem_of_btree_values. split; [by exists o|]. rewrite Hq. simpl. by rewrite Ht.
  - intros Hq (pe' & _ & Hc). destruct (task_state s (pe_task_id pe')) as [q|] eqn:E; simpl in Hc; [|done].
    destruct (is_terminal q) eqn:Ht; [|done]. injection Hc as Hc. rewrite <-Hc, E in Hq.
    specialize (Hq q eq_refl). congruence.
Qed.

End GateFacts.
