(* ===== verification/ExecutionProps.v ===== *)
(** * Properties of the execution gate

    Runs that interleave the methods of a gate with arbitrary other calls on the
    supervisor, and what they guarantee about the adapter. *)

From stdpp Require Import base numbers list gmap strings.
From Stdlib Require Import ZArith Lia.
From S2P Require Import Prelude RustStd TaskState TaskSpec Policy Event Approval Supervisor Recovery.
From S2P Require Import SupervisorInv SupervisorFacts SupervisorOps RecoveryFacts SupervisorRun SupervisorProps ApprovalProps.
From S2P Require Import Execution.

Section Gated.
Context `{EnvLaws} {A O Output Error S : Type}.
Context `{!GuardedOperation O, !ExecutionAdapter A O Output Error, !AdapterLaws A O Output Error}.
Context `{EventStoreLaws S}.
Implicit Types (g : ExecutionGate A O) (s : TaskSupervisor S) (op : O).

(** ** The runs of each method *)

(** What the adapter did, as the gate reports it. *)
Definition adapter_outcome {B} (f : Output -> B) (r : outcome Output Error)
    : outcome B (ExecutionError Error) :=
  match r with
  | Return out => Return (f out)
  | Raise e => Raise (ExecutionAdapterFailed e)
  | Panic => Panic
  end.

(** The adapter ran once, on [op], from the world [w1]. *)
Definition ran {B} op g w1 g' w' (f : Output -> B) (r : outcome B (ExecutionError Error)) : Prop :=
  exists rx, execute op (adapter g) w1 = (rx, adapter g', w') /\ r = adapter_outcome f rx
    /\ g' = set_adapter (adapter g') g.

Lemma run_adapter_run op g s w r g' s' w' :
  run_adapter op (g, s) w = (r, (g', s'), w') -> s' = s /\ ran op g w g' w' id r.
Proof.
  unfold run_adapter, zoom, map_err. simpl. destruct (execute op (adapter g) w) as [[rx a'] w1] eqn:E.
  destruct rx as [out|e|]; intros [= <- <- <- <-]; (split; [done|]); eexists; (split; [exact E|]); done.
Qed.

(** The gate after a request that waits for approval. *)
Definition retain t op (q : ApprovalRequest) g : ExecutionGate A O :=
  mk_ExecutionGate (adapter g)
    (<[request_operation_id q := mk_PendingExecution t (request_approval_id q) op]> (gate_pending g))
    (<[request_approval_id q := request_operation_id q]> (approval_index g)).

Lemma gate_request_run t op ttl g s w r g' s' w' :
  gate_request t op ttl (g, s) w = (r, (g', s'), w') ->
  exists ra w1, request_operation t (capability_request op) ttl s w = (ra, s', w1) /\
  match ra with
  | Return Allowed => ran op g w1 g' w' (fun out => OutcomeExecuted (mk_Executed out None)) r
  | Return (Denied reason) => g' = g /\ w' = w1 /\ r = Return (OutcomeDenied reason)
  | Return (AuthApprovalRequired q) =>
      g' = retain t op q g /\ w' = w1 /\ r = Return (OutcomeApprovalRequired q)
  | Raise e => g' = g /\ w' = w1 /\ r = Raise (ExecutionSupervisor e)
  | Panic => g' = g /\ w' = w1 /\ r = Panic
  end.
Proof.
  unfold gate_request, bind, on_supervisor, zoom, map_err. simpl.
  destruct (request_operation t (capability_request op) ttl s w) as [[ra s1] w1].
  destruct ra as [[|reason|q]|e|]; simpl; try (intros [= <- <- <- <-]; by do 2 eexists).
  destruct (run_adapter op (g, s1) w1) as [[rx [g2 s2]] w2] eqn:E. intros Hrun.
  apply run_adapter_run in E as [-> (rx0 & He & -> & Hg)]. exists (Return Allowed), w1.
  destruct rx0; simpl in Hrun; injection Hrun as <- <- <- <-; (split; [done|]); eexists; done.
Qed.

Lemma approve_and_execute_run id g s w r g' s' w' :
  approve_and_execute id (g, s) w = (r, (g', s'), w') ->
  match approval_index g !! id with
  | None => r = Raise OperationNotFound /\ g' = g /\ s' = s /\ w' = w
  | Some o =>
      match gate_pending g !! o with
      | None => r = Raise OperationNotFound /\ g' = g /\ s' = s /\ w' = w
      | Some pe =>
          exists ra s1 w1, approve_operation id s w = (ra, s1, w1) /\
          match ra with
          | Return _ =>
              let g1 := (remove_pending id o g).2 in
              exists rb w2,
              authorize_operation (pe_task_id pe) o (capability_request (pe_operation pe)) s1 w1
                = (rb, s', w2) /\
              match rb with
              | Return receipt => ran (pe_operation pe) g1 w2 g' w'
                                    (fun out => mk_Executed out (Some receipt)) r
              | Raise e => g' = g1 /\ w' = w2 /\ r = Raise (ExecutionSupervisor e)
              | Panic => g' = g1 /\ w' = w2 /\ r = Panic
              end
          | Raise e => g' = g /\ s' = s1 /\ w' = w1 /\ r = Raise (ExecutionSupervisor e)
          | Panic => g' = g /\ s' = s1 /\ w' = w1 /\ r = Panic
          end
      end
  end.
Proof.
  unfold approve_and_execute. unfold bind at 1, gets at 1. simpl.
  destruct (approval_index g !! id) as [o|]; [|by intros [= <- <- <- <-]].
  unfold bind at 1, lift at 1. simpl. unfold bind at 1, gets at 1. simpl.
  destruct (gate_pending g !! o) as [pe|] eqn:Hpe; simpl; [|by intros [= <- <- <- <-]].
  unfold bind at 1, on_supervisor at 1, zoom, map_err. simpl.
  destruct (approve_operation id s w) as [[ra s1] w1]; simpl.
  destruct ra as [q|e|]; [|by intros [= <- <- <- <-]; do 3 eexists..].
  intros Hrun. exists (Return q), s1, w1. split; [done|]. cbv zeta.
  unfold bind, gate_update, gets, modify, lift, on_supervisor, zoom, map_err in Hrun. simpl in Hrun.
  rewrite Hpe in Hrun. simpl in Hrun.
  destruct (authorize_operation (pe_task_id pe) o (capability_request (pe_operation pe)) s1 w1)
    as [[rb s2] w2]; simpl in Hrun.
  destruct rb as [receipt|e|]; [|by injection Hrun as <- <- <- <-; do 2 eexists..].
  destruct (run_adapter (pe_operation pe) _ w2) as [[rx [g3 s3]] w3] eqn:E.
  apply run_adapter_run in E as [-> (rx0 & He & -> & Hg)]. exists (Return receipt), w2.
  destruct rx0; simpl in Hrun; injection Hrun as <- <- <- <-; (split; [done|]); eexists; done.
Qed.

Lemma gate_deny_run id g s w r g' s' w' :
  gate_deny (Error := Error) id (g, s) w = (r, (g', s'), w') ->
  match approval_index g !! id with
  | None => r = Raise OperationNotFound /\ g' = g /\ s' = s /\ w' = w
  | Some o =>
      exists ra, deny_operation id s w = (ra, s', w') /\
      match ra with
      | Return q => g' = (remove_pending id o g).2 /\ r = Return q
      | Raise e => g' = g /\ r = Raise (ExecutionSupervisor e)
      | Panic => g' = g /\ r = Panic
      end
  end.
Proof.
  unfold gate_deny, bind, gets. simpl.
  destruct (approval_index g !! id) as [o|]; simpl; [|by intros [= <- <- <- <-]].
  unfold on_supervisor, zoom, map_err. simpl.
  destruct (deny_operation id s w) as [[ra s1] w1]; simpl.
  destruct ra as [q|e|]; simpl; intros [= <- <- <- <-]; by eexists.
Qed.

Lemma gate_expire_run g s w r g' s' w' :
  gate_expire (Error := Error) (g, s) w = (r, (g', s'), w') ->
  exists ra, expire_approvals s w = (ra, s', w') /\
  match ra with
  | Return n => g' = purge_terminal s' g /\ r = Return n
  | Raise e => g' = g /\ r = Raise (ExecutionSupervisor e)
  | Panic => g' = g /\ r = Panic
  end.
Proof.
  unfold gate_expire, bind, on_supervisor, zoom, map_err. simpl.
  destruct (expire_approvals s w) as [[ra s1] w1]; simpl.
  destruct ra as [q|e|]; simpl; intros [= <- <- <- <-]; by eexists.
Qed.

Lemma gate_cancel_run t g s w r g' s' w' :
  gate_cancel (Error := Error) t (g, s) w = (r, (g', s'), w') ->
  exists ra, cancel t s w = (ra, s', w') /\
  match ra with
  | Return b => g' = remove_task t g /\ r = Return b
  | Raise e => g' = g /\ r = Raise (ExecutionSupervisor e)
  | Panic => g' = g /\ r = Panic
  end.
Proof.
  unfold gate_cancel, bind, on_supervisor, zoom, map_err. simpl.
  destruct (cancel t s w) as [[ra s1] w1]; simpl.
  destruct ra as [q|e|]; simpl; intros [= <- <- <- <-]; by eexists.
Qed.

(** ** Gate and supervisor agree *)

(** What the gate retains is what the supervisor has pending under the same
    approval, if it has it still. *)
Definition linked g s : Prop := forall o pe po,
  gate_pending g !! o = Some pe -> pending_operations s !! pe_approval_id pe = Some po ->
  po = mk_PendingOperation (pe_task_id pe) o (from_borrowed (capability_request (pe_operation pe))).

Record gated_inv (strict : bool) g s (w : World) : Prop := {
  ga_supervisor : sup_inv strict s w;
  ga_gate : gate_inv g w;
  ga_linked : linked g s;
}.

(** The supervisor moves and the gate forgets. *)
Lemma gated_inv_shrinks strict g s w g' s' w' :
  gated_inv strict g s w -> sup_inv strict s' w' -> world_le w w' -> gate_inv g' w' ->
  pending_kept s w s' ->
  (forall o pe, gate_pending g' !! o = Some pe -> gate_pending g !! o = Some pe) ->
  gated_inv strict g' s' w'.
Proof.
  intros [_ Hg Hl] Hs' Hw Hg' Hk Hsub. split; [done | done |].
  intros o pe po Hpe Hpo. apply Hsub in Hpe. destruct (Hk _ _ Hpo) as [?|Hn]; [by eapply Hl|].
  destruct Hn. by apply (gi_fresh _ _ Hg _ _ Hpe).
Qed.

Lemma gated_inv_supervisor strict g s w s' w' :
  gated_inv strict g s w -> sup_inv strict s' w' -> world_le w w' -> pending_kept s w s' ->
  gated_inv strict g s' w'.
Proof.
  intros Hi Hs' Hw Hk. eapply gated_inv_shrinks; try done. by eapply gate_inv_mono; [apply Hi | ..].
Qed.

Lemma gated_inv_adapter strict g s w g' w' :
  gated_inv strict g s w -> world_le w w' -> g' = set_adapter (adapter g') g ->
  gated_inv strict g' s w'.
Proof.
  intros [Hs Hg Hl] Hw E. rewrite E. split; [by eapply sup_inv_world | by eapply gate_inv_mono | done].
Qed.

Lemma remove_pending_operation id o pe g :
  gate_pending g !! o = Some pe -> pe_approval_id pe = id ->
  (remove_pending id o g).2 = remove_operation g o.
Proof. intros Hpe <-. unfold remove_pending, remove_operation. by rewrite Hpe. Qed.

Lemma indexed_operation g w id o :
  gate_inv g w -> approval_index g !! id = Some o ->
  exists pe, gate_pending g !! o = Some pe /\ pe_approval_id pe = id.
Proof. intros Hg Ho. by apply (gi_index _ _ Hg). Qed.

Lemma remove_operation_subset g o o' pe :
  gate_pending (remove_operation g o) !! o' = Some pe -> gate_pending g !! o' = Some pe.
Proof.
  unfold remove_operation. destruct (gate_pending g !! o); simpl; rewrite lookup_delete; by case_decide.
Qed.

Lemma remove_operation_adapter g o : adapter (remove_operation g o) = adapter g.
Proof. unfold remove_operation. by destruct (gate_pending g !! o). Qed.

Lemma remove_operation_gone g o pe :
  gate_pending g !! o = Some pe ->
  gate_pending (remove_operation g o) !! o = None
  /\ approval_index (remove_operation g o) !! pe_approval_id pe = None.
Proof. intros Hpe. unfold remove_operation. rewrite Hpe. simpl. by rewrite !lookup_delete_eq. Qed.

Lemma ran_world {B} op g w1 g' w' (f : Output -> B) r : ran op g w1 g' w' f r -> world_le w1 w'.
Proof.
  intros (rx & He & _). pose proof (execute_world op (adapter g) w1) as Hw. by rewrite He in Hw.
Qed.

(** A request that waits: the new entries agree. *)
Lemma gated_inv_retain strict t op q g s w s' w' :
  gated_inv strict g s w -> sup_inv strict s' w' -> world_le w w' -> pending_kept s w s' ->
  ~ unminted w (operation_uuid (request_operation_id q)) ->
  ~ unminted w (approval_uuid (request_approval_id q)) ->
  pending_operations s' !! request_approval_id q
    = Some (mk_PendingOperation t (request_operation_id q) (from_borrowed (capability_request op))) ->
  gated_inv strict (retain t op q g) s' w'.
Proof.
  intros Hi Hs' Hw Hk Ho Hid Hpo.
  destruct (gated_inv_supervisor strict g s w s' w' Hi Hs' Hw Hk) as [_ [Hix Hf] Hl].
  pose proof (gi_fresh _ _ (ga_gate _ _ _ _ Hi)) as Hf0.
  destruct (oi_op_fresh _ _ _ (si_ops _ _ _ Hs') _ _ Hpo) as [Hou _]. simpl in Hou.
  destruct (pending_record _ _ _ _ _ (si_ops _ _ _ Hs') Hpo) as (rec & d & _ & _ & _ & Hpa).
  pose proof (oi_fresh _ _ _ (si_ops _ _ _ Hs') _ _ Hpa) as Hidu.
  split; [done | split; simpl |].
  - intros id o. rewrite lookup_insert. case_decide as Hd.
    + subst id. split.
      * intros [= <-]. rewrite lookup_insert_eq. by eexists.
      * intros (pe & Hpe & E). rewrite lookup_insert in Hpe. case_decide; [by subst|].
        destruct (Hf0 _ _ Hpe) as [_ Hu]. by rewrite E in Hu.
    + rewrite Hix. split; intros (pe & Hpe & E); exists pe; (split; [|done]).
      * rewrite lookup_insert_ne; [done|]. intros <-. by destruct (Hf0 _ _ Hpe).
      * rewrite lookup_insert in Hpe. case_decide; [|done]. by simplify_eq.
  - intros o pe. rewrite lookup_insert. case_decide; [intros [= <-]; by subst | apply Hf].
  - intros o pe po. simpl. rewrite lookup_insert. case_decide; [|apply Hl].
    intros [= <-]. simpl. subst. rewrite Hpo. by intros [= <-].
Qed.

(** The identifiers of a new request are not among those the gate retains, so the
    debug assertion on the insertion holds. *)
Lemma retained_operation_is_new strict t req ttl g s w q s' w' :
  gated_inv strict g s w -> request_operation t req ttl s w = (Return (AuthApprovalRequired q), s', w') ->
  gate_pending g !! request_operation_id q = None /\ approval_index g !! request_approval_id q = None.
Proof.
  intros Hi Hrq. pose proof (ga_gate _ _ _ _ Hi) as [Hix Hf].
  pose proof (wp_run _ _ _ _ _ _ _ (wp_request_operation strict t req ttl s w
    (ga_supervisor _ _ _ _ Hi)) Hrq) as (_ & _ & s1 & w2 & _ & Hw2 & Hres & _).
  destruct Hres as (rec & k & es' & _ & _ & _ & _ & _ & _ & _ & Ho & Hid & _ & _).
  eapply not_unminted_mono in Ho, Hid; [|done..]. split; apply eq_None_not_Some.
  - intros [pe Hpe]. by destruct (Hf _ _ Hpe).
  - intros [o (pe & Hpe & E)%Hix]. destruct (Hf _ _ Hpe) as [_ Hu]. by rewrite E in Hu.
Qed.

Lemma gate_request_inv strict t op ttl g s w r g' s' w' :
  gated_inv strict g s w -> gate_request t op ttl (g, s) w = (r, (g', s'), w') ->
  gated_inv strict g' s' w' /\ world_le w w'.
Proof.
  intros Hi Hrun. apply gate_request_run in Hrun as (ra & w1 & Hrq & Hr).
  pose proof (request_kept _ _ _ _ _ _ _ _ _ (ga_supervisor _ _ _ _ Hi) Hrq) as Hk.
  pose proof (wp_run _ _ _ _ _ _ _ (wp_request_operation strict t (capability_request op) ttl s w
    (ga_supervisor _ _ _ _ Hi)) Hrq) as (Hs' & Hw & s1 & w2 & _ & Hw2 & Hres & _).
  pose proof (gated_inv_supervisor strict g s w s' w1 Hi Hs' Hw Hk) as Hi1.
  destruct ra as [[|reason|q]|e|]; [| | | |done].
  - pose proof (ran_world _ _ _ _ _ _ _ Hr) as Hw'. destruct Hr as (rx & He & _ & Hg).
    split; [by eapply gated_inv_adapter | by transitivity w1].
  - by destruct Hr as (-> & -> & _).
  - destruct Hr as (-> & -> & _). split; [|done]. simpl in Hres.
    destruct Hres as (rec & k & es' & _ & _ & _ & _ & _ & _ & _ & Ho & Hid & -> & _).
    apply (gated_inv_retain strict t op q g s w); try done;
      [by apply (not_unminted_mono w w2)..|].
    simpl. by rewrite lookup_insert_eq.
  - by destruct Hr as (-> & -> & _).
Qed.

Lemma approve_and_execute_inv strict id g s w r g' s' w' :
  gated_inv strict g s w -> approve_and_execute id (g, s) w = (r, (g', s'), w') ->
  gated_inv strict g' s' w' /\ world_le w w'.
Proof.
  intros Hi Hrun. apply approve_and_execute_run in Hrun. pose proof (ga_supervisor _ _ _ _ Hi) as Hs.
  destruct (approval_index g !! id) as [o|] eqn:Hix; [|by destruct Hrun as (_ & -> & -> & ->)].
  destruct (indexed_operation g w id o (ga_gate _ _ _ _ Hi) Hix) as (pe & Hpe & Hid). rewrite Hpe in Hrun.
  destruct Hrun as (ra & s1 & w1 & Hap & Hr).
  pose proof (approve_kept _ _ _ _ _ _ _ Hs Hap) as Hk.
  pose proof (wp_run _ _ _ _ _ _ _ (wp_approve_operation strict id s w Hs) Hap) as (Hs1 & Hw1 & _).
  pose proof (gated_inv_supervisor strict g s w s1 w1 Hi Hs1 Hw1 Hk) as Hi1.
  destruct ra as [q|e|]; [|by destruct Hr as (-> & -> & -> & _)..].
  destruct Hr as (rb & w2 & Hau & Hr). rewrite (remove_pending_operation id o pe) in Hr by done.
  pose proof (wp_run _ _ _ _ _ _ _ (wp_authorize_operation strict _ o _ s1 w1 Hs1) Hau)
    as (Hs2 & Hw2 & _).
  assert (Hi2 : gated_inv strict (remove_operation g o) s' w2).
  { eapply gated_inv_shrinks; [exact Hi1 | done | done | | |].
    - apply remove_operation_inv. by eapply gate_inv_mono; [apply Hi1 | ..].
    - intros id' po Hpo. left. by eapply authorize_kept.
    - apply remove_operation_subset. }
  assert (Hw : world_le w w2) by by transitivity w1.
  destruct rb as [receipt|e|]; [|by destruct Hr as (-> & -> & _)..].
  pose proof (ran_world _ _ _ _ _ _ _ Hr) as Hw'. destruct Hr as (rx & He & _ & Hg).
  split; [by eapply gated_inv_adapter | by transitivity w2].
Qed.

Lemma gate_deny_inv strict id g s w r g' s' w' :
  gated_inv strict g s w -> gate_deny (Error := Error) id (g, s) w = (r, (g', s'), w') ->
  gated_inv strict g' s' w' /\ world_le w w'.
Proof.
  intros Hi Hrun. apply gate_deny_run in Hrun. pose proof (ga_supervisor _ _ _ _ Hi) as Hs.
  destruct (approval_index g !! id) as [o|] eqn:Hix; [|by destruct Hrun as (_ & -> & -> & ->)].
  destruct (indexed_operation g w id o (ga_gate _ _ _ _ Hi) Hix) as (pe & Hpe & Hid).
  destruct Hrun as (ra & Hde & Hr). pose proof (deny_kept _ _ _ _ _ _ _ Hs Hde) as Hk.
  pose proof (wp_run _ _ _ _ _ _ _ (wp_deny_operation strict id s w Hs) Hde) as (Hs1 & Hw1 & _).
  pose proof (gated_inv_supervisor strict g s w s' w' Hi Hs1 Hw1 Hk) as Hi1.
  destruct ra as [q|e|]; [|by destruct Hr as [-> _]..]. destruct Hr as [-> _].
  rewrite (remove_pending_operation id o pe) by done. split; [|done].
  eapply gated_inv_shrinks; [exact Hi1 | done | done | apply remove_operation_inv, Hi1 | by left |].
  apply remove_operation_subset.
Qed.

Lemma gate_expire_inv strict g s w r g' s' w' :
  gated_inv strict g s w -> gate_expire (Error := Error) (g, s) w = (r, (g', s'), w') ->
  gated_inv strict g' s' w' /\ world_le w w'.
Proof.
  intros Hi Hrun. apply gate_expire_run in Hrun as (ra & Hex & Hr).
  pose proof (ga_supervisor _ _ _ _ Hi) as Hs.
  pose proof (wp_run _ _ _ _ _ _ _ (wp_expire_approvals strict s w Hs) Hex) as (Hs1 & Hw1 & He & _).
  assert (Hi1 : gated_inv strict g s' w').
  { eapply gated_inv_supervisor; try done. intros id po Hpo. left. by eapply expires_subset. }
  destruct ra as [q|e|]; [|by destruct Hr as [-> _]..]. destruct Hr as [-> _]. split; [|done].
  eapply gated_inv_shrinks; [exact Hi1 | done | done | apply remove_tasks_inv, Hi1 | by left |].
  intros o pe. rewrite purge_terminal_pending. by intros [? _].
Qed.

Lemma gate_cancel_inv strict t g s w r g' s' w' :
  gated_inv strict g s w -> gate_cancel (Error := Error) t (g, s) w = (r, (g', s'), w') ->
  gated_inv strict g' s' w' /\ world_le w w'.
Proof.
  intros Hi Hrun. apply gate_cancel_run in Hrun as (ra & Hca & Hr).
  pose proof (ga_supervisor _ _ _ _ Hi) as Hs.
  pose proof (wp_run _ _ _ _ _ _ _ (wp_cancel strict t s w Hs) Hca) as (Hs1 & Hw1 & _).
  assert (Hi1 : gated_inv strict g s' w').
  { eapply gated_inv_supervisor; try done.
    by eapply (proj2 (proj2 (finish_kept strict t Cancelled s w Hs eq_refl))). }
  destruct ra as [q|e|]; [|by destruct Hr as [-> _]..]. destruct Hr as [-> _]. split; [|done].
  eapply gated_inv_shrinks; [exact Hi1 | done | done | apply remove_task_inv, Hi1 | by left |].
  intros o pe. rewrite remove_task_pending. by intros [? _].
Qed.

(** ** Runs *)

Inductive GateCall :=
| GateRequest (t : TaskId) (op : O) (ttl : Z)
| GateApprove (id : ApprovalId)
| GateDeny (id : ApprovalId)
| GateExpire
| GateCancel (t : TaskId)
| GateOther (c : Call).

Definition ignore {B} (m : M (ExecutionGate A O * TaskSupervisor S) (ExecutionError Error) B)
    : M (ExecutionGate A O * TaskSupervisor S) (ExecutionError Error) unit := do! m in ret tt.

(** A method of the gate, or a call that reaches the supervisor without it. *)
Definition run_gate_call (c : GateCall)
    : M (ExecutionGate A O * TaskSupervisor S) (ExecutionError Error) unit :=
  match c with
  | GateRequest t op ttl => ignore (gate_request t op ttl)
  | GateApprove id => ignore (approve_and_execute id)
  | GateDeny id => ignore (gate_deny id)
  | GateExpire => ignore gate_expire
  | GateCancel t => ignore (gate_cancel t)
  | GateOther c => on_supervisor (run_call c)
  end.

Definition gate_disciplined s (c : GateCall) : Prop :=
  match c with GateOther c => disciplined s c | _ => True end.

Inductive reachable_gated (strict : bool) : ExecutionGate A O -> TaskSupervisor S -> World -> Prop :=
| gated_init a s w : reachable strict s w -> reachable_gated strict (ExecutionGate_new a) s w
| gated_call g s w c r g' s' w' :
    reachable_gated strict g s w -> (strict = true -> gate_disciplined s c) ->
    run_gate_call c (g, s) w = (r, (g', s'), w') -> reachable_gated strict g' s' w'
| gated_time g s w w' : reachable_gated strict g s w -> world_le w w' -> reachable_gated strict g s w'.

Lemma ignore_run {B} (m : M (ExecutionGate A O * TaskSupervisor S) (ExecutionError Error) B) x w r x' w' :
  ignore m x w = (r, x', w') -> exists r0, m x w = (r0, x', w').
Proof. unfold ignore, bind. destruct (m x w) as [[[a|e'|] x1] w1]; intros [= <- <- <-]; by eexists. Qed.

Lemma on_supervisor_run {B} (m : M (TaskSupervisor S) SupervisorError B) g s w r g' s' w' :
  on_supervisor (A := A) (O := O) (Error := Error) m (g, s) w = (r, (g', s'), w') ->
  g' = g /\ exists r0, m s w = (r0, s', w').
Proof.
  unfold on_supervisor, zoom, map_err. simpl. destruct (m s w) as [[[a|e|] s1] w1]; simpl;
    intros [= <- <- <- <-]; by eauto.
Qed.

Lemma gate_call_inv strict c g s w r g' s' w' :
  gated_inv strict g s w -> (strict = true -> gate_disciplined s c) ->
  run_gate_call c (g, s) w = (r, (g', s'), w') -> gated_inv strict g' s' w' /\ world_le w w'.
Proof.
  intros Hi Hd Hrun.
  destruct c as [t op ttl|id|id| |t|c]; simpl in Hrun; try (apply ignore_run in Hrun as [r0 Hrun]).
  - by eapply gate_request_inv.
  - by eapply approve_and_execute_inv.
  - by eapply gate_deny_inv.
  - by eapply gate_expire_inv.
  - by eapply gate_cancel_inv.
  - apply on_supervisor_run in Hrun as [-> [r0 Hrun]].
    pose proof (ga_supervisor _ _ _ _ Hi) as Hs.
    pose proof (wp_run _ _ _ _ _ _ _ (wp_run_call strict c s w Hs Hd) Hrun) as (_ & Hs' & Hw & _).
    split; [|done]. eapply gated_inv_supervisor; try done. by eapply call_kept.
Qed.

Lemma reachable_gated_inv strict g s w : reachable_gated strict g s w -> gated_inv strict g s w.
Proof.
  induction 1 as [a s w Hr|g s w c r g' s' w' _ IH Hd Hrun|g s w w' _ IH Hw].
  - split; [by apply reachable_inv | apply gate_new_inv |]. intros o pe po. simpl. by rewrite lookup_empty.
  - by eapply gate_call_inv.
  - destruct IH as [Hs Hg Hl]. split; [by eapply sup_inv_world | by eapply gate_inv_mono | done].
Qed.

End Gated.

(** ** A concrete adapter for the witnesses: it records what it executes *)

Record DemoOperation := mk_DemoOperation { demo_action : string; demo_argument : string }.

#[export] Instance demo_guarded : GuardedOperation DemoOperation :=
  fun op => ToolRequest "test_runner" (demo_action op).

#[export] Instance demo_adapter
  : ExecutionAdapter (list DemoOperation) DemoOperation unit EventStoreError :=
  fun op a w => (Return tt, a ++ [op], w).

#[export] Instance demo_adapter_laws : AdapterLaws (list DemoOperation) DemoOperation unit EventStoreError.
Proof. by intros op a w. Qed.

Definition demo_gate : ExecutionGate (list DemoOperation) DemoOperation := ExecutionGate_new [].

Definition DemoPair : Type :=
  ExecutionGate (list DemoOperation) DemoOperation * TaskSupervisor InMemoryEventStore.

Fixpoint run_gate_calls (cs : list (GateCall (O := DemoOperation))) (x : DemoPair) (w : World)
    : DemoPair * World :=
  match cs with
  | [] => (x, w)
  | c :: cs' => let '(_, x', w') := run_gate_call c x w in run_gate_calls cs' x' w'
  end.

Lemma run_gate_calls_reachable cs x w :
  reachable_gated false x.1 x.2 w ->
  reachable_gated false (run_gate_calls cs x w).1.1 (run_gate_calls cs x w).1.2 (run_gate_calls cs x w).2.
Proof.
  revert x w. induction cs as [|c cs IH]; intros [g s] w Hr; simpl; [done|].
  destruct (run_gate_call c (g, s) w) as [[r [g' s']] w'] eqn:E. apply IH. by eapply gated_call.
Qed.

Definition commit_operation : DemoOperation := mk_DemoOperation "git.commit" "fix the build".
Definition test_operation : DemoOperation := mk_DemoOperation "run" "all".

Definition gate_run (cs : list (GateCall (O := DemoOperation))) : DemoPair * World :=
  run_gate_calls cs (demo_gate, demo_supervisor) world0.

Lemma gate_run_reachable cs :
  reachable_gated false (gate_run cs).1.1 (gate_run cs).1.2 (gate_run cs).2.
Proof. apply run_gate_calls_reachable. apply gated_init, demo_reachable. Qed.

Definition gate_start : list (GateCall (O := DemoOperation)) :=
  [GateOther (CallSubmit example_task); GateOther (CallStart demo_task)].

Definition gate_waiting : list (GateCall (O := DemoOperation)) :=
  gate_start ++ [GateRequest demo_task commit_operation (Duration_from_secs 60)].

(** ** Properties *)

(** A request reaches the adapter only when the policy allows it without
    approval: then the adapter runs once, on that operation, after the decision was
    recorded.  In every other case the adapter is untouched: a denial drops the
    operation, a required approval retains it whole, an error changes nothing in
    the gate. *)
Theorem gate_requests_are_guarded `{EnvLaws} {A O Output Error St}
    `{!GuardedOperation O, !ExecutionAdapter A O Output Error, !AdapterLaws A O Output Error}
    `{EventStoreLaws St} strict (g : ExecutionGate A O) (s : TaskSupervisor St) w t op ttl r g' s' w' :
  reachable_gated strict g s w -> gate_request t op ttl (g, s) w = (r, (g', s'), w') ->
  let allowed rx := exists rec w1, tasks s !! t = Some rec /\ state rec = Running
    /\ decides (spec rec) (capability_request op) Allow
    /\ logged (event_store s') t EvOperationAllowed
    /\ execute op (adapter g) w1 = (rx, adapter g', w') in
  match r with
  | Return (OutcomeExecuted ex) => executed_approval ex = None /\ allowed (Return (output ex))
  | Return (OutcomeDenied reason) => g' = g
  | Return (OutcomeApprovalRequired q) => adapter g' = adapter g
      /\ gate_pending g !! request_operation_id q = None
      /\ gate_pending g' !! request_operation_id q
         = Some (mk_PendingExecution t (request_approval_id q) op)
      /\ pending_operations s' !! request_approval_id q
         = Some (mk_PendingOperation t (request_operation_id q) (from_borrowed (capability_request op)))
  | Raise (ExecutionAdapterFailed e) => allowed (Raise e)
  | Raise (ExecutionSupervisor _) => g' = g
  | Raise OperationNotFound => False
  | Panic => allowed Panic
  end.
Proof.
  intros Hi%reachable_gated_inv Hrun allowed. pose proof (ga_supervisor _ _ _ _ Hi) as Hs.
  apply gate_request_run in Hrun as (ra & w1 & Hrq & Hr).
  destruct ra as [[|reason|q]|e|].
  - destruct (request_decided strict s w t _ ttl _ s' w1 Hs Hrq)
      as (rec & d & Hrec & Hst & Hd & -> & _ & Hlog).
    destruct Hr as (rx & He & -> & _).
    assert (Hall : allowed rx) by (exists rec, w1; by split_and!). by destruct rx.
  - by destruct Hr as (-> & _ & ->).
  - destruct (request_decided strict s w t _ ttl _ s' w1 Hs Hrq) as (rec & d & _ & _ & _ & _ & _ & Hpo & _).
    destruct (retained_operation_is_new strict t _ ttl g s w q s' w1 Hi Hrq) as [Hnew _].
    destruct Hr as (-> & _ & ->). simpl. by rewrite lookup_insert_eq.
  - by destruct Hr as (-> & _ & ->).
  - by apply (wp_run _ _ _ _ _ _ _ (wp_request_operation strict t _ ttl s w Hs)) in Hrq
      as (_ & _ & ? & ? & _ & _ & [] & _).
Qed.

Lemma gate_requests_are_guarded_witness :
  let x := ((gate_run gate_start).1.1, (gate_run gate_start).1.2) in
  exists g' s' w',
    gate_request demo_task test_operation (Duration_from_secs 60) x (gate_run gate_start).2
      = (Return (OutcomeExecuted (mk_Executed tt None)), (g', s'), w')
    /\ adapter g' = [test_operation]
    /\ logged (event_store s') demo_task EvOperationAllowed.
Proof.
  intros x.
  set (run := gate_request demo_task test_operation (Duration_from_secs 60) x (gate_run gate_start).2).
  assert (Hrun : run = (Return (OutcomeExecuted (mk_Executed tt None)),
                        (run.1.2.1, run.1.2.2), run.2)) by (vm_compute; reflexivity).
  exists run.1.2.1, run.1.2.2, run.2. split; [exact Hrun|]. split; [vm_compute; reflexivity|].
  destruct (gate_requests_are_guarded false (gate_run gate_start).1.1 (gate_run gate_start).1.2
    (gate_run gate_start).2 demo_task test_operation (Duration_from_secs 60)
    (Return (OutcomeExecuted (mk_Executed tt None))) run.1.2.1 run.1.2.2 run.2
    (gate_run_reachable gate_start) Hrun) as (_ & rec & w1 & _ & _ & _ & Hlog & _).
  exact Hlog.
Defined.

(** C2: An approved operation is executed exactly as it was approved and at
    most once: the adapter runs only after the grant of this very approval was
    consumed on record, on the complete operation the gate retained for it; before
    that point it is untouched, and afterwards the gate has forgotten the approval,
    so no later attempt can run it again. *)
Theorem approved_operations_run_once `{EnvLaws} {A O Output Error St}
    `{!GuardedOperation O, !ExecutionAdapter A O Output Error, !AdapterLaws A O Output Error}
    `{EventStoreLaws St} strict (g : ExecutionGate A O) (s : TaskSupervisor St) w id r g' s' w' :
  reachable_gated strict g s w -> approve_and_execute id (g, s) w = (r, (g', s'), w') ->
  let consumed rx := exists o pe po w1,
    gate_pending g !! o = Some pe /\ pe_approval_id pe = id
    /\ pending_operations s !! id = Some po
    /\ po_request po = from_borrowed (capability_request (pe_operation pe))
    /\ logged (event_store s') (pe_task_id pe) (EvApprovalGranted id o)
    /\ logged (event_store s') (pe_task_id pe) (EvApprovalConsumed id o)
    /\ execute (pe_operation pe) (adapter g) w1 = (rx, adapter g', w')
    /\ gate_pending g' !! o = None
    /\ forall s2 w2, (approve_and_execute id (g', s2) w2).1.1 = Raise OperationNotFound in
  match r with
  | Return ex => executed_approval ex = Some (mk_ApprovalReceipt id) /\ consumed (Return (output ex))
  | Raise (ExecutionAdapterFailed e) => consumed (Raise e)
  | Raise OperationNotFound => g' = g /\ s' = s
  | Raise (ExecutionSupervisor _) => adapter g' = adapter g
  | Panic => consumed Panic
  end.
Proof.
  intros [Hs Hg Hl]%reachable_gated_inv Hrun consumed. apply approve_and_execute_run in Hrun.
  destruct (approval_index g !! id) as [o|] eqn:Hix; [|by destruct Hrun as (-> & -> & -> & _)].
  destruct (indexed_operation g w id o Hg Hix) as (pe & Hpe & Hid). rewrite Hpe in Hrun.
  destruct Hrun as (ra & s1 & w1 & Hap & Hr).
  pose proof (wp_run _ _ _ _ _ _ _ (wp_approve_operation strict id s w Hs) Hap) as (Hs1 & _ & Hap').
  destruct ra as [q|e|]; [|by destruct Hr as (-> & _ & _ & ->) |
    by destruct Hap' as (? & ? & _ & _ & [] & _)]. clear Hap'.
  destruct (approve_resumed strict s w id q s1 w1 Hs Hap)
    as (po & d & Hpo & _ & _ & _ & _ & _ & _ & Hao & _ & _).
  assert (Hpo' : po = mk_PendingOperation (pe_task_id pe) o
    (from_borrowed (capability_request (pe_operation pe)))) by (eapply Hl; [done | by rewrite Hid]).
  destruct Hr as (rb & w2 & Hau & Hr). rewrite (remove_pending_operation id o pe) in Hr by done.
  destruct rb as [receipt|e|].
  2:{ destruct Hr as (-> & _ & ->). apply remove_operation_adapter. }
  2:{ by apply (wp_run _ _ _ _ _ _ _ (wp_authorize_operation strict _ o _ s1 w1 Hs1)) in Hau
        as (_ & _ & []). }
  destruct (receipt_audited strict s1 w1 _ o _ receipt s' w2 Hs1 Hau)
    as ((rec & ao & _ & _ & Hao' & _ & _ & _ & _ & Hrid) & _ & Hlg & Hlc & _).
  rewrite Hpo' in Hao. simpl in Hao. rewrite Hao in Hao'. injection Hao' as <-. simpl in Hrid.
  rewrite Hrid in Hlg, Hlc. destruct Hr as (rx & He & -> & Hg').
  rewrite remove_operation_adapter in He.
  destruct (remove_operation_gone g o pe Hpe) as [Hgone Hgone'].
  assert (Hall : consumed rx).
  { exists o, pe, po, w2. rewrite Hpo' in Hpo |- *. split_and!; try done.
    - by rewrite Hg'.
    - intros s2 w3. unfold approve_and_execute, bind, gets. rewrite Hg'. simpl.
      by rewrite <-Hid, Hgone'. }
  destruct rx; try done. split; [|done]. simpl. f_equal. destruct receipt. simpl in Hrid. by subst.
Qed.

Lemma approved_operations_run_once_witness :
  let x := ((gate_run gate_waiting).1.1, (gate_run gate_waiting).1.2) in
  exists g' s' w',
    approve_and_execute (mk_ApprovalId 2) x (gate_run gate_waiting).2
      = (Return (mk_Executed tt (Some (mk_ApprovalReceipt (mk_ApprovalId 2)))), (g', s'), w')
    /\ adapter g' = [commit_operation]
    /\ forall s2 w2, (approve_and_execute (mk_ApprovalId 2) (g', s2) w2).1.1 = Raise OperationNotFound.
Proof.
  intros x.
  set (run := approve_and_execute (mk_ApprovalId 2) x (gate_run gate_waiting).2).
  assert (Hrun : run = (Return (mk_Executed tt (Some (mk_ApprovalReceipt (mk_ApprovalId 2)))),
                        (run.1.2.1, run.1.2.2), run.2)) by (vm_compute; reflexivity).
  assert (Had : adapter run.1.2.1 = [commit_operation]) by (vm_compute; reflexivity).
  exists run.1.2.1, run.1.2.2, run.2. split; [exact Hrun|]. split; [exact Had|].
  destruct (approved_operations_run_once false (gate_run gate_waiting).1.1 (gate_run gate_waiting).1.2
    (gate_run gate_waiting).2 (mk_ApprovalId 2)
    (Return (mk_Executed tt (Some (mk_ApprovalReceipt (mk_ApprovalId 2)))))
    run.1.2.1 run.1.2.2 run.2 (gate_run_reachable gate_waiting) Hrun)
    as (_ & o & pe & po & w1 & _ & _ & _ & _ & _ & _ & _ & _ & Hagain).
  exact Hagain.
Defined.

(** Ending work drops the retained operations: after a successful denial
    the denied operation is gone, after a successful cancellation every operation of
    the task, and after a successful expiry every operation of a task known to be
    terminal; the adapter is untouched and every other operation stays. *)
Theorem gate_forgets_ended_work `{EnvLaws} {A O Output Error St}
    `{!GuardedOperation O, !ExecutionAdapter A O Output Error, !AdapterLaws A O Output Error}
    `{EventStoreLaws St} strict (g : ExecutionGate A O) (s : TaskSupervisor St) w :
  reachable_gated strict g s w ->
  (forall id q g' s' w', gate_deny (Error := Error) id (g, s) w = (Return q, (g', s'), w') ->
     adapter g' = adapter g /\ approval_index g' !! id = None
     /\ forall o pe, gate_pending g' !! o = Some pe <-> gate_pending g !! o = Some pe /\ pe_approval_id pe <> id)
  /\ (forall t b g' s' w', gate_cancel (Error := Error) t (g, s) w = (Return b, (g', s'), w') ->
     adapter g' = adapter g
     /\ forall o pe, gate_pending g' !! o = Some pe <-> gate_pending g !! o = Some pe /\ pe_task_id pe <> t)
  /\ (forall n g' s' w', gate_expire (Error := Error) (g, s) w = (Return n, (g', s'), w') ->
     forall o pe, gate_pending g' !! o = Some pe <-> gate_pending g !! o = Some pe
       /\ forall q, task_state s' (pe_task_id pe) = Some q -> is_terminal q = false).
Proof.
  intros [_ Hg _]%reachable_gated_inv. split_and!.
  - intros id q g' s' w' Hrun. apply gate_deny_run in Hrun.
    destruct (approval_index g !! id) as [o|] eqn:Hix; [|by destruct Hrun as [? _]].
    destruct (indexed_operation g w id o Hg Hix) as (pe & Hpe & Hid).
    destruct Hrun as (ra & _ & Hr). destruct ra as [q'|e|]; [|by destruct Hr as [_ ?]..].
    destruct Hr as [-> _]. simpl. rewrite lookup_delete_eq. split_and!; [done | done |].
    intros o' pe'. rewrite lookup_delete. case_decide as Ho; [subst o' id; naive_solver|].
    split; [|by intros [? _]]. intros Hpe'. split; [done|]. intros E. destruct Ho.
    eapply gate_index_unique; [done | done | done | congruence].
  - intros t b g' s' w' Hrun. apply gate_cancel_run in Hrun as (ra & _ & Hr).
    destruct ra as [q'|e|]; [|by destruct Hr as [_ ?]..]. destruct Hr as [-> _]. split.
    + apply remove_operations_adapter.
    + intros o pe. apply remove_task_pending.
  - intros n g' s' w' Hrun. apply gate_expire_run in Hrun as (ra & _ & Hr).
    destruct ra as [q'|e|]; [|by destruct Hr as [_ ?]..]. destruct Hr as [-> _].
    intros o pe. apply purge_terminal_pending.
Qed.

Lemma gate_forgets_ended_work_witness :
  let x := ((gate_run gate_waiting).1.1, (gate_run gate_waiting).1.2) in
  exists g' s' w',
    gate_cancel (Error := EventStoreError) demo_task x (gate_run gate_waiting).2
      = (Return true, (g', s'), w')
    /\ forall o pe, gate_pending g' !! o = Some pe -> pe_task_id pe <> demo_task.
Proof.
  intros x.
  set (run := gate_cancel (Error := EventStoreError) demo_task x (gate_run gate_waiting).2).
  assert (Hrun : run = (Return true, (run.1.2.1, run.1.2.2), run.2)) by (vm_compute; reflexivity).
  exists run.1.2.1, run.1.2.2, run.2. split; [exact Hrun|]. intros o pe Hpe.
  destruct (gate_forgets_ended_work false (gate_run gate_waiting).1.1 (gate_run gate_waiting).1.2
    (gate_run gate_waiting).2 (gate_run_reachable gate_waiting)) as (_ & Hc & _).
  exact (proj2 (proj1 (proj2 (Hc demo_task true run.1.2.1 run.1.2.2 run.2 Hrun) o pe) Hpe)).
Defined.

(** Two tasks ask for approval; the first request has expired when the second
    is made. *)
Definition gate_overtaken : list (GateCall (O := DemoOperation)) :=
  gate_start ++
  [GateRequest demo_task commit_operation (Duration_from_millis 2);
   GateOther (CallSubmit (mk_TaskSpec "another-key" (goal example_task) (capabilities example_task)
                (budget example_task) (approval example_task)));
   GateOther (CallStart (mk_TaskId 3));
   GateRequest (mk_TaskId 3) commit_operation (Duration_from_secs 60)].

(** The gate's retained operations are not bounded by the approval
    authority: a request that expires inside a later request is closed by the
    supervisor but stays in the gate, which then retains two operations while the
    authority has one entry. *)
Theorem gate_outgrows_the_authority :
  let '(g, s) := (gate_run gate_overtaken).1 in
  gate_pending_count g = 2 /\ btree_len (pending (approval_authority s)) = 1
  /\ task_state s demo_task = Some Failed.
Proof. vm_compute. auto. Qed.
