(* ===== verification/GateIsolation.v ===== *)
(** * Tasks are isolated at the execution gate

    The gate acts on the supervisor for one task at a time and retains operations of
    many; a call on it changes neither what the supervisor holds of another task nor the
    operations the gate retains for it. *)

From stdpp Require Import base numbers list gmap strings.
From Stdlib Require Import ZArith Lia.
From S2P Require Import Prelude RustStd TaskState TaskSpec Policy Event Approval Supervisor Recovery.
From S2P Require Import SupervisorInv SupervisorFacts SupervisorOps RecoveryFacts SupervisorRun SupervisorProps ApprovalProps.
From S2P Require Import Isolation Execution ExecutionProps.

Section Gates.
Context `{EnvLaws} {A O Output Error S : Type}.
Context `{!GuardedOperation O, !ExecutionAdapter A O Output Error, !AdapterLaws A O Output Error}.
Context `{EventStoreLaws S}.
Implicit Types (g : ExecutionGate A O) (s : TaskSupervisor S) (op : O).
Variable strict : bool.
Variable u : TaskId.

(** The operations the gate retains for the task. *)
Definition retained g : gmap OperationId (PendingExecution O) :=
  filter (fun e => pe_task_id e.2 = u) (gate_pending g).

(** Whether a call on the gate may change what is held of [u]. *)
Definition gate_affects s (w : World) (c : GateCall (O := O)) : bool :=
  match c with
  | GateRequest t op ttl => affects u s w (CallRequest t (capability_request op) ttl)
  | GateApprove id => affects u s w (CallApprove id)
  | GateDeny id => affects u s w (CallDeny id)
  | GateExpire => affects u s w CallExpire || bool_decide (is_terminal <$> task_state s u = Some true)
  | GateCancel t => affects u s w (CallCancel t)
  | GateOther c => affects u s w c
  end.

(** What both hold of the task. *)
Definition undisturbed g s g' s' : Prop := same_holdings u s s' /\ retained g' = retained g.

Lemma call_undisturbed {B} c (m : M (TaskSupervisor S) SupervisorError B) s w r s' w' :
  sup_inv strict s w -> run_call c = discard m -> (strict = true -> disciplined s c) ->
  m s w = (r, s', w') -> affects u s w c = false -> same_holdings u s s'.
Proof.
  intros Hi Hc Hd Hm Ha. destruct (discard m s w) as [[r' s1] w1] eqn:E.
  assert (s1 = s') as ->.
  { unfold discard, bind in E. rewrite Hm in E. by destruct r; injection E. }
  eapply (call_same_holdings strict u c); [done | done | by rewrite Hc | done].
Qed.

Lemma ran_retained {B} op g w1 g' w' (f : Output -> B) r : ran op g w1 g' w' f r -> retained g' = retained g.
Proof. intros (rx & _ & _ & E). by rewrite E. Qed.

Lemma request_undisturbed t op ttl g s w r g' s' w' :
  gated_inv strict g s w -> gate_request t op ttl (g, s) w = (r, (g', s'), w') ->
  affects u s w (CallRequest t (capability_request op) ttl) = false -> undisturbed g s g' s'.
Proof.
  intros Hi Hrun Ha. pose proof (ga_supervisor _ _ _ _ Hi) as Hs.
  apply gate_request_run in Hrun as (ra & w1 & Hrq & Hr). split.
  { by eapply (call_undisturbed (CallRequest t (capability_request op) ttl)). }
  assert (Hne : t <> u).
  { unfold affects in Ha. apply Bool.orb_false_iff in Ha as [Hc _]. by apply bool_decide_eq_false in Hc. }
  pose proof (wp_run _ _ _ _ _ _ _ (wp_request_operation strict t (capability_request op) ttl s w Hs) Hrq)
    as (_ & _ & s1 & w2 & _ & Hw2 & Hres & _).
  destruct ra as [[|reason|q]|e|]; [by eapply ran_retained | by destruct Hr as [-> _] | | by destruct Hr as [-> _] | done].
  destruct Hr as (-> & _). simpl in Hres.
  destruct Hres as (rec & k & es' & _ & _ & _ & _ & _ & _ & _ & Ho & _).
  unfold retained. simpl. apply filter_insert_other; [done|]. intros pe Hpe _.
  destruct (gi_fresh _ _ (ga_gate _ _ _ _ Hi) _ _ Hpe) as [Hu _].
  by apply (not_unminted_mono w w2) in Ho.
Qed.

(** An operation the supervisor closes is that of the task whose approval it was. *)
Lemma closed_retained id o pe po g s w now s1 :
  gated_inv strict g s w -> approval_index g !! id = Some o -> gate_pending g !! o = Some pe ->
  expires now s s1 -> pending_operations s1 !! id = Some po ->
  ~ po_task_id <$> pending_operations s !! id = Some u ->
  po = mk_PendingOperation (pe_task_id pe) o (from_borrowed (capability_request (pe_operation pe)))
  /\ pe_task_id pe <> u /\ retained (remove_pending id o g).2 = retained g.
Proof.
  intros Hi Hix Hpe He Hpo Hne. apply (expires_subset _ _ _ He) in Hpo.
  destruct (indexed_operation g w id o (ga_gate _ _ _ _ Hi) Hix) as (pe' & Hpe' & Hid). simplify_eq.
  pose proof (ga_linked _ _ _ _ Hi _ _ _ Hpe Hpo) as ->. rewrite Hpo in Hne. simpl in Hne.
  assert (Ht : pe_task_id pe <> u) by (intros E; apply Hne; by rewrite E).
  split_and!; [done | done |]. unfold retained. simpl. apply filter_delete_other.
  intros v Hv. by simplify_eq.
Qed.

Lemma not_concerned s w c : affects u s w c = false -> ~ concerns u s c.
Proof. intros Ha. apply Bool.orb_false_iff in Ha as [Hc _]. by apply bool_decide_eq_false in Hc. Qed.

Lemma deny_undisturbed id g s w r g' s' w' :
  gated_inv strict g s w -> gate_deny (Error := Error) id (g, s) w = (r, (g', s'), w') ->
  affects u s w (CallDeny id) = false -> undisturbed g s g' s'.
Proof.
  intros Hi Hrun Ha. pose proof (ga_supervisor _ _ _ _ Hi) as Hs. apply gate_deny_run in Hrun.
  destruct (approval_index g !! id) as [o|] eqn:Hix; [|by destruct Hrun as (_ & -> & -> & _)].
  destruct (indexed_operation g w id o (ga_gate _ _ _ _ Hi) Hix) as (pe & Hpe & _).
  destruct Hrun as (ra & Hde & Hr). split; [by eapply (call_undisturbed (CallDeny id))|].
  destruct ra as [q|e|]; [|by destruct Hr as [-> _]..]. destruct Hr as [-> _].
  pose proof (wp_run _ _ _ _ _ _ _ (wp_deny_operation strict id s w Hs) Hde)
    as (_ & _ & s1 & w1 & _ & He & (po & rec & es' & Hpo & _) & _).
  by eapply closed_retained; [.. | apply (not_concerned _ _ _ Ha)].
Qed.

Lemma approve_undisturbed id g s w r g' s' w' :
  gated_inv strict g s w -> approve_and_execute id (g, s) w = (r, (g', s'), w') ->
  affects u s w (CallApprove id) = false -> undisturbed g s g' s'.
Proof.
  intros Hi Hrun Ha. pose proof (ga_supervisor _ _ _ _ Hi) as Hs. apply approve_and_execute_run in Hrun.
  destruct (approval_index g !! id) as [o|] eqn:Hix; [|by destruct Hrun as (_ & -> & -> & _)].
  destruct (indexed_operation g w id o (ga_gate _ _ _ _ Hi) Hix) as (pe & Hpe & _). rewrite Hpe in Hrun.
  destruct Hrun as (ra & s1 & w1 & Hap & Hr).
  assert (Hv : same_holdings u s s1) by by eapply (call_undisturbed (CallApprove id)).
  destruct ra as [q|e|]; [|by destruct Hr as (-> & -> & _)..].
  destruct Hr as (rb & w2 & Hau & Hr).
  pose proof (wp_run _ _ _ _ _ _ _ (wp_approve_operation strict id s w Hs) Hap)
    as (Hs1 & _ & s0 & w0 & _ & He & (po & rec & d & k & es' & Hpo & _ & _ & _ & _ & _ & -> & _) & _).
  destruct (closed_retained id o pe po g s w _ s0 Hi Hix Hpe He Hpo (not_concerned _ _ _ Ha))
    as (-> & Hne & Hret).
  split.
  - etrans; [exact Hv|].
    eapply (call_undisturbed (CallAuthorize (pe_task_id pe) o (capability_request (pe_operation pe)))); try done.
    unfold affects. simpl. rewrite Bool.orb_false_r. apply bool_decide_eq_false. simpl.
    rewrite lookup_insert_eq. simpl. intros [?|[= ?]]; by apply Hne.
  - destruct rb as [receipt|e|]; [|by destruct Hr as (-> & _)..].
    by rewrite (ran_retained _ _ _ _ _ _ _ Hr).
Qed.

Lemma expire_undisturbed g s w r g' s' w' :
  gated_inv strict g s w -> gate_expire (Error := Error) (g, s) w = (r, (g', s'), w') ->
  affects u s w CallExpire = false -> is_terminal <$> task_state s u <> Some true -> undisturbed g s g' s'.
Proof.
  intros Hi Hrun Ha Hlive. pose proof (ga_supervisor _ _ _ _ Hi) as Hs.
  apply gate_expire_run in Hrun as (ra & Hex & Hr).
  assert (Hv : same_holdings u s s') by by eapply (call_undisturbed CallExpire).
  split; [done|]. destruct ra as [q|e|]; [|by destruct Hr as [-> _]..]. destruct Hr as [-> _].
  apply filter_same_entries. simpl. intros o pe Hu. rewrite purge_terminal_pending. split; [by intros [? _]|].
  intros Hpe. split; [done|]. intros q' Hq. rewrite Hu in Hq.
  destruct (same_holdings_answers u s s' Hv) as [Hget _]. unfold get in Hget.
  rewrite Hq in Hget. destruct (task_state s u) as [q0|]; [|done]. simpl in Hget, Hlive.
  injection Hget as <-. by destruct (is_terminal q').
Qed.

Lemma gate_call_undisturbed c g s w r g' s' w' :
  gated_inv strict g s w -> (strict = true -> gate_disciplined s c) ->
  run_gate_call c (g, s) w = (r, (g', s'), w') -> gate_affects s w c = false -> undisturbed g s g' s'.
Proof.
  intros Hi Hd Hrun Ha. pose proof (ga_supervisor _ _ _ _ Hi) as Hs.
  destruct c as [t op ttl|id|id| |t|c]; simpl in Hrun, Ha; try (apply ignore_run in Hrun as [r0 Hrun]).
  - by eapply request_undisturbed.
  - by eapply approve_undisturbed.
  - by eapply deny_undisturbed.
  - apply Bool.orb_false_iff in Ha as [Ha Hlive]. apply bool_decide_eq_false in Hlive.
    by eapply expire_undisturbed.
  - apply gate_cancel_run in Hrun as (ra & Hca & Hr).
    split; [by eapply (call_undisturbed (CallCancel t))|].
    destruct ra as [q|e|]; [|by destruct Hr as [-> _]..]. destruct Hr as [-> _].
    apply filter_same_entries. simpl. intros o pe Hu. rewrite remove_task_pending. split; [by intros [? _]|].
    intros Hpe. split; [done|]. intros E. apply (not_concerned _ _ _ Ha). simpl. congruence.
  - apply on_supervisor_run in Hrun as [-> [r0 Hrun]]. split; [|done].
    by eapply (call_same_holdings strict u c).
Qed.

End Gates.

(** C11: The execution gate keeps tasks apart, for every adapter: whatever call is made on
    a gate (a request, an approval with its execution, a denial, an expiry, a
    cancellation) or on the supervisor behind it, and whether it succeeds or fails, a task
    that the call does not name, whose approval or approved operation it does not name
    and whose own approval is not overdue, keeps everything the supervisor holds of it,
    and the gate retains exactly the same operations for it; only the expiry pass also
    drops what it retains for a task that has already ended. *)
Theorem gates_keep_tasks_apart `{EnvLaws} {A O Output Error St}
    `{!GuardedOperation O, !ExecutionAdapter A O Output Error, !AdapterLaws A O Output Error}
    `{EventStoreLaws St} strict (g : ExecutionGate A O) (s : TaskSupervisor St) w c r g' s' w' u :
  reachable_gated strict g s w -> (strict = true -> gate_disciplined s c) ->
  run_gate_call c (g, s) w = (r, (g', s'), w') -> gate_affects u s w c = false ->
  holdings u s' = holdings u s /\ retained u g' = retained u g.
Proof.
  intros Hr Hd Hrun Ha.
  destruct (gate_call_undisturbed strict u c g s w r g' s' w' (reachable_gated_inv _ _ _ _ Hr) Hd Hrun Ha)
    as [Hh Hret].
  by split.
Qed.

(** The first task waits with a retained operation; a second one is started and
    runs an operation that is allowed. *)
Definition gate_neighbours : list (GateCall (O := DemoOperation)) :=
  gate_waiting ++ [GateOther (CallSubmit other_task); GateOther (CallStart (mk_TaskId 3))].

Definition neighbour_request : GateCall (O := DemoOperation) :=
  GateRequest (mk_TaskId 3) test_operation (Duration_from_secs 60).

Lemma gates_keep_tasks_apart_witness :
  let x := gate_run gate_neighbours in
  let y := run_gate_call neighbour_request x.1 x.2 in
  adapter y.1.2.1 = [test_operation]
  /\ holdings demo_task y.1.2.2 = holdings demo_task x.1.2
  /\ retained demo_task y.1.2.1 = retained demo_task x.1.1
  /\ size (retained demo_task x.1.1) = 1%nat.
Proof.
  assert (Hr := gate_run_reachable gate_neighbours).
  assert (Ha : gate_affects demo_task (gate_run gate_neighbours).1.2 (gate_run gate_neighbours).2
                 neighbour_request = false) by (vm_compute; reflexivity).
  intros x y. split; [vm_compute; reflexivity|]. 
  assert (Hn : size (retained demo_task x.1.1) = 1%nat) by (vm_compute; reflexivity).
  cut (holdings demo_task y.1.2.2 = holdings demo_task x.1.2 /\ retained demo_task y.1.2.1 = retained demo_task x.1.1).
  { intros [H1 H2]. split; [exact H1 | split; [exact H2 | exact Hn]]. }
  clear Hn. subst x y. destruct (gate_run gate_neighbours) as [[g s] w]. cbn [fst snd] in *.
  destruct (run_gate_call neighbour_request (g, s) w) as [[r [g' s']] w'] eqn:E. cbn [fst snd].
  exact (gates_keep_tasks_apart false g s w neighbour_request r g' s' w' demo_task Hr
           (fun Hf => match Bool.diff_false_true Hf with end) E Ha).
Defined.
