(* ===== verification/Facade.v ===== *)
(** * Adapter facades (aios-adapter-tool, aios-adapter-filesystem,
      aios-adapter-network: the three execution gates)

    Each adapter crate wraps an execution gate.  The wrapper attaches the task's
    execution context to an operation before it asks for authorization; its other
    methods are those of the gate.  What the wrapper adds is proved here once, for
    every operation type with a context. *)

From stdpp Require Import base numbers list gmap strings.
From Stdlib Require Import ZArith Lia.
From S2P Require Import Prelude RustStd TaskState TaskSpec Policy Event Approval Supervisor Recovery.
From S2P Require Import SupervisorInv SupervisorFacts SupervisorOps RecoveryFacts SupervisorRun SupervisorProps ApprovalProps.
From S2P Require Import Execution ExecutionProps.

(** An operation with the field [execution_context]. *)
Class ContextualOperation (O : Type) := {
  with_context : TaskExecutionContext -> O -> O;
  operation_context : O -> option TaskExecutionContext;
}.

Class ContextualLaws (O : Type) `{GuardedOperation O, !ContextualOperation O} : Prop := {
  context_set : forall c op, operation_context (with_context c op) = Some c;
  context_request : forall c op, capability_request (with_context c op) = capability_request op;
}.

Section Facade.
Context `{Env} {A O Output Error S : Type}.
Context `{!GuardedOperation O, !ContextualOperation O, !ExecutionAdapter A O Output Error, !EventStore S}.

Definition facade_request (task_id : TaskId) (operation : O) (approval_ttl : Z)
    : M (ExecutionGate A O * TaskSupervisor S) (ExecutionError Error) (ExecutionOutcome Output) :=
  let! found := gets (fun x => execution_context x.2 task_id) in
  let! context := lift (res_map_err ExecutionSupervisor found) in
  gate_request task_id (with_context context operation) approval_ttl.

End Facade.

(** ** Runs *)

Section Runs.
Context `{EnvLaws} {A O Output Error S : Type}.
Context `{GuardedOperation O, !ContextualOperation O, !ContextualLaws O}.
Context `{!ExecutionAdapter A O Output Error, !AdapterLaws A O Output Error, EventStoreLaws S}.
Implicit Types (g : ExecutionGate A O) (s : TaskSupervisor S) (op : O).

(** The operations a facade is given satisfy [P], for instance because only
    its catalog can construct them. *)
Variable P : O -> Prop.
Hypothesis P_context : forall c op, P op -> P (with_context c op).

(** Calls of the facade, and other calls on its supervisor. *)
Inductive reachable_facade (strict : bool) (a : A) : ExecutionGate A O -> TaskSupervisor S -> World -> Prop :=
| facade_init s w : reachable strict s w -> reachable_facade strict a (ExecutionGate_new a) s w
| facade_requested g s w t op ttl r g' s' w' :
    reachable_facade strict a g s w -> P op ->
    facade_request t op ttl (g, s) w = (r, (g', s'), w') -> reachable_facade strict a g' s' w'
| facade_call g s w c r g' s' w' :
    reachable_facade strict a g s w -> (strict = true -> gate_disciplined s c) ->
    (forall t op ttl, c <> GateRequest t op ttl) ->
    run_gate_call c (g, s) w = (r, (g', s'), w') -> reachable_facade strict a g' s' w'
| facade_time g s w w' :
    reachable_facade strict a g s w -> world_le w w' -> reachable_facade strict a g s w'.

Lemma facade_request_run t op ttl g s w r g' s' w' :
  facade_request t op ttl (g, s) w = (r, (g', s'), w') ->
  match execution_context s t with
  | Err e => r = Raise (ExecutionSupervisor e) /\ g' = g /\ s' = s /\ w' = w
  | Ok c => gate_request t (with_context c op) ttl (g, s) w = (r, (g', s'), w')
  end.
Proof.
  unfold facade_request, bind, gets. simpl. destruct (execution_context s t) as [c|e]; simpl; [done|].
  by intros [= <- <- <- <-].
Qed.

Lemma facade_gated strict a g s w : reachable_facade strict a g s w -> reachable_gated strict g s w.
Proof.
  induction 1 as [s w Hr|g s w t op ttl r g' s' w' _ IH _ Hrun|g s w c r g' s' w' _ IH Hd _ Hrun
                 |g s w w' _ IH Hw].
  - by apply gated_init.
  - apply facade_request_run in Hrun. destruct (execution_context s t) as [c|e].
    + destruct r; (eapply (gated_call strict g s w (GateRequest t (with_context c op) ttl)); [done | done|];
        simpl; unfold ignore, bind; rewrite Hrun; reflexivity).
    + by destruct Hrun as (_ & -> & -> & ->).
  - by eapply gated_call.
  - by eapply gated_time.
Qed.

(** The context belongs to the task. *)
Definition carries s t op : Prop := exists rec c, tasks s !! t = Some rec
  /\ operation_context op = Some c /\ context_task_id c = t /\ context_budget c = budget (spec rec)
  /\ filesystem_capabilities c = filesystem (capabilities (spec rec)).

Lemma execution_context_carries s t c op :
  execution_context s t = Ok c -> carries s t (with_context c op).
Proof.
  unfold execution_context. destruct (tasks s !! t) as [rec|] eqn:Hrec; simpl; [|done].
  destruct (bool_decide (state rec = Running)); simpl; [|done].
  destruct (started_at rec); simpl; [|done]. intros [= <-].
  eexists rec, _. by rewrite context_set.
Qed.

Lemma carries_evolves strict s s' t op : evolves strict s s' -> carries s t op -> carries s' t op.
Proof.
  intros He (rec & c & Hrec & Hc & Ht & Hb & Hf). destruct (He t rec Hrec) as (rec' & Hrec' & [Hsp _ _]).
  exists rec', c. by rewrite Hsp.
Qed.

(** Every method of the gate calls the supervisor's public methods only. *)
Lemma supervisor_advances strict c s w r s' w' :
  sup_inv strict s w -> (strict = true -> disciplined s c) -> run_call c s w = (r, s', w') ->
  sup_inv strict s' w' /\ advances strict s s'.
Proof.
  intros Hs Hd Hrun.
  by destruct (wp_run _ _ _ _ _ _ _ (wp_run_call strict c s w Hs Hd) Hrun) as (_ & ? & _ & ?).
Qed.

Lemma discard_advances {B} strict c (m : M (TaskSupervisor S) SupervisorError B) s w r s' w' :
  sup_inv strict s w -> (strict = true -> disciplined s c) -> run_call c = discard m ->
  m s w = (r, s', w') -> sup_inv strict s' w' /\ advances strict s s'.
Proof.
  intros Hs Hd Hc Hrun.
  destruct r as [b|e|]; eapply (supervisor_advances strict c); try done; rewrite Hc; unfold discard, bind;
    by rewrite Hrun.
Qed.

Lemma gate_call_advances strict c g s w r g' s' w' :
  sup_inv strict s w -> (strict = true -> gate_disciplined s c) ->
  run_gate_call c (g, s) w = (r, (g', s'), w') -> advances strict s s'.
Proof.
  intros Hs Hd Hrun.
  destruct c as [t op ttl|id|id| |t|c]; simpl in Hrun; try (apply ignore_run in Hrun as [r0 Hrun]).
  - apply gate_request_run in Hrun as (ra & w1 & Hrq & _).
    by eapply (discard_advances strict (CallRequest t (capability_request op) ttl)) in Hrq as [_ ?].
  - apply approve_and_execute_run in Hrun.
    destruct (approval_index g !! id) as [o|]; [|by destruct Hrun as (_ & _ & -> & _)].
    destruct (gate_pending g !! o) as [pe|]; [|by destruct Hrun as (_ & _ & -> & _)].
    destruct Hrun as (ra & s1 & w1 & Hap & Hr).
    eapply (discard_advances strict (CallApprove id)) in Hap as [Hs1 He1]; [|done..].
    destruct ra as [q|e|]; [|by destruct Hr as (_ & -> & _)..].
    destruct Hr as (rb & w2 & Hau & _).
    eapply (discard_advances strict (CallAuthorize (pe_task_id pe) o _)) in Hau as [_ He2]; [|done..].
    by etrans.
  - apply gate_deny_run in Hrun. destruct (approval_index g !! id) as [o|]; [|by destruct Hrun as (_ & _ & -> & _)].
    destruct Hrun as (ra & Hde & _). by eapply (discard_advances strict (CallDeny id)) in Hde as [_ ?].
  - apply gate_expire_run in Hrun as (ra & Hex & _).
    by eapply (discard_advances strict CallExpire) in Hex as [_ ?].
  - apply gate_cancel_run in Hrun as (ra & Hca & _).
    by eapply (discard_advances strict (CallCancel t)) in Hca as [_ ?].
  - apply on_supervisor_run in Hrun as [_ [r0 Hrun]]. by eapply supervisor_advances.
Qed.

(** A call other than a request retains nothing new. *)
Lemma gate_call_subset c g s w r g' s' w' o pe :
  (forall t op ttl, c <> GateRequest t op ttl) -> run_gate_call c (g, s) w = (r, (g', s'), w') ->
  gate_pending g' !! o = Some pe -> gate_pending g !! o = Some pe.
Proof.
  intros Hc Hrun.
  destruct c as [t op ttl|id|id| |t|c]; simpl in Hrun; try (apply ignore_run in Hrun as [r0 Hrun]).
  - by destruct (Hc t op ttl).
  - apply approve_and_execute_run in Hrun.
    destruct (approval_index g !! id) as [o'|]; [|by destruct Hrun as (_ & -> & _)].
    destruct (gate_pending g !! o') as [pe'|]; [|by destruct Hrun as (_ & -> & _)].
    destruct Hrun as (ra & s1 & w1 & _ & Hr). destruct ra as [q|e|]; [|by destruct Hr as (-> & _)..].
    assert (Hdel : gate_pending (remove_pending id o' g).2 !! o = Some pe -> gate_pending g !! o = Some pe)
      by (simpl; rewrite lookup_delete; by case_decide).
    destruct Hr as (rb & w2 & _ & Hr). destruct rb as [receipt|e|]; [|by destruct Hr as (-> & _)..].
    destruct Hr as (rx & _ & _ & ->). done.
  - apply gate_deny_run in Hrun. destruct (approval_index g !! id) as [o'|]; [|by destruct Hrun as (_ & -> & _)].
    destruct Hrun as (ra & _ & Hr). destruct ra as [q|e|]; [|by destruct Hr as (-> & _)..].
    destruct Hr as [-> _]. simpl. rewrite lookup_delete. by case_decide.
  - apply gate_expire_run in Hrun as (ra & _ & Hr). destruct ra as [q|e|]; [|by destruct Hr as (-> & _)..].
    destruct Hr as [-> _]. by intros [? _]%purge_terminal_pending.
  - apply gate_cancel_run in Hrun as (ra & _ & Hr). destruct ra as [q|e|]; [|by destruct Hr as (-> & _)..].
    destruct Hr as [-> _]. by intros [? _]%remove_task_pending.
  - by apply on_supervisor_run in Hrun as [-> _].
Qed.

(** Everything a facade retains carries its own task's context. *)
Lemma facade_carries strict a g s w : reachable_facade strict a g s w ->
  forall o pe, gate_pending g !! o = Some pe ->
    P (pe_operation pe) /\ carries s (pe_task_id pe) (pe_operation pe).
Proof.
  induction 1 as [s w Hr|g s w t op ttl r g' s' w' Hf IH HP Hrun|g s w c r g' s' w' Hf IH Hd Hc Hrun
                 |g s w w' Hf IH Hw]; intros o pe Hpe;
    [simpl in Hpe; by rewrite lookup_empty in Hpe | | |by eapply IH].
  - pose proof (ga_supervisor _ _ _ _ (reachable_gated_inv _ _ _ _ (facade_gated _ _ _ _ _ Hf))) as Hs.
    apply facade_request_run in Hrun. destruct (execution_context s t) as [c|e] eqn:Hx.
    2:{ destruct Hrun as (_ & -> & -> & _). by apply (IH o). }
    apply gate_request_run in Hrun as (ra & w1 & Hrq & Hr).
    eapply (discard_advances strict (CallRequest t (capability_request (with_context c op)) ttl)) in Hrq
      as [_ [He _]]; [|done..].
    assert (Hold : gate_pending g !! o = Some pe ->
      P (pe_operation pe) /\ carries s' (pe_task_id pe) (pe_operation pe)).
    { intros Hpe'. destruct (IH o pe Hpe'). split; [done | by eapply carries_evolves]. }
    destruct ra as [[|reason|q]|e|].
    + destruct Hr as (rx & _ & _ & E). rewrite E in Hpe. by apply Hold.
    + destruct Hr as (-> & _). by apply Hold.
    + destruct Hr as (-> & _). simpl in Hpe. rewrite lookup_insert in Hpe. case_decide; [|by apply Hold].
      injection Hpe as <-. simpl. split; [by apply P_context|].
      eapply carries_evolves; [done | by apply execution_context_carries].
    + destruct Hr as (-> & _). by apply Hold.
    + destruct Hr as (-> & _). by apply Hold.
  - pose proof (ga_supervisor _ _ _ _ (reachable_gated_inv _ _ _ _ (facade_gated _ _ _ _ _ Hf))) as Hs.
    destruct (IH o pe) as [HP Hca]; [by eapply gate_call_subset|].
    split; [done|]. eapply carries_evolves; [by eapply gate_call_advances | done].
Qed.

(** What a run of the adapter inside a call looks like: the operation [op], in the
    context of the task [t], once, from the world [w1]. *)
Definition ran_op t op w1 g s g' w' : Prop :=
  P op /\ carries s t op /\ exists rx, execute op (adapter g) w1 = (rx, adapter g', w').

(** A request runs its own operation, in the context of the task it names, once the
    supervisor has allowed it for that task. *)
Definition request_ran t op ttl g s w g' s' w' : Prop := exists c w1,
  execution_context s t = Ok c
  /\ request_operation t (capability_request op) ttl s w = (Return Allowed, s', w1)
  /\ ran_op t (with_context c op) w1 g s g' w'.

(** An approval runs the operation retained for it, for the task it was retained
    with, once the supervisor has consumed the grant for exactly that. *)
Definition approval_ran id g s w g' s' w' : Prop := exists o pe q s1 w0 receipt w1,
  approval_index g !! id = Some o /\ gate_pending g !! o = Some pe
  /\ approve_operation id s w = (Return q, s1, w0)
  /\ authorize_operation (pe_task_id pe) o (capability_request (pe_operation pe)) s1 w0
     = (Return receipt, s', w1)
  /\ ran_op (pe_task_id pe) (pe_operation pe) w1 g s g' w'.

Lemma facade_request_ran strict a t op ttl g s w r g' s' w' :
  reachable_facade strict a g s w -> P op -> facade_request t op ttl (g, s) w = (r, (g', s'), w') ->
  match r with
  | Return (OutcomeExecuted _) | Raise (ExecutionAdapterFailed _) | Panic => request_ran t op ttl g s w g' s' w'
  | _ => adapter g' = adapter g
  end.
Proof.
  intros Hf HP Hrun.
  pose proof (ga_supervisor _ _ _ _ (reachable_gated_inv _ _ _ _ (facade_gated _ _ _ _ _ Hf))) as Hs.
  apply facade_request_run in Hrun. destruct (execution_context s t) as [c|e] eqn:Hx.
  2:{ by destruct Hrun as (-> & -> & _). }
  apply gate_request_run in Hrun as (ra & w1 & Hrq & Hr). rewrite context_request in Hrq.
  destruct ra as [[|reason|q]|e|].
  - destruct Hr as (rx & He & -> & _). assert (Hrn : request_ran t op ttl g s w g' s' w').
    { exists c, w1. split_and!; [done | done |]. split; [by apply P_context|].
      split; [by apply execution_context_carries | by exists rx]. }
    by destruct rx.
  - by destruct Hr as (-> & _ & ->).
  - by destruct Hr as (-> & _ & ->).
  - by destruct Hr as (-> & _ & ->).
  - by apply (wp_run _ _ _ _ _ _ _ (wp_request_operation strict t _ ttl s w Hs)) in Hrq
      as (_ & _ & ? & ? & _ & _ & [] & _).
Qed.

Lemma facade_approve_ran strict a id g s w r g' s' w' :
  reachable_facade strict a g s w -> approve_and_execute id (g, s) w = (r, (g', s'), w') ->
  match r with
  | Return _ | Raise (ExecutionAdapterFailed _) | Panic => approval_ran id g s w g' s' w'
  | _ => adapter g' = adapter g
  end.
Proof.
  intros Hf Hrun. pose proof (facade_carries _ _ _ _ _ Hf) as Hca.
  pose proof (ga_supervisor _ _ _ _ (reachable_gated_inv _ _ _ _ (facade_gated _ _ _ _ _ Hf))) as Hs.
  apply approve_and_execute_run in Hrun.
  destruct (approval_index g !! id) as [o|] eqn:Hix; [|by destruct Hrun as (-> & -> & _)].
  destruct (gate_pending g !! o) as [pe|] eqn:Hpe; [|by destruct Hrun as (-> & -> & _)].
  destruct Hrun as (ra & s1 & w1 & Hap & Hr).
  pose proof (wp_run _ _ _ _ _ _ _ (wp_approve_operation strict id s w Hs) Hap) as (Hs1 & _ & Hap').
  destruct ra as [q|e|]; [|by destruct Hr as (-> & _ & _ & ->) |
    by destruct Hap' as (? & ? & _ & _ & [] & _)].
  destruct Hr as (rb & w2 & Hau & Hr). destruct rb as [receipt|e|].
  - destruct Hr as (rx & He & -> & _). destruct (Hca o pe Hpe) as [HP Hc].
    assert (Hrn : approval_ran id g s w g' s' w').
    { exists o, pe, q, s1, w1, receipt, w2. split_and!; try done. split; [done|]. split; [done | by exists rx]. }
    by destruct rx.
  - by destruct Hr as (-> & _ & ->).
  - by apply (wp_run _ _ _ _ _ _ _ (wp_authorize_operation strict _ o _ s1 w1 Hs1)) in Hau
      as (_ & _ & []).
Qed.

(** The other methods never run the adapter. *)
Lemma facade_call_adapter c g s w r g' s' w' :
  (forall t op ttl, c <> GateRequest t op ttl) -> (forall id, c <> GateApprove id) ->
  run_gate_call c (g, s) w = (r, (g', s'), w') -> adapter g' = adapter g.
Proof.
  intros Hc Ha Hrun.
  destruct c as [t op ttl|id|id| |t|c]; simpl in Hrun; try (apply ignore_run in Hrun as [r0 Hrun]).
  - by destruct (Hc t op ttl).
  - by destruct (Ha id).
  - apply gate_deny_run in Hrun. destruct (approval_index g !! id) as [o'|]; [|by destruct Hrun as (_ & -> & _)].
    destruct Hrun as (ra & _ & Hr). by destruct ra as [q|e|]; destruct Hr as (-> & _).
  - apply gate_expire_run in Hrun as (ra & _ & Hr). destruct ra as [q|e|]; destruct Hr as (-> & _); try done.
    unfold purge_terminal. generalize (omap (M := list) (fun p : PendingExecution O => match get s' (pe_task_id p) with
      | Some task => if is_terminal (snapshot_state task) then Some (pe_task_id p) else None
      | None => None end) (btree_values (gate_pending g))).
    intros ts. clear. revert g. induction ts as [|t ts IH]; intros g; simpl; [done|]. rewrite IH.
    apply remove_operations_adapter.
  - apply gate_cancel_run in Hrun as (ra & _ & Hr). destruct ra as [q|e|]; destruct Hr as (-> & _); try done.
    apply remove_operations_adapter.
  - by apply on_supervisor_run in Hrun as [-> _].
Qed.

(** A property of adapters that runs on the facade's operations keep. *)
Lemma facade_adapter (I : A -> Prop) strict a g s w :
  I a -> (forall op x w, P op -> I x -> I (execute op x w).1.2) ->
  reachable_facade strict a g s w -> I (adapter g).
Proof.
  intros Ha Hkeep Hf.
  assert (Hran : forall t op w1 g s g' w', I (adapter g) -> ran_op t op w1 g s g' w' -> I (adapter g')).
  { intros t op w1 g1 s1 g2 w2 Hi (HP & _ & rx & He). specialize (Hkeep op (adapter g1) w1 HP Hi).
    by rewrite He in Hkeep. }
  induction Hf as [s w Hr|g s w t op ttl r g' s' w' Hf IH HP Hrun|g s w c r g' s' w' Hf IH Hd Hc Hrun
                 |g s w w' Hf IH Hw]; try done.
  - pose proof (facade_request_ran strict a t op ttl g s w r g' s' w' Hf HP Hrun) as Hr.
    repeat case_match; first [by rewrite Hr | destruct Hr as (? & ? & _ & _ & Hr); by eapply Hran].
  - assert (Hcase : (exists id, c = GateApprove id) \/ forall id, c <> GateApprove id)
      by (destruct c; eauto).
    destruct Hcase as [[id ->]|Hna].
    + simpl in Hrun. apply ignore_run in Hrun as [r0 Hrun].
      pose proof (facade_approve_ran strict a id g s w r0 g' s' w' Hf Hrun) as Hr.
      repeat case_match; first [by rewrite Hr |
        destruct Hr as (? & ? & ? & ? & ? & ? & ? & _ & _ & _ & _ & Hr); by eapply Hran].
    + by rewrite (facade_call_adapter c g s w r g' s' w').
Qed.

End Runs.
