(* ===== verification/Accounting.v ===== *)
(** * Accounting of the adapters' work

    The gates run their adapter only behind a permit in the audit log: an operation
    that was allowed, or an approval that was consumed.  Here the two are counted
    against each other along whole runs, for any measure of the work an adapter has
    done; the components with an adapter instantiate the measure. *)

From stdpp Require Import base numbers list gmap strings.
From Stdlib Require Import ZArith Lia.
From S2P Require Import Prelude RustStd TaskState TaskSpec Policy Event Approval Supervisor Recovery.
From S2P Require Import SupervisorInv SupervisorFacts SupervisorOps RecoveryFacts SupervisorRun SupervisorProps ApprovalProps.
From S2P Require Import Execution ExecutionProps Facade.

(** ** Sums over lists *)

Lemma sum_list_with_le {X} (f f' : X -> nat) l :
  (forall x, x ∈ l -> (f x <= f' x)%nat) -> (sum_list_with f l <= sum_list_with f' l)%nat.
Proof.
  induction l as [|x l IH]; simpl; [done|]. intros Hle. specialize (Hle x) as Hx.
  assert (f x <= f' x)%nat by (apply Hx; set_solver).
  assert (sum_list_with f l <= sum_list_with f' l)%nat by (apply IH; intros y Hy; apply Hle; set_solver). lia.
Qed.

Lemma sum_list_with_submseteq {X} (f : X -> nat) l k :
  l ⊆+ k -> (sum_list_with f l <= sum_list_with f k)%nat.
Proof. intros [k' ->]%submseteq_Permutation. rewrite sum_list_with_app. lia. Qed.

(** One element has grown by one. *)
Lemma sum_list_with_grows {X} (f f' : X -> nat) x l k :
  x ∈ l -> l ⊆+ k -> (forall y, (f y <= f' y)%nat) -> (S (f x) <= f' x)%nat ->
  (S (sum_list_with f l) <= sum_list_with f' k)%nat.
Proof.
  intros Hx Hlk Hle Hs. transitivity (sum_list_with f' l); [|by apply sum_list_with_submseteq].
  apply list_elem_of_split in Hx as (l1 & l2 & ->). rewrite !sum_list_with_app. simpl.
  pose proof (sum_list_with_le f f' l1 (fun y _ => Hle y)). pose proof (sum_list_with_le f f' l2 (fun y _ => Hle y)). lia.
Qed.

(** ** Permits *)

Definition is_permit (k : TaskEventKind) : bool :=
  match k with EvOperationAllowed | EvApprovalConsumed _ _ => true | _ => false end.

Section Permits.
Context `{EnvLaws} {S : Type} `{EventStoreLaws S}.
Implicit Types (es : S) (s : TaskSupervisor S).

Definition permits es (t : TaskId) : nat := length (filter is_permit (kind <$> store_log es t)).

(** The permits of all tasks of the supervisor. *)
Definition all_permits s : nat := sum_list_with (permits (event_store s)) (btree_keys (tasks s)).

Lemma permits_grows es es' t : grows es es' -> (permits es t <= permits es' t)%nat.
Proof. intros Hg. unfold permits. destruct (Hg t) as [evs ->]. rewrite fmap_app, filter_app, length_app. lia. Qed.

Lemma permits_extends es t ks es' : extends es t ks es' ->
  permits es' t = (permits es t + length (filter is_permit ks))%nat.
Proof. intros [(evs & He & <-) _]. unfold permits. by rewrite He, fmap_app, filter_app, length_app. Qed.

Lemma evolves_known strict s s' : evolves strict s s' -> btree_keys (tasks s) ⊆+ btree_keys (tasks s').
Proof.
  intros He. apply NoDup_submseteq; [apply btree_keys_NoDup|]. intros t. rewrite !elem_of_btree_keys.
  intros [r Hr]. destruct (He t r Hr) as (r' & Hr' & _). by exists r'.
Qed.

Lemma all_permits_advances strict s s' : advances strict s s' -> (all_permits s <= all_permits s')%nat.
Proof.
  intros [He Hg]. unfold all_permits. etrans; [|by eapply sum_list_with_submseteq, evolves_known].
  apply sum_list_with_le. intros t _. by apply permits_grows.
Qed.

Lemma all_permits_permit strict s s' t : advances strict s s' -> is_Some (tasks s !! t) ->
  (Datatypes.S (permits (event_store s) t) <= permits (event_store s') t)%nat ->
  (Datatypes.S (all_permits s) <= all_permits s')%nat.
Proof.
  intros [He Hg] Ht Hp. eapply sum_list_with_grows; [by apply elem_of_btree_keys | by eapply evolves_known | | done].
  intros u. by apply permits_grows.
Qed.

(** The request is covered by a capability of the task's contract. *)
Definition covered s (t : TaskId) (req : CapabilityRequest) : Prop :=
  exists rec, tasks s !! t = Some rec /\ granted_by (capabilities (spec rec)) req.

Lemma covered_evolves strict s s' t req : evolves strict s s' -> covered s t req -> covered s' t req.
Proof.
  intros He (rec & Hrec & Hg). destruct (He t rec Hrec) as (rec' & Hrec' & [Hsp _ _]). exists rec'. by rewrite Hsp.
Qed.

Lemma running_covered strict s w t rec req :
  sup_inv strict s w -> tasks s !! t = Some rec -> state rec = Running ->
  (forall reason, evaluate (mk_CapabilityPolicy (spec rec)) req <> Deny reason) -> covered s t req.
Proof.
  intros Hs Hrec Hst Hd. exists rec. split; [done|].
  pose proof (ro_valid _ (ti_record _ _ (si_table _ _ _ Hs) _ _ Hrec)) as Hv. rewrite Hst in Hv.
  pose proof (valid_decides (spec rec) req (proj1 (validate_Ok _) (Hv ltac:(done)))) as Hdec.
  inversion Hdec as [? E|? ? E|? ? ? E|? ? ? E]; try done; by destruct (Hd _ (eq_sym E)).
Qed.

(** A permit for a request: on the log, and covered by the contract. *)
Definition permitted s s' (t : TaskId) (req : CapabilityRequest) : Prop :=
  (Datatypes.S (permits (event_store s) t) <= permits (event_store s') t)%nat /\ covered s' t req.

(** An allowed request and a consumed approval leave a permit. *)
Lemma allowed_permits strict t req ttl s w s' w' :
  sup_inv strict s w -> request_operation t req ttl s w = (Return Allowed, s', w') -> permitted s s' t req.
Proof.
  intros Hs Hrq.
  apply (wp_run _ _ _ _ _ _ _ (wp_request_operation strict t req ttl s w Hs)) in Hrq
    as (Hs' & _ & s1 & w1 & _ & _ & (rec & Hrec & Hst & Hev & E & Hex) & Hrtc). split.
  - rewrite (permits_extends _ _ _ _ Hex). simpl. pose proof (permits_grows _ _ t (expiry_grows _ _ _ Hrtc)). lia.
  - eapply running_covered; [done | by rewrite E | done | intros reason; by rewrite Hev].
Qed.

Lemma consumed_permits strict t o req s w receipt s' w' :
  sup_inv strict s w -> authorize_operation t o req s w = (Return receipt, s', w') -> permitted s s' t req.
Proof.
  intros Hs Hau.
  apply (wp_run _ _ _ _ _ _ _ (wp_authorize_operation strict t o req s w Hs)) in Hau
    as (Hs' & _ & rec & ao & Hrec & Hst & _ & _ & _ & Hev & _ & _ & E & Hex). split.
  - rewrite (permits_extends _ _ _ _ Hex). simpl. lia.
  - eapply running_covered; [done | by rewrite E | done | intros reason; by rewrite Hev].
Qed.

End Permits.

(** ** Along a run *)

Section Accounts.
Context `{EnvLaws} {A O Output Error S : Type}.
Context `{GuardedOperation O, !ContextualOperation O, !ContextualLaws O}.
Context `{!ExecutionAdapter A O Output Error, !AdapterLaws A O Output Error, EventStoreLaws S}.
Implicit Types (g : ExecutionGate A O) (s : TaskSupervisor S) (op : O).
Variable P : O -> Prop.
Hypothesis P_context : forall c op, P op -> P (with_context c op).

(** The adapter ran once, for a task that has a new permit. *)
Definition ran_permitted strict g s g' s' w' : Prop := exists t op w1 rx,
  P op /\ carries s t op /\ execute op (adapter g) w1 = (rx, adapter g', w')
  /\ advances strict s s' /\ permitted s s' t (capability_request op).

Definition accounted strict g s g' s' w' : Prop :=
  (adapter g' = adapter g /\ advances strict s s') \/ ran_permitted strict g s g' s' w'.

Lemma request_accounted strict a t op ttl g s w r g' s' w' :
  reachable_facade P strict a g s w -> P op -> facade_request t op ttl (g, s) w = (r, (g', s'), w') ->
  accounted strict g s g' s' w'.
Proof.
  intros Hf HP Hrun.
  pose proof (ga_supervisor _ _ _ _ (reachable_gated_inv _ _ _ _ (facade_gated _ _ _ _ _ _ Hf))) as Hs.
  apply facade_request_run in Hrun. destruct (execution_context s t) as [c|e] eqn:Hx.
  2:{ destruct Hrun as (_ & -> & -> & _). left. by split. }
  apply gate_request_run in Hrun as (ra & w1 & Hrq & Hr). pose proof Hrq as Hadv.
  eapply (discard_advances strict (CallRequest t (capability_request (with_context c op)) ttl)) in Hadv as [_ Hadv]; [|done..].
  destruct ra as [[|reason|q]|e|]; [|destruct Hr as (-> & _); by left..].
  destruct Hr as (rx & He & _). right. exists t, (with_context c op), w1, rx.
  split; [by apply P_context|]. split; [by apply execution_context_carries|]. split; [done|]. split; [done|].
  by eapply allowed_permits.
Qed.

Lemma approve_accounted strict a id g s w r g' s' w' :
  reachable_facade P strict a g s w -> approve_and_execute id (g, s) w = (r, (g', s'), w') ->
  accounted strict g s g' s' w'.
Proof.
  intros Hf Hrun. pose proof (facade_carries P P_context _ _ _ _ _ Hf) as Hca.
  pose proof (ga_supervisor _ _ _ _ (reachable_gated_inv _ _ _ _ (facade_gated _ _ _ _ _ _ Hf))) as Hs.
  apply approve_and_execute_run in Hrun.
  destruct (approval_index g !! id) as [o|]; [|destruct Hrun as (_ & -> & -> & _); left; by split].
  destruct (gate_pending g !! o) as [pe|] eqn:Hpe; [|destruct Hrun as (_ & -> & -> & _); left; by split].
  destruct Hrun as (ra & s1 & w1 & Hap & Hr).
  eapply (discard_advances strict (CallApprove id)) in Hap as [Hs1 Ha1]; [|done..].
  destruct ra as [q|e|]; [|destruct Hr as (-> & -> & _); by left..].
  destruct Hr as (rb & w2 & Hau & Hr). pose proof Hau as Ha2.
  eapply (discard_advances strict (CallAuthorize (pe_task_id pe) o _)) in Ha2 as [_ Ha2]; [|done..].
  assert (Hadv : advances strict s s') by by etrans.
  destruct rb as [receipt|e|]; [|destruct Hr as (-> & _); by left..].
  destruct Hr as (rx & He & _). right. destruct (Hca o pe Hpe) as [HP Hc].
  exists (pe_task_id pe), (pe_operation pe), w2, rx. repeat (split; [done|]).
  destruct (consumed_permits strict _ _ _ _ _ _ _ _ Hs1 Hau) as [Hp Hcov]. split; [|done].
  pose proof (permits_grows _ _ (pe_task_id pe) (proj2 Ha1)). lia.
Qed.

Lemma call_accounted strict a c g s w r g' s' w' :
  reachable_facade P strict a g s w -> (strict = true -> gate_disciplined s c) ->
  (forall t op ttl, c <> GateRequest t op ttl) -> run_gate_call c (g, s) w = (r, (g', s'), w') ->
  accounted strict g s g' s' w'.
Proof.
  intros Hf Hd Hc Hrun.
  assert (Hcase : (exists id, c = GateApprove id) \/ forall id, c <> GateApprove id) by (destruct c; eauto).
  destruct Hcase as [[id ->]|Hna].
  - simpl in Hrun. apply ignore_run in Hrun as [r0 Hrun]. by eapply approve_accounted.
  - left. split; [by eapply facade_call_adapter|].
    eapply gate_call_advances; [|exact Hd | exact Hrun].
    exact (ga_supervisor _ _ _ _ (reachable_gated_inv _ _ _ _ (facade_gated _ _ _ _ _ _ Hf))).
Qed.

(** A relation between adapters and supervisors that holds in the beginning, that
    advances keep, and that a permitted run keeps, holds along every run. *)
Lemma facade_accounts (R : A -> TaskSupervisor S -> Prop) strict a g s w :
  (forall s0, R a s0) ->
  (forall x s1 s2, R x s1 -> advances strict s1 s2 -> R x s2) ->
  (forall g1 s1 g2 s2 w2, R (adapter g1) s1 -> ran_permitted strict g1 s1 g2 s2 w2 -> R (adapter g2) s2) ->
  reachable_facade P strict a g s w -> R (adapter g) s.
Proof.
  intros Hinit Hadv Hran Hf.
  assert (Hstep : forall g1 s1 g2 s2 w2, R (adapter g1) s1 -> accounted strict g1 s1 g2 s2 w2 -> R (adapter g2) s2).
  { intros g1 s1 g2 s2 w2 HR [[-> Ha]|Hp]; eauto. }
  induction Hf as [s w Hr|g s w t op ttl r g' s' w' Hf IH HP Hrun|g s w c r g' s' w' Hf IH Hd Hc Hrun
                 |g s w w' Hf IH Hw]; [apply Hinit | | |done].
  - eapply Hstep; [exact IH | by eapply request_accounted].
  - eapply Hstep; [exact IH | by eapply call_accounted].
Qed.

(** Work that is done for a task, and all the work. *)
Variable work_for : A -> TaskId -> nat.
Variable work : A -> nat.

(** A run does at most one unit of work, for the task of its operation. *)
Hypothesis execute_works : forall op c x w rx x' w',
  P op -> operation_context op = Some c -> execute op x w = (rx, x', w') ->
  (work x' <= Datatypes.S (work x))%nat
  /\ forall t, (work_for x' t <= work_for x t + (if decide (t = context_task_id c) then 1 else 0))%nat.

Lemma facade_work_permitted strict a g s w :
  reachable_facade P strict a g s w ->
  (work (adapter g) <= work a + all_permits s)%nat
  /\ forall t, (work_for (adapter g) t <= work_for a t + permits (event_store s) t)%nat.
Proof.
  apply (facade_accounts (fun x s => (work x <= work a + all_permits s)%nat
    /\ forall t, (work_for x t <= work_for a t + permits (event_store s) t)%nat)).
  - intros s0. split; [lia|]. intros t. lia.
  - intros x s1 s2 [Hall Ht] Ha. split; [pose proof (all_permits_advances _ _ _ Ha); lia|].
    intros t. pose proof (permits_grows _ _ t (proj2 Ha)). specialize (Ht t). lia.
  - intros g1 s1 g2 s2 w2 [Hall Ht] (t & op & w1 & rx & HP & (rec & c & Hrec & Hc & Htc & _) & He & Ha & Hp & _).
    destruct (execute_works _ _ _ _ _ _ _ HP Hc He) as [Hw Hwf]. split.
    + pose proof (all_permits_permit strict s1 s2 t Ha (mk_is_Some _ _ Hrec) Hp). lia.
    + intros u. specialize (Hwf u). specialize (Ht u). rewrite Htc in Hwf. case_decide as Hu.
      * subst u. lia.
      * pose proof (permits_grows _ _ u (proj2 Ha)). lia.
Qed.

End Accounts.
