(* ===== verification/ToolAdapter.v ===== *)
(** * The Tool adapter (aios-adapter-tool: lib.rs)

    Trusted start-up code registers handlers under routes with fixed capability
    identifiers; the catalog prepares bounded operations for a route; the adapter
    checks them again and runs the handler.  Handlers are any implementation of
    the trait. *)

From stdpp Require Import base numbers list gmap strings.
From Stdlib Require Import ZArith Lia.
From S2P Require Import Prelude RustStd TaskState TaskSpec Policy Event Approval Supervisor Recovery.
From S2P Require Import SupervisorInv SupervisorFacts SupervisorOps RecoveryFacts SupervisorRun SupervisorProps ApprovalProps.
From S2P Require Import Execution ExecutionProps Facade.

Definition DEFAULT_MAX_ROUTES : Z := 256.
Definition MAX_MAX_ROUTES : Z := 4096.
Definition MAX_TOOL_IDENTIFIER_BYTES : Z := 64.
Definition MAX_ARGUMENTS : Z := 64.
Definition MAX_ARGUMENT_BYTES : Z := 4096.
Definition MAX_TOTAL_ARGUMENT_BYTES : Z := 64 * 1024.
Definition MAX_OUTPUT_BYTES : Z := 1024 * 1024.

(** Strings are ordered as their bytes. *)
#[export] Instance string_key : BTreeKey string :=
  {| key_le a b := String.leb a b = true;
     key_le_dec a b := decide (String.leb a b = true) |}.

(** ** Data *)

Record RouteDefinition := mk_RouteDefinition { capability_tool : string; route_action : string }.

#[export] Instance RouteDefinition_eq_dec : EqDecision RouteDefinition.
Proof. solve_decision. Defined.

Record ToolOperation := mk_ToolOperation {
  op_route : string;
  op_capability_tool : string;
  op_action : string;
  op_arguments : list string;
  op_execution_context : option TaskExecutionContext;
}.

#[export] Instance ToolOperation_guarded : GuardedOperation ToolOperation :=
  fun op => ToolRequest (op_capability_tool op) (op_action op).

Record ToolOutput := mk_ToolOutput { output_bytes : list Z }.

Inductive ToolFailureKind := ToolFailed | ToolBudgetExceeded.

Record ToolFailure := mk_ToolFailure { failure_kind : ToolFailureKind }.

Definition ToolFailure_new : ToolFailure := mk_ToolFailure ToolFailed.
Definition ToolFailure_budget_exceeded : ToolFailure := mk_ToolFailure ToolBudgetExceeded.

Definition display_ToolFailure (_ : ToolFailure) : string := "tool handler failed".

Inductive ToolAdapterError :=
| ToolErrInvalidConfig
| ToolErrInvalidRegistration
| ToolErrCapacityExceeded
| ToolErrDuplicateRoute
| ToolErrRouteNotFound
| ToolErrInvalidArguments
| ToolErrScopeMismatch
| ToolErrHandlerFailed
| ToolErrBudgetExceeded
| ToolErrOutputTooLarge.

#[export] Instance ToolAdapterError_eq_dec : EqDecision ToolAdapterError.
Proof. solve_decision. Defined.

Definition display_ToolAdapterError (e : ToolAdapterError) : string :=
  match e with
  | ToolErrInvalidConfig => "invalid Tool Adapter configuration"
  | ToolErrInvalidRegistration => "invalid Tool registration"
  | ToolErrCapacityExceeded => "Tool route capacity exceeded"
  | ToolErrDuplicateRoute => "Tool route already registered"
  | ToolErrRouteNotFound => "Tool route not found"
  | ToolErrInvalidArguments => "Tool arguments are invalid"
  | ToolErrScopeMismatch => "Tool operation does not match the registered scope"
  | ToolErrHandlerFailed => "Tool handler failed"
  | ToolErrBudgetExceeded => "Tool execution budget exceeded"
  | ToolErrOutputTooLarge => "Tool output exceeds the configured limit"
  end.

Definition ToolOutput_from_bytes (bytes : list Z) : Result ToolOutput ToolAdapterError :=
  if MAX_OUTPUT_BYTES <? len bytes then Err ToolErrOutputTooLarge else Ok (mk_ToolOutput bytes).

Definition ToolOutput_from_text (text : string) : Result ToolOutput ToolAdapterError :=
  ToolOutput_from_bytes (bytes_of text).

(** ** Handlers *)

Class ToolHandler (HT : Type) := {
  handler_execute : list string -> M HT ToolFailure ToolOutput;
  handler_execute_for_task : TaskExecutionContext -> list string -> M HT ToolFailure ToolOutput;
}.

(** The implementation for closures: [execute_for_task] is the trait's default. *)
Definition closure_handler {HT} (f : list string -> M HT ToolFailure ToolOutput) : ToolHandler HT := {|
  handler_execute := f;
  handler_execute_for_task := fun _ arguments => f arguments;
|}.

(** A handler reads the clocks like everyone else, and an output can only be
    built within the limit. *)
Class ToolHandlerLaws (HT : Type) `{ToolHandler HT} : Prop := {
  handler_world : forall c args h w, world_le w (handler_execute_for_task c args h w).2;
  handler_output : forall c args h w out h' w',
    handler_execute_for_task c args h w = (Return out, h', w') ->
    exists bytes, ToolOutput_from_bytes bytes = Ok out;
}.

(** ** Checks *)

Definition tool_is_valid_identifier (value : string) : bool :=
  negb (is_empty_str value) && (str_len value <=? MAX_TOOL_IDENTIFIER_BYTES)
  && forallb (fun c => is_ascii_alphanumeric c || (c =? 46) || (c =? 95) || (c =? 58) || (c =? 45))
       (chars value).

Fixpoint validate_argument_loop (arguments : list string) (total_bytes : Z)
    : Result unit ToolAdapterError :=
  match arguments with
  | [] => Ok tt
  | argument :: arguments' =>
      if (MAX_ARGUMENT_BYTES <? str_len argument) || contains_char NUL argument
      then Err ToolErrInvalidArguments
      else
        let? total := ok_or (checked_add usize_max total_bytes (str_len argument)) ToolErrInvalidArguments in
        if MAX_TOTAL_ARGUMENT_BYTES <? total then Err ToolErrInvalidArguments
        else validate_argument_loop arguments' total
  end.

Definition validate_arguments (arguments : list string) : Result unit ToolAdapterError :=
  if MAX_ARGUMENTS <? len arguments then Err ToolErrInvalidArguments
  else validate_argument_loop arguments 0.

(** ** Registration *)

Section Tools.
Context `{Env} {HT : Type} `{!ToolHandler HT}.

Record ToolAdapterBuilder := mk_ToolAdapterBuilder {
  builder_definitions : gmap string RouteDefinition;
  builder_handlers : gmap string HT;
  max_routes : Z;
}.

Definition ToolAdapterBuilder_new (max_routes : Z) : Result ToolAdapterBuilder ToolAdapterError :=
  if (max_routes =? 0) || (MAX_MAX_ROUTES <? max_routes) then Err ToolErrInvalidConfig
  else Ok (mk_ToolAdapterBuilder ∅ ∅ max_routes).

Definition ToolAdapterBuilder_default : ToolAdapterBuilder := mk_ToolAdapterBuilder ∅ ∅ DEFAULT_MAX_ROUTES.

(** The receiver's new value; an error leaves it as it was. *)
Definition register (route tool action : string) (handler : HT) (self : ToolAdapterBuilder)
    : Result ToolAdapterBuilder ToolAdapterError :=
  if negb (tool_is_valid_identifier route) || negb (tool_is_valid_identifier tool)
     || negb (tool_is_valid_identifier action)
  then Err ToolErrInvalidRegistration
  else if bool_decide (is_Some (builder_definitions self !! route)) then Err ToolErrDuplicateRoute
  else if max_routes self <=? btree_len (builder_definitions self) then Err ToolErrCapacityExceeded
  else Ok (mk_ToolAdapterBuilder
             (<[route := mk_RouteDefinition tool action]> (builder_definitions self))
             (<[route := handler]> (builder_handlers self)) (max_routes self)).

Record ToolCatalog := mk_ToolCatalog { catalog_definitions : gmap string RouteDefinition }.

Record ToolAdapter := mk_ToolAdapter {
  adapter_definitions : gmap string RouteDefinition;
  adapter_handlers : gmap string HT;
}.

Definition build (self : ToolAdapterBuilder) : ToolCatalog * ExecutionGate ToolAdapter ToolOperation :=
  (mk_ToolCatalog (builder_definitions self),
   ExecutionGate_new (mk_ToolAdapter (builder_definitions self) (builder_handlers self))).

(** ** The catalog *)

Definition prepare (self : ToolCatalog) (route : string) (arguments : list string)
    : Result ToolOperation ToolAdapterError :=
  let? definition := ok_or (catalog_definitions self !! route) ToolErrRouteNotFound in
  do? validate_arguments arguments in
  Ok (mk_ToolOperation route (capability_tool definition) (route_action definition) arguments None).

Definition route_count (self : ToolCatalog) : Z := btree_len (catalog_definitions self).

Definition route_names_for_tools (self : ToolCatalog) (capability_tools : list string) : list string :=
  (filter (fun e : string * RouteDefinition => capability_tool e.2 ∈ capability_tools)
     (btree_entries (catalog_definitions self))).*1.

(** ** Execution *)

Definition tool_failure (failure : ToolFailure) : ToolAdapterError :=
  match failure_kind failure with
  | ToolFailed => ToolErrHandlerFailed
  | ToolBudgetExceeded => ToolErrBudgetExceeded
  end.

Definition set_handler (route : string) (h : HT) (a : ToolAdapter) : ToolAdapter :=
  mk_ToolAdapter (adapter_definitions a) (<[route := h]> (adapter_handlers a)).

(** [handler.execute_for_task(..).map_err(..)] on the handler found for the route. *)
Definition run_handler (route : string) (context : TaskExecutionContext) (arguments : list string)
    : M ToolAdapter ToolAdapterError ToolOutput := fun a w =>
  match adapter_handlers a !! route with
  | None => (Raise ToolErrRouteNotFound, a, w)
  | Some h =>
      let '(r, h', w') := map_err tool_failure (handler_execute_for_task context arguments) h w in
      (r, set_handler route h' a, w')
  end.

Definition tool_execute (operation : ToolOperation) : M ToolAdapter ToolAdapterError ToolOutput :=
  do! lift (validate_arguments (op_arguments operation)) in
  let! context := lift (ok_or (op_execution_context operation) ToolErrScopeMismatch) in
  let! now := Instant_now in
  if Duration_is_zero (remaining_wall_time context now) then throw ToolErrBudgetExceeded
  else
    let! found := gets (fun a => adapter_definitions a !! op_route operation) in
    let! definition := lift (ok_or found ToolErrRouteNotFound) in
    if negb (String.eqb (capability_tool definition) (op_capability_tool operation))
       || negb (String.eqb (route_action definition) (op_action operation))
    then throw ToolErrScopeMismatch
    else run_handler (op_route operation) context (op_arguments operation).

#[export] Instance Tool_ExecutionAdapter
  : ExecutionAdapter ToolAdapter ToolOperation ToolOutput ToolAdapterError := tool_execute.

End Tools.

Arguments ToolAdapterBuilder : clear implicits.
Arguments ToolAdapter : clear implicits.

#[export] Instance Tool_contextual : ContextualOperation ToolOperation := {|
  with_context c op := mk_ToolOperation (op_route op) (op_capability_tool op) (op_action op)
                         (op_arguments op) (Some c);
  operation_context := op_execution_context;
|}.

#[export] Instance Tool_contextual_laws : ContextualLaws ToolOperation.
Proof. by split. Qed.

(** ** The facade *)

Section Facade.
Context `{Env} {HT : Type} `{!ToolHandler HT} {S : Type} `{!EventStore S}.

Definition ToolExecutionGate_request (task_id : TaskId) (operation : ToolOperation) (approval_ttl : Z)
    : M (ExecutionGate (ToolAdapter HT) ToolOperation * TaskSupervisor S)
        (ExecutionError ToolAdapterError) (ExecutionOutcome ToolOutput) :=
  facade_request task_id operation approval_ttl.

Definition ToolExecutionGate_approve_and_execute (approval_id : ApprovalId)
    : M (ExecutionGate (ToolAdapter HT) ToolOperation * TaskSupervisor S)
        (ExecutionError ToolAdapterError) (Executed ToolOutput) :=
  approve_and_execute approval_id.

Definition ToolExecutionGate_deny (approval_id : ApprovalId)
    : M (ExecutionGate (ToolAdapter HT) ToolOperation * TaskSupervisor S)
        (ExecutionError ToolAdapterError) TaskSnapshot :=
  gate_deny approval_id.

Definition ToolExecutionGate_expire
    : M (ExecutionGate (ToolAdapter HT) ToolOperation * TaskSupervisor S)
        (ExecutionError ToolAdapterError) Z :=
  gate_expire.

Definition ToolExecutionGate_cancel (task_id : TaskId)
    : M (ExecutionGate (ToolAdapter HT) ToolOperation * TaskSupervisor S)
        (ExecutionError ToolAdapterError) bool :=
  gate_cancel task_id.

Definition ToolExecutionGate_pending_count (g : ExecutionGate (ToolAdapter HT) ToolOperation) : Z :=
  gate_pending_count g.

End Facade.
