(* ===== verification/ToolProps.v ===== *)
(** * Properties of the Tool adapter *)

From stdpp Require Import base numbers list gmap strings.
From Stdlib Require Import ZArith Lia.
From S2P Require Import Prelude RustStd TaskState TaskSpec Policy Event Approval Supervisor Recovery.
From S2P Require Import SupervisorInv SupervisorFacts SupervisorOps RecoveryFacts SupervisorRun SupervisorProps ApprovalProps.
From S2P Require Import Execution ExecutionProps Facade ToolAdapter.

(** ** Registration *)

Section Builder.
Context `{Env} {HT : Type} `{!ToolHandler HT}.

Record builder_wf (b : ToolAdapterBuilder HT) : Prop := {
  bw_limit : 0 < max_routes b <= MAX_MAX_ROUTES;
  bw_bounded : btree_len (builder_definitions b) <= max_routes b;
  bw_handlers : forall r, is_Some (builder_handlers b !! r) <-> is_Some (builder_definitions b !! r);
  bw_valid : forall r d, builder_definitions b !! r = Some d ->
    tool_is_valid_identifier r = true /\ tool_is_valid_identifier (capability_tool d) = true
    /\ tool_is_valid_identifier (route_action d) = true;
}.

Lemma builder_new_wf n b : 0 <= n -> ToolAdapterBuilder_new n = Ok b -> builder_wf b.
Proof.
  intros Hn. unfold ToolAdapterBuilder_new. destruct (_ || _) eqn:E; [done|]. intros [= <-]. bool_prop.
  split; simpl; [lia | unfold btree_len; rewrite map_size_empty; lia | |].
  - intros r. by rewrite !lookup_empty.
  - intros r d. by rewrite lookup_empty.
Qed.

Lemma register_wf route tool action h b b' :
  builder_wf b -> register route tool action h b = Ok b' -> builder_wf b'.
Proof.
  intros [Hl Hb Hh Hv]. unfold register.
  destruct (_ || _) eqn:Hid; [done|]. case_bool_decide as Hdup; [done|].
  destruct (Z.leb_spec (max_routes b) (btree_len (builder_definitions b))); [done|]. intros [= <-].
  bool_prop. destruct Hid as [[Hr Ht] Ha].
  assert (Hnone : builder_definitions b !! route = None) by (by apply eq_None_not_Some).
  split; simpl; [done | unfold btree_len in *; rewrite map_size_insert_None by done; lia | |].
  - intros r. rewrite !lookup_insert. case_decide; [by split; eexists | apply Hh].
  - intros r d. rewrite lookup_insert. case_decide; [|apply Hv]. intros [= <-]. by subst.
Qed.

(** An operation of the catalog that goes with the builder, with or without a
    context: the fields are private, so there is no other. *)
Definition prepared (b : ToolAdapterBuilder HT) (op : ToolOperation) : Prop :=
  exists d, builder_definitions b !! op_route op = Some d
    /\ op_capability_tool op = capability_tool d /\ op_action op = route_action d
    /\ validate_arguments (op_arguments op) = Ok tt.

Lemma prepare_prepared b route args op :
  prepare (build b).1 route args = Ok op -> prepared b op /\ op_route op = route /\ op_arguments op = args.
Proof.
  unfold prepare. simpl. destruct (builder_definitions b !! route) as [d|] eqn:Hd; simpl; [|done].
  destruct (validate_arguments args) as [[]|] eqn:Hv; simpl; [|done]. intros [= <-]. by split; [exists d|].
Qed.

Lemma prepared_context b c op : prepared b op -> prepared b (with_context c op).
Proof. done. Qed.

End Builder.

(** ** Execution *)

Section Execution.
Context `{EnvLaws} {HT : Type} `{ToolHandlerLaws HT}.
Implicit Types (a : ToolAdapter HT) (b : ToolAdapterBuilder HT).

Lemma run_handler_world route c args a w : world_le w (run_handler route c args a w).2.
Proof.
  unfold run_handler. destruct (adapter_handlers a !! route) as [h|]; [|done]. unfold map_err.
  pose proof (handler_world c args h w) as Hw.
  by destruct (handler_execute_for_task c args h w) as [[[out|e|] h'] w'].
Qed.

#[export] Instance Tool_AdapterLaws : AdapterLaws (ToolAdapter HT) ToolOperation ToolOutput ToolAdapterError.
Proof.
  intros op a w. change (world_le w (tool_execute op a w).2).
  assert (Hwp : wp (tool_execute op) (fun _ _ w' => world_le w w') a w);
    [|unfold wp in Hwp; by destruct (tool_execute op a w) as [[? ?] ?]].
  unfold tool_execute. wp_step. wp_step. wp_step; [|done].
  wp_step. wp_step. wp_step; [|done]. wp_step. wp_step.
  assert (Hw1 : world_le w (mk_World (Datatypes.S (instants_read w)) (system_times_read w) (uuids_minted w)))
    by (split; simpl; lia).
  wp_step; [by wp_step|]. wp_step. wp_step. wp_step. wp_step. wp_step; [|done].
  wp_step; [by wp_step|]. unfold wp. pose proof (run_handler_world (op_route op) t (op_arguments op) a
    (mk_World (Datatypes.S (instants_read w)) (system_times_read w) (uuids_minted w))) as Hw2.
  destruct (run_handler _ _ _ _ _) as [[? ?] ?]. by etrans.
Qed.

(** The adapter belongs to the registrations of [b]. *)
Definition fits b a : Prop := adapter_definitions a = builder_definitions b
  /\ forall r, is_Some (adapter_handlers a !! r) <-> is_Some (builder_definitions b !! r).

Lemma fits_build b : builder_wf b -> fits b (adapter (build b).2).
Proof. intros Hb. split; [done | apply Hb]. Qed.

Lemma run_handler_fits b route c args a w : fits b a -> fits b (run_handler route c args a w).1.2.
Proof.
  intros Hf. unfold run_handler. destruct (adapter_handlers a !! route) as [h|] eqn:Hh; [|done].
  destruct (map_err _ _ h w) as [[r h'] w']. simpl. destruct Hf as [Hd Hr]. split; [done|].
  intros r'. simpl. rewrite lookup_insert. case_decide; [|apply Hr]. subst r'.
  split; [intros _; apply Hr; by eexists | by eexists].
Qed.

Lemma tool_execute_fits b op a w : fits b a -> fits b (execute op a w).1.2.
Proof.
  intros Hf. change (fits b (tool_execute op a w).1.2).
  unfold tool_execute, bind, lift. destruct (validate_arguments _) as [[]|]; [|done]. simpl.
  destruct (op_execution_context op) as [c|]; [|done]. simpl.
  destruct (Duration_is_zero _); [done|]. simpl.
  destruct (adapter_definitions a !! op_route op) as [d|]; [|done]. simpl.
  destruct (_ || _); [done|]. by apply run_handler_fits.
Qed.

(** A prepared operation with a context fails only by its budget or in its own
    handler. *)
Lemma tool_execute_prepared b op c a w :
  fits b a -> prepared b op -> op_execution_context op = Some c ->
  let w1 := mk_World (Datatypes.S (instants_read w)) (system_times_read w) (uuids_minted w) in
  if Duration_is_zero (remaining_wall_time c (instant_at (instants_read w)))
  then execute op a w = (Raise ToolErrBudgetExceeded, a, w1)
  else exists h, adapter_handlers a !! op_route op = Some h
    /\ execute op a w = run_handler (op_route op) c (op_arguments op) a w1.
Proof.
  intros [Hd Hh] (d & Hdef & Ht & Ha & Hv) Hc w1.
  change (execute op a w) with (tool_execute op a w). unfold tool_execute, bind, lift.
  rewrite Hv, Hc. simpl. destruct (Duration_is_zero _); [done|]. simpl.
  destruct (proj2 (Hh (op_route op))) as [h Hop]; [by eexists|]. exists h. split; [done|].
  rewrite Hd, Hdef. simpl. by rewrite Ht, Ha, !String.eqb_refl.
Qed.

End Execution.

(** ** Properties *)

Section Confined.
Context `{EnvLaws} {HT : Type} `{ToolHandlerLaws HT} {St : Type} `{EventStoreLaws St}.
Implicit Types (b : ToolAdapterBuilder HT) (g : ExecutionGate (ToolAdapter HT) ToolOperation).

(** The adapter changed by one run of the handler registered for the route of [op]:
    in the context [c], which is that of the task [t], with the bounded arguments of
    [op], after wall time was found left at [w1]; the capability request of [op] is
    the tool and action fixed at registration. *)
Definition ran_confined b (t : TaskId) (c : TaskExecutionContext) (op : ToolOperation) w1 g
    (s : TaskSupervisor St) g' w' : Prop :=
  exists rec d h rh h',
    tasks s !! t = Some rec /\ context_task_id c = t /\ context_budget c = budget (spec rec)
    /\ filesystem_capabilities c = filesystem (capabilities (spec rec))
    /\ builder_definitions b !! op_route op = Some d
    /\ capability_request op = ToolRequest (capability_tool d) (route_action d)
    /\ validate_arguments (op_arguments op) = Ok tt
    /\ remaining_wall_time c (instant_at (instants_read w1)) <> 0
    /\ adapter_handlers (adapter g) !! op_route op = Some h
    /\ handler_execute_for_task c (op_arguments op) h
         (mk_World (Datatypes.S (instants_read w1)) (system_times_read w1) (uuids_minted w1)) = (rh, h', w')
    /\ adapter g' = set_handler (op_route op) h' (adapter g).

Lemma ran_op_confined b t op c w1 g (s : TaskSupervisor St) g' w' :
  fits b (adapter g) -> op_execution_context op = Some c -> ran_op (prepared b) t op w1 g s g' w' ->
  adapter g' = adapter g \/ ran_confined b t c op w1 g s g' w'.
Proof.
  intros Hfit Hc (Hp & (rec & c' & Hrec & Hc' & Ht & Hbd & Hfs) & rx & He).
  change (op_execution_context op = Some c') in Hc'. simplify_eq.
  pose proof (tool_execute_prepared b op c (adapter g) w1 Hfit Hp Hc) as Hx. cbv zeta in Hx.
  unfold Duration_is_zero in Hx.
  destruct (Z.eqb_spec (remaining_wall_time c (instant_at (instants_read w1))) 0) as [Hz|Hz].
  { left. rewrite Hx in He. by injection He as _ <- _. }
  destruct Hx as (h & Hh & Hx). rewrite Hx in He. unfold run_handler in He. rewrite Hh in He.
  unfold map_err in He. right. destruct Hp as (d & Hd & Htool & Hact & Hv).
  destruct (handler_execute_for_task c (op_arguments op) h _) as [[rh h'] w2] eqn:Hrun.
  exists rec, d, h, rh, h'. split_and!; try done.
  - unfold capability_request, ToolOperation_guarded. by rewrite Htool, Hact.
  - rewrite Hrun. destruct rh; by injection He as _ _ <-.
  - destruct rh; by injection He as _ <- _.
Qed.

End Confined.

(** C13: Tools run confined.  A request for the task [t] changes the adapter only by
    one run of the handler that was registered for the route of the requested
    operation, with its bounded arguments, in the execution context the supervisor
    gives for that task [t], while wall time remained, and only when the supervisor
    had allowed that operation's tool and action to [t].  Approving [id] changes it
    only by such a run of the operation the gate had retained for [id], in the
    context of the task it was retained for, after the supervisor consumed the grant
    of exactly that operation for exactly that task. *)
Theorem tools_run_confined `{EnvLaws} {HT} `{ToolHandlerLaws HT} {St} `{EventStoreLaws St} strict
    (b : ToolAdapterBuilder HT) g (s : TaskSupervisor St) w g' s' w' :
  builder_wf b -> reachable_facade (prepared b) strict (adapter (build b).2) g s w ->
  (forall t op ttl r, prepared b op ->
     ToolExecutionGate_request t op ttl (g, s) w = (r, (g', s'), w') ->
     adapter g' = adapter g
     \/ exists c w1, execution_context s t = Ok c
          /\ request_operation t (capability_request op) ttl s w = (Return Allowed, s', w1)
          /\ ran_confined b t c op w1 g s g' w')
  /\ (forall id r, ToolExecutionGate_approve_and_execute id (g, s) w = (r, (g', s'), w') ->
     adapter g' = adapter g
     \/ exists o pe c q s1 w0 receipt w1,
          approval_index g !! id = Some o /\ gate_pending g !! o = Some pe
          /\ op_execution_context (pe_operation pe) = Some c
          /\ approve_operation id s w = (Return q, s1, w0)
          /\ authorize_operation (pe_task_id pe) o (capability_request (pe_operation pe)) s1 w0
             = (Return receipt, s', w1)
          /\ ran_confined b (pe_task_id pe) c (pe_operation pe) w1 g s g' w').
Proof.
  intros Hb Hf.
  assert (Hfit : fits b (adapter g)).
  { eapply (facade_adapter (prepared b) (prepared_context b) (fits b)); [by apply fits_build | | done].
    intros op a w0 _. apply tool_execute_fits. }
  split.
  - intros t op ttl r Hp Hrun.
    pose proof (facade_request_ran (prepared b) (prepared_context b) _ _ _ _ _ _ _ _ _ _ _ _ Hf Hp Hrun) as Hr.
    assert (Hcase : adapter g' = adapter g \/ request_ran (prepared b) t op ttl g s w g' s' w')
      by (repeat case_match; auto).
    destruct Hcase as [?|(c & w1 & Hc & Hrq & Hran)]; [by left|].
    apply (ran_op_confined b t _ c w1 g s g' w' Hfit) in Hran as [?|Hran']; [by left | | done].
    right. by exists c, w1.
  - intros id r Hrun.
    pose proof (facade_approve_ran (prepared b) (prepared_context b) _ _ _ _ _ _ _ _ _ _ Hf Hrun) as Hr.
    assert (Hcase : adapter g' = adapter g \/ approval_ran (prepared b) id g s w g' s' w')
      by (repeat case_match; auto).
    destruct Hcase as [?|(o & pe & q & s1 & w0 & receipt & w1 & Hix & Hpe & Hap & Hau & Hran)]; [by left|].
    assert (Hc : exists c, op_execution_context (pe_operation pe) = Some c)
      by (destruct Hran as (_ & (_ & c & _ & Hc & _) & _); by exists c).
    destruct Hc as [c Hc].
    destruct (ran_op_confined b _ _ c w1 g s g' w' Hfit Hc Hran) as [?|Hran']; [by left|].
    right. by exists o, pe, c, q, s1, w0, receipt, w1.
Qed.

(** *** A concrete registration *)

(** A handler that keeps the arguments it was run with. *)
#[export] Instance recording_handler : ToolHandler (list (list string)) :=
  closure_handler (fun arguments calls w => (Return (mk_ToolOutput []), arguments :: calls, w)).

#[export] Instance recording_handler_laws : ToolHandlerLaws (list (list string)).
Proof. split; [done|]. intros c args h w out h' w' [= <- _ _]. by exists []. Qed.

Definition demo_builder : ToolAdapterBuilder (list (list string)) :=
  match register "run_tests" "test_runner" "run" [] ToolAdapterBuilder_default with
  | Ok b => b
  | Err _ => ToolAdapterBuilder_default
  end.

Lemma demo_builder_wf : builder_wf demo_builder.
Proof.
  apply (register_wf "run_tests" "test_runner" "run" [] ToolAdapterBuilder_default).
  - by apply (builder_new_wf DEFAULT_MAX_ROUTES).
  - vm_compute. reflexivity.
Qed.

Definition demo_tool_operation : ToolOperation :=
  mk_ToolOperation "run_tests" "test_runner" "run" ["--all"] None.

(** Two tasks run; the tool runs for the second one. *)
Definition second_task_spec : TaskSpec :=
  mk_TaskSpec "second-key" (goal example_task) (capabilities example_task)
    (budget example_task) (approval example_task).

Definition started_calls : list Call :=
  [CallSubmit example_task; CallStart demo_task; CallSubmit second_task_spec; CallStart (mk_TaskId 1)].

Definition demo_tool_request :=
  ToolExecutionGate_request (mk_TaskId 1) demo_tool_operation (Duration_from_secs 60)
    ((build demo_builder).2, (demo_run started_calls).1) (demo_run started_calls).2.

Lemma tools_run_confined_witness :
  let g := (build demo_builder).2 in
  let s := (demo_run started_calls).1 in
  let g' := demo_tool_request.1.2.1 in
  adapter_handlers (adapter g') !! "run_tests" = Some [["--all"]]
  /\ is_Some (tasks s !! demo_task)
  /\ exists c w1, execution_context s (mk_TaskId 1) = Ok c
       /\ ran_confined demo_builder (mk_TaskId 1) c demo_tool_operation w1 g s g' demo_tool_request.2.
Proof.
  intros g s g'. split; [vm_compute; reflexivity|]. split; [vm_compute; eexists; reflexivity|].
  assert (Hp : prepared demo_builder demo_tool_operation)
    by (apply (prepare_prepared demo_builder "run_tests" ["--all"]); vm_compute; reflexivity).
  assert (Hs : reachable true (demo_run started_calls).1 (demo_run started_calls).2)
    by (apply demo_reach; vm_compute; reflexivity).
  destruct (proj1 (tools_run_confined true demo_builder g (demo_run started_calls).1 (demo_run started_calls).2
    g' demo_tool_request.1.2.2 demo_tool_request.2 demo_builder_wf
    (facade_init (prepared demo_builder) true (adapter (build demo_builder).2) _ _ Hs))
    (mk_TaskId 1) demo_tool_operation (Duration_from_secs 60) demo_tool_request.1.1 Hp)
    as [Heq|(c & w1 & Hc & _ & Hran)].
  - vm_compute. reflexivity.
  - exfalso. assert (E : adapter_handlers (adapter g') !! "run_tests" = adapter_handlers (adapter g) !! "run_tests")
      by (rewrite Heq; reflexivity). vm_compute in E. discriminate.
  - exists c, w1. split; [exact Hc | exact Hran].
Defined.

(** ** The catalog *)

Definition total_bytes (arguments : list string) : Z := foldr (fun a n => str_len a + n) 0 arguments.

Lemma validate_argument_loop_Ok args : forall total,
  0 <= total <= MAX_TOTAL_ARGUMENT_BYTES ->
  validate_argument_loop args total = Ok tt <->
  Forall (fun a => str_len a <= MAX_ARGUMENT_BYTES /\ contains_char NUL a = false) args
  /\ total + total_bytes args <= MAX_TOTAL_ARGUMENT_BYTES.
Proof.
  induction args as [|a args IH]; intros total Ht; cbn [validate_argument_loop total_bytes foldr].
  { rewrite Z.add_0_r. split; [by split; [|lia] | done]. }
  assert (Hn : forall a, 0 <= str_len a) by (intros x; unfold str_len; lia).
  assert (Hr : 0 <= total_bytes args).
  { clear -Hn. induction args as [|x args IH]; cbn [total_bytes foldr]; [lia|]. specialize (Hn x).
    unfold total_bytes in IH. lia. }
  fold (total_bytes args). rewrite Forall_cons.
  destruct (Z.ltb_spec MAX_ARGUMENT_BYTES (str_len a)) as [Hlong|Hlen]; cbn [orb].
  { split; [done|]. intros [[[? _] _] _]. lia. }
  destruct (contains_char NUL a); [split; [done|]; by intros [[[_ ?] _] _]|].
  unfold checked_add. specialize (Hn a). unfold MAX_ARGUMENT_BYTES, MAX_TOTAL_ARGUMENT_BYTES, usize_max in *.
  rewrite (proj2 (Z.leb_le _ _)) by lia. cbn [ok_or res_bind].
  destruct (Z.ltb_spec (64 * 1024) (total + str_len a)); [split; [done|]; intros [_ ?]; lia|].
  rewrite IH by lia. rewrite Z.add_assoc. tauto.
Qed.

Lemma validate_arguments_Ok args :
  validate_arguments args = Ok tt <->
  len args <= MAX_ARGUMENTS
  /\ Forall (fun a => str_len a <= MAX_ARGUMENT_BYTES /\ contains_char NUL a = false) args
  /\ total_bytes args <= MAX_TOTAL_ARGUMENT_BYTES.
Proof.
  unfold validate_arguments. destruct (Z.ltb_spec MAX_ARGUMENTS (len args)).
  - split; [done|]. intros [? _]. lia.
  - rewrite validate_argument_loop_Ok by (unfold MAX_TOTAL_ARGUMENT_BYTES; lia). rewrite Z.add_0_l. tauto.
Qed.

(** The catalog is exact: an operation can be prepared precisely for a
    registered route with at most 64 arguments, none longer than 4096 bytes or
    with a NUL and at most 65536 bytes in all, and it is the route's own tool and
    action; and the routes shown for a set of granted tools are precisely those
    registered for one of them, each once. *)
Theorem tool_catalog_is_exact catalog route arguments tools :
  (forall op, prepare catalog route arguments = Ok op <->
     exists d, catalog_definitions catalog !! route = Some d
       /\ op = mk_ToolOperation route (capability_tool d) (route_action d) arguments None
       /\ len arguments <= MAX_ARGUMENTS
       /\ Forall (fun a => str_len a <= MAX_ARGUMENT_BYTES /\ contains_char NUL a = false) arguments
       /\ total_bytes arguments <= MAX_TOTAL_ARGUMENT_BYTES)
  /\ (route ∈ route_names_for_tools catalog tools <->
      exists d, catalog_definitions catalog !! route = Some d /\ capability_tool d ∈ tools)
  /\ NoDup (route_names_for_tools catalog tools).
Proof.
  split; [|split].
  - intros op. unfold prepare. destruct (catalog_definitions catalog !! route) as [d|]; simpl.
    2:{ split; [done | by intros (? & ? & _)]. }
    pose proof (validate_arguments_Ok arguments) as Hv.
    destruct (validate_arguments arguments) as [[]|e]; simpl.
    + split; [intros [= <-]; exists d; split_and!; try done; by apply Hv|].
      by intros (? & [= <-] & -> & _).
    + split; [done|]. intros (? & _ & _ & ?). by apply Hv in H.
  - unfold route_names_for_tools. rewrite list_elem_of_fmap. split.
    + intros ([r d] & -> & [Hd Hin]%list_elem_of_filter). exists d. by rewrite elem_of_btree_entries in Hin.
    + intros (d & Hd & Hin). exists (route, d). split; [done|]. apply list_elem_of_filter.
      by rewrite elem_of_btree_entries.
  - unfold route_names_for_tools. pose proof (btree_keys_NoDup (catalog_definitions catalog)) as Hnd.
    unfold btree_keys in Hnd. revert Hnd. generalize (btree_entries (catalog_definitions catalog)).
    intros l. induction l as [|[r d] l IH]; simpl; [done|]. intros [Hni Hnd]%NoDup_cons.
    rewrite filter_cons. case_decide; [|by apply IH]. simpl. apply NoDup_cons. split; [|by apply IH].
    intros (e & -> & [_ Hin]%list_elem_of_filter)%list_elem_of_fmap. apply Hni, list_elem_of_fmap. by exists e.
Qed.
