(* ===== verification/FilesystemAdapter.v ===== *)
(** * The Filesystem adapter (aios-adapter-filesystem: lib.rs)

    One operation: create a new regular file beneath a trusted root and write
    bounded bytes to it.  The kernel's file system is a parameter with the
    documented behaviour of [openat2], [write] and [fdatasync]; the checks, the
    flags passed and their order are the code's. *)

From stdpp Require Import base numbers list gmap strings.
From Stdlib Require Import ZArith Lia.
From S2P Require Import Prelude RustStd TaskState TaskSpec Policy Event Approval Supervisor Recovery.
From S2P Require Import SupervisorInv SupervisorFacts SupervisorOps RecoveryFacts SupervisorRun SupervisorProps ApprovalProps.
From S2P Require Import Execution ExecutionProps Facade.

Definition MAX_FILESYSTEM_PATH_BYTES : Z := 4096.
Definition MAX_CREATE_BYTES : Z := 1024 * 1024.

Inductive FilesystemAdapterError :=
| FsInvalidConfig
| FsInvalidOperation
| FsUnsupportedPlatform
| FsScopeMismatch
| FsBudgetExceeded
| FsCreateFailed
| FsWriteFailed.

#[export] Instance FilesystemAdapterError_eq_dec : EqDecision FilesystemAdapterError.
Proof. solve_decision. Defined.

Definition display_FilesystemAdapterError (e : FilesystemAdapterError) : string :=
  match e with
  | FsInvalidConfig => "invalid Filesystem Adapter configuration"
  | FsInvalidOperation => "invalid filesystem operation"
  | FsUnsupportedPlatform => "Filesystem Adapter is unsupported on this platform"
  | FsScopeMismatch => "filesystem operation scope does not match the Task"
  | FsBudgetExceeded => "filesystem operation exceeded the Task Budget"
  | FsCreateFailed => "filesystem create operation failed"
  | FsWriteFailed => "filesystem write operation failed"
  end.

Record FilesystemWriteOperation := mk_FilesystemWriteOperation {
  write_path : string;
  write_contents : list Z;
  write_execution_context : option TaskExecutionContext;
}.

#[export] Instance FilesystemWrite_guarded : GuardedOperation FilesystemWriteOperation :=
  fun op => FileRequest (write_path op) Write.

#[export] Instance FilesystemWrite_contextual : ContextualOperation FilesystemWriteOperation := {|
  with_context c op := mk_FilesystemWriteOperation (write_path op) (write_contents op) (Some c);
  operation_context := write_execution_context;
|}.

#[export] Instance FilesystemWrite_contextual_laws : ContextualLaws FilesystemWriteOperation.
Proof. by split. Qed.

Record FilesystemWriteReceipt := mk_FilesystemWriteReceipt { bytes_written : Z }.

(** ** Checks *)

Definition validate_write (path : string) (contents : list Z) : Result unit FilesystemAdapterError :=
  if (MAX_CREATE_BYTES <? len contents)
     || negb (starts_with_char SLASH path)
     || String.eqb path "/"
     || (MAX_FILESYSTEM_PATH_BYTES <? str_len path)
     || contains_char NUL path
     || negb (forallb is_normal_component (drop 1 (split SLASH path)))
  then Err FsInvalidOperation
  else Ok tt.

Definition prepare_create (path : string) (contents : list Z)
    : Result FilesystemWriteOperation FilesystemAdapterError :=
  do? validate_write path contents in
  Ok (mk_FilesystemWriteOperation path contents None).

(** ** The kernel *)

Inductive OFlag := O_WRONLY | O_CREATE | O_EXCL | O_CLOEXEC | O_PATH | O_DIRECTORY.
Inductive ResolveFlag := BENEATH | NO_MAGICLINKS | NO_SYMLINKS | NO_XDEV.

#[export] Instance OFlag_eq_dec : EqDecision OFlag.
Proof. solve_decision. Defined.
#[export] Instance ResolveFlag_eq_dec : EqDecision ResolveFlag.
Proof. solve_decision. Defined.

(** [None] is any error; its kind is dropped by the adapter. *)
Class Kernel (K Fd : Type) := {
  k_canonicalize : K -> string -> option string;
  k_open_slash : K -> option Fd;
  k_openat2 : Fd -> string -> list OFlag -> Z -> list ResolveFlag -> K -> option Fd * K;
  k_write_all : Fd -> list Z -> K -> option unit * K;
  k_sync_data : Fd -> K -> option unit * K;
}.

(** [Path == Path::new("/")] compares components: empty ones and dots do not count. *)
Definition path_is_root (path : string) : bool :=
  starts_with_char SLASH path
  && forallb (fun c => is_empty_str c || String.eqb c ".") (split SLASH path).

Section Adapter.
Context `{Env} {K Fd : Type} `{!Kernel K Fd}.

(** The adapter with the file system it acts on. *)
Record FilesystemAdapter := mk_FilesystemAdapter { root : Fd; host : K }.

Definition set_host (k : K) (a : FilesystemAdapter) : FilesystemAdapter := mk_FilesystemAdapter (root a) k.

(** [FilesystemAdapter::new] on Linux, that is [open_root]. *)
Definition open_root (path : string) (k : K) : Result FilesystemAdapter FilesystemAdapterError :=
  if negb (starts_with_char SLASH path) || (MAX_FILESYSTEM_PATH_BYTES <? str_len path)
     || path_is_root path
  then Err FsInvalidConfig
  else
    let? canonical := ok_or (k_canonicalize k path) FsInvalidConfig in
    if path_is_root canonical then Err FsInvalidConfig
    else
      let? relative := ok_or (strip_prefix "/" canonical) FsInvalidConfig in
      let? host_root := ok_or (k_open_slash k) FsInvalidConfig in
      match k_openat2 host_root relative [O_PATH; O_DIRECTORY; O_CLOEXEC] 0
              [BENEATH; NO_MAGICLINKS; NO_SYMLINKS] k with
      | (Some fd, k') => Ok (mk_FilesystemAdapter fd k')
      | (None, _) => Err FsInvalidConfig
      end.

Definition fs_require_remaining_budget (context : TaskExecutionContext)
    : M FilesystemAdapter FilesystemAdapterError unit :=
  let! now := Instant_now in
  if Duration_is_zero (remaining_wall_time context now) then throw FsBudgetExceeded else ret tt.

(** A system call whose error becomes [e]. *)
Definition system_call {B} (call : K -> option B * K) (e : FilesystemAdapterError)
    : M FilesystemAdapter FilesystemAdapterError B := fun a w =>
  match call (host a) with
  | (Some b, k') => (Return b, set_host k' a, w)
  | (None, k') => (Raise e, set_host k' a, w)
  end.

Definition create_new (operation : FilesystemWriteOperation)
    : M FilesystemAdapter FilesystemAdapterError FilesystemWriteReceipt :=
  let! context := lift (ok_or (write_execution_context operation) FsScopeMismatch) in
  do! fs_require_remaining_budget context in
  let! relative := lift (ok_or (strip_prefix "/" (write_path operation)) FsInvalidOperation) in
  let! dir := gets root in
  let! descriptor :=
    system_call (k_openat2 dir relative [O_WRONLY; O_CREATE; O_EXCL; O_CLOEXEC] 384
                   [BENEATH; NO_MAGICLINKS; NO_SYMLINKS; NO_XDEV]) FsCreateFailed in
  do! fs_require_remaining_budget context in
  do! system_call (k_write_all descriptor (write_contents operation)) FsWriteFailed in
  do! system_call (k_sync_data descriptor) FsWriteFailed in
  do! fs_require_remaining_budget context in
  ret (mk_FilesystemWriteReceipt (len (write_contents operation))).

Definition filesystem_execute (operation : FilesystemWriteOperation)
    : M FilesystemAdapter FilesystemAdapterError FilesystemWriteReceipt :=
  do! lift (validate_write (write_path operation) (write_contents operation)) in
  create_new operation.

#[export] Instance Filesystem_ExecutionAdapter
  : ExecutionAdapter FilesystemAdapter FilesystemWriteOperation FilesystemWriteReceipt
      FilesystemAdapterError := filesystem_execute.

End Adapter.

Arguments FilesystemAdapter : clear implicits.

(** ** The facade *)

Section Gate.
Context `{Env} {K Fd : Type} `{!Kernel K Fd} {S : Type} `{!EventStore S}.

Definition FilesystemExecutionGate_new (path : string) (k : K)
    : Result (ExecutionGate (FilesystemAdapter K Fd) FilesystemWriteOperation) FilesystemAdapterError :=
  let? a := open_root path k in
  Ok (ExecutionGate_new a).

Definition FilesystemExecutionGate_request (task_id : TaskId) (operation : FilesystemWriteOperation)
    (approval_ttl : Z)
    : M (ExecutionGate (FilesystemAdapter K Fd) FilesystemWriteOperation * TaskSupervisor S)
        (ExecutionError FilesystemAdapterError) (ExecutionOutcome FilesystemWriteReceipt) :=
  facade_request task_id operation approval_ttl.

Definition FilesystemExecutionGate_approve_and_execute (approval_id : ApprovalId)
    : M (ExecutionGate (FilesystemAdapter K Fd) FilesystemWriteOperation * TaskSupervisor S)
        (ExecutionError FilesystemAdapterError) (Executed FilesystemWriteReceipt) :=
  approve_and_execute approval_id.

Definition FilesystemExecutionGate_deny (approval_id : ApprovalId)
    : M (ExecutionGate (FilesystemAdapter K Fd) FilesystemWriteOperation * TaskSupervisor S)
        (ExecutionError FilesystemAdapterError) TaskSnapshot :=
  gate_deny approval_id.

Definition FilesystemExecutionGate_expire
    : M (ExecutionGate (FilesystemAdapter K Fd) FilesystemWriteOperation * TaskSupervisor S)
        (ExecutionError FilesystemAdapterError) Z :=
  gate_expire.

Definition FilesystemExecutionGate_cancel (task_id : TaskId)
    : M (ExecutionGate (FilesystemAdapter K Fd) FilesystemWriteOperation * TaskSupervisor S)
        (ExecutionError FilesystemAdapterError) bool :=
  gate_cancel task_id.

Definition FilesystemExecutionGate_pending_count (g : ExecutionGate (FilesystemAdapter K Fd) FilesystemWriteOperation) : Z := gate_pending_count g.

End Gate.

(** ** What the adapter relies on *)

(** Regular files by their path from the root of the file system.  Creating with
    [EXCL] beneath a directory, without following links, makes exactly one new
    empty file at that path or fails without a change; writing through a
    descriptor touches that file only; syncing touches none; an open directory stays
    where it is. *)
Class KernelLaws (K Fd : Type) `{Kernel K Fd} := {
  k_files : K -> gmap (list string) (list Z);
  k_path : K -> Fd -> list string;
  openat2_creates : forall dir relative flags mode resolve k r k',
    O_CREATE ∈ flags -> O_EXCL ∈ flags -> BENEATH ∈ resolve -> NO_SYMLINKS ∈ resolve ->
    Forall (fun c => is_normal_component c = true) (split SLASH relative) ->
    k_openat2 dir relative flags mode resolve k = (r, k') ->
    match r with
    | Some fd => k_path k' fd = k_path k dir ++ split SLASH relative
        /\ k_files k !! (k_path k dir ++ split SLASH relative) = None
        /\ k_files k' = <[k_path k dir ++ split SLASH relative := []]> (k_files k)
    | None => k_files k' = k_files k
    end;
  write_all_spec : forall fd bytes k r k', k_write_all fd bytes k = (r, k') ->
    (forall p, p <> k_path k fd -> k_files k' !! p = k_files k !! p)
    /\ (forall old, r = Some tt -> k_files k !! k_path k fd = Some old ->
          k_files k' !! k_path k fd = Some (old ++ bytes));
  sync_data_spec : forall fd k r k', k_sync_data fd k = (r, k') -> k_files k' = k_files k;
  openat2_keeps : forall dir relative flags mode resolve k r k',
    k_openat2 dir relative flags mode resolve k = (r, k') -> k_path k' dir = k_path k dir;
  write_all_keeps : forall fd bytes k r k' dir, k_write_all fd bytes k = (r, k') -> k_path k' dir = k_path k dir;
  sync_data_keeps : forall fd k r k' dir, k_sync_data fd k = (r, k') -> k_path k' dir = k_path k dir;
}.

Section Facts.
Context `{EnvLaws} {K Fd : Type} `{KernelLaws K Fd}.
Implicit Types a : FilesystemAdapter K Fd.

Lemma validate_write_Ok path contents :
  validate_write path contents = Ok tt <-> len contents <= MAX_CREATE_BYTES /\ valid_path path.
Proof.
  unfold validate_write. rewrite <-is_normalized_absolute_path_spec.
  unfold is_normalized_absolute_path, MAX_PATH_BYTES, MAX_FILESYSTEM_PATH_BYTES.
  rewrite !Z.ltb_antisym. destruct (starts_with_char SLASH path), (String.eqb path "/"),
    (str_len path <=? 4096), (contains_char NUL path), (forallb _ _);
    destruct (Z.leb_spec (len contents) MAX_CREATE_BYTES); simpl; split; try done; try lia;
    intros [? ?]; done || lia.
Qed.

Lemma strip_slash path : valid_path path ->
  exists relative, strip_prefix "/" path = Some relative /\ split SLASH relative = components path.
Proof. intros [[q ->] _ _ _]. exists q. split; [done|]. done. Qed.

(** Where an operation writes. *)
Definition target a (operation : FilesystemWriteOperation) : list string :=
  k_path (host a) (root a) ++ components (write_path operation).

(** What any run leaves: nothing but the target may differ, and the target only
    if it did not exist. *)
Definition touches_only a (t : list string) a' : Prop := root a' = root a
  /\ (forall p, p <> t -> k_files (host a') !! p = k_files (host a) !! p)
  /\ (is_Some (k_files (host a) !! t) -> k_files (host a') = k_files (host a)).

Lemma wp_fs_budget c a w (Q : outcome unit FilesystemAdapterError -> FilesystemAdapter K Fd -> World -> Prop) :
  (forall w', world_le w w' -> Q (Return tt) a w' /\ Q (Raise FsBudgetExceeded) a w') ->
  wp (fs_require_remaining_budget c) Q a w.
Proof.
  intros HQ. unfold fs_require_remaining_budget. wp_step. wp_step.
  destruct (Duration_is_zero _); wp_step; apply HQ; split; simpl; lia.
Qed.

Lemma wp_system_call {B} (call : K -> option B * K) e a w
    (Q : outcome B FilesystemAdapterError -> FilesystemAdapter K Fd -> World -> Prop) :
  (forall r k', call (host a) = (r, k') ->
     match r with
     | Some b => Q (Return b) (set_host k' a) w
     | None => Q (Raise e) (set_host k' a) w
     end) -> wp (system_call call e) Q a w.
Proof.
  intros HQ. unfold wp, system_call. destruct (call (host a)) as [[b|] k'] eqn:E;
    by specialize (HQ _ _ eq_refl).
Qed.

Definition wrote a op (r : outcome FilesystemWriteReceipt FilesystemAdapterError) a' : Prop :=
  touches_only a (target a op) a' /\
  match r with
  | Return receipt => k_files (host a) !! target a op = None
      /\ k_files (host a') !! target a op = Some (write_contents op)
      /\ bytes_written receipt = len (write_contents op)
  | Raise FsBudgetExceeded | Raise FsWriteFailed => True
  | Raise _ => k_files (host a') = k_files (host a)
  | Panic => False
  end.

Lemma wp_create_new op a w :
  valid_path (write_path op) ->
  wp (create_new op) (fun r a' w' => world_le w w' /\ wrote a op r a') a w.
Proof.
  intros Hp. unfold create_new. destruct (strip_slash _ Hp) as (relative & Hstrip & Hsplit).
  assert (Hsame : touches_only a (target a op) a) by done.
  wp_step. wp_step. destruct (write_execution_context op) as [c|]; cbn [ok_or]; [|done].
  wp_step. apply wp_fs_budget. intros w1 Hw1. split; [|done]. cbn beta iota.
  rewrite Hstrip. wp_step. wp_step. cbn [ok_or]. wp_step. wp_step. cbn beta iota.
  wp_step. apply wp_system_call. intros r k1 Hopen.
  eapply openat2_creates in Hopen; [|set_solver..|].
  2:{ rewrite Hsplit. apply Forall_forall. intros c' Hc. apply is_normal_component_spec.
      by apply (proj1 (Forall_forall _ _) (vp_components _ Hp)). }
  rewrite Hsplit in Hopen. fold (target a op) in Hopen.
  destruct r as [fd|].
  2:{ split; [done|]. split; [|exact Hopen]. split; [done|].
      split; [intros p _; simpl; by rewrite Hopen | intros _; exact Hopen]. }
  destruct Hopen as (Hfd & Hnew & Hfiles).
  assert (Hcreated : forall k, (forall p, p <> target a op -> k_files k !! p = k_files k1 !! p) ->
    touches_only a (target a op) (set_host k a)).
  { intros k Hk. split; [done|]. split; [|intros [? ?]; congruence]. intros p Hne. simpl.
    rewrite Hk by done. by rewrite Hfiles, lookup_insert_ne. }
  cbn beta iota. wp_step. apply wp_fs_budget. intros w2 Hw2. assert (world_le w w2) by by etrans.
  split; [|split; [done|]; split; [by apply Hcreated | done]]. cbn beta iota.
  wp_step. apply wp_system_call. intros r k2 Hwr. simpl in Hwr. apply write_all_spec in Hwr as [Hoth Hwr].
  rewrite Hfd in Hoth, Hwr. destruct r as [[]|]; [|split; [done|]; split; [by apply Hcreated | done]].
  cbn beta iota. wp_step. apply wp_system_call. intros r k3 Hsy. simpl in Hsy. apply sync_data_spec in Hsy.
  assert (Ht : touches_only a (target a op) (set_host k3 a)).
  { apply Hcreated. intros p Hne. by rewrite Hsy, Hoth. }
  destruct r as [[]|]; [|done]. cbn beta iota. wp_step. apply wp_fs_budget. intros w3 Hw3.
  assert (world_le w w3) by by etrans. split; [|done]. cbn beta iota. wp_step. split; [done|]. split; [done|].
  split_and!; [done | | done]. simpl. rewrite Hsy. apply (Hwr [] eq_refl).
  by rewrite Hfiles, lookup_insert_eq.
Qed.

(** The root directory stays where it is. *)
Lemma wp_create_new_root op a w :
  wp (create_new op) (fun _ a' _ => root a' = root a /\ k_path (host a') (root a) = k_path (host a) (root a)) a w.
Proof.
  unfold create_new. wp_step. wp_step. destruct (write_execution_context op) as [c|]; cbn [ok_or]; [|done].
  wp_step. apply wp_fs_budget. intros w1 _. split; [|done]. cbn beta iota. wp_step. wp_step.
  destruct (strip_prefix _ _) as [relative|]; cbn [ok_or]; [|done]. wp_step. wp_step. cbn beta iota.
  wp_step. apply wp_system_call. intros r k1 Hopen%openat2_keeps. destruct r as [fd|]; [|done].
  cbn beta iota. wp_step. apply wp_fs_budget. intros w2 _. split; [|done]. cbn beta iota.
  wp_step. apply wp_system_call. intros r k2 Hwr. simpl in Hwr.
  apply (write_all_keeps _ _ _ _ _ (root a)) in Hwr. destruct r as [[]|]; [|split; [done | simpl; congruence]].
  cbn beta iota. wp_step. apply wp_system_call. intros r k3 Hsy. simpl in Hsy.
  apply (sync_data_keeps _ _ _ _ (root a)) in Hsy. destruct r as [[]|]; [|split; [done | simpl; congruence]].
  cbn beta iota. wp_step. apply wp_fs_budget. intros w3 _. split; [wp_step|]; (split; [done | simpl; congruence]).
Qed.

(** What any run leaves, and that it was of a well-formed operation if it left
    anything. *)
Lemma wp_filesystem_execute op a w :
  wp (filesystem_execute op) (fun _ a' _ => root a' = root a /\ k_path (host a') (root a) = k_path (host a) (root a)
    /\ (a' = a \/ touches_only a (target a op) a')) a w.
Proof.
  unfold filesystem_execute. wp_step. wp_step. destruct (validate_write _ _) as [[]|] eqn:Hv; [|by split_and!; [| |left]].
  apply validate_write_Ok in Hv as [_ Hp].
  pose proof (wp_and _ _ _ _ _ (wp_create_new op a w Hp) (wp_create_new_root op a w)) as Hwp.
  eapply wp_mono; [exact Hwp|]. intros r a' w' [(_ & Ht & _) [Hr Hk]]. split_and!; [done | done | by right].
Qed.

#[export] Instance Filesystem_AdapterLaws
  : AdapterLaws (FilesystemAdapter K Fd) FilesystemWriteOperation FilesystemWriteReceipt FilesystemAdapterError.
Proof.
  intros op a w. change (world_le w (filesystem_execute op a w).2).
  assert (Hwp : wp (filesystem_execute op) (fun _ _ w' => world_le w w') a w);
    [|unfold wp in Hwp; by destruct (filesystem_execute op a w) as [[? ?] ?]].
  unfold filesystem_execute. wp_step. wp_step.
  destruct (validate_write _ _) as [[]|] eqn:Hv; [|done]. apply validate_write_Ok in Hv as [_ Hp].
  eapply wp_mono; [by apply wp_create_new|]. by intros r a' w' [? _].
Qed.

End Facts.

(** ** Properties *)

(** C14: A filesystem write is confined, never overwrites and is exact: whatever
    the operation and however the kernel fails, no file but the one at the
    operation's path below the adapter's root can differ afterwards, and not even
    that one if it existed; a receipt means that the file was new, holds exactly
    the contents, and counts them; and when a task's policy did not deny the
    request, the file lies below a directory the task may write. *)
Theorem filesystem_writes_are_confined `{EnvLaws} {K Fd} `{KernelLaws K Fd} op (a : FilesystemAdapter K Fd)
    w r a' w' :
  filesystem_execute op a w = (r, a', w') ->
  root a' = root a
  /\ (forall p, p <> target a op -> k_files (host a') !! p = k_files (host a) !! p)
  /\ (is_Some (k_files (host a) !! target a op) -> k_files (host a') = k_files (host a))
  /\ match r with
     | Return receipt => len (write_contents op) <= MAX_CREATE_BYTES
         /\ k_files (host a) !! target a op = None
         /\ k_files (host a') !! target a op = Some (write_contents op)
         /\ bytes_written receipt = len (write_contents op)
     | Raise FsBudgetExceeded | Raise FsWriteFailed => True
     | Raise _ => k_files (host a') = k_files (host a)
     | Panic => False
     end
  /\ forall t p, from_task t = Ok p ->
       evaluate p (capability_request op) = Allow \/ evaluate p (capability_request op) = ApprovalRequired ->
       exists k, k ∈ filesystem (capabilities t) /\ access k = Write
         /\ (k_path (host a) (root a) ++ components (path k)) `prefix_of` target a op.
Proof.
  intros Hrun.
  assert (Hpol : forall t p, from_task t = Ok p ->
    evaluate p (capability_request op) = Allow \/ evaluate p (capability_request op) = ApprovalRequired ->
    exists k, k ∈ filesystem (capabilities t) /\ access k = Write
      /\ (k_path (host a) (root a) ++ components (path k)) `prefix_of` target a op).
  { intros t p Hf Hd. destruct (file_granted t p _ Write Hf Hd) as (_ & _ & k & Hk & Ha & Hpre).
    exists k. split_and!; [done | done | unfold target; by apply prefix_app]. }
  unfold filesystem_execute, bind, lift in Hrun.
  destruct (validate_write _ _) as [[]|e] eqn:Hv.
  - apply validate_write_Ok in Hv as [Hlen Hp]. simpl in Hrun.
    pose proof (wp_create_new op a w Hp) as Hwp. unfold wp in Hwp. rewrite Hrun in Hwp.
    destruct Hwp as (_ & (Hroot & Hoth & Hex) & Hr). split_and!; try done. by destruct r as [|[]|].
  - assert (e = FsInvalidOperation) as ->.
    { unfold validate_write in Hv. match type of Hv with (if ?b then _ else _) = _ => destruct b end; congruence. }
    simpl in Hrun. injection Hrun as <- <- <-. by split_and!.
Qed.

(** A concrete kernel: descriptors are paths. *)
#[export] Instance demo_kernel : Kernel (gmap (list string) (list Z)) (list string) := {|
  k_canonicalize _ p := Some p;
  k_open_slash _ := Some [];
  k_openat2 dir relative flags _ _ k :=
    let p := dir ++ split SLASH relative in
    if bool_decide (O_CREATE ∈ flags) then
      match k !! p with Some _ => (None, k) | None => (Some p, <[p := []]> k) end
    else (Some p, k);
  k_write_all fd bytes k :=
    match k !! fd with Some old => (Some tt, <[fd := old ++ bytes]> k) | None => (None, k) end;
  k_sync_data _ k := (Some tt, k);
|}.

#[export, refine] Instance demo_kernel_laws : KernelLaws (gmap (list string) (list Z)) (list string) := {|
  k_files k := k; k_path _ fd := fd |}.
Proof.
  - intros dir relative flags mode resolve k r k' Hc _ _ _ _. simpl.
    rewrite (bool_decide_eq_true_2 _ Hc). destruct (k !! _) eqn:E; intros [= <- <-]; by rewrite ?E.
  - intros fd bytes k r k'. simpl. destruct (k !! fd) as [old|] eqn:E; intros [= <- <-].
    + split; [intros p Hp; by rewrite lookup_insert_ne|]. intros old' _ Hold. rewrite lookup_insert_eq. congruence.
    + split; [done|]. intros old _ Hold. congruence.
  - by intros fd k r k' [= <- <-].
  - done.
  - done.
  - done.
Defined.

Definition demo_context : TaskExecutionContext :=
  mk_TaskExecutionContext demo_task (mk_Budget 60 1 0) [] 0.

Definition demo_filesystem : FilesystemAdapter (gmap (list string) (list Z)) (list string) :=
  mk_FilesystemAdapter ["srv"] {[ ["srv"; "old"] := [7] ]}.

Definition demo_write : FilesystemWriteOperation :=
  mk_FilesystemWriteOperation "/new" [1; 2; 3] (Some demo_context).

Lemma filesystem_writes_are_confined_witness :
  let run := filesystem_execute demo_write demo_filesystem world0 in
  run.1.1 = Return (mk_FilesystemWriteReceipt 3)
  /\ k_files (host run.1.2) !! ["srv"; "new"] = Some [1; 2; 3]
  /\ k_files (host run.1.2) !! ["srv"; "old"] = Some [7].
Proof.
  intros run. split; [vm_compute; reflexivity|].
  destruct (filesystem_writes_are_confined demo_write demo_filesystem world0
    (Return (mk_FilesystemWriteReceipt 3)) run.1.2 run.2) as (_ & Hoth & _ & (_ & _ & Hnew & _) & _);
    [vm_compute; reflexivity|].
  split; [exact Hnew|]. rewrite Hoth; [vm_compute; reflexivity | vm_compute; discriminate].
Defined.
