(* ===== verification/FilesystemAudit.v ===== *)
(** * Filesystem writes on the record

    A filesystem gate, its adapter and the supervisor's audit log, put together: the
    files that exist after any run are compared with those the adapter found, with the
    permits on the log and with the contracts of the tasks. *)

From stdpp Require Import base numbers list gmap strings.
From Stdlib Require Import ZArith Lia.
From S2P Require Import Prelude RustStd TaskState TaskSpec Policy Event Approval Supervisor Recovery.
From S2P Require Import SupervisorInv SupervisorFacts SupervisorOps SupervisorRun SupervisorProps.
From S2P Require Import Execution ExecutionProps Facade Accounting FilesystemAdapter.

(** Maps that differ at one key only. *)
Lemma size_one_key {V} (m m' : gmap (list string) V) k :
  (forall p, p <> k -> m' !! p = m !! p) -> (size m' <= S (size m))%nat.
Proof.
  intros Hm. assert (E : delete k m' = delete k m).
  { apply map_eq. intros p. rewrite !lookup_delete. case_decide; [done | by apply Hm]. }
  pose proof (map_size_delete k m') as H1. pose proof (map_size_delete k m) as H2. rewrite E in H1.
  destruct (m' !! k), (m !! k); simpl in *; lia.
Qed.

Section Audit.
Context `{EnvLaws} {K Fd St : Type} `{KernelLaws K Fd} `{EventStoreLaws St}.
Implicit Types (a x : FilesystemAdapter K Fd) (s : TaskSupervisor St).

(** The path lies below a directory that a contract the supervisor holds lets its
    task write, seen from the directory [base]. *)
Definition writable_in_contract s (base p : list string) : Prop := exists t rec k,
  tasks s !! t = Some rec /\ k ∈ filesystem (capabilities (spec rec)) /\ access k = Write
  /\ (base ++ components (path k)) `prefix_of` p.

Lemma writable_in_contract_evolves strict s s' base p :
  evolves strict s s' -> writable_in_contract s base p -> writable_in_contract s' base p.
Proof.
  intros He (t & rec & k & Hrec & ?). destruct (He t rec Hrec) as (rec' & Hrec' & [Hsp _ _]).
  exists t, rec', k. by rewrite Hsp.
Qed.

Definition base_of a : list string := k_path (host a) (root a).

(** Since the adapter was [a]. *)
Record files_permitted a x s : Prop := {
  fp_root : base_of x = base_of a;
  fp_kept : forall p contents, k_files (host a) !! p = Some contents -> k_files (host x) !! p = Some contents;
  fp_count : (size (k_files (host x)) <= size (k_files (host a)) + all_permits s)%nat;
  fp_below : forall p, is_Some (k_files (host x) !! p) ->
    is_Some (k_files (host a) !! p) \/ writable_in_contract s (base_of a) p;
}.

Lemma files_permitted_advances strict a x s s' :
  advances strict s s' -> files_permitted a x s -> files_permitted a x s'.
Proof.
  intros Hadv [Hr Hk Hc Hb]. split; [done | done | |].
  - pose proof (all_permits_advances strict s s' Hadv). lia.
  - intros p [?|?]%Hb; [by left | right]. eapply (writable_in_contract_evolves strict); [apply Hadv | done].
Qed.

Lemma files_permitted_run strict a x s s' t op w1 rx x' w' :
  carries s t op -> execute op x w1 = (rx, x', w') -> advances strict s s' ->
  permitted s s' t (capability_request op) -> files_permitted a x s -> files_permitted a x' s'.
Proof.
  intros (rec & c & Hrec & _) He Hadv [Hp (rec' & Hrec' & k & Hk & Hacc & Hpre)] Hfp.
  destruct (wp_run _ _ _ _ _ _ _ (wp_filesystem_execute op x w1) He) as (Hroot & Hpath & Hx).
  assert (Hbase : base_of x' = base_of x) by (unfold base_of; by rewrite Hroot).
  pose proof (all_permits_permit strict s s' t Hadv (mk_is_Some _ _ Hrec) Hp) as Hall.
  pose proof (files_permitted_advances strict a x s s' Hadv Hfp) as Hfp'.
  destruct Hx as [->|(_ & Hoth & Hex)]; [done|]. destruct Hfp' as [Hr Hkept _ Hbelow]. split.
  - congruence.
  - intros p contents Hc%Hkept. destruct (decide (p = target x op)) as [->|Hne]; [|by rewrite Hoth].
    by rewrite Hex by (by eexists).
  - pose proof (size_one_key _ _ _ Hoth). pose proof (fp_count _ _ _ Hfp). lia.
  - intros p Hin. destruct (decide (p = target x op)) as [->|Hne]; [|rewrite Hoth in Hin by done; by apply Hbelow].
    right. exists t, rec', k. split_and!; [done | done | done|]. rewrite <-Hr. by apply prefix_app.
Qed.

Lemma gate_files_permitted strict a g s w :
  reachable_facade (fun _ => True) strict a g s w -> files_permitted a (adapter g) s.
Proof.
  apply (facade_accounts (fun _ => True) (fun _ _ _ => I) (files_permitted a)).
  - intros s0. split; [done | done | lia | auto].
  - intros x s1 s2 Hfp Hadv. by eapply files_permitted_advances.
  - intros g1 s1 g2 s2 w2 Hfp (t & op & w1 & rx & _ & Hc & He & Hadv & Hp). by eapply files_permitted_run.
Qed.

End Audit.

(** C5: Files appear only on the record.  Along every run of a filesystem gate, with
    whatever operations and other calls on its supervisor: every file the adapter found
    still has its contents; every file that is new lies, from the adapter's root, below
    a directory that the contract of a task held by the supervisor lets it write; and
    the new files are at most as many as the permits on the audit logs of the tasks
    (operations allowed, and approvals consumed). *)
Theorem gates_create_only_permitted_files `{EnvLaws} {K Fd St} `{KernelLaws K Fd} `{EventStoreLaws St} strict
    (a : FilesystemAdapter K Fd) g (s : TaskSupervisor St) w :
  reachable_facade (fun _ => True) strict a g s w ->
  (forall p contents, k_files (host a) !! p = Some contents -> k_files (host (adapter g)) !! p = Some contents)
  /\ (forall p, is_Some (k_files (host (adapter g)) !! p) ->
        is_Some (k_files (host a) !! p) \/ writable_in_contract s (base_of a) p)
  /\ (size (k_files (host (adapter g))) <= size (k_files (host a)) + all_permits s)%nat.
Proof. intros Hf. by destruct (gate_files_permitted strict a g s w Hf). Qed.

(** *** A run that creates a file *)

Definition writing_task : TaskSpec :=
  mk_TaskSpec "write" "Write the report" (mk_CapabilitySet [mk_FileCapability "/out" Write] DenyNetwork [])
    (mk_Budget 60 67108864 2) (mk_ApprovalPolicy []).

Definition writing_calls : list Call := [CallSubmit writing_task; CallStart demo_task].

Definition writing_gate := ExecutionGate_new (O := FilesystemWriteOperation) demo_filesystem.

Definition written :=
  FilesystemExecutionGate_request demo_task (mk_FilesystemWriteOperation "/out/report" [1; 2] None) (Duration_from_secs 60)
    (writing_gate, (demo_run writing_calls).1) (demo_run writing_calls).2.

Lemma gates_create_only_permitted_files_witness :
  k_files (host (adapter written.1.2.1)) !! ["srv"; "out"; "report"] = Some [1; 2]
  /\ k_files (host (adapter written.1.2.1)) !! ["srv"; "old"] = Some [7]
  /\ writable_in_contract written.1.2.2 ["srv"] ["srv"; "out"; "report"].
Proof.
  assert (Hs : reachable true (demo_run writing_calls).1 (demo_run writing_calls).2)
    by (apply demo_reach; vm_compute; reflexivity).
  assert (Hf : reachable_facade (fun _ => True) true demo_filesystem written.1.2.1 written.1.2.2 written.2).
  { eapply (facade_requested (fun _ => True) true demo_filesystem writing_gate (demo_run writing_calls).1
      (demo_run writing_calls).2 demo_task (mk_FilesystemWriteOperation "/out/report" [1; 2] None) (Duration_from_secs 60)
      written.1.1); [exact (facade_init _ _ _ _ _ Hs) | exact I | vm_compute; reflexivity]. }
  destruct (gates_create_only_permitted_files true demo_filesystem written.1.2.1 written.1.2.2 written.2 Hf)
    as (Hkept & Hnew & _).
  split; [vm_compute; reflexivity|]. split; [apply Hkept; reflexivity|].
  destruct (Hnew ["srv"; "out"; "report"]) as [[c Hc]|Hw]; [vm_compute; eexists; reflexivity | discriminate Hc | exact Hw].
Defined.
