(* ===== verification/NetworkAdapter.v ===== *)
(** * The Network adapter (aios-adapter-network: lib.rs)

    One operation: connect to one explicit IP address and TCP port, write bounded
    bytes, close the write half, read a bounded response.  Sockets are a parameter
    with the documented behaviour of [TcpStream]; the checks, the deadlines and the
    two transfer loops are the code's. *)

From stdpp Require Import base numbers list gmap strings.
From Stdlib Require Import ZArith Lia.
From S2P Require Import Prelude RustStd RustNet TaskState TaskSpec Policy Event Approval Supervisor.
From S2P Require Import Recovery SupervisorInv SupervisorFacts SupervisorOps RecoveryFacts SupervisorRun SupervisorProps.
From S2P Require Import ApprovalProps Execution ExecutionProps Facade.

Definition MAX_NETWORK_HOST_BYTES : Z := 253.
Definition MAX_TCP_REQUEST_BYTES : Z := 64 * 1024.
Definition MAX_TCP_RESPONSE_BYTES : Z := 1024 * 1024.
Definition MAX_NETWORK_TIMEOUT : Z := Duration_from_secs 30.
Definition READ_BUFFER_BYTES : Z := 8 * 1024.

Inductive NetworkAdapterError :=
| NetInvalidConfig
| NetInvalidOperation
| NetUnsupportedDestination
| NetScopeMismatch
| NetBudgetExceeded
| NetConnectFailed
| NetSocketConfigurationFailed
| NetPeerMismatch
| NetWriteFailed
| NetReadFailed
| NetResponseTooLarge.

#[export] Instance NetworkAdapterError_eq_dec : EqDecision NetworkAdapterError.
Proof. solve_decision. Defined.

Definition display_NetworkAdapterError (e : NetworkAdapterError) : string :=
  match e with
  | NetInvalidConfig => "invalid Network Adapter configuration"
  | NetInvalidOperation => "invalid network operation"
  | NetUnsupportedDestination => "network destination is unsupported"
  | NetScopeMismatch => "network operation scope does not match the Task"
  | NetBudgetExceeded => "network operation exceeded the Task Budget"
  | NetConnectFailed => "network connection failed"
  | NetSocketConfigurationFailed => "network socket configuration failed"
  | NetPeerMismatch => "network peer verification failed"
  | NetWriteFailed => "network write failed"
  | NetReadFailed => "network read failed"
  | NetResponseTooLarge => "network response exceeded its limit"
  end.

Record TcpExchangeOperation := mk_TcpExchangeOperation {
  tcp_host : string;
  tcp_port : Z;
  tcp_request : list Z;
  tcp_execution_context : option TaskExecutionContext;
}.

#[export] Instance TcpExchange_guarded : GuardedOperation TcpExchangeOperation :=
  fun op => NetworkRequest (tcp_host op) Tcp (tcp_port op).

#[export] Instance TcpExchange_contextual : ContextualOperation TcpExchangeOperation := {|
  with_context c op := mk_TcpExchangeOperation (tcp_host op) (tcp_port op) (tcp_request op) (Some c);
  operation_context := tcp_execution_context;
|}.

#[export] Instance TcpExchange_contextual_laws : ContextualLaws TcpExchangeOperation.
Proof. by split. Qed.

Record TcpExchangeResponse := mk_TcpExchangeResponse { response_bytes : list Z }.

Record SocketAddr := mk_SocketAddr { socket_ip : IpAddr; socket_port : Z }.

#[export] Instance SocketAddr_eq_dec : EqDecision SocketAddr.
Proof. solve_decision. Defined.

(** ** Checks *)

Definition validate_exchange (host : string) (port : Z) (request : list Z)
    : Result IpAddr NetworkAdapterError :=
  if is_empty_str host || (MAX_NETWORK_HOST_BYTES <? str_len host) || (port =? 0)
     || (MAX_TCP_REQUEST_BYTES <? len request)
  then Err NetInvalidOperation
  else
    let? ip := ok_or (parse_IpAddr host) NetUnsupportedDestination in
    if ip_is_unspecified ip || ip_is_multicast ip || bool_decide (ip = ip_BROADCAST)
    then Err NetUnsupportedDestination
    else Ok ip.

Definition prepare_tcp_exchange (host : string) (port : Z) (request : list Z)
    : Result TcpExchangeOperation NetworkAdapterError :=
  do? validate_exchange host port request in
  Ok (mk_TcpExchangeOperation host port request None).

(** ** Sockets *)

Class Sockets (N Sk : Type) := {
  s_connect_timeout : SocketAddr -> Z -> N -> option Sk * N;
  s_peer_addr : Sk -> N -> option SocketAddr;
  s_set_write_timeout : Sk -> Z -> N -> option unit * N;
  s_set_read_timeout : Sk -> Z -> N -> option unit * N;
  s_write : Sk -> list Z -> N -> option Z * N;
  s_shutdown_write : Sk -> N -> option unit * N;
  (** at most the given number of bytes; none is the end of the stream *)
  s_read : Sk -> Z -> N -> option (list Z) * N;
}.

Section Adapter.
Context `{Env} {N Sk : Type} `{!Sockets N Sk}.

(** The adapter with the network it acts on. *)
Record NetworkAdapter := mk_NetworkAdapter { timeout : Z; net : N }.

Abbreviation Net := (M NetworkAdapter NetworkAdapterError).

Definition set_net (n : N) (a : NetworkAdapter) : NetworkAdapter := mk_NetworkAdapter (timeout a) n.

Definition NetworkAdapter_new (timeout : Z) (n : N) : Result NetworkAdapter NetworkAdapterError :=
  if Duration_is_zero timeout || (MAX_NETWORK_TIMEOUT <? timeout) then Err NetInvalidConfig
  else Ok (mk_NetworkAdapter timeout n).

Definition effective_timeout (context : TaskExecutionContext) (configured_timeout : Z) : Net Z :=
  let! now := Instant_now in
  let remaining := remaining_wall_time context now in
  if Duration_is_zero remaining then throw NetBudgetExceeded
  else ret (Z.min remaining configured_timeout).

Definition net_require_remaining_budget (context : TaskExecutionContext) : Net unit :=
  do! effective_timeout context MAX_NETWORK_TIMEOUT in ret tt.

Definition io_failure (context : TaskExecutionContext) (fallback : NetworkAdapterError)
    : Net NetworkAdapterError :=
  let! now := Instant_now in
  ret (if Duration_is_zero (remaining_wall_time context now) then NetBudgetExceeded else fallback).

(** [call.map_err(|_| io_failure(context, fallback))?] *)
Definition socket_call {B} (context : TaskExecutionContext) (fallback : NetworkAdapterError)
    (call : N -> option B * N) : Net B :=
  let! answer := (fun a w => let '(r, n') := call (net a) in (Return r, set_net n' a, w)) in
  match answer with
  | Some b => ret b
  | None => let! e := io_failure context fallback in throw e
  end.

(** [rest] is [request[offset..]]; the loop ends when it is empty.  Every turn
    writes at least one byte, so as many turns as bytes are enough. *)
Fixpoint write_loop (fuel : nat) (stream : Sk) (rest : list Z) (context : TaskExecutionContext)
    (configured_timeout : Z) (installed_timeout : option Z) : Net unit :=
  match rest, fuel with
  | [], _ => ret tt
  | _ :: _, O => panic
  | _ :: _, Datatypes.S fuel' =>
      let! timeout := effective_timeout context configured_timeout in
      do! (if bool_decide (installed_timeout <> Some timeout)
           then socket_call context NetSocketConfigurationFailed (s_set_write_timeout stream timeout)
           else ret tt) in
      let! written := socket_call context NetWriteFailed (s_write stream rest) in
      if written =? 0 then throw NetWriteFailed
      else write_loop fuel' stream (drop (Z.to_nat written) rest) context configured_timeout (Some timeout)
  end.

Definition write_request (stream : Sk) (request : list Z) (context : TaskExecutionContext)
    (configured_timeout : Z) : Net unit :=
  write_loop (length request) stream request context configured_timeout None.

(** Every turn but the last reads at least one byte and stops above the limit,
    so one turn more than the limit and the byte above it is enough. *)
Fixpoint read_loop (fuel : nat) (stream : Sk) (bytes : list Z) (context : TaskExecutionContext)
    (configured_timeout : Z) (installed_timeout : option Z) : Net (list Z) :=
  match fuel with
  | O => panic
  | Datatypes.S fuel' =>
      let! timeout := effective_timeout context configured_timeout in
      do! (if bool_decide (installed_timeout <> Some timeout)
           then socket_call context NetSocketConfigurationFailed (s_set_read_timeout stream timeout)
           else ret tt) in
      let remaining_capacity := MAX_TCP_RESPONSE_BYTES + 1 - len bytes in
      let read_limit := Z.min remaining_capacity READ_BUFFER_BYTES in
      let! read := socket_call context NetReadFailed (s_read stream read_limit) in
      if len read =? 0 then
        do! net_require_remaining_budget context in
        ret bytes
      else if MAX_TCP_RESPONSE_BYTES <? len (bytes ++ read) then throw NetResponseTooLarge
      else read_loop fuel' stream (bytes ++ read) context configured_timeout (Some timeout)
  end.

Definition read_response (stream : Sk) (context : TaskExecutionContext) (configured_timeout : Z)
    : Net (list Z) :=
  read_loop (Z.to_nat (MAX_TCP_RESPONSE_BYTES + 2)) stream [] context configured_timeout None.

Definition network_execute (operation : TcpExchangeOperation) : Net TcpExchangeResponse :=
  let! ip := lift (validate_exchange (tcp_host operation) (tcp_port operation) (tcp_request operation)) in
  let! context := lift (ok_or (tcp_execution_context operation) NetScopeMismatch) in
  let destination := mk_SocketAddr ip (tcp_port operation) in
  let! configured := gets timeout in
  let! connect_timeout := effective_timeout context configured in
  let! stream := socket_call context NetConnectFailed (s_connect_timeout destination connect_timeout) in
  do! net_require_remaining_budget context in
  let! peer := gets (fun a => s_peer_addr stream (net a)) in
  let! peer_addr := lift (ok_or peer NetPeerMismatch) in
  if negb (bool_decide (peer_addr = destination)) then throw NetPeerMismatch
  else
    do! write_request stream (tcp_request operation) context configured in
    do! net_require_remaining_budget context in
    do! socket_call context NetWriteFailed (s_shutdown_write stream) in
    let! bytes := read_response stream context configured in
    ret (mk_TcpExchangeResponse bytes).

#[export] Instance Network_ExecutionAdapter
  : ExecutionAdapter NetworkAdapter TcpExchangeOperation TcpExchangeResponse NetworkAdapterError :=
  network_execute.

End Adapter.

Arguments NetworkAdapter : clear implicits.

(** ** The facade *)

Section Gate.
Context `{Env} {N Sk : Type} `{!Sockets N Sk} {S : Type} `{!EventStore S}.

Definition NetworkExecutionGate_new (timeout : Z) (n : N)
    : Result (ExecutionGate (NetworkAdapter N) TcpExchangeOperation) NetworkAdapterError :=
  let? a := NetworkAdapter_new timeout n in
  Ok (ExecutionGate_new a).

Definition NetworkExecutionGate_request (task_id : TaskId) (operation : TcpExchangeOperation)
    (approval_ttl : Z)
    : M (ExecutionGate (NetworkAdapter N) TcpExchangeOperation * TaskSupervisor S)
        (ExecutionError NetworkAdapterError) (ExecutionOutcome TcpExchangeResponse) :=
  facade_request task_id operation approval_ttl.

Definition NetworkExecutionGate_approve_and_execute (approval_id : ApprovalId)
    : M (ExecutionGate (NetworkAdapter N) TcpExchangeOperation * TaskSupervisor S)
        (ExecutionError NetworkAdapterError) (Executed TcpExchangeResponse) :=
  approve_and_execute approval_id.

Definition NetworkExecutionGate_deny (approval_id : ApprovalId)
    : M (ExecutionGate (NetworkAdapter N) TcpExchangeOperation * TaskSupervisor S)
        (ExecutionError NetworkAdapterError) TaskSnapshot :=
  gate_deny approval_id.

Definition NetworkExecutionGate_expire
    : M (ExecutionGate (NetworkAdapter N) TcpExchangeOperation * TaskSupervisor S)
        (ExecutionError NetworkAdapterError) Z :=
  gate_expire.

Definition NetworkExecutionGate_cancel (task_id : TaskId)
    : M (ExecutionGate (NetworkAdapter N) TcpExchangeOperation * TaskSupervisor S)
        (ExecutionError NetworkAdapterError) bool :=
  gate_cancel task_id.

Definition NetworkExecutionGate_pending_count (g : ExecutionGate (NetworkAdapter N) TcpExchangeOperation) : Z := gate_pending_count g.

End Gate.

(** ** What the adapter relies on *)

(** The addresses contacted and the bytes put on the wire, in order: connecting
    contacts the address it is given, a write sends the prefix it reports and
    nothing on an error, the other calls send nothing. *)
Class SocketsLaws (N Sk : Type) `{Sockets N Sk} := {
  s_contacted : N -> list SocketAddr;
  s_wire : N -> list Z;
  connect_spec : forall address t n r n', s_connect_timeout address t n = (r, n') ->
    s_contacted n' = s_contacted n ++ [address] /\ s_wire n' = s_wire n;
  write_timeout_spec : forall sk t n r n', s_set_write_timeout sk t n = (r, n') ->
    s_contacted n' = s_contacted n /\ s_wire n' = s_wire n;
  read_timeout_spec : forall sk t n r n', s_set_read_timeout sk t n = (r, n') ->
    s_contacted n' = s_contacted n /\ s_wire n' = s_wire n;
  write_spec : forall sk bytes n r n', s_write sk bytes n = (r, n') ->
    s_contacted n' = s_contacted n /\
    match r with
    | Some k => 0 <= k <= len bytes /\ s_wire n' = s_wire n ++ take (Z.to_nat k) bytes
    | None => s_wire n' = s_wire n
    end;
  shutdown_spec : forall sk n r n', s_shutdown_write sk n = (r, n') ->
    s_contacted n' = s_contacted n /\ s_wire n' = s_wire n;
  read_spec : forall sk limit n r n', s_read sk limit n = (r, n') ->
    s_contacted n' = s_contacted n /\ s_wire n' = s_wire n;
}.

Section Facts.
Context `{EnvLaws} {N Sk : Type} `{SocketsLaws N Sk}.
Implicit Types a : NetworkAdapter N.

Lemma validate_exchange_Ok host port request ip :
  validate_exchange host port request = Ok ip ->
  parse_IpAddr host = Some ip /\ port <> 0 /\ len request <= MAX_TCP_REQUEST_BYTES
  /\ ip_is_unspecified ip = false /\ ip_is_multicast ip = false /\ ip <> ip_BROADCAST.
Proof.
  unfold validate_exchange. destruct (_ || _) eqn:E; [done|]. bool_prop.
  destruct (parse_IpAddr host) as [ip'|]; simpl; [|done]. destruct (_ || _) eqn:F; [done|].
  rewrite !orb_false_iff, bool_decide_eq_false in F. intros [= <-].
  split_and!; [done | lia | lia | apply F | apply F | apply F].
Qed.

Lemma wp_effective_timeout c t a w (Q : outcome Z NetworkAdapterError -> NetworkAdapter N -> World -> Prop) :
  (forall w', world_le w w' -> (forall t', Q (Return t') a w') /\ Q (Raise NetBudgetExceeded) a w') ->
  wp (effective_timeout c t) Q a w.
Proof.
  intros HQ. unfold effective_timeout. wp_step. wp_step. cbv zeta.
  destruct (Duration_is_zero _); wp_step; apply HQ; split; simpl; lia.
Qed.

Lemma wp_net_budget c a w (Q : outcome unit NetworkAdapterError -> NetworkAdapter N -> World -> Prop) :
  (forall w', world_le w w' -> Q (Return tt) a w' /\ Q (Raise NetBudgetExceeded) a w') ->
  wp (net_require_remaining_budget c) Q a w.
Proof.
  intros HQ. unfold net_require_remaining_budget. wp_step. apply wp_effective_timeout.
  intros w' Hw. destruct (HQ w' Hw). split; [intros t'; by wp_step | done].
Qed.

Lemma wp_socket_call {B} c fallback (call : N -> option B * N) a w
    (Q : outcome B NetworkAdapterError -> NetworkAdapter N -> World -> Prop) :
  (forall r n', call (net a) = (r, n') ->
     match r with
     | Some b => Q (Return b) (set_net n' a) w
     | None => forall e w', world_le w w' -> Q (Raise e) (set_net n' a) w'
     end) -> wp (socket_call c fallback call) Q a w.
Proof.
  intros HQ. unfold socket_call. wp_step. unfold wp at 1.
  destruct (call (net a)) as [[b|] n'] eqn:E; specialize (HQ _ _ eq_refl); cbn beta iota.
  - by wp_step.
  - wp_step. unfold io_failure. wp_step. wp_step. wp_step. wp_step. apply HQ. split; simpl; lia.
Qed.

(** Nothing was contacted and nothing sent. *)
Definition quiet a a' : Prop := timeout a' = timeout a
  /\ s_contacted (net a') = s_contacted (net a) /\ s_wire (net a') = s_wire (net a).

(** Installing a timeout. *)
Lemma wp_install {T} (b : bool) c (call : N -> option unit * N) a w
    (k : unit -> M (NetworkAdapter N) NetworkAdapterError T) Q :
  (forall r n', call (net a) = (r, n') ->
     s_contacted n' = s_contacted (net a) /\ s_wire n' = s_wire (net a)) ->
  (forall a', quiet a a' -> wp (k tt) Q a' w) ->
  (forall a' e w', quiet a a' -> world_le w w' -> Q (Raise e) a' w') ->
  wp (bind (if b then socket_call c NetSocketConfigurationFailed call else ret tt) k) Q a w.
Proof.
  intros Hcall Hk He. wp_step. destruct b; [|wp_step; by apply Hk].
  apply wp_socket_call. intros r n' Hr. destruct (Hcall r n' Hr).
  destruct r as [[]|]; [by apply Hk | intros e w' Hw; by apply He].
Qed.

Lemma wp_write_loop sk c t : forall fuel rest installed a w,
  (length rest <= fuel)%nat ->
  wp (write_loop fuel sk rest c t installed) (fun r a' w' => world_le w w'
    /\ timeout a' = timeout a /\ s_contacted (net a') = s_contacted (net a) /\ r <> Panic
    /\ exists sent, sent `prefix_of` rest /\ s_wire (net a') = s_wire (net a) ++ sent
       /\ (r = Return tt -> sent = rest)) a w.
Proof.
  induction fuel as [|fuel IH]; intros rest installed a w Hfuel; (destruct rest as [|x rest];
    [simpl; wp_step; split_and!; try done; exists []; by rewrite app_nil_r|]); simpl in Hfuel; [lia|].
  assert (Hnone : forall a' (r : outcome unit NetworkAdapterError) w', quiet a a' -> world_le w w' ->
    r <> Panic -> r <> Return tt -> world_le w w'
    /\ timeout a' = timeout a /\ s_contacted (net a') = s_contacted (net a) /\ r <> Panic
    /\ exists sent, sent `prefix_of` (x :: rest) /\ s_wire (net a') = s_wire (net a) ++ sent
       /\ (r = Return tt -> sent = x :: rest)).
  { intros a' r w' (? & ? & Hwire) Hw ? ?. split_and!; try done. exists [].
    rewrite app_nil_r. split_and!; [apply prefix_nil | done | done]. }
  cbn [write_loop]. wp_step. apply wp_effective_timeout. intros w1 Hw1.
  split; [intros t'; cbn beta iota | by apply Hnone].
  apply wp_install.
  - intros r n' Hr. by eapply write_timeout_spec.
  - intros a1 Hq. pose proof Hq as (Ht1 & Hc1 & Hs1). wp_step. apply wp_socket_call. intros r n' Hr.
    apply write_spec in Hr as [Hc Hr]. destruct r as [k|].
    2:{ intros e w' Hw. apply Hnone; [|by etrans | done | done].
        split_and!; [done | simpl; congruence | simpl; congruence]. }
    destruct Hr as [Hk Hsent]. destruct (Z.eqb_spec k 0) as [->|Hk0].
    { wp_step. apply Hnone; [|done | done | done].
      split_and!; [done | simpl; congruence|]. simpl. rewrite Hsent. simpl. by rewrite app_nil_r. }
    unfold len in Hk. simpl length in Hk.
    eapply wp_mono; [apply IH; rewrite length_drop; simpl length; lia|].
    intros r a2 w2 (Hw2 & Ht2 & Hc2 & Hp2 & sent & Hpre & Hs2 & Hall). simpl in Ht2, Hc2, Hs2.
    split_and!; [by etrans | congruence | congruence | done|].
    exists (take (Z.to_nat k) (x :: rest) ++ sent). split_and!.
    + rewrite <-(take_drop (Z.to_nat k) (x :: rest)) at 2. by apply prefix_app.
    + by rewrite Hs2, Hsent, Hs1, app_assoc.
    + intros E. rewrite (Hall E). apply take_drop.
  - intros a' e w' Hq Hw. apply Hnone; [done | by etrans | done | done].
Qed.

Lemma quiet_trans a1 a2 a3 : quiet a1 a2 -> quiet a2 a3 -> quiet a1 a3.
Proof. intros (? & ? & ?) (? & ? & ?). split_and!; congruence. Qed.

Lemma wp_read_loop sk c t : forall fuel bytes installed a w,
  len bytes <= MAX_TCP_RESPONSE_BYTES -> MAX_TCP_RESPONSE_BYTES + 2 <= Z.of_nat fuel + len bytes ->
  wp (read_loop fuel sk bytes c t installed) (fun r a' w' => world_le w w' /\ quiet a a' /\ r <> Panic
    /\ forall out, r = Return out -> len out <= MAX_TCP_RESPONSE_BYTES) a w.
Proof.
  induction fuel as [|fuel IH]; intros bytes installed a w Hlen Hfuel; [lia|].
  assert (Hq0 : quiet a a) by done.
  cbn [read_loop]. wp_step. apply wp_effective_timeout. intros w1 Hw1.
  split; [intros t'; cbn beta iota | by split_and!]. cbv zeta. apply wp_install.
  - intros r n' Hr. by eapply read_timeout_spec.
  - intros a1 Hq. wp_step. apply wp_socket_call. intros r n' Hr. apply read_spec in Hr as [Hc Hs].
    assert (Hq2 : quiet a (set_net n' a1)) by (eapply quiet_trans; [exact Hq|]; by split_and!).
    destruct r as [read|]; [|intros e w' Hw; split_and!; try done; by etrans].
    destruct (Z.eqb_spec (len read) 0) as [Hz|Hz].
    + wp_step. apply wp_net_budget. intros w2 Hw2. assert (world_le w w2) by by etrans.
      split; [wp_step|]; split_and!; try done. by intros out [= <-].
    + destruct (Z.ltb_spec MAX_TCP_RESPONSE_BYTES (len (bytes ++ read))); [wp_step; by split_and!|].
      pose proof (len_nonneg read). rewrite len_app in *.
      eapply wp_mono; [apply IH; rewrite len_app; lia|].
      intros r a2 w2 (Hw2 & Hq3 & Hp & Hout). split_and!; try done; [by etrans | by eapply quiet_trans].
  - intros a' e w' Hq Hw. split_and!; try done. by etrans.
Qed.

(** What a run may do: contact the one validated address and send a prefix of
    the request. *)
Definition exchanged a op (r : outcome TcpExchangeResponse NetworkAdapterError) a' : Prop :=
  timeout a' = timeout a /\ r <> Panic /\
  ((quiet a a' /\ forall out, r <> Return out)
   \/ exists ip sent, validate_exchange (tcp_host op) (tcp_port op) (tcp_request op) = Ok ip
        /\ s_contacted (net a') = s_contacted (net a) ++ [mk_SocketAddr ip (tcp_port op)]
        /\ s_wire (net a') = s_wire (net a) ++ sent /\ sent `prefix_of` tcp_request op
        /\ forall out, r = Return out ->
             sent = tcp_request op /\ len (response_bytes out) <= MAX_TCP_RESPONSE_BYTES).

Lemma wp_network_execute op a w :
  wp (network_execute op) (fun r a' w' => world_le w w' /\ exchanged a op r a') a w.
Proof.
  assert (Hidle : forall e w', world_le w w' -> world_le w w' /\ exchanged a op (Raise e) a)
    by (intros e w' Hw; split; [done|]; split_and!; [done | done | by left]).
  unfold network_execute. wp_step. wp_step.
  destruct (validate_exchange _ _ _) as [ip|e] eqn:Hv; [|by apply Hidle].
  wp_step. wp_step. destruct (tcp_execution_context op) as [c|]; cbn [ok_or]; [|by apply Hidle].
  cbv zeta. wp_step. wp_step. cbn beta iota. wp_step. apply wp_effective_timeout. intros w1 Hw1.
  split; [intros t1; cbn beta iota | by apply Hidle]. wp_step. apply wp_socket_call. intros r n1 Hc.
  apply connect_spec in Hc as [Hc Hs].
  assert (Hfail : forall a' e w' sent, timeout a' = timeout a ->
    s_contacted (net a') = s_contacted n1 -> s_wire (net a') = s_wire n1 ++ sent ->
    sent `prefix_of` tcp_request op -> world_le w w' -> world_le w w' /\ exchanged a op (Raise e) a').
  { intros a' e w' sent Ht Hca Hsa Hpre Hw. split; [done|]. split_and!; [done | done|]. right.
    exists ip, sent. split_and!; [done | congruence | congruence | done | done]. }
  assert (Hnone : forall n' e w', s_contacted n' = s_contacted n1 -> s_wire n' = s_wire n1 ->
    world_le w w' -> world_le w w' /\ exchanged a op (Raise e) (set_net n' a)).
  { intros n' e w' Hcn Hsn Hw. apply (Hfail _ e w' []); [done | done | by rewrite app_nil_r | apply prefix_nil | done]. }
  destruct r as [sk|]; [|intros e w' Hw; apply Hnone; [done | done | by etrans]].
  cbn beta iota. wp_step. apply wp_net_budget. intros w2 Hw2. assert (world_le w w2) by by etrans.
  split; [cbn beta iota | by apply Hnone].
  wp_step. wp_step. cbn beta iota. wp_step. wp_step. destruct (s_peer_addr _ _) as [peer|]; cbn [ok_or]; [|by apply Hnone].
  destruct (negb _); [wp_step; by apply Hnone|].
  wp_step. eapply wp_mono; [apply wp_write_loop; lia|].
  intros r a3 w3 (Hw3 & Ht3 & Hc3 & Hp3 & sent & Hpre & Hs3 & Hall). simpl in Ht3, Hc3, Hs3.
  assert (Hw03 : world_le w w3) by by etrans.
  destruct r as [[]|e|]; [|by apply (Hfail a3 e w3 sent) | done].
  specialize (Hall eq_refl). subst sent.
  wp_step. apply wp_net_budget. intros w4 Hw4. assert (world_le w w4) by by etrans.
  split; [cbn beta iota | by apply (Hfail a3 _ w4 (tcp_request op))].
  wp_step. apply wp_socket_call. intros r n5 Hsh. apply shutdown_spec in Hsh as [Hc5 Hs5].
  assert (Hlate : forall a' e w', quiet (set_net n5 a3) a' -> world_le w w' ->
    world_le w w' /\ exchanged a op (Raise e) a').
  { intros a' e w' (Ht' & Hc' & Hs') Hw. simpl in *.
    apply (Hfail a' e w' (tcp_request op)); [congruence | congruence | congruence | done | done]. }
  destruct r as [[]|]; [|intros e w' Hw; apply Hlate; [done | by etrans]].
  cbn beta iota. wp_step. eapply wp_mono; [apply wp_read_loop; [done | vm_compute; discriminate]|].
  intros r a6 w6 (Hw6 & Hq6 & Hp6 & Hout). assert (Hw06 : world_le w w6) by by etrans.
  destruct r as [bytes|e|]; [|by apply Hlate | done]. wp_step.
  split; [done|]. destruct Hq6 as (Ht6 & Hc6 & Hs6). simpl in *. split_and!; [congruence | done|]. right.
  exists ip, (tcp_request op). split_and!; [done | congruence | congruence | done|].
  intros out [= <-]. split; [done|]. by apply Hout.
Qed.

#[export] Instance Network_AdapterLaws
  : AdapterLaws (NetworkAdapter N) TcpExchangeOperation TcpExchangeResponse NetworkAdapterError.
Proof.
  intros op a w. change (world_le w (network_execute op a w).2).
  pose proof (wp_network_execute op a w) as Hwp. unfold wp in Hwp.
  by destruct (network_execute op a w) as [[r a'] w'], Hwp.
Qed.

End Facts.

(** ** Properties *)

(** C15: A network exchange is confined and always ends: it contacts nothing, or
    exactly the address and port its operation names, an address that is written
    out in the host and is neither unspecified, multicast nor broadcast; it sends
    nothing but a prefix of the operation's bounded request; a response means that
    the whole request was sent and is itself bounded; and the two transfer loops
    terminate whatever the peer does. *)
Theorem network_exchanges_are_confined `{EnvLaws} {N Sk} `{SocketsLaws N Sk} op (a : NetworkAdapter N) w :
  exists r a' w', network_execute op a w = (r, a', w') /\ r <> Panic
  /\ ((s_contacted (net a') = s_contacted (net a) /\ s_wire (net a') = s_wire (net a)
        /\ forall out, r <> Return out)
      \/ exists ip sent, parse_IpAddr (tcp_host op) = Some ip
           /\ tcp_port op <> 0 /\ ip_is_unspecified ip = false /\ ip_is_multicast ip = false
           /\ ip <> ip_BROADCAST /\ len (tcp_request op) <= MAX_TCP_REQUEST_BYTES
           /\ s_contacted (net a') = s_contacted (net a) ++ [mk_SocketAddr ip (tcp_port op)]
           /\ s_wire (net a') = s_wire (net a) ++ sent /\ sent `prefix_of` tcp_request op
           /\ forall out, r = Return out ->
                sent = tcp_request op /\ len (response_bytes out) <= MAX_TCP_RESPONSE_BYTES).
Proof.
  pose proof (wp_network_execute op a w) as Hwp. unfold wp in Hwp.
  destruct (network_execute op a w) as [[r a'] w'] eqn:E. exists r, a', w'. split; [done|].
  destruct Hwp as (_ & _ & Hp & Hr). split; [done|].
  destruct Hr as [[(_ & ? & ?) ?]|(ip & sent & Hv & ? & ? & ? & ?)]; [by left|right].
  apply validate_exchange_Ok in Hv as (? & ? & ? & ? & ? & ?). by exists ip, sent.
Qed.

(** A concrete peer: it takes at most two bytes at a time and answers [reply]. *)
Record DemoNet := mk_DemoNet { demo_contacted : list SocketAddr; demo_wire : list Z; reply : list Z }.

#[export] Instance demo_sockets : Sockets DemoNet SocketAddr := {|
  s_connect_timeout address _ n :=
    (Some address, mk_DemoNet (demo_contacted n ++ [address]) (demo_wire n) (reply n));
  s_peer_addr sk _ := Some sk;
  s_set_write_timeout _ _ n := (Some tt, n);
  s_set_read_timeout _ _ n := (Some tt, n);
  s_write _ bytes n :=
    (Some (len (take 2 bytes)), mk_DemoNet (demo_contacted n) (demo_wire n ++ take 2 bytes) (reply n));
  s_shutdown_write _ n := (Some tt, n);
  s_read _ limit n :=
    (Some (take (Z.to_nat limit) (reply n)),
     mk_DemoNet (demo_contacted n) (demo_wire n) (drop (Z.to_nat limit) (reply n)));
|}.

#[export, refine] Instance demo_sockets_laws : SocketsLaws DemoNet SocketAddr := {|
  s_contacted := demo_contacted; s_wire := demo_wire |}.
Proof.
  - by intros address t n r n' [= <- <-].
  - by intros sk t n r n' [= <- <-].
  - by intros sk t n r n' [= <- <-].
  - intros sk bytes n r n' [= <- <-]. split; [done|]. unfold len. split; [rewrite length_take; lia|].
    cbn [demo_wire]. f_equal. rewrite Nat2Z.id, length_take.
    destruct (Nat.le_ge_cases 2 (length bytes)); [by rewrite Nat.min_l|].
    rewrite Nat.min_r by done. by rewrite !take_ge.
  - by intros sk n r n' [= <- <-].
  - by intros sk limit n r n' [= <- <-].
Defined.

Definition demo_exchange : TcpExchangeOperation :=
  mk_TcpExchangeOperation "127.0.0.1" 8080 [1; 2; 3]
    (Some (mk_TaskExecutionContext (mk_TaskId 0) (mk_Budget 60 1 0) [] 0)).

Definition demo_network : NetworkAdapter DemoNet := mk_NetworkAdapter MAX_NETWORK_TIMEOUT (mk_DemoNet [] [] [9; 9]).

Lemma network_exchanges_are_confined_witness :
  exists r a' w', network_execute demo_exchange demo_network world0 = (r, a', w')
  /\ r = Return (mk_TcpExchangeResponse [9; 9]) /\ s_wire (net a') = [1; 2; 3]
  /\ exists ip, s_contacted (net a') = [mk_SocketAddr ip 8080].
Proof.
  destruct (network_exchanges_are_confined demo_exchange demo_network world0)
    as (r & a' & w' & Hrun & _ & Hr).
  assert (Hres : (network_execute demo_exchange demo_network world0).1.1
                 = Return (mk_TcpExchangeResponse [9; 9])) by (vm_compute; reflexivity).
  rewrite Hrun in Hres. cbn [fst] in Hres. exists r, a', w'. split; [exact Hrun|]. split; [exact Hres|].
  destruct Hr as [(_ & _ & Hno)|(ip & sent & _ & _ & _ & _ & _ & _ & Hc & Hs & _ & Hall)];
    [destruct (Hno _ Hres)|].
  rewrite Hs, (proj1 (Hall _ Hres)). split; [reflexivity|]. exists ip. exact Hc.
Defined.
