(* ===== verification/Agent.v ===== *)
(** * The agent runtime (aios-agent: lib.rs)

    A model session proposes decisions; the runtime asks it for one decision at a
    time, prepares each proposed operation through the trusted catalogs and runs it
    through the Tool or the Network gate.  Models are any implementation of the two
    traits; the scripted model of the crate is one. *)

From stdpp Require Import base numbers list gmap strings.
From Stdlib Require Import ZArith Lia.
From S2P Require Import Prelude RustStd RustNet TaskState TaskSpec Policy Event Approval Supervisor Recovery.
From S2P Require Import SupervisorInv SupervisorFacts SupervisorOps RecoveryFacts SupervisorRun SupervisorProps ApprovalProps.
From S2P Require Import Execution ExecutionProps Facade ToolAdapter NetworkAdapter.

Definition DEFAULT_MAX_MODEL_STEPS : Z := 16.
Definition MAX_MODEL_STEPS : Z := 64.
Definition MAX_FINAL_OUTPUT_BYTES : Z := 1024 * 1024.
Definition DEFAULT_APPROVAL_TTL : Z := Duration_from_secs (5 * 60).
Definition AGENT_MAX_APPROVAL_TTL : Z := Duration_from_secs (15 * 60).

(** ** Errors *)

Inductive AgentError :=
| AgentInvalidConfig
| AgentCapacityExceeded
| AgentInvalidState
| AgentInvalidDecision
| AgentStepLimitExceeded
| AgentModelFailed
| AgentToolFailed
| AgentNetworkFailed
| AgentBudgetExceeded
| AgentSupervisor (error : SupervisorError).

Definition AgentError_code (e : AgentError) : option ErrorCode :=
  match e with AgentBudgetExceeded => Some BudgetExceededCode | _ => None end.

Definition display_AgentError (e : AgentError) : string :=
  match e with
  | AgentInvalidConfig => "invalid Agent runtime configuration"
  | AgentCapacityExceeded => "Agent runtime capacity exceeded"
  | AgentInvalidState => "Agent runtime state is invalid"
  | AgentInvalidDecision => "model decision is invalid"
  | AgentStepLimitExceeded => "Agent step limit exceeded"
  | AgentModelFailed => "model adapter failed"
  | AgentToolFailed => "Tool execution failed"
  | AgentNetworkFailed => "Network execution failed"
  | AgentBudgetExceeded => "Task Budget exceeded"
  | AgentSupervisor _ => "Task supervision failed"
  end.

Definition map_tool_error (error : ExecutionError ToolAdapterError) : AgentError :=
  match error with
  | ExecutionSupervisor error => AgentSupervisor error
  | ExecutionAdapterFailed ToolErrBudgetExceeded => AgentBudgetExceeded
  | ExecutionAdapterFailed _ | OperationNotFound => AgentToolFailed
  end.

Definition map_network_error (error : ExecutionError NetworkAdapterError) : AgentError :=
  match error with
  | ExecutionSupervisor error => AgentSupervisor error
  | ExecutionAdapterFailed NetBudgetExceeded => AgentBudgetExceeded
  | ExecutionAdapterFailed _ | OperationNotFound => AgentNetworkFailed
  end.

(** ** Configuration *)

Record AgentConfig := mk_AgentConfig { max_steps : Z; config_approval_ttl : Z }.

Definition AgentConfig_new (max_steps approval_ttl : Z) : Result AgentConfig AgentError :=
  if (max_steps =? 0) || (MAX_MODEL_STEPS <? max_steps)
     || (approval_ttl <? Duration_from_millis 1) || (AGENT_MAX_APPROVAL_TTL <? approval_ttl)
  then Err AgentInvalidConfig
  else Ok (mk_AgentConfig max_steps approval_ttl).

Definition AgentConfig_default : AgentConfig :=
  mk_AgentConfig DEFAULT_MAX_MODEL_STEPS DEFAULT_APPROVAL_TTL.

(** ** Decisions of a model *)

Inductive ModelDecisionError := InvalidFinalOutput | InvalidToolRequest | InvalidNetworkRequest.

Definition display_ModelDecisionError (e : ModelDecisionError) : string :=
  match e with
  | InvalidFinalOutput => "invalid final model output"
  | InvalidToolRequest => "invalid model Tool request"
  | InvalidNetworkRequest => "invalid model Network request"
  end.

Record AgentOutput := mk_AgentOutput { as_str : string }.

Definition AgentOutput_from_text (text : string) : Result AgentOutput ModelDecisionError :=
  if is_empty_str text || (MAX_FINAL_OUTPUT_BYTES <? str_len text) || contains_char NUL text
  then Err InvalidFinalOutput
  else Ok (mk_AgentOutput text).

Inductive ModelDecision :=
| Finish (out : AgentOutput)
| CallTool (route : string) (arguments : list string)
| TcpExchange (host : string) (port : Z) (request : list Z).

Definition agent_is_valid_identifier (value : string) : bool :=
  negb (is_empty_str value) && (str_len value <=? MAX_TOOL_IDENTIFIER_BYTES)
  && forallb (fun c => is_ascii_alphanumeric c || (c =? 46) || (c =? 95) || (c =? 58) || (c =? 45))
       (chars value).

Fixpoint valid_argument_loop (arguments : list string) (total_bytes : Z) : bool :=
  match arguments with
  | [] => true
  | argument :: arguments' =>
      if (MAX_ARGUMENT_BYTES <? str_len argument) || contains_char NUL argument then false
      else
        match checked_add usize_max total_bytes (str_len argument) with
        | None => false
        | Some next_total =>
            if MAX_TOTAL_ARGUMENT_BYTES <? next_total then false
            else valid_argument_loop arguments' next_total
        end
  end.

Definition are_valid_arguments (arguments : list string) : bool :=
  if MAX_ARGUMENTS <? len arguments then false else valid_argument_loop arguments 0.

Definition decision_finish (text : string) : Result ModelDecision ModelDecisionError :=
  let? out := AgentOutput_from_text text in Ok (Finish out).

Definition decision_call_tool (route : string) (arguments : list string)
    : Result ModelDecision ModelDecisionError :=
  if negb (agent_is_valid_identifier route) || negb (are_valid_arguments arguments)
  then Err InvalidToolRequest
  else Ok (CallTool route arguments).

Definition decision_tcp_exchange (host : string) (port : Z) (request : list Z)
    : Result ModelDecision ModelDecisionError :=
  if is_empty_str host || (MAX_NETWORK_HOST_BYTES <? str_len host) || (port =? 0)
     || (MAX_TCP_REQUEST_BYTES <? len request)
  then Err InvalidNetworkRequest
  else Ok (TcpExchange host port request).

(** ** Models *)

Record ModelStartRequest := mk_ModelStartRequest {
  start_goal : string;
  start_tool_routes : list string;
  start_network_destinations : list NetworkDestination;
}.

Record ModelTurnRequest := mk_ModelTurnRequest {
  turn_step : Z;
  previous_operation_output : option (list Z);
}.

Class ModelSession (Ses MErr : Type) := decide_turn : ModelTurnRequest -> M Ses MErr ModelDecision.

Class ModelAdapter (Mo Ses MErr : Type) := start_session : ModelStartRequest -> M Mo MErr Ses.

(** A model reads the clocks like everyone else. *)
Class ModelLaws (Mo Ses MErr : Type) `{ModelSession Ses MErr, ModelAdapter Mo Ses MErr} : Prop := {
  decide_world : forall q ses w, world_le w (decide_turn q ses w).2;
  session_world : forall q mo w, world_le w (start_session q mo w).2;
}.

(** *** The scripted model *)

Inductive ScriptedModelError := InvalidScript | Unavailable | Exhausted.

Definition display_ScriptedModelError (_ : ScriptedModelError) : string := "scripted model adapter failed".

Record ScriptedModelAdapter := mk_ScriptedModelAdapter { script : option (list ModelDecision) }.

Record ScriptedModelSession := mk_ScriptedModelSession { decisions : list ModelDecision }.

Definition ScriptedModelAdapter_new (decisions : list ModelDecision)
    : Result ScriptedModelAdapter ScriptedModelError :=
  if (len decisions =? 0) || (MAX_MODEL_STEPS <? len decisions) then Err InvalidScript
  else Ok (mk_ScriptedModelAdapter (Some decisions)).

#[export] Instance Scripted_ModelAdapter
  : ModelAdapter ScriptedModelAdapter ScriptedModelSession ScriptedModelError :=
  fun _ self w =>
    match script self with
    | Some decisions => (Return (mk_ScriptedModelSession decisions), mk_ScriptedModelAdapter None, w)
    | None => (Raise Unavailable, mk_ScriptedModelAdapter None, w)
    end.

#[export] Instance Scripted_ModelSession : ModelSession ScriptedModelSession ScriptedModelError :=
  fun _ self w =>
    match decisions self with
    | d :: rest => (Return d, mk_ScriptedModelSession rest, w)
    | [] => (Raise Exhausted, self, w)
    end.

#[export] Instance Scripted_ModelLaws
  : ModelLaws ScriptedModelAdapter ScriptedModelSession ScriptedModelError.
Proof.
  split.
  - intros q [[|d ds]] w; simpl; reflexivity.
  - intros q [[ds|]] w; simpl; reflexivity.
Qed.

(** ** The runtime *)

Inductive PendingAdapter := PendingTool | PendingNetwork.

#[export] Instance PendingAdapter_eq_dec : EqDecision PendingAdapter.
Proof. solve_decision. Defined.

Record AgentPendingApproval := mk_AgentPendingApproval {
  ap_approval_id : ApprovalId;
  ap_adapter : PendingAdapter;
}.

Record ActiveSession (Ses : Type) := mk_ActiveSession {
  active_task_id : TaskId;
  active_model : Ses;
  next_step : Z;
  active_previous_output : option (list Z);
  pending_approval : option AgentPendingApproval;
}.
Arguments mk_ActiveSession {Ses} _ _ _ _ _.
Arguments active_task_id {Ses} _.
Arguments active_model {Ses} _.
Arguments next_step {Ses} _.
Arguments active_previous_output {Ses} _.
Arguments pending_approval {Ses} _.

(** [AgentNetwork] without its catalog, which has no fields. *)
Record AgentNetwork (N : Type) := mk_AgentNetwork {
  network_gate : ExecutionGate (NetworkAdapter N) TcpExchangeOperation }.
Arguments mk_AgentNetwork {N} _.
Arguments network_gate {N} _.

Record AgentRuntime (Mo Ses HT N : Type) := mk_AgentRuntime {
  model_adapter : Mo;
  tool_catalog : ToolCatalog;
  tool_gate : ExecutionGate (ToolAdapter HT) ToolOperation;
  agent_network : option (AgentNetwork N);
  config : AgentConfig;
  active : option (ActiveSession Ses);
}.
Arguments mk_AgentRuntime {Mo Ses HT N} _ _ _ _ _ _.
Arguments model_adapter {Mo Ses HT N} _.
Arguments tool_catalog {Mo Ses HT N} _.
Arguments tool_gate {Mo Ses HT N} _.
Arguments agent_network {Mo Ses HT N} _.
Arguments config {Mo Ses HT N} _.
Arguments active {Mo Ses HT N} _.

Inductive AgentRunOutcome :=
| Completed (out : AgentOutput)
| WaitingForApproval (request : ApprovalRequest)
| RunDenied (reason : DenialReason).

(** *** Field updates *)

Section Fields.
Context {Mo Ses HT N : Type}.
Implicit Types x : AgentRuntime Mo Ses HT N.

Definition set_model (mo : Mo) x : AgentRuntime Mo Ses HT N :=
  mk_AgentRuntime mo (tool_catalog x) (tool_gate x) (agent_network x) (config x) (active x).

Definition set_tool_gate (g : ExecutionGate (ToolAdapter HT) ToolOperation) x : AgentRuntime Mo Ses HT N :=
  mk_AgentRuntime (model_adapter x) (tool_catalog x) g (agent_network x) (config x) (active x).

Definition set_network (n : option (AgentNetwork N)) x : AgentRuntime Mo Ses HT N :=
  mk_AgentRuntime (model_adapter x) (tool_catalog x) (tool_gate x) n (config x) (active x).

Definition set_active (a : option (ActiveSession Ses)) x : AgentRuntime Mo Ses HT N :=
  mk_AgentRuntime (model_adapter x) (tool_catalog x) (tool_gate x) (agent_network x) (config x) a.

Definition with_model (ses : Ses) (a : ActiveSession Ses) : ActiveSession Ses :=
  mk_ActiveSession (active_task_id a) ses (next_step a) (active_previous_output a) (pending_approval a).

Definition with_next_step (n : Z) (a : ActiveSession Ses) : ActiveSession Ses :=
  mk_ActiveSession (active_task_id a) (active_model a) n (active_previous_output a) (pending_approval a).

Definition with_previous_output (out : list Z) (a : ActiveSession Ses) : ActiveSession Ses :=
  mk_ActiveSession (active_task_id a) (active_model a) (next_step a) (Some out) (pending_approval a).

Definition with_pending (p : option AgentPendingApproval) (a : ActiveSession Ses) : ActiveSession Ses :=
  mk_ActiveSession (active_task_id a) (active_model a) (next_step a) (active_previous_output a) p.

End Fields.

Section Agent.
Context `{Env} {Mo Ses MErr HT N Sk S : Type}.
Context `{!ModelSession Ses MErr, !ModelAdapter Mo Ses MErr, !ToolHandler HT, !Sockets N Sk, !EventStore S}.

(** A method of the runtime that borrows the supervisor mutably. *)
Abbreviation Agent := (M (AgentRuntime Mo Ses HT N * TaskSupervisor S) AgentError).

Definition AgentRuntime_new (model : Mo) (catalog : ToolCatalog)
    (gate : ExecutionGate (ToolAdapter HT) ToolOperation) (c : AgentConfig) : AgentRuntime Mo Ses HT N :=
  mk_AgentRuntime model catalog gate None c None.

Definition with_network_gate (self : AgentRuntime Mo Ses HT N)
    (gate : ExecutionGate (NetworkAdapter N) TcpExchangeOperation) : AgentRuntime Mo Ses HT N :=
  set_network (Some (mk_AgentNetwork gate)) self.

Definition active_task (self : AgentRuntime Mo Ses HT N) : option TaskId :=
  active_task_id <$> active self.

(** [supervisor.method(..)?] *)
Definition ask_supervisor {B} (m : M (TaskSupervisor S) SupervisorError B) : Agent B :=
  zoom snd (fun s x => (x.1, s)) (map_err AgentSupervisor m).

Definition update (f : AgentRuntime Mo Ses HT N -> AgentRuntime Mo Ses HT N) : Agent unit :=
  modify (fun x => (f x.1, x.2)).

(** [self.tool_gate.method(supervisor, ..)] as a [Result] value. *)
Definition ask_tool_gate {B}
    (m : M (ExecutionGate (ToolAdapter HT) ToolOperation * TaskSupervisor S)
           (ExecutionError ToolAdapterError) B)
    : Agent (Result B (ExecutionError ToolAdapterError)) :=
  zoom (fun x => (tool_gate x.1, x.2)) (fun y x => (set_tool_gate y.1 x.1, y.2)) (attempt m).

(** [self.network.as_mut().ok_or(AgentError::InvalidState)?.gate.method(supervisor, ..)] *)
Definition ask_network_gate {B}
    (m : M (ExecutionGate (NetworkAdapter N) TcpExchangeOperation * TaskSupervisor S)
           (ExecutionError NetworkAdapterError) B)
    : Agent (Result B (ExecutionError NetworkAdapterError)) :=
  let! found := gets (fun x => agent_network x.1) in
  let! n := lift (ok_or found AgentInvalidState) in
  zoom (fun x => (network_gate n, x.2))
       (fun y x => (set_network (Some (mk_AgentNetwork y.1)) x.1, y.2)) (attempt m).

(** [self.active.as_mut().ok_or(AgentError::InvalidState)?] and the assignment
    through it. *)
Definition update_active (f : ActiveSession Ses -> ActiveSession Ses) : Agent unit :=
  let! found := gets (fun x => active x.1) in
  let! a := lift (ok_or found AgentInvalidState) in
  update (set_active (Some (f a))).

Definition fail_active (task_id : TaskId) : Agent unit :=
  do! update (set_active None) in ask_supervisor (fail task_id).

Definition fail_budget_active (task_id : TaskId) : Agent unit :=
  do! update (set_active None) in ask_supervisor (fail_budget_exceeded task_id).

Definition require_pending (self : AgentRuntime Mo Ses HT N) (approval_id : ApprovalId)
    : Result (TaskId * PendingAdapter) AgentError :=
  let? a := ok_or (active self) AgentInvalidState in
  let? pending := ok_or (pending_approval a) AgentInvalidState in
  if negb (bool_decide (ap_approval_id pending = approval_id)) then Err AgentInvalidState
  else Ok (active_task_id a, ap_adapter pending).

Definition pending_adapter (self : AgentRuntime Mo Ses HT N) : option PendingAdapter :=
  match active self with
  | Some a => ap_adapter <$> pending_approval a
  | None => None
  end.

(** [supervisor.execution_context(task_id)?.remaining_wall_time().is_zero()] *)
Definition out_of_wall_time (task_id : TaskId) : Agent bool :=
  let! found := gets (fun x => execution_context x.2 task_id) in
  let! context := lift (res_map_err AgentSupervisor found) in
  let! now := Instant_now in
  ret (Duration_is_zero (remaining_wall_time context now)).

(** [active.model.decide(request)] as a [Result] value. *)
Definition ask_model : Agent (Result ModelDecision MErr) :=
  let! found := gets (fun x => active x.1) in
  let! a := lift (ok_or found AgentInvalidState) in
  zoom (fun _ => active_model a) (fun ses x => (set_active (Some (with_model ses a)) x.1, x.2))
    (attempt (decide_turn (mk_ModelTurnRequest (next_step a) (active_previous_output a)))).

(** What the loop does with the answer of a gate: [None] is the next turn. *)
Definition after_tool (task_id : TaskId)
    (answer : Result (ExecutionOutcome ToolOutput) (ExecutionError ToolAdapterError))
    : Agent (option AgentRunOutcome) :=
  match answer with
  | Ok (OutcomeExecuted executed) =>
      do! update_active (with_previous_output (output_bytes (output executed))) in ret None
  | Ok (OutcomeDenied reason) =>
      do! fail_active task_id in ret (Some (RunDenied reason))
  | Ok (OutcomeApprovalRequired request) =>
      do! update_active (with_pending (Some
            (mk_AgentPendingApproval (request_approval_id request) PendingTool))) in
      ret (Some (WaitingForApproval request))
  | Err (ExecutionSupervisor error) =>
      do! update (set_active None) in throw (AgentSupervisor error)
  | Err (ExecutionAdapterFailed ToolErrBudgetExceeded) =>
      do! fail_budget_active task_id in throw AgentBudgetExceeded
  | Err (ExecutionAdapterFailed _) | Err OperationNotFound =>
      do! fail_active task_id in throw AgentToolFailed
  end.

Definition after_network (task_id : TaskId)
    (answer : Result (ExecutionOutcome TcpExchangeResponse) (ExecutionError NetworkAdapterError))
    : Agent (option AgentRunOutcome) :=
  match answer with
  | Ok (OutcomeExecuted executed) =>
      do! update_active (with_previous_output (response_bytes (output executed))) in ret None
  | Ok (OutcomeDenied reason) =>
      do! fail_active task_id in ret (Some (RunDenied reason))
  | Ok (OutcomeApprovalRequired request) =>
      do! update_active (with_pending (Some
            (mk_AgentPendingApproval (request_approval_id request) PendingNetwork))) in
      ret (Some (WaitingForApproval request))
  | Err (ExecutionSupervisor error) =>
      do! update (set_active None) in throw (AgentSupervisor error)
  | Err (ExecutionAdapterFailed NetBudgetExceeded) =>
      do! fail_budget_active task_id in throw AgentBudgetExceeded
  | Err (ExecutionAdapterFailed _) | Err OperationNotFound =>
      do! fail_active task_id in throw AgentNetworkFailed
  end.

(** [match decision.kind] *)
Definition act (task_id : TaskId) (decision : ModelDecision) : Agent (option AgentRunOutcome) :=
  match decision with
  | Finish out =>
      do! update (set_active None) in
      do! ask_supervisor (succeed task_id) in
      ret (Some (Completed out))
  | CallTool route arguments =>
      let! catalog := gets (fun x => tool_catalog x.1) in
      match prepare catalog route arguments with
      | Err _ => do! fail_active task_id in throw AgentInvalidDecision
      | Ok operation =>
          let! ttl := gets (fun x => config_approval_ttl (config x.1)) in
          let! outcome := ask_tool_gate (ToolExecutionGate_request task_id operation ttl) in
          after_tool task_id outcome
      end
  | TcpExchange host port request =>
      let! network := gets (fun x => agent_network x.1) in
      match network with
      | None => do! fail_active task_id in throw AgentInvalidDecision
      | Some _ =>
          match prepare_tcp_exchange host port request with
          | Err _ => do! fail_active task_id in throw AgentInvalidDecision
          | Ok operation =>
              let! ttl := gets (fun x => config_approval_ttl (config x.1)) in
              let! outcome := ask_network_gate (NetworkExecutionGate_request task_id operation ttl) in
              after_network task_id outcome
          end
      end
  end.

(** [next_step += 1] on a [u16]. *)
Definition count_step : Agent unit :=
  let! found := gets (fun x => active x.1) in
  let! a := lift (ok_or found AgentInvalidState) in
  match checked_add u16_max (next_step a) 1 with
  | Some n => update (set_active (Some (with_next_step n a)))
  | None => panic
  end.

(** One turn of the loop of [drive]. *)
Definition drive_turn : Agent (option AgentRunOutcome) :=
  let! found := gets (fun x => (fun a => (active_task_id a, next_step a)) <$> active x.1) in
  let! current := lift (ok_or found AgentInvalidState) in
  let '(task_id, next) := current in
  let! late := out_of_wall_time task_id in
  if late then do! fail_budget_active task_id in throw AgentBudgetExceeded
  else
    let! limit := gets (fun x => max_steps (config x.1)) in
    if limit <? next then do! fail_active task_id in throw AgentStepLimitExceeded
    else
      let! answer := ask_model in
      match answer with
      | Err _ => do! fail_active task_id in throw AgentModelFailed
      | Ok decision =>
          let! late := out_of_wall_time task_id in
          if late then do! fail_budget_active task_id in throw AgentBudgetExceeded
          else
            do! count_step in
            act task_id decision
      end.

Fixpoint drive_loop (fuel : nat) : Agent AgentRunOutcome :=
  match fuel with
  | O => panic
  | Datatypes.S fuel' =>
      let! turn := drive_turn in
      match turn with
      | Some outcome => ret outcome
      | None => drive_loop fuel'
      end
  end.

(** Every turn that does not end the loop counts a step, and the turn after the
    last allowed step ends it. *)
Definition drive : Agent AgentRunOutcome :=
  let! limit := gets (fun x => max_steps (config x.1)) in
  drive_loop (Datatypes.S (Z.to_nat limit)).

(** What the model is told when its session starts. *)
Definition start_request (self : AgentRuntime Mo Ses HT N) (input : TaskExecutionInput)
    : ModelStartRequest :=
  mk_ModelStartRequest (input_goal input)
    (route_names_for_tools (tool_catalog self) (capability_tools input))
    (match agent_network self with
     | Some _ =>
         filter (fun d => is_ok (prepare_tcp_exchange (host d) (port d) []) = true)
           (network_destinations input)
     | None => []
     end).

Definition agent_start (task_id : TaskId) : Agent AgentRunOutcome :=
  let! busy := gets (fun x => bool_decide (is_Some (active x.1))) in
  if busy then throw AgentCapacityExceeded
  else
    let! input := ask_supervisor (start_execution task_id) in
    let! request := gets (fun x => start_request x.1 input) in
    let! model := zoom (fun x => model_adapter x.1) (fun mo x => (set_model mo x.1, x.2))
                    (attempt (start_session request)) in
    match model with
    | Err _ => do! ask_supervisor (fail task_id) in throw AgentModelFailed
    | Ok model =>
        do! update (set_active (Some (mk_ActiveSession task_id model 1 None None))) in
        drive
    end.

Definition resume_with_output (bytes : list Z) : Agent AgentRunOutcome :=
  do! update_active (fun a => with_previous_output bytes (with_pending None a)) in
  drive.

Definition approve_and_resume (approval_id : ApprovalId) : Agent AgentRunOutcome :=
  let! required := gets (fun x => require_pending x.1 approval_id) in
  let! pending := lift required in
  let '(task_id, adapter) := pending in
  match adapter with
  | PendingTool =>
      let! result := ask_tool_gate (ToolExecutionGate_approve_and_execute approval_id) in
      match result with
      | Ok executed => resume_with_output (output_bytes (output executed))
      | Err (ExecutionSupervisor error) => throw (AgentSupervisor error)
      | Err (ExecutionAdapterFailed ToolErrBudgetExceeded) =>
          do! fail_budget_active task_id in throw AgentBudgetExceeded
      | Err (ExecutionAdapterFailed _) | Err OperationNotFound =>
          do! fail_active task_id in throw AgentToolFailed
      end
  | PendingNetwork =>
      let! result := ask_network_gate (NetworkExecutionGate_approve_and_execute approval_id) in
      match result with
      | Ok executed => resume_with_output (response_bytes (output executed))
      | Err (ExecutionSupervisor error) => throw (AgentSupervisor error)
      | Err (ExecutionAdapterFailed NetBudgetExceeded) =>
          do! fail_budget_active task_id in throw AgentBudgetExceeded
      | Err (ExecutionAdapterFailed _) | Err OperationNotFound =>
          do! fail_active task_id in throw AgentNetworkFailed
      end
  end.

(** [result.map_err(f)?] *)
Definition or_agent {B E} (f : E -> AgentError) (r : Result B E) : Agent B :=
  lift (res_map_err f r).

Definition agent_deny (approval_id : ApprovalId) : Agent unit :=
  let! required := gets (fun x => require_pending x.1 approval_id) in
  let! pending := lift required in
  do! match pending.2 with
      | PendingTool =>
          let! r := ask_tool_gate (ToolExecutionGate_deny approval_id) in or_agent map_tool_error r
      | PendingNetwork =>
          let! r := ask_network_gate (NetworkExecutionGate_deny approval_id) in or_agent map_network_error r
      end in
  update (set_active None).

Definition expire_adapter (adapter : PendingAdapter) : Agent Z :=
  match adapter with
  | PendingTool => let! r := ask_tool_gate ToolExecutionGate_expire in or_agent map_tool_error r
  | PendingNetwork => let! r := ask_network_gate NetworkExecutionGate_expire in or_agent map_network_error r
  end.

(** [expire] after the wall time was found not to be exceeded. *)
Definition expire_pending : Agent Z :=
  let! adapter := gets (fun x => default PendingTool (pending_adapter x.1)) in
  let! expired := expire_adapter adapter in
  let! ended := gets (fun x =>
    match active x.1 with
    | Some a =>
        match get x.2 (active_task_id a) with
        | Some task => is_terminal (snapshot_state task)
        | None => false
        end
    | None => false
    end) in
  do! (if ended then update (set_active None) else ret tt) in
  ret expired.

Definition agent_expire : Agent Z :=
  let! task := gets (fun x => active_task x.1) in
  let! late := match task with
               | Some task_id => ask_supervisor (wall_time_exceeded task_id)
               | None => ret false
               end in
  match task, late with
  | Some task_id, true =>
      let! adapter := gets (fun x => default PendingTool (pending_adapter x.1)) in
      do! fail_budget_active task_id in
      do! expire_adapter adapter in
      throw AgentBudgetExceeded
  | _, _ => expire_pending
  end.

Definition agent_cancel (task_id : TaskId) : Agent bool :=
  let! other := gets (fun x =>
    match active x.1 with
    | Some a => negb (bool_decide (active_task_id a = task_id))
    | None => false
    end) in
  if other then throw AgentInvalidState
  else
    let! adapter := gets (fun x => default PendingTool (pending_adapter x.1)) in
    let! changed :=
      match adapter with
      | PendingTool =>
          let! r := ask_tool_gate (ToolExecutionGate_cancel task_id) in or_agent map_tool_error r
      | PendingNetwork =>
          let! r := ask_network_gate (NetworkExecutionGate_cancel task_id) in or_agent map_network_error r
      end in
    do! update (set_active None) in
    ret changed.

End Agent.
