(* ===== verification/AgentFacts.v ===== *)
(** * Facts about the agent runtime

    What its primitive steps do: both gates stay on the runs their adapters' own
    theorems speak about, and the task follows its lifecycle. *)

From stdpp Require Import base numbers list gmap strings.
From Stdlib Require Import ZArith Lia.
From S2P Require Import Prelude RustStd RustNet TaskState TaskSpec Policy Event Approval Supervisor Recovery.
From S2P Require Import SupervisorInv SupervisorFacts SupervisorOps RecoveryFacts SupervisorRun SupervisorProps ApprovalProps.
From S2P Require Import Execution ExecutionProps Facade ToolAdapter ToolProps NetworkAdapter Agent.

(** ** Two gates on one supervisor *)

Section Paths.
Context `{EnvLaws} {S : Type} `{EventStoreLaws S}.
Implicit Types s : TaskSupervisor S.

(** Public calls on the supervisor, and time. *)
Inductive sup_path (strict : bool) : TaskSupervisor S -> World -> TaskSupervisor S -> World -> Prop :=
| path_refl s w : sup_path strict s w s w
| path_time s w w1 s2 w2 : world_le w w1 -> sup_path strict s w1 s2 w2 -> sup_path strict s w s2 w2
| path_call s w c r s1 w1 s2 w2 :
    (strict = true -> disciplined s c) -> run_call c s w = (r, s1, w1) ->
    sup_path strict s1 w1 s2 w2 -> sup_path strict s w s2 w2.

Lemma path_waits strict s w w' : world_le w w' -> sup_path strict s w s w'.
Proof. intros Hw. by eapply path_time; [|apply path_refl]. Qed.

(** A method that is one public call up to its result. *)
Definition calls {B} (m : M (TaskSupervisor S) SupervisorError B) (c : Call) : Prop :=
  forall s w r s' w', m s w = (r, s', w') -> exists r', run_call c s w = (r', s', w').

Lemma calls_discard {B} (m : M (TaskSupervisor S) SupervisorError B) c : run_call c = discard m -> calls m c.
Proof.
  intros Hc s w r s' w' Hrun. rewrite Hc. unfold discard, bind. rewrite Hrun. destruct r; by eexists.
Qed.

Lemma calls_unit c : calls (run_call c) c.
Proof. intros s w r s' w' Hrun. by exists r. Qed.

Lemma path_method {B} strict c (m : M (TaskSupervisor S) SupervisorError B) s w r s1 w1 s2 w2 :
  calls m c -> (strict = true -> disciplined s c) -> m s w = (r, s1, w1) ->
  sup_path strict s1 w1 s2 w2 -> sup_path strict s w s2 w2.
Proof. intros Hc Hd Hrun Hp. destruct (Hc _ _ _ _ _ Hrun) as [r' Hr]. by eapply path_call. Qed.

Section OneGate.
Context {A O Output Error : Type}.
Context `{!GuardedOperation O, !ExecutionAdapter A O Output Error, !AdapterLaws A O Output Error}.
Implicit Types g : ExecutionGate A O.

(** A method of a gate reaches the supervisor through public calls. *)
Lemma gate_call_path strict c g s w r g' s' w' :
  (strict = true -> gate_disciplined s c) -> run_gate_call c (g, s) w = (r, (g', s'), w') ->
  sup_path strict s w s' w'.
Proof.
  intros Hd Hrun.
  destruct c as [t op ttl|id|id| |t|c]; simpl in Hrun; try (apply ignore_run in Hrun as [r0 Hrun]).
  - apply gate_request_run in Hrun as (ra & w1 & Hrq & Hr).
    eapply (path_method strict (CallRequest t (capability_request op) ttl)); [by apply calls_discard | done | exact Hrq |].
    apply path_waits. destruct ra as [[|reason|q]|e|]; [by eapply ran_world | by destruct Hr as (_ & -> & _)..].
  - apply approve_and_execute_run in Hrun.
    destruct (approval_index g !! id) as [o|]; [|destruct Hrun as (_ & _ & -> & ->); apply path_refl].
    destruct (gate_pending g !! o) as [pe|]; [|destruct Hrun as (_ & _ & -> & ->); apply path_refl].
    destruct Hrun as (ra & s1 & w1 & Hap & Hr).
    eapply (path_method strict (CallApprove id)); [by apply calls_discard | done | exact Hap |].
    destruct ra as [q|e|]; [|destruct Hr as (_ & -> & -> & _); apply path_refl..].
    destruct Hr as (rb & w2 & Hau & Hr).
    eapply (path_method strict (CallAuthorize (pe_task_id pe) o _)); [by apply calls_discard | done | exact Hau |].
    apply path_waits. destruct rb as [receipt|e|]; [by eapply ran_world | by destruct Hr as (_ & -> & _)..].
  - apply gate_deny_run in Hrun.
    destruct (approval_index g !! id) as [o|]; [|destruct Hrun as (_ & _ & -> & ->); apply path_refl].
    destruct Hrun as (ra & Hde & _).
    eapply (path_method strict (CallDeny id)); [by apply calls_discard | done | exact Hde | apply path_refl].
  - apply gate_expire_run in Hrun as (ra & Hex & _).
    eapply (path_method strict CallExpire); [by apply calls_discard | done | exact Hex | apply path_refl].
  - apply gate_cancel_run in Hrun as (ra & Hca & _).
    eapply (path_method strict (CallCancel t)); [by apply calls_discard | done | exact Hca | apply path_refl].
  - apply on_supervisor_run in Hrun as [_ [r0 Hrun]].
    eapply path_call; [exact Hd | exact Hrun | apply path_refl].
Qed.

Context `{!ContextualOperation O, !ContextualLaws O}.
Variable P : O -> Prop.

(** A gate stays on its runs while others use the supervisor. *)
Lemma facade_follows strict a g s w s' w' :
  reachable_facade P strict a g s w -> sup_path strict s w s' w' -> reachable_facade P strict a g s' w'.
Proof.
  intros Hf Hp. induction Hp as [s w|s w w1 s2 w2 Hw _ IH|s w c r s1 w1 s2 w2 Hd Hrun _ IH]; [done | |].
  - apply IH. by eapply facade_time.
  - apply IH. assert (Hrun' : exists r', run_gate_call (GateOther c) (g, s) w = (r', (g, s1), w1)).
    { simpl. unfold on_supervisor, zoom, map_err. simpl. rewrite Hrun. destruct r; by eexists. }
    destruct Hrun' as [r' Hrun']. by eapply (facade_call P strict a g s w (GateOther c)).
Qed.

Lemma facade_request_path strict t op ttl g s w r g' s' w' :
  facade_request t op ttl (g, s) w = (r, (g', s'), w') -> sup_path strict s w s' w'.
Proof.
  intros Hrun. apply facade_request_run in Hrun. destruct (execution_context s t) as [c|e].
  - assert (Hrun' : exists r', run_gate_call (GateRequest t (with_context c op) ttl) (g, s) w = (r', (g', s'), w')).
    { simpl. unfold ignore, bind. rewrite Hrun. destruct r; by eexists. }
    destruct Hrun' as [r' Hrun']. eapply gate_call_path; [|exact Hrun']. done.
  - destruct Hrun as (_ & _ & -> & ->). apply path_refl.
Qed.

Lemma facade_inv strict a g s w : reachable_facade P strict a g s w -> gated_inv strict g s w.
Proof. intros Hf. by eapply reachable_gated_inv, facade_gated. Qed.

End OneGate.
End Paths.

(** ** What a gate's answer says of the task *)

Section Answers.
Context `{EnvLaws} {A O Output Error S : Type}.
Context `{GuardedOperation O, !ContextualOperation O, !ContextualLaws O}.
Context `{!ExecutionAdapter A O Output Error, !AdapterLaws A O Output Error, EventStoreLaws S}.
Implicit Types (g : ExecutionGate A O) (s : TaskSupervisor S) (op : O).

Definition running s t : Prop := exists rec, tasks s !! t = Some rec /\ state rec = Running.

(** Whatever the gate retains under the approval belongs to the task. *)
Definition retained g (id : ApprovalId) (t : TaskId) : Prop :=
  forall o pe, gate_pending g !! o = Some pe -> pe_approval_id pe = id -> pe_task_id pe = t.

(** The adapter can panic. *)
Definition adapter_panics : Prop := exists op (a : A) w, (execute op a w).1.1 = Panic.

Lemma adapter_panicked op (a : A) w a' w' : execute op a w = (Panic, a', w') -> adapter_panics.
Proof. intros He. exists op, a, w. by rewrite He. Qed.

Lemma running_same s s' t : tasks s' = tasks s -> running s t -> running s' t.
Proof. intros E (rec & ? & ?). exists rec. by rewrite E. Qed.

Lemma request_answer strict t op ttl g s w r g' s' w' :
  gated_inv strict g s w -> facade_request t op ttl (g, s) w = (r, (g', s'), w') ->
  match r with
  | Return (OutcomeExecuted _) | Return (OutcomeDenied _) | Raise (ExecutionAdapterFailed _) => running s' t
  | Return (OutcomeApprovalRequired q) =>
      task_state s' t = Some WaitingApproval /\ retained g' (request_approval_id q) t
  | Raise (ExecutionSupervisor _) => True
  | Raise OperationNotFound => False
  | Panic => adapter_panics
  end.
Proof.
  intros Hi Hrun. apply facade_request_run in Hrun.
  destruct (execution_context s t) as [c|e]; [|by destruct Hrun as (-> & _)].
  pose proof (gate_request_inv _ _ _ _ _ _ _ _ _ _ _ Hi Hrun) as [[_ Hg' _] _].
  apply gate_request_run in Hrun as (ra & w1 & Hrq & Hr).
  pose proof (wp_run _ _ _ _ _ _ _ (wp_request_operation strict t _ ttl s w (ga_supervisor _ _ _ _ Hi)) Hrq)
    as (_ & _ & s1 & w2 & _ & _ & Hres & _).
  destruct ra as [[|reason|q]|e|]; simpl in Hres.
  - destruct Hres as (rec & Hrec & Hst & _ & Es & _).
    assert (Hrn : running s' t) by (exists rec; by rewrite Es).
    destruct Hr as (rx & He & -> & _). destruct rx; simpl; try done. exact (adapter_panicked _ _ _ _ _ He).
  - destruct Hres as (rec & Hrec & Hst & _ & Es & _). destruct Hr as (_ & _ & ->).
    exists rec. by rewrite Es.
  - destruct Hres as (rec & k & es' & Hrec & _ & _ & _ & _ & _ & _ & _ & _ & -> & _).
    destruct Hr as (-> & _ & ->). split.
    + unfold task_state. simpl. by rewrite lookup_insert_eq.
    + intros o pe Hpe Hid.
      assert (Hnew : gate_pending (retain t (with_context c op) q g) !! request_operation_id q
        = Some (mk_PendingExecution t (request_approval_id q) (with_context c op)))
        by (simpl; by rewrite lookup_insert_eq).
      assert (o = request_operation_id q) as ->
        by (by eapply (gate_index_unique _ _ _ _ _ _ Hg' Hpe Hnew)).
      by rewrite Hnew in Hpe; injection Hpe as <-.
  - by destruct Hr as (_ & _ & ->).
  - done.
Qed.

Lemma approve_answer strict t id g s w r g' s' w' :
  gated_inv strict g s w -> retained g id t -> approve_and_execute id (g, s) w = (r, (g', s'), w') ->
  match r with
  | Return _ | Raise (ExecutionAdapterFailed _) => running s' t
  | Raise _ => True
  | Panic => adapter_panics
  end.
Proof.
  intros Hi Hret Hrun. apply approve_and_execute_run in Hrun. pose proof (ga_supervisor _ _ _ _ Hi) as Hs.
  destruct (approval_index g !! id) as [o|] eqn:Hix; [|by destruct Hrun as (-> & _)].
  destruct (indexed_operation g w id o (ga_gate _ _ _ _ Hi) Hix) as (pe & Hpe & Hid). rewrite Hpe in Hrun.
  rewrite (Hret o pe Hpe Hid) in Hrun.
  destruct Hrun as (ra & s1 & w1 & Hap & Hr).
  pose proof (wp_run _ _ _ _ _ _ _ (wp_approve_operation strict id s w Hs) Hap) as (Hs1 & _ & Hres).
  destruct ra as [q|e|]; [|by destruct Hr as (_ & _ & _ & ->) |
    by destruct Hres as (? & ? & _ & _ & [] & _)].
  destruct Hr as (rb & w2 & Hau & Hr).
  pose proof (wp_run _ _ _ _ _ _ _ (wp_authorize_operation strict t o _ s1 w1 Hs1) Hau)
    as (_ & _ & Hauth).
  destruct rb as [receipt|e|]; [|by destruct Hr as (_ & _ & ->) | done].
  destruct Hauth as (rec & ao & Hrec & Hst & _ & _ & _ & _ & _ & _ & Es & _).
  assert (Hrn : running s' t) by (exists rec; by rewrite Es).
  destruct Hr as (rx & He & -> & _). destruct rx; simpl; try done. exact (adapter_panicked _ _ _ _ _ He).
Qed.

Lemma deny_answer strict t id g s w q g' s' w' :
  gated_inv strict g s w -> retained g id t ->
  gate_deny (Error := Error) id (g, s) w = (Return q, (g', s'), w') -> task_state s' t = Some Failed.
Proof.
  intros Hi Hret Hrun. apply gate_deny_run in Hrun. pose proof (ga_supervisor _ _ _ _ Hi) as Hs.
  destruct (approval_index g !! id) as [o|] eqn:Hix; [|by destruct Hrun].
  destruct (indexed_operation g w id o (ga_gate _ _ _ _ Hi) Hix) as (pe & Hpe & Hid).
  destruct Hrun as (ra & Hde & Hr). destruct ra as [q'|e|]; [|by destruct Hr..].
  destruct (wp_run _ _ _ _ _ _ _ (wp_deny_operation strict id s w Hs) Hde)
    as (_ & _ & s1 & w1 & _ & Hex & Hres & _).
  destruct Hres as (po & rec & es' & Hpo & Hrec & _ & -> & _).
  assert (Ht : po_task_id po = t).
  { rewrite <-(Hret o pe Hpe Hid). rewrite (ga_linked _ _ _ _ Hi o pe po Hpe); [done|]. rewrite Hid.
    by eapply expires_subset. }
  unfold task_state. simpl. rewrite Ht. by rewrite lookup_insert_eq.
Qed.

Lemma cancel_answer strict t g s w c g' s' w' :
  gated_inv strict g s w -> gate_cancel (Error := Error) t (g, s) w = (Return c, (g', s'), w') ->
  exists q, task_state s' t = Some q /\ is_terminal q = true.
Proof.
  intros Hi Hrun. apply gate_cancel_run in Hrun as (ra & Hca & Hr). destruct ra as [v|e|]; [|by destruct Hr..].
  destruct (wp_run _ _ _ _ _ _ _ (wp_cancel strict t s w (ga_supervisor _ _ _ _ Hi)) Hca) as (_ & _ & Hres).
  destruct v.
  - destruct Hres as (cur & _ & _ & Hf). exists Cancelled. rewrite (fi_state _ _ _ _ _ _ Hf). by rewrite decide_True.
  - destruct Hres as (-> & cur & ? & ?). by exists cur.
Qed.

(** The other methods do not panic and retain nothing new. *)
Lemma retained_subset g g' id t :
  (forall o pe, gate_pending g' !! o = Some pe -> gate_pending g !! o = Some pe) ->
  retained g id t -> retained g' id t.
Proof. intros Hsub Hr o pe Hpe. by eapply Hr, Hsub. Qed.

Lemma running_context strict s w t :
  sup_inv strict s w -> running s t -> exists c, execution_context s t = Ok c.
Proof.
  intros Hs (rec & Hrec & Hst). unfold execution_context. rewrite Hrec. simpl.
  rewrite bool_decide_eq_true_2 by done. simpl.
  destruct (ro_started _ (ti_record _ _ (si_table _ _ _ Hs) _ _ Hrec)) as [n ->]; [by left|]. by eexists.
Qed.

Lemma running_state s t : running s t -> task_state s t = Some Running.
Proof. intros (rec & Hrec & Hst). unfold task_state. rewrite Hrec. by rewrite Hst. Qed.

End Answers.

(** An operation of the network catalog, with or without a context. *)
Definition net_prepared (op : TcpExchangeOperation) : Prop :=
  exists ip, validate_exchange (tcp_host op) (tcp_port op) (tcp_request op) = Ok ip.

Lemma net_prepared_context c op : net_prepared op -> net_prepared (with_context c op).
Proof. done. Qed.

Lemma prepare_net_prepared host port request op :
  prepare_tcp_exchange host port request = Ok op -> net_prepared op.
Proof.
  unfold prepare_tcp_exchange. destruct (validate_exchange host port request) as [ip|] eqn:Hv; simpl; [|done].
  intros [= <-]. by exists ip.
Qed.

Definition config_ok (c : AgentConfig) : Prop := 1 <= max_steps c <= MAX_MODEL_STEPS.

Lemma AgentConfig_new_ok n ttl c : 0 <= n -> AgentConfig_new n ttl = Ok c -> config_ok c.
Proof.
  intros Hn. unfold AgentConfig_new. destruct (_ || _) eqn:E; [done|]. intros [= <-]. bool_prop.
  unfold config_ok. simpl. lia.
Qed.

(** ** Steps of the runtime *)

Section Steps.
Context `{EnvLaws} {Mo Ses MErr HT N Sk S : Type}.
Context `{ModelLaws Mo Ses MErr} `{ToolHandlerLaws HT} `{SocketsLaws N Sk} `{EventStoreLaws S}.
Variables (strict : bool) (b : ToolAdapterBuilder HT) (na : NetworkAdapter N) (cf : AgentConfig).
Implicit Types (x : AgentRuntime Mo Ses HT N) (s : TaskSupervisor S) (t : TaskId).

(** Both gates are on runs of their facades, with the same supervisor. *)
Record base x s w : Prop := {
  ba_tool : reachable_facade (prepared b) strict (adapter (build b).2) (tool_gate x) s w;
  ba_network : forall n, agent_network x = Some n ->
    reachable_facade net_prepared strict na (network_gate n) s w;
  ba_catalog : tool_catalog x = (build b).1;
  ba_config : config x = cf /\ config_ok cf;
}.

Lemma base_gated x s w : base x s w -> gated_inv strict (tool_gate x) s w.
Proof. intros Hb. eapply facade_inv, Hb. Qed.

Lemma base_sup x s w : base x s w -> sup_inv strict s w.
Proof. intros Hb. exact (ga_supervisor _ _ _ _ (base_gated _ _ _ Hb)). Qed.

Lemma base_follows x s w s' w' : base x s w -> sup_path strict s w s' w' -> base x s' w'.
Proof.
  intros [Ht Hn Hc Hcf] Hp. split; [by eapply facade_follows | | done | done].
  intros n Hx. eapply facade_follows; [by apply Hn | done].
Qed.

Lemma base_time x s w w' : base x s w -> world_le w w' -> base x s w'.
Proof. intros Hb Hw. eapply base_follows; [done | by apply path_waits]. Qed.

(** Fields that the two gates do not depend on. *)
Lemma base_active x s w a : base x s w -> base (set_active a x) s w.
Proof. by intros []. Qed.

Lemma base_model x s w mo : base x s w -> base (set_model mo x) s w.
Proof. by intros []. Qed.

Lemma wp_ask_supervisor {B} c (m : M (TaskSupervisor S) SupervisorError B) x s w
    (Q : outcome B AgentError -> AgentRuntime Mo Ses HT N * TaskSupervisor S -> World -> Prop) :
  base x s w -> calls m c -> (strict = true -> disciplined s c) ->
  wp m (fun r s' w' => base x s' w' ->
    match r with
    | Return v => Q (Return v) (x, s') w'
    | Raise e => Q (Raise (AgentSupervisor e)) (x, s') w'
    | Panic => False
    end) s w ->
  wp (ask_supervisor m) Q (x, s) w.
Proof.
  intros Hb Hc Hd Hm. unfold ask_supervisor. wp_step. wp_step. simpl. revert Hm. unfold wp.
  destruct (m s w) as [[r s'] w'] eqn:Hrun. intros HQ.
  assert (Hb' : base x s' w').
  { eapply base_follows; [done|]. eapply path_method; [done | done | done | apply path_refl]. }
  specialize (HQ Hb'). by destruct r.
Qed.

Lemma base_tool_gate c x s w r g' s' w' :
  base x s w -> (strict = true -> gate_disciplined s c) -> (forall t op ttl, c <> GateRequest t op ttl) ->
  run_gate_call c (tool_gate x, s) w = (r, (g', s'), w') -> base (set_tool_gate g' x) s' w'.
Proof.
  intros [Ht Hn Hc Hcf] Hd Hreq Hrun. split; simpl; [by eapply facade_call | | done | done].
  intros n Hx. eapply facade_follows; [by apply Hn | exact (gate_call_path strict c _ _ _ _ _ _ _ Hd Hrun)].
Qed.

Lemma base_tool_request t op ttl x s w r g' s' w' :
  base x s w -> prepared b op -> ToolExecutionGate_request t op ttl (tool_gate x, s) w = (r, (g', s'), w') ->
  base (set_tool_gate g' x) s' w'.
Proof.
  intros [Ht Hn Hc Hcf] Hp Hrun. split; simpl; [by eapply facade_requested | | done | done].
  intros n Hx. eapply facade_follows; [by apply Hn | exact (facade_request_path strict t op ttl _ _ _ _ _ _ _ Hrun)].
Qed.

Definition set_network_gate (g : ExecutionGate (NetworkAdapter N) TcpExchangeOperation) x :=
  set_network (Some (mk_AgentNetwork g)) x.

Lemma base_network_gate c n x s w r g' s' w' :
  base x s w -> agent_network x = Some n ->
  (strict = true -> gate_disciplined s c) -> (forall t op ttl, c <> GateRequest t op ttl) ->
  run_gate_call c (network_gate n, s) w = (r, (g', s'), w') -> base (set_network_gate g' x) s' w'.
Proof.
  intros [Ht Hn Hc Hcf] Hx Hd Hreq Hrun. split; simpl; [|intros ? [= <-] | done | done].
  - eapply facade_follows; [done | exact (gate_call_path strict c _ _ _ _ _ _ _ Hd Hrun)].
  - simpl. eapply facade_call; [by apply Hn | done | done | done].
Qed.

Lemma base_network_request t op ttl n x s w r g' s' w' :
  base x s w -> agent_network x = Some n -> net_prepared op ->
  NetworkExecutionGate_request t op ttl (network_gate n, s) w = (r, (g', s'), w') ->
  base (set_network_gate g' x) s' w'.
Proof.
  intros [Ht Hn Hc Hcf] Hx Hp Hrun. split; simpl; [|intros ? [= <-] | done | done].
  - eapply facade_follows; [done | exact (facade_request_path strict t op ttl _ _ _ _ _ _ _ Hrun)].
  - simpl. eapply facade_requested; [by apply Hn | done | done].
Qed.

(** The answer of a gate as a value. *)
Definition answered {B E} (r : outcome B E) (v : Result B E) : Prop :=
  match r with Return a => v = Ok a | Raise e => v = Err e | Panic => False end.

Lemma wp_ask_tool_gate {B} (m : M (ExecutionGate (ToolAdapter HT) ToolOperation * TaskSupervisor S)
      (ExecutionError ToolAdapterError) B) x s w
    (Q : outcome (Result B (ExecutionError ToolAdapterError)) AgentError ->
         AgentRuntime Mo Ses HT N * TaskSupervisor S -> World -> Prop) :
  (forall r g' s' w', m (tool_gate x, s) w = (r, (g', s'), w') ->
     (forall v, answered r v -> Q (Return v) (set_tool_gate g' x, s') w')
     /\ (r = Panic -> Q Panic (set_tool_gate g' x, s') w')) ->
  wp (ask_tool_gate m) Q (x, s) w.
Proof.
  intros HQ. unfold ask_tool_gate. wp_step. wp_step. unfold wp. simpl.
  destruct (m (tool_gate x, s) w) as [[r [g' s']] w'] eqn:Hrun.
  destruct (HQ _ _ _ _ eq_refl) as [Hv Hp]. destruct r; [by apply Hv | by apply Hv | by apply Hp].
Qed.

Lemma wp_ask_network_gate {B} (m : M (ExecutionGate (NetworkAdapter N) TcpExchangeOperation * TaskSupervisor S)
      (ExecutionError NetworkAdapterError) B) n x s w
    (Q : outcome (Result B (ExecutionError NetworkAdapterError)) AgentError ->
         AgentRuntime Mo Ses HT N * TaskSupervisor S -> World -> Prop) :
  agent_network x = Some n ->
  (forall r g' s' w', m (network_gate n, s) w = (r, (g', s'), w') ->
     (forall v, answered r v -> Q (Return v) (set_network_gate g' x, s') w')
     /\ (r = Panic -> Q Panic (set_network_gate g' x, s') w')) ->
  wp (ask_network_gate m) Q (x, s) w.
Proof.
  intros Hx HQ. unfold ask_network_gate. wp_step. wp_step. wp_step. wp_step. simpl. rewrite Hx. simpl.
  wp_step. wp_step. unfold wp. simpl.
  destruct (m (network_gate n, s) w) as [[r [g' s']] w'] eqn:Hrun.
  destruct (HQ _ _ _ _ eq_refl) as [Hv Hp]. destruct r; [by apply Hv | by apply Hv | by apply Hp].
Qed.

Lemma wp_update f x s w
    (Q : outcome unit AgentError -> AgentRuntime Mo Ses HT N * TaskSupervisor S -> World -> Prop) :
  Q (Return tt) (f x, s) w -> wp (update f) Q (x, s) w.
Proof. done. Qed.

Lemma wp_update_active f a x s w
    (Q : outcome unit AgentError -> AgentRuntime Mo Ses HT N * TaskSupervisor S -> World -> Prop) :
  active x = Some a -> Q (Return tt) (set_active (Some (f a)) x, s) w -> wp (update_active f) Q (x, s) w.
Proof.
  intros Ha HQ. unfold update_active. wp_step. wp_step. wp_step. wp_step. simpl. rewrite Ha. simpl.
  by apply wp_update.
Qed.

(** Ending the session with the task. *)
Definition ended (t : TaskId) (next : TaskState) {B} (r : outcome B AgentError)
    (x' : AgentRuntime Mo Ses HT N * TaskSupervisor S) (w' : World) : Prop :=
  base x'.1 x'.2 w' /\ active x'.1 = None /\
  match r with
  | Return _ => task_state x'.2 t = Some next
  | Raise e => exists se, e = AgentSupervisor se
  | Panic => False
  end.

Lemma wp_end_active (m : M (TaskSupervisor S) SupervisorError unit) c t next x s w :
  base x s w -> calls m c -> disciplined s c ->
  wp m (fun r s' w' => match r with
                       | Return _ => task_state s' t = Some next
                       | Raise _ => True
                       | Panic => False
                       end) s w ->
  wp (do! update (set_active None) in ask_supervisor m) (ended t next) (x, s) w.
Proof.
  intros Hb Hc Hd Hm. wp_step. apply wp_update. apply (wp_ask_supervisor c); [by apply base_active | done | done |].
  eapply wp_mono; [exact Hm|]. intros [u|e|] s' w' Hr Hb'; [| |done]; split; try done; simpl; eauto.
Qed.

Lemma wp_fail_active t x s w : base x s w -> wp (fail_active t) (ended t Failed) (x, s) w.
Proof.
  intros Hb. eapply (wp_end_active _ (CallFail t)); [done | apply (calls_unit (CallFail t)) | done |].
  eapply wp_mono; [apply (wp_transition_terminal strict t Failed s w); [by eapply base_sup | done]|].
  intros [u|e|] s' w' (_ & _ & Hr); [| done | done]. destruct Hr as (cur & _ & _ & Hf).
  rewrite (fi_state _ _ _ _ _ _ Hf). by rewrite decide_True.
Qed.

Lemma wp_fail_budget_active t x s w : base x s w -> wp (fail_budget_active t) (ended t Failed) (x, s) w.
Proof.
  intros Hb. eapply (wp_end_active _ (CallFailBudget t)); [done | apply (calls_unit (CallFailBudget t)) | done |].
  eapply wp_mono; [apply (wp_fail_budget_exceeded strict t s w); by eapply base_sup|].
  intros [u|e|] s' w' (_ & _ & Hr); [| done | done]. destruct Hr as (cur & _ & _ & Hf).
  rewrite (fi_state _ _ _ _ _ _ Hf). by rewrite decide_True.
Qed.

Lemma wp_succeed_active t x s w :
  base x s w ->
  wp (do! update (set_active None) in ask_supervisor (succeed t)) (ended t Succeeded) (x, s) w.
Proof.
  intros Hb. eapply (wp_end_active _ (CallSucceed t)); [done | apply (calls_unit (CallSucceed t)) | done |].
  eapply wp_mono; [apply (wp_transition_terminal strict t Succeeded s w); [by eapply base_sup | done]|].
  intros [u|e|] s' w' (_ & _ & Hr); [| done | done]. destruct Hr as (cur & _ & _ & Hf).
  rewrite (fi_state _ _ _ _ _ _ Hf). by rewrite decide_True.
Qed.

End Steps.
