(* ===== verification/AgentRun.v ===== *)
(** * The loop of the agent runtime

    One turn, the whole loop and each public method: what they leave of the
    session and of its task. *)

From stdpp Require Import base numbers list gmap strings.
From Stdlib Require Import ZArith Lia.
From S2P Require Import Prelude RustStd RustNet TaskState TaskSpec Policy Event Approval Supervisor Recovery.
From S2P Require Import SupervisorInv SupervisorFacts SupervisorOps RecoveryFacts SupervisorRun SupervisorProps ApprovalProps.
From S2P Require Import Execution ExecutionProps Facade ToolAdapter ToolProps NetworkAdapter Agent AgentFacts.

(** Either way of failing the session's task. *)
Ltac agent_fails :=
  lazymatch goal with
  | |- wp (fail_active _) _ _ _ => apply wp_fail_active
  | |- wp (fail_budget_active _) _ _ _ => apply wp_fail_budget_active
  end.

Section Run.
Context `{EnvLaws} {Mo Ses MErr HT N Sk S : Type}.
Context `{ModelLaws Mo Ses MErr} `{ToolHandlerLaws HT} `{SocketsLaws N Sk} `{EventStoreLaws S}.
Variables (strict : bool) (b : ToolAdapterBuilder HT) (na : NetworkAdapter N) (cf : AgentConfig).
Implicit Types (x : AgentRuntime Mo Ses HT N) (s : TaskSupervisor S) (t : TaskId).

(** The model and the tool handlers always return. *)
Record calm : Prop := {
  calm_decide : forall q (ses : Ses) w, (decide_turn q ses w).1.1 <> Panic;
  calm_session : forall q (mo : Mo) w, (start_session q mo w).1.1 <> Panic;
  calm_handler : forall c args (h : HT) w, (handler_execute_for_task c args h w).1.1 <> Panic;
}.

(** A session that was asked for the decisions of steps 1 to [k], in order. *)
Inductive session_after : Z -> Ses -> Prop :=
| session_started q (mo : Mo) w ses mo' w' :
    start_session q mo w = (Return ses, mo', w') -> session_after 0 ses
| session_asked k ses previous w r ses' w' :
    session_after k ses ->
    decide_turn (mk_ModelTurnRequest (k + 1) previous) ses w = (r, ses', w') -> session_after (k + 1) ses'.

(** The loop is running: the session asks for step [k] next. *)
Record driving t k x s w : Prop := {
  dr_base : base strict b na cf x s w;
  dr_running : running s t;
  dr_step : 1 <= k <= max_steps cf + 1;
  dr_active : exists ses out, active x = Some (mk_ActiveSession t ses k out None) /\ session_after (k - 1) ses;
}.

(** The session waits for an approval. *)
Record waiting t (id : ApprovalId) x : Prop := {
  wt_active : exists ses k out ad, active x = Some (mk_ActiveSession t ses k out (Some (mk_AgentPendingApproval id ad)))
    /\ session_after (k - 1) ses /\ 2 <= k <= max_steps cf + 1
    /\ match ad with
       | PendingTool => retained (tool_gate x) id t
       | PendingNetwork => exists n, agent_network x = Some n /\ retained (network_gate n) id t
       end;
}.

(** How a run can end. *)
Definition concluded t (r : outcome AgentRunOutcome AgentError)
    (x : AgentRuntime Mo Ses HT N) s (w : World) : Prop :=
  match r with
  | Return (Completed _) => active x = None /\ task_state s t = Some Succeeded
  | Return (RunDenied _) => active x = None /\ task_state s t = Some Failed
  | Return (WaitingForApproval q) =>
      waiting t (request_approval_id q) x /\ task_state s t = Some WaitingApproval
  | Raise (AgentSupervisor _) => active x = None
  | Raise AgentInvalidState | Raise AgentCapacityExceeded | Raise AgentInvalidConfig => False
  | Raise _ => active x = None /\ task_state s t = Some Failed
  | Panic => ~ calm
  end.

Definition turned t k (r : outcome (option AgentRunOutcome) AgentError)
    (x' : AgentRuntime Mo Ses HT N * TaskSupervisor S) (w' : World) : Prop :=
  match r with
  | Return None => k <= max_steps cf /\ driving t (k + 1) x'.1 x'.2 w'
  | Return (Some o) => base strict b na cf x'.1 x'.2 w' /\ concluded t (Return o) x'.1 x'.2 w'
  | Raise e => base strict b na cf x'.1 x'.2 w' /\ concluded t (Raise e) x'.1 x'.2 w'
  | Panic => ~ calm
  end.

(** Ending with an error: the session is gone and the task failed, unless the
    supervisor could not record it. *)
Lemma wp_fail_with {B} t e (m : M (AgentRuntime Mo Ses HT N * TaskSupervisor S) AgentError unit) x s w
    (Q : outcome B AgentError -> AgentRuntime Mo Ses HT N * TaskSupervisor S -> World -> Prop) :
  wp m (ended strict b na cf t Failed) (x, s) w ->
  (forall x' s' w', base strict b na cf x' s' w' -> active x' = None -> task_state s' t = Some Failed ->
     Q (Raise e) (x', s') w') ->
  (forall x' s' w' se, base strict b na cf x' s' w' -> active x' = None -> Q (Raise (AgentSupervisor se)) (x', s') w') ->
  wp (do! m in throw e) Q (x, s) w.
Proof.
  intros Hm He Hs. wp_step. eapply wp_mono; [exact Hm|].
  intros [u|e'|] [x' s'] w' (Hb & Ha & Hr); [|destruct Hr as [se ->]; by apply Hs | done]. wp_step. by apply He.
Qed.

Lemma wp_out_of_wall_time t x s w
    (Q : outcome bool AgentError -> AgentRuntime Mo Ses HT N * TaskSupervisor S -> World -> Prop) :
  base strict b na cf x s w -> running s t ->
  (forall late w', world_le w w' -> Q (Return late) (x, s) w') -> wp (out_of_wall_time t) Q (x, s) w.
Proof.
  intros Hb Hr HQ. unfold out_of_wall_time. wp_step. wp_step. wp_step. wp_step. simpl.
  destruct (running_context _ _ _ _ (base_sup _ _ _ _ _ _ _ Hb) Hr) as [c ->]. simpl.
  wp_step. wp_step. wp_step. apply HQ. split; simpl; lia.
Qed.

Lemma tool_panics_only_in_handlers : adapter_panics (A := ToolAdapter HT) (O := ToolOperation) -> ~ calm.
Proof.
  intros (op & a & w & Hp) Hc. revert Hp. change (execute op a w) with (tool_execute op a w).
  unfold tool_execute, bind, lift. destruct (validate_arguments _) as [[]|]; [|done]. simpl.
  destruct (op_execution_context op) as [c|]; [|done]. simpl.
  destruct (Duration_is_zero _); [done|]. simpl.
  destruct (adapter_definitions a !! op_route op) as [d|]; [|done]. simpl.
  destruct (_ || _); [done|]. unfold run_handler. destruct (adapter_handlers a !! op_route op) as [h|]; [|done].
  unfold map_err. pose proof (calm_handler Hc c (op_arguments op) h) as Hh.
  match goal with |- context [handler_execute_for_task c (op_arguments op) h ?w1] => specialize (Hh w1) end.
  by destruct (handler_execute_for_task _ _ _ _) as [[[] ?] ?].
Qed.

Lemma network_never_panics : ~ adapter_panics (A := NetworkAdapter N) (O := TcpExchangeOperation).
Proof.
  intros (op & a & w & Hp). change (execute op a w) with (network_execute op a w) in Hp.
  pose proof (wp_network_execute op a w) as Hwp. unfold wp in Hwp.
  destruct (network_execute op a w) as [[r a'] w']. destruct Hwp as (_ & _ & Hn & _). by destruct Hn.
Qed.

(** The ways a turn ends with an error. *)
Lemma wp_turn_fails t k e (m : M (AgentRuntime Mo Ses HT N * TaskSupervisor S) AgentError unit) x s w :
  wp m (ended strict b na cf t Failed) (x, s) w ->
  match e with
  | AgentInvalidDecision | AgentStepLimitExceeded | AgentModelFailed | AgentToolFailed
  | AgentNetworkFailed | AgentBudgetExceeded => True
  | _ => False
  end ->
  wp (do! m in throw e) (turned t k) (x, s) w.
Proof.
  intros Hm He. eapply wp_fail_with; [exact Hm | |].
  - intros x' s' w' Hb Ha Hst. by destruct e.
  - by intros x' s' w' se Hb Ha.
Qed.

Lemma wp_turn_denied t k reason x s w :
  base strict b na cf x s w ->
  wp (do! fail_active t in ret (Some (RunDenied reason))) (turned t k) (x, s) w.
Proof.
  intros Hb. wp_step. eapply wp_mono; [by apply wp_fail_active|].
  intros [u|e'|] [x' s'] w' (Hb' & Ha & Hr); [|destruct Hr as [se ->]; by split | done]. by wp_step.
Qed.

Lemma wp_after_tool t k answer x s w :
  base strict b na cf x s w -> 1 <= k <= max_steps cf ->
  (exists ses out, active x = Some (mk_ActiveSession t ses (k + 1) out None) /\ session_after k ses) ->
  match answer with
  | Ok (OutcomeExecuted _) => running s t
  | Ok (OutcomeApprovalRequired q) =>
      task_state s t = Some WaitingApproval /\ retained (tool_gate x) (request_approval_id q) t
  | _ => True
  end ->
  wp (after_tool t answer) (turned t k) (x, s) w.
Proof.
  intros Hb Hk (ses & out & Ha & Hses) Hans. destruct answer as [[executed|reason|q]|[e|e|]]; simpl.
  - wp_step. eapply wp_update_active; [done|]. wp_step. split; [lia|]. split; [by apply base_active | exact Hans | lia |].
    eexists _, _. split; [reflexivity|]. by replace (k + 1 - 1) with k by lia.
  - by apply wp_turn_denied.
  - destruct Hans as [Hst Hret]. wp_step. eapply wp_update_active; [done|]. wp_step.
    split; [by apply base_active|]. split; [|done]. split. eexists ses, (k + 1), out, PendingTool.
    split_and!; [done | by replace (k + 1 - 1) with k by lia | lia | lia | done].
  - wp_step. apply wp_update. wp_step. split; [by apply base_active | done].
  - destruct e; (apply wp_turn_fails; [|done]); by agent_fails.
  - apply wp_turn_fails; [by agent_fails | done].
Qed.

Lemma wp_after_network t k answer x s w :
  base strict b na cf x s w -> 1 <= k <= max_steps cf ->
  (exists ses out, active x = Some (mk_ActiveSession t ses (k + 1) out None) /\ session_after k ses) ->
  match answer with
  | Ok (OutcomeExecuted _) => running s t
  | Ok (OutcomeApprovalRequired q) => task_state s t = Some WaitingApproval
      /\ exists n, agent_network x = Some n /\ retained (network_gate n) (request_approval_id q) t
  | _ => True
  end ->
  wp (after_network t answer) (turned t k) (x, s) w.
Proof.
  intros Hb Hk (ses & out & Ha & Hses) Hans. destruct answer as [[executed|reason|q]|[e|e|]]; simpl.
  - wp_step. eapply wp_update_active; [done|]. wp_step. split; [lia|]. split; [by apply base_active | exact Hans | lia |].
    eexists _, _. split; [reflexivity|]. by replace (k + 1 - 1) with k by lia.
  - by apply wp_turn_denied.
  - destruct Hans as [Hst Hret]. wp_step. eapply wp_update_active; [done|]. wp_step.
    split; [by apply base_active|]. split; [|done]. split. eexists ses, (k + 1), out, PendingNetwork.
    split_and!; [done | by replace (k + 1 - 1) with k by lia | lia | lia | done].
  - wp_step. apply wp_update. wp_step. split; [by apply base_active | done].
  - destruct e; (apply wp_turn_fails; [|done]); by agent_fails.
  - apply wp_turn_fails; [by agent_fails | done].
Qed.

Lemma wp_act t k d x s w :
  k <= max_steps cf -> driving t (k + 1) x s w -> 1 <= k -> wp (act t d) (turned t k) (x, s) w.
Proof.
  intros Hmax [Hb Hrn _ (ses & out & Ha & Hses)] Hk. replace (k + 1 - 1) with k in Hses by lia.
  pose proof (base_sup _ _ _ _ _ _ _ Hb) as Hs. destruct d as [text|route args|host port request]; simpl.
  - wp_step. apply wp_update. wp_step.
    pose proof (wp_succeed_active strict b na cf t x s w Hb) as Hm. unfold wp, bind in Hm. simpl in Hm.
    unfold wp. destruct (ask_supervisor (succeed t) (set_active None x, s) w) as [[r [x' s']] w'].
    destruct Hm as (Hb' & Ha' & Hr). destruct r as [u|e|]; [|destruct Hr as [se ->]; by split | done]. by split.
  - wp_step. wp_step. cbn beta iota. cbn [fst]. rewrite (ba_catalog _ _ _ _ _ _ _ Hb).
    destruct (prepare (build b).1 route args) as [op|e] eqn:Hprep.
    2:{ apply wp_turn_fails; [by agent_fails | done]. }
    apply prepare_prepared in Hprep as [Hp _]. wp_step. wp_step. wp_step. apply wp_ask_tool_gate.
    intros r g' s' w' Hrun.
    pose proof (base_tool_request _ _ _ _ _ _ _ _ _ _ _ _ _ _ Hb Hp Hrun) as Hb'.
    pose proof (request_answer strict _ _ _ _ _ _ _ _ _ _ (base_gated _ _ _ _ _ _ _ Hb) Hrun) as Hans.
    split.
    + intros v Hv. apply wp_after_tool; [done | done | by exists ses, out |].
      destruct r as [o|e|]; simpl in Hv; [subst v; by destruct o | by subst v | done].
    + intros ->. by apply tool_panics_only_in_handlers.
  - wp_step. wp_step. cbn beta iota. cbn [fst]. destruct (agent_network x) as [n|] eqn:Hn.
    2:{ apply wp_turn_fails; [by agent_fails | done]. }
    destruct (prepare_tcp_exchange host port request) as [op|e] eqn:Hprep.
    2:{ apply wp_turn_fails; [by agent_fails | done]. }
    apply prepare_net_prepared in Hprep as Hp. wp_step. wp_step. wp_step.
    eapply wp_ask_network_gate; [exact Hn|]. intros r g' s' w' Hrun.
    pose proof (base_network_request _ _ _ _ _ _ _ _ _ _ _ _ _ _ _ Hb Hn Hp Hrun) as Hb'.
    pose proof (request_answer strict _ _ _ _ _ _ _ _ _ _
      (facade_inv _ _ _ _ _ _ (ba_network _ _ _ _ _ _ _ Hb n Hn)) Hrun) as Hans.
    split.
    + intros v Hv. apply wp_after_network; [done | done | by exists ses, out |].
      destruct r as [o|e|]; simpl in Hv; [subst v | by subst v | done].
      destruct o; [done | done |]. destruct Hans. split; [done|]. by eexists.
    + intros ->. by apply network_never_panics in Hans.
Qed.

Lemma wp_ask_model t ses k out x s w
    (Q : outcome (Result ModelDecision MErr) AgentError ->
         AgentRuntime Mo Ses HT N * TaskSupervisor S -> World -> Prop) :
  active x = Some (mk_ActiveSession t ses k out None) -> session_after (k - 1) ses ->
  (forall v ses' w', world_le w w' -> session_after k ses' ->
     Q (Return v) (set_active (Some (mk_ActiveSession t ses' k out None)) x, s) w') ->
  (forall y w', ~ calm -> Q Panic y w') ->
  wp ask_model Q (x, s) w.
Proof.
  intros Ha Hses HQ HP. unfold ask_model. wp_step. wp_step. wp_step. wp_step. cbn [fst]. rewrite Ha.
  cbn [ok_or]. wp_step. wp_step. unfold wp. cbn [active_model next_step active_previous_output].
  pose proof (decide_world (mk_ModelTurnRequest k out) ses w) as Hw.
  destruct (decide_turn (mk_ModelTurnRequest k out) ses w) as [[r ses'] w'] eqn:Hd.
  assert (Hses' : r <> Panic -> session_after k ses').
  { intros _. replace k with (k - 1 + 1) by lia. eapply session_asked; [done|].
    replace (k - 1 + 1) with k by lia. exact Hd. }
  destruct r as [d|e|]; [apply HQ; [done | by apply Hses'] .. |].
  apply HP. intros Hc. apply (calm_decide Hc (mk_ModelTurnRequest k out) ses w). by rewrite Hd.
Qed.

Lemma wp_count_step a x s w
    (Q : outcome unit AgentError -> AgentRuntime Mo Ses HT N * TaskSupervisor S -> World -> Prop) :
  active x = Some a -> next_step a < u16_max ->
  Q (Return tt) (set_active (Some (with_next_step (next_step a + 1) a)) x, s) w -> wp count_step Q (x, s) w.
Proof.
  intros Ha Hlt HQ. unfold count_step. wp_step. wp_step. wp_step. wp_step. cbn [fst]. rewrite Ha. cbn [ok_or].
  unfold checked_add. rewrite (proj2 (Z.leb_le _ _)) by lia. by apply wp_update.
Qed.

Lemma base_with_active x s w a : base strict b na cf x s w -> base strict b na cf (set_active a x) s w.
Proof. apply base_active. Qed.

(** One turn: it ends the run or counts one more step. *)
Lemma wp_drive_turn t k x s w : driving t k x s w -> wp drive_turn (turned t k) (x, s) w.
Proof.
  intros [Hb Hrn Hk (ses & out & Ha & Hses)]. destruct (ba_config _ _ _ _ _ _ _ Hb) as [Hcf [_ H64]].
  unfold drive_turn. wp_step. wp_step. wp_step. wp_step. cbn [fst]. rewrite Ha. cbn.
  wp_step. eapply wp_out_of_wall_time; [done | done |]. intros [] w1 Hw1; cbn beta iota.
  { apply wp_turn_fails; [|done]. apply wp_fail_budget_active. by eapply base_time. }
  assert (Hb1 : base strict b na cf x s w1) by by eapply base_time.
  wp_step. wp_step. cbn [fst]. rewrite Hcf. destruct (Z.ltb_spec (max_steps cf) k) as [Hlim|Hlim].
  { apply wp_turn_fails; [by apply wp_fail_active | done]. }
  wp_step. eapply wp_ask_model; [done | done | |done]. intros v ses' w2 Hw2 Hses'.
  assert (Hb2 : base strict b na cf (set_active (Some (mk_ActiveSession t ses' k out None)) x) s w2).
  { apply base_with_active. by eapply base_time. }
  destruct v as [d|e]; [|apply wp_turn_fails; [by apply wp_fail_active | done]].
  wp_step. eapply wp_out_of_wall_time; [done | done |]. intros [] w3 Hw3; cbn beta iota.
  { apply wp_turn_fails; [|done]. apply wp_fail_budget_active. by eapply base_time. }
  wp_step. eapply wp_count_step; [reflexivity | cbn; unfold u16_max, MAX_MODEL_STEPS in *; lia|].
  apply wp_act; [done | | lia]. split; [apply base_with_active; by eapply base_time | done | lia|].
  eexists ses', out. split; [done|]. by replace (k + 1 - 1) with k by lia.
Qed.

Definition finished_run t (r : outcome AgentRunOutcome AgentError)
    (x' : AgentRuntime Mo Ses HT N * TaskSupervisor S) (w' : World) : Prop :=
  concluded t r x'.1 x'.2 w' /\ (r <> Panic -> base strict b na cf x'.1 x'.2 w').

Lemma wp_drive_loop t : forall fuel k x s w,
  driving t k x s w -> max_steps cf + 2 <= k + Z.of_nat fuel ->
  wp (drive_loop fuel) (finished_run t) (x, s) w.
Proof.
  induction fuel as [|fuel IH]; intros k x s w Hd Hfuel.
  { destruct (dr_step _ _ _ _ _ Hd). lia. }
  simpl. wp_step. eapply wp_mono; [by apply (wp_drive_turn t k)|].
  intros [[o|]|e|] [x' s'] w' Hr; simpl in Hr.
  - wp_step. destruct Hr. by split.
  - destruct Hr as [_ Hd']. eapply IH; [exact Hd' | lia].
  - destruct Hr. by split.
  - by split.
Qed.

Lemma wp_drive t k x s w : driving t k x s w -> wp drive (finished_run t) (x, s) w.
Proof.
  intros Hd. unfold drive. wp_step. wp_step. cbn [fst].
  destruct (ba_config _ _ _ _ _ _ _ (dr_base _ _ _ _ _ Hd)) as [-> [H1' _]]. destruct (dr_step _ _ _ _ _ Hd).
  eapply wp_drive_loop; [exact Hd | lia].
Qed.

(** ** The public methods *)

Definition agent_result {B E} (f : E -> AgentError) (r : outcome B E) : outcome B AgentError :=
  match r with Return v => Return v | Raise e => Raise (f e) | Panic => Panic end.

(** Between calls a session, if there is one, waits for an approval. *)
Definition resting x s w : Prop :=
  base strict b na cf x s w /\ (active x = None \/ exists t id, waiting t id x).

Lemma waiting_tool_gate t id g' x :
  (forall o pe, gate_pending g' !! o = Some pe -> gate_pending (tool_gate x) !! o = Some pe) ->
  waiting t id x -> waiting t id (set_tool_gate g' x).
Proof.
  intros Hsub [(ses & k & out & ad & Ha & Hses & Hk & Hret)]. split. exists ses, k, out, ad.
  split; [done|]. split; [done|]. split; [done|]. destruct ad; [by eapply retained_subset | done].
Qed.

Lemma waiting_network_gate t id g' n x :
  agent_network x = Some n ->
  (forall o pe, gate_pending g' !! o = Some pe -> gate_pending (network_gate n) !! o = Some pe) ->
  waiting t id x -> waiting t id (set_network_gate g' x).
Proof.
  intros Hn Hsub [(ses & k & out & ad & Ha & Hses & Hk & Hret)]. split. exists ses, k, out, ad.
  split; [done|]. split; [done|]. split; [done|]. destruct ad; [done|]. destruct Hret as (n' & Hn' & Hret).
  rewrite Hn in Hn'. injection Hn' as <-. eexists. split; [done|]. by eapply retained_subset.
Qed.

(** Denying, expiring and cancelling through a gate. *)
Definition settled {B E} (f : E -> AgentError) x (run : outcome B E -> TaskSupervisor S -> World -> Prop)
    (r : outcome B AgentError) (y : AgentRuntime Mo Ses HT N * TaskSupervisor S) (w' : World) : Prop :=
  base strict b na cf y.1 y.2 w' /\ active y.1 = active x
  /\ (forall t id, waiting t id x -> waiting t id y.1)
  /\ exists r0, run r0 y.2 w' /\ r = agent_result f r0.

Lemma wp_tool_method {B} c m x s w :
  base strict b na cf x s w -> (strict = true -> gate_disciplined s c) ->
  (forall t op ttl, c <> GateRequest t op ttl) -> run_gate_call c = ignore m ->
  wp (let! r := ask_tool_gate m in or_agent map_tool_error r)
     (settled map_tool_error x (fun (r0 : outcome B _) s' w' => exists g', m (tool_gate x, s) w = (r0, (g', s'), w')))
     (x, s) w.
Proof.
  intros Hb Hd Hc Hm. wp_step. apply wp_ask_tool_gate. intros r g' s' w' Hrun.
  assert (Hcall : exists r', run_gate_call c (tool_gate x, s) w = (r', (g', s'), w')).
  { rewrite Hm. unfold ignore, bind. rewrite Hrun. destruct r; by eexists. }
  destruct Hcall as [r' Hcall].
  assert (Hs : forall r1, r1 = agent_result map_tool_error r ->
    settled map_tool_error x (fun (r0 : outcome B _) s' w' => exists g', m (tool_gate x, s) w = (r0, (g', s'), w'))
      r1 (set_tool_gate g' x, s') w').
  { intros r1 ->. split_and!; simpl; [by eapply base_tool_gate | done | |by eexists; split; [exists g'|]].
    intros t id. apply waiting_tool_gate. intros o pe. by eapply gate_call_subset. }
  split; [|intros ->; by apply Hs].
  intros v Hv. unfold or_agent. wp_step. destruct r as [v'|e|]; simpl in Hv; [subst v; by apply Hs..|done].
Qed.

Lemma wp_network_method {B} c m n x s w :
  base strict b na cf x s w -> agent_network x = Some n -> (strict = true -> gate_disciplined s c) ->
  (forall t op ttl, c <> GateRequest t op ttl) -> run_gate_call c = ignore m ->
  wp (let! r := ask_network_gate m in or_agent map_network_error r)
     (settled map_network_error x (fun (r0 : outcome B _) s' w' => exists g', m (network_gate n, s) w = (r0, (g', s'), w')))
     (x, s) w.
Proof.
  intros Hb Hn Hd Hc Hm. wp_step. eapply wp_ask_network_gate; [done|]. intros r g' s' w' Hrun.
  assert (Hcall : exists r', run_gate_call c (network_gate n, s) w = (r', (g', s'), w')).
  { rewrite Hm. unfold ignore, bind. rewrite Hrun. destruct r; by eexists. }
  destruct Hcall as [r' Hcall].
  assert (Hs : forall r1, r1 = agent_result map_network_error r ->
    settled map_network_error x (fun (r0 : outcome B _) s' w' => exists g', m (network_gate n, s) w = (r0, (g', s'), w'))
      r1 (set_network_gate g' x, s') w').
  { intros r1 ->. split_and!; simpl; [by eapply base_network_gate | done | |by eexists; split; [exists g'|]].
    intros t id. eapply waiting_network_gate; [done|]. intros o pe. by eapply gate_call_subset. }
  split; [|intros ->; by apply Hs].
  intros v Hv. unfold or_agent. wp_step. destruct r as [v'|e|]; simpl in Hv; [subst v; by apply Hs..|done].
Qed.

Lemma wp_agent_start t x s w :
  base strict b na cf x s w -> (strict = true -> task_state s t <> Some WaitingApproval) -> active x = None ->
  wp (agent_start t) (finished_run t) (x, s) w.
Proof.
  intros Hb Hd Ha. unfold agent_start. wp_step. wp_step. cbn [fst]. rewrite Ha. cbn.
  wp_step. apply (wp_ask_supervisor strict b na cf (CallStartExecution t)); [done | by apply calls_discard | done |].
  eapply wp_mono; [apply (wp_start_execution strict t s w); [by eapply base_sup | done]|].
  intros [input|e|] s1 w1 (_ & _ & Hr) Hb1; [|by split | done].
  assert (Hrn : running s1 t).
  { destruct Hr as (r & k & _ & _ & _ & [E _] & _). rewrite E. eexists. simpl. by rewrite lookup_insert_eq. }
  wp_step. wp_step. cbn [fst]. wp_step. wp_step. wp_step. unfold wp at 1. cbn [fst].
  pose proof (session_world (start_request x input) (model_adapter x) w1) as Hw.
  destruct (start_session (start_request x input) (model_adapter x) w1) as [[r mo'] w2] eqn:Hses.
  cbn [snd] in Hw. assert (Hb2 : base strict b na cf (set_model mo' x) s1 w2)
    by (apply base_model; by eapply base_time).
  destruct r as [ses|e|].
  - wp_step. apply wp_update. eapply (wp_drive t 1).
    destruct (ba_config _ _ _ _ _ _ _ Hb) as [_ [? _]].
    split; [by apply base_with_active | done | lia|]. exists ses, None. split; [done|]. by eapply session_started.
  - eapply wp_fail_with; [| |].
    + apply (wp_ask_supervisor strict b na cf (CallFail t)); [done | apply (calls_unit (CallFail t)) | done |].
      eapply wp_mono; [apply (wp_transition_terminal strict t Failed s1 w2); [by eapply base_sup | done]|].
      intros [u|e'|] s' w' (_ & _ & Hr') Hb'; [| |done]; (split; [done|]; split; [done|]).
      * destruct Hr' as (cur & _ & _ & Hf). simpl. rewrite (fi_state _ _ _ _ _ _ Hf). by rewrite decide_True.
      * by eexists.
    + by intros.
    + by intros.
  - split; [|done]. intros Hc. apply (calm_session Hc (start_request x input) (model_adapter x) w1). by rewrite Hses.
Qed.

Lemma require_pending_waiting t id x :
  waiting t id x -> exists ad, require_pending x id = Ok (t, ad) /\ pending_adapter x = Some ad
    /\ active_task x = Some t
    /\ match ad with
       | PendingTool => retained (tool_gate x) id t
       | PendingNetwork => exists n, agent_network x = Some n /\ retained (network_gate n) id t
       end.
Proof.
  intros [(ses & k & out & ad & Ha & _ & _ & Hret)]. exists ad.
  unfold require_pending, pending_adapter, active_task. rewrite Ha. simpl. by rewrite bool_decide_eq_true_2.
Qed.

Lemma wp_resume_with_output t id bytes x s w :
  base strict b na cf x s w -> waiting t id x -> running s t ->
  wp (resume_with_output bytes) (finished_run t) (x, s) w.
Proof.
  intros Hb [(ses & k & out & ad & Ha & Hses & Hk & _)] Hrn. unfold resume_with_output. wp_step.
  eapply wp_update_active; [done|]. apply (wp_drive t k).
  split; [by apply base_with_active | done | lia|]. by exists ses, (Some bytes).
Qed.

(** A resumed run ends like any other, or the approval was refused and the
    session still waits. *)
Definition resumed t id (r : outcome AgentRunOutcome AgentError)
    (y : AgentRuntime Mo Ses HT N * TaskSupervisor S) (w' : World) : Prop :=
  finished_run t r y w'
  \/ base strict b na cf y.1 y.2 w' /\ waiting t id y.1 /\ exists e, r = Raise (AgentSupervisor e).

Lemma wp_resume_fails t id e (m : M (AgentRuntime Mo Ses HT N * TaskSupervisor S) AgentError unit) x s w :
  wp m (ended strict b na cf t Failed) (x, s) w ->
  match e with AgentToolFailed | AgentNetworkFailed | AgentBudgetExceeded => True | _ => False end ->
  wp (do! m in throw e) (resumed t id) (x, s) w.
Proof.
  intros Hm He. eapply wp_fail_with; [exact Hm | |].
  - intros x' s' w' Hb Ha Hst. left. by destruct e.
  - intros x' s' w' se Hb Ha. by left.
Qed.

Lemma wp_approve_and_resume t id x s w :
  base strict b na cf x s w -> waiting t id x -> wp (approve_and_resume id) (resumed t id) (x, s) w.
Proof.
  intros Hb Hwt. destruct (require_pending_waiting t id x Hwt) as (ad & Hreq & _ & _ & Hret).
  unfold approve_and_resume. wp_step. wp_step. wp_step. wp_step. cbn [fst]. rewrite Hreq.
  destruct ad.
  - wp_step. apply wp_ask_tool_gate. intros r g' s' w' Hrun.
    pose proof (approve_answer strict t id _ _ _ _ _ _ _ (base_gated _ _ _ _ _ _ _ Hb) Hret Hrun) as Hans.
    assert (Hcall : exists r', run_gate_call (GateApprove id) (tool_gate x, s) w = (r', (g', s'), w')).
    { simpl. unfold ignore, bind. unfold ToolExecutionGate_approve_and_execute in Hrun. rewrite Hrun.
      destruct r; by eexists. }
    destruct Hcall as [r' Hcall].
    assert (Hb' : base strict b na cf (set_tool_gate g' x) s' w') 
      by (eapply (base_tool_gate strict b na cf (GateApprove id)); [done.. | exact Hcall]).
    assert (Hwt' : waiting t id (set_tool_gate g' x)).
    { apply waiting_tool_gate; [|done]. intros o pe. eapply gate_call_subset; [|exact Hcall]. done. }
    split; [|intros ->; left; split; [by apply tool_panics_only_in_handlers | done]].
    intros v Hv. destruct r as [ex|e|]; simpl in Hv; [subst v | subst v | done].
    + eapply wp_mono; [by eapply wp_resume_with_output|]. intros. by left.
    + destruct e as [e|e|]; [wp_step; right; by split_and!; [| |eexists] |
        destruct e; (apply wp_resume_fails; [by agent_fails | done]) |
        apply wp_resume_fails; [by agent_fails | done]].
  - destruct Hret as (n & Hn & Hret). wp_step. eapply wp_ask_network_gate; [done|]. intros r g' s' w' Hrun.
    pose proof (approve_answer strict t id _ _ _ _ _ _ _
      (facade_inv _ _ _ _ _ _ (ba_network _ _ _ _ _ _ _ Hb n Hn)) Hret Hrun) as Hans.
    assert (Hcall : exists r', run_gate_call (GateApprove id) (network_gate n, s) w = (r', (g', s'), w')).
    { simpl. unfold ignore, bind. unfold NetworkExecutionGate_approve_and_execute in Hrun. rewrite Hrun.
      destruct r; by eexists. }
    destruct Hcall as [r' Hcall].
    assert (Hb' : base strict b na cf (set_network_gate g' x) s' w') 
      by (eapply (base_network_gate strict b na cf (GateApprove id)); [done.. | exact Hcall]).
    assert (Hwt' : waiting t id (set_network_gate g' x)).
    { eapply waiting_network_gate; [done| |done]. intros o pe. eapply gate_call_subset; [|exact Hcall]. done. }
    split; [|intros ->; by apply network_never_panics in Hans].
    intros v Hv. destruct r as [ex|e|]; simpl in Hv; [subst v | subst v | done].
    + eapply wp_mono; [by eapply wp_resume_with_output|]. intros. by left.
    + destruct e as [e|e|]; [wp_step; right; by split_and!; [| |eexists] |
        destruct e; (apply wp_resume_fails; [by agent_fails | done]) |
        apply wp_resume_fails; [by agent_fails | done]].
Qed.

(** The adapter a method goes to, and that there is one. *)
Lemma pending_adapter_network x s w :
  resting x s w -> default PendingTool (pending_adapter x) = PendingNetwork -> is_Some (agent_network x).
Proof.
  intros [_ [Ha|(t & id & Hwt)]].
  - unfold pending_adapter. by rewrite Ha.
  - destruct (require_pending_waiting t id x Hwt) as (ad & _ & -> & _ & Hret). simpl. intros ->.
    destruct Hret as (n & -> & _). by eexists.
Qed.

Lemma resting_kept x s w y s' w' :
  resting x s w -> base strict b na cf y s' w' -> active y = active x ->
  (forall t id, waiting t id x -> waiting t id y) -> resting y s' w'.
Proof.
  intros [_ [Ha|(t & id & Hwt)]] Hb Hact Hk; (split; [done|]); [left; congruence | right; eauto].
Qed.

Lemma resting_none y s' w' : base strict b na cf y s' w' -> active y = None -> resting y s' w'.
Proof. by split; [|left]. Qed.

(** The methods that end operations without running the adapter. *)
Definition settles {O} (c : GateCall (O := O)) : Prop :=
  match c with GateDeny _ | GateExpire | GateCancel _ => True | _ => False end.

(** They do not panic. *)
Lemma settling_returns {A O Output Error B} `{GuardedOperation O, !ExecutionAdapter A O Output Error}
    c (m : M (ExecutionGate A O * TaskSupervisor S) (ExecutionError Error) B) g s w r g' s' w' :
  gated_inv strict g s w -> settles c -> run_gate_call c = ignore m ->
  m (g, s) w = (r, (g', s'), w') -> r <> Panic.
Proof.
  intros Hi Hc Hm Hrun ->. pose proof (ga_supervisor _ _ _ _ Hi) as Hs.
  assert (Hig : ignore m (g, s) w = (Panic, (g', s'), w')) by (unfold ignore, bind; by rewrite Hrun).
  rewrite <-Hm in Hig. destruct c as [? ? ?|?|id| |t|?]; try done; simpl in Hig; unfold ignore, bind in Hig.
  - destruct (gate_deny id (g, s) w) as [[[q|e|] [g1 s1]] w1] eqn:E; [done | done |].
    apply gate_deny_run in E. destruct (approval_index g !! id); [|by destruct E].
    destruct E as (ra & Hde & Hr). destruct ra; [by destruct Hr..|].
    by destruct (wp_run _ _ _ _ _ _ _ (wp_deny_operation strict id s w Hs) Hde) as (_ & _ & ? & ? & _ & _ & [] & _).
  - destruct (gate_expire (g, s) w) as [[[q|e|] [g1 s1]] w1] eqn:E; [done | done |].
    apply gate_expire_run in E as (ra & Hex & Hr). destruct ra; [by destruct Hr..|].
    by destruct (wp_run _ _ _ _ _ _ _ (wp_expire_approvals strict s w Hs) Hex) as (_ & _ & _ & []).
  - destruct (gate_cancel t (g, s) w) as [[[q|e|] [g1 s1]] w1] eqn:E; [done | done |].
    apply gate_cancel_run in E as (ra & Hca & Hr). destruct ra; [by destruct Hr..|].
    by destruct (wp_run _ _ _ _ _ _ _ (wp_cancel strict t s w Hs) Hca) as (_ & _ & []).
Qed.

(** The errors of a gate's method. *)
Lemma tool_error_valid e : map_tool_error e <> AgentInvalidState /\ map_tool_error e <> AgentCapacityExceeded.
Proof. destruct e as [e|e|]; [done | by destruct e | done]. Qed.

Lemma network_error_valid e :
  map_network_error e <> AgentInvalidState /\ map_network_error e <> AgentCapacityExceeded.
Proof. destruct e as [e|e|]; [done | by destruct e | done]. Qed.

(** Such a method on the adapter the session waits for, with what it says of
    the supervisor when it returns. *)
Lemma wp_settle {B} ct cn (mt : M _ (ExecutionError ToolAdapterError) B)
    (mn : M _ (ExecutionError NetworkAdapterError) B) (P : B -> TaskSupervisor S -> Prop) ad x s w :
  base strict b na cf x s w -> (ad = PendingNetwork -> is_Some (agent_network x)) ->
  settles ct -> settles cn -> run_gate_call ct = ignore mt -> run_gate_call cn = ignore mn ->
  (forall q g' s' w', ad = PendingTool -> gated_inv strict (tool_gate x) s w ->
     mt (tool_gate x, s) w = (Return q, (g', s'), w') -> P q s') ->
  (forall n q g' s' w', ad = PendingNetwork -> agent_network x = Some n ->
     gated_inv strict (network_gate n) s w ->
     mn (network_gate n, s) w = (Return q, (g', s'), w') -> P q s') ->
  wp (match ad with
      | PendingTool => let! r := ask_tool_gate mt in or_agent map_tool_error r
      | PendingNetwork => let! r := ask_network_gate mn in or_agent map_network_error r
      end)
     (fun r y w' => base strict b na cf y.1 y.2 w' /\ active y.1 = active x
        /\ (forall t id, waiting t id x -> waiting t id y.1)
        /\ match r with
           | Return q => P q y.2
           | Raise e => e <> AgentInvalidState /\ e <> AgentCapacityExceeded
           | Panic => False
           end) (x, s) w.
Proof.
  intros Hb Hnet Hct Hcn Hmt Hmn HPt HPn. destruct ad.
  - pose proof (base_gated _ _ _ _ _ _ _ Hb) as Hg.
    eapply wp_mono; [eapply (wp_tool_method ct); [done | by destruct ct | by destruct ct | done]|].
    intros r y w' (? & ? & ? & r0 & [g' Hrun] & ->). split_and!; try done.
    pose proof (settling_returns ct mt _ _ _ _ _ _ _ Hg Hct Hmt Hrun).
    destruct r0 as [q|e|]; [by eapply HPt | apply tool_error_valid | done].
  - destruct (Hnet eq_refl) as [n Hn].
    pose proof (facade_inv _ _ _ _ _ _ (ba_network _ _ _ _ _ _ _ Hb n Hn)) as Hg.
    eapply wp_mono; [eapply (wp_network_method cn); [done | done | by destruct cn | by destruct cn | done]|].
    intros r y w' (? & ? & ? & r0 & [g' Hrun] & ->). split_and!; try done.
    pose proof (settling_returns cn mn _ _ _ _ _ _ _ Hg Hcn Hmn Hrun).
    destruct r0 as [q|e|]; [by eapply HPn | apply network_error_valid | done].
Qed.

End Run.
