(* ===== verification/AgentProps.v ===== *)
(** * Properties of the agent runtime *)

From stdpp Require Import base numbers list gmap strings.
From Stdlib Require Import ZArith Lia.
From S2P Require Import Prelude RustStd RustNet TaskState TaskSpec Policy Event Approval Supervisor Recovery.
From S2P Require Import SupervisorInv SupervisorFacts SupervisorOps RecoveryFacts SupervisorRun SupervisorProps ApprovalProps.
From S2P Require Import Execution ExecutionProps Facade ToolAdapter ToolProps NetworkAdapter Agent AgentFacts AgentRun.

(** ** Calls of the runtime *)

Inductive AgentCall :=
| AgentStart (t : TaskId)
| AgentApprove (id : ApprovalId)
| AgentDeny (id : ApprovalId)
| AgentExpire
| AgentCancel (t : TaskId)
| AgentOther (c : Call).

Section Calls.
Context `{EnvLaws} {Mo Ses MErr HT N Sk S : Type}.
Context `{ModelLaws Mo Ses MErr} `{ToolHandlerLaws HT} `{SocketsLaws N Sk} `{EventStoreLaws S}.
Variables (strict : bool) (b : ToolAdapterBuilder HT) (na : NetworkAdapter N) (cf : AgentConfig).
Implicit Types (x : AgentRuntime Mo Ses HT N) (s : TaskSupervisor S) (t : TaskId).

Definition forget {B} (m : M (AgentRuntime Mo Ses HT N * TaskSupervisor S) AgentError B)
    : M (AgentRuntime Mo Ses HT N * TaskSupervisor S) AgentError unit := do! m in ret tt.

(** A method of the runtime, or a call that reaches the supervisor without it. *)
Definition run_agent_call (c : AgentCall)
    : M (AgentRuntime Mo Ses HT N * TaskSupervisor S) AgentError unit :=
  match c with
  | AgentStart t => forget (agent_start t)
  | AgentApprove id => forget (approve_and_resume id)
  | AgentDeny id => agent_deny id
  | AgentExpire => forget agent_expire
  | AgentCancel t => forget (agent_cancel t)
  | AgentOther c => ask_supervisor (run_call c)
  end.

Definition agent_disciplined s (c : AgentCall) : Prop :=
  match c with
  | AgentStart t => task_state s t <> Some WaitingApproval
  | AgentOther c => disciplined s c
  | _ => True
  end.

Lemma wp_agent_deny t id x s w :
  base strict b na cf x s w -> waiting cf t id x ->
  wp (agent_deny id) (fun r y w' => resting strict b na cf y.1 y.2 w' /\
    match r with
    | Return _ => active y.1 = None /\ task_state y.2 t = Some Failed
    | Raise e => active y.1 = active x /\ e <> AgentInvalidState
    | Panic => False
    end) (x, s) w.
Proof.
  intros Hb Hwt. destruct (require_pending_waiting cf t id x Hwt) as (ad & Hreq & _ & _ & Hret).
  unfold agent_deny. wp_step. wp_step. wp_step. wp_step. cbn [fst]. rewrite Hreq. cbn [snd]. wp_step.
  eapply wp_mono; [apply (wp_settle strict b na cf (GateDeny id) (GateDeny id) _ _
    (fun _ s' => task_state s' t = Some Failed)); try done|].
  - intros ->. destruct Hret as (n & -> & _). by eexists.
  - intros q g' s' w' -> Hg Hrun. exact (deny_answer _ _ _ _ _ _ _ _ _ _ Hg Hret Hrun).
  - intros n q g' s' w' -> Hn Hg Hrun. destruct Hret as (n' & Hn' & Hret). rewrite Hn in Hn'.
    injection Hn' as <-. exact (deny_answer _ _ _ _ _ _ _ _ _ _ Hg Hret Hrun).
  - intros r [x' s'] w' (Hb' & Hact & Hk & Hr). destruct r as [q|e|]; [| |done].
    + apply wp_update. split; [by apply resting_none; [apply base_with_active|] | done].
    + split; [split; [done | right; eauto]|]. by destruct Hr.
Qed.

Lemma wp_agent_cancel t x s w :
  resting strict b na cf x s w -> (forall a, active x = Some a -> active_task_id a = t) ->
  wp (agent_cancel t) (fun r y w' => resting strict b na cf y.1 y.2 w' /\
    match r with
    | Return _ => active y.1 = None /\ exists q, task_state y.2 t = Some q /\ is_terminal q = true
    | Raise e => active y.1 = active x /\ e <> AgentInvalidState
    | Panic => False
    end) (x, s) w.
Proof.
  intros Hr Ht. pose proof Hr as [Hb _]. unfold agent_cancel. wp_step. wp_step. cbn [fst].
  assert (Hsame : match active x with Some a => negb (bool_decide (active_task_id a = t)) | None => false end = false).
  { destruct (active x) as [a|]; [|done]. by rewrite bool_decide_eq_true_2 by (by apply Ht). }
  rewrite Hsame. wp_step. wp_step. wp_step. cbn [fst].
  eapply wp_mono; [apply (wp_settle strict b na cf (GateCancel t) (GateCancel t) _ _
    (fun _ s' => exists q, task_state s' t = Some q /\ is_terminal q = true)); try done|].
  - by eapply pending_adapter_network.
  - intros q g' s' w' _ Hg Hrun. exact (cancel_answer _ _ _ _ _ _ _ _ _ Hg Hrun).
  - intros n q g' s' w' _ _ Hg Hrun. exact (cancel_answer _ _ _ _ _ _ _ _ _ Hg Hrun).
  - intros r [x' s'] w' (Hb' & Hact & Hk & Hv). destruct r as [q|e|]; [| |done].
    + wp_step. apply wp_update. wp_step. split; [by apply resting_none; [apply base_with_active|] | done].
    + split; [by eapply resting_kept | by destruct Hv].
Qed.

Lemma wall_time_exceeded_runs t s w :
  sup_inv strict s w ->
  wp (wall_time_exceeded t) (fun r s' w' => s' = s /\ world_le w w' /\
    match r with
    | Return _ => exists q, task_state s t = Some q /\ is_terminal q = false
    | Raise e => e = TaskNotFound \/ e = TaskNotRunning
    | Panic => False
    end) s w.
Proof.
  intros Hs. unfold wall_time_exceeded. wp_step. apply wp_get_task.
  destruct (tasks s !! t) as [r|] eqn:Hr; [|by split_and!; [| |left]].
  assert (Hst : task_state s t = Some (state r)) by (unfold task_state; by rewrite Hr).
  assert (Hw : world_le w (mk_World (Datatypes.S (instants_read w)) (system_times_read w) (uuids_minted w)))
    by (split; simpl; lia).
  destruct (state r) eqn:Hq; try (wp_step; by split_and!; [| |right]).
  all: wp_step; wp_step; destruct (started_at r); simpl; [|by split_and!; [| |right]];
    wp_step; wp_step; wp_step; split_and!; [done | done | by eexists].
Qed.

Lemma wp_expire_adapter ad x s w :
  base strict b na cf x s w -> (ad = PendingNetwork -> is_Some (agent_network x)) ->
  wp (expire_adapter ad) (fun r y w' => base strict b na cf y.1 y.2 w' /\ active y.1 = active x
        /\ (forall t id, waiting cf t id x -> waiting cf t id y.1)
        /\ match r with
           | Return _ => True
           | Raise e => e <> AgentInvalidState /\ e <> AgentCapacityExceeded
           | Panic => False
           end) (x, s) w.
Proof.
  intros Hb Hn. apply (wp_settle strict b na cf GateExpire GateExpire _ _ (fun _ _ => True)); done.
Qed.

(** A session that is kept belongs to a task that has not ended. *)
Definition expired_result (r : outcome Z AgentError)
    (y : AgentRuntime Mo Ses HT N * TaskSupervisor S) (w' : World) : Prop :=
  resting strict b na cf y.1 y.2 w' /\
  match r with
  | Return _ => forall a q, active y.1 = Some a -> task_state y.2 (active_task_id a) = Some q ->
      is_terminal q = false
  | Raise e => e <> AgentInvalidState
  | Panic => False
  end.

Lemma wp_expire_pending x s w :
  resting strict b na cf x s w -> wp expire_pending expired_result (x, s) w.
Proof.
  intros Hr. pose proof Hr as [Hb _]. unfold expire_pending. wp_step. wp_step. wp_step. cbn [fst].
  eapply wp_mono; [apply wp_expire_adapter; [done | by eapply pending_adapter_network]|].
  intros r [x' s'] w' (Hb' & Hact & Hk & Hv).
  assert (Hr' : resting strict b na cf x' s' w') by (by eapply resting_kept).
  destruct r as [n|e|]; [| split; [done | by destruct Hv] | done].
  wp_step. wp_step. cbn [fst snd]. wp_step. destruct (active x') as [a|] eqn:Ha.
  - unfold get. destruct (task_state s' (active_task_id a)) as [q|] eqn:Hq; simpl.
    + destruct (is_terminal q) eqn:Hterm.
      * apply wp_update. wp_step. split; [by apply resting_none; [apply base_with_active|] | done].
      * wp_step. wp_step. split; [done|]. simpl. intros a' q' Ha' Hq'. congruence.
    + wp_step. wp_step. split; [done|]. simpl. intros a' q' Ha' Hq'. congruence.
  - wp_step. wp_step. split; [done|]. simpl. intros a' q' Ha'. congruence.
Qed.

Lemma wp_agent_expire x s w :
  resting strict b na cf x s w -> wp agent_expire expired_result (x, s) w.
Proof.
  intros Hr. pose proof Hr as [Hb Hact]. unfold agent_expire. wp_step. wp_step. cbn [fst]. wp_step.
  destruct (active_task x) as [t|] eqn:Ht.
  2:{ wp_step. by apply wp_expire_pending. }
  unfold ask_supervisor. wp_step. wp_step. cbn [snd].
  eapply wp_mono; [apply wall_time_exceeded_runs; by eapply base_sup|].
  intros r s' w1 (-> & Hw & Hv). cbn [fst].
  assert (Hr1 : resting strict b na cf x s w1) by (destruct Hr; split; [by eapply base_time | done]).
  destruct r as [late|e|]; [|by split | done]. destruct late; [|by apply wp_expire_pending].
  wp_step. wp_step. cbn [fst]. wp_step.
  pose proof (pending_adapter_network _ _ _ _ _ _ _ Hr1) as Hnet.
  assert (Hkeep : agent_network (set_active None x) = agent_network x) by done.
  unfold fail_budget_active. wp_step. apply wp_update.
  apply (wp_ask_supervisor strict b na cf (CallFailBudget t));
    [apply base_with_active; by eapply base_time | apply (calls_unit (CallFailBudget t)) | done |].
  eapply wp_mono; [apply (wp_fail_budget_exceeded strict t s w1); destruct Hr1; by eapply base_sup|].
  intros r s' w2 (_ & _ & Hf) Hb2. destruct r as [u|e|]; [|by split; [apply resting_none|] | done].
  wp_step. eapply wp_mono; [apply wp_expire_adapter; [exact Hb2 | by rewrite Hkeep]|].
  intros r [x' s2] w3 (Hb3 & Hact3 & _ & Hv3).
  assert (Hr3 : resting strict b na cf x' s2 w3) by (by apply resting_none).
  destruct r as [n|e|]; [by wp_step | split; [done | by destruct Hv3] | done].
Qed.

(** ** Runs *)

(** A configuration the constructors give. *)
Definition configured : Prop :=
  cf = AgentConfig_default \/ exists n ttl, 0 <= n /\ AgentConfig_new n ttl = Ok cf.

Lemma configured_ok : configured -> config_ok cf.
Proof. intros [-> |(n & ttl & Hn & Hc)]; [by vm_compute | by eapply AgentConfig_new_ok]. Qed.

(** Calls of the runtime, interleaved with other calls on its supervisor. *)
Inductive reachable_agent : AgentRuntime Mo Ses HT N -> TaskSupervisor S -> World -> Prop :=
| agent_init mo s w :
    configured -> reachable strict s w ->
    reachable_agent (AgentRuntime_new mo (build b).1 (build b).2 cf) s w
| agent_init_network mo s w :
    configured -> reachable strict s w ->
    reachable_agent (with_network_gate (AgentRuntime_new mo (build b).1 (build b).2 cf)
                       (ExecutionGate_new na)) s w
| agent_called x s w c r x' s' w' :
    reachable_agent x s w -> (strict = true -> agent_disciplined s c) ->
    run_agent_call c (x, s) w = (r, (x', s'), w') -> r <> Panic -> reachable_agent x' s' w'
| agent_time x s w w' : reachable_agent x s w -> world_le w w' -> reachable_agent x s w'.

(** What a refused call leaves. *)
Lemma start_refused t a x s w :
  active x = Some a -> agent_start t (x, s) w = (Raise AgentCapacityExceeded, (x, s), w).
Proof. intros Ha. unfold agent_start, bind, gets. simpl. by rewrite Ha. Qed.

Lemma require_pending_Err id x e : require_pending x id = Err e -> e = AgentInvalidState.
Proof.
  unfold require_pending. destruct (active x) as [a|]; simpl; [|by intros [= <-]].
  destruct (pending_approval a) as [p|]; simpl; [|by intros [= <-]].
  destruct (negb _); [by intros [= <-] | done].
Qed.

Lemma approval_refused id e x s w :
  require_pending x id = Err e ->
  approve_and_resume id (x, s) w = (Raise AgentInvalidState, (x, s), w)
  /\ agent_deny id (x, s) w = (Raise AgentInvalidState, (x, s), w).
Proof.
  intros He. pose proof (require_pending_Err _ _ _ He) as ->.
  unfold approve_and_resume, agent_deny, bind, gets. simpl. by rewrite He.
Qed.

Lemma cancel_refused t a x s w :
  active x = Some a -> active_task_id a <> t ->
  agent_cancel t (x, s) w = (Raise AgentInvalidState, (x, s), w).
Proof.
  intros Ha Ht. unfold agent_cancel, bind, gets. simpl. rewrite Ha. by rewrite bool_decide_eq_false_2.
Qed.

Lemma forget_run {B} (m : M (AgentRuntime Mo Ses HT N * TaskSupervisor S) AgentError B) y w r y' w' :
  forget m y w = (r, y', w') -> exists r0, m y w = (r0, y', w') /\ (r0 = Panic <-> r = Panic).
Proof. unfold forget, bind. destruct (m y w) as [[[v|e|] y1] w1]; intros [= <- <- <-]; by eexists. Qed.

Lemma resting_waiting x s w a :
  resting strict b na cf x s w -> active x = Some a -> exists id, waiting cf (active_task_id a) id x.
Proof.
  intros [_ [Hn|(t & id & Hwt)]] Ha; [congruence|]. exists id.
  pose proof Hwt as [(ses & k & out & ad & Ha' & _)]. rewrite Ha in Ha'. injection Ha' as ->. done.
Qed.

Lemma resting_finished t r x s w :
  finished_run strict b na cf t r (x, s) w -> r <> Panic -> resting strict b na cf x s w.
Proof.
  intros [Hc Hb] Hr. specialize (Hb Hr). simpl in *. split; [done|].
  destruct r as [[| q|]|e|]; simpl in Hc; [| |left; apply Hc | |done].
  - left. apply Hc.
  - right. exists t, (request_approval_id q). apply Hc.
  - left. destruct e; try done; by destruct Hc.
Qed.

(** The exact pending approval names the session that waits for it. *)
Lemma require_pending_Ok id t ad x s w :
  resting strict b na cf x s w -> require_pending x id = Ok (t, ad) -> waiting cf t id x.
Proof.
  intros Hr. unfold require_pending. destruct (active x) as [a|] eqn:Ha; simpl; [|done].
  destruct (resting_waiting _ _ _ _ Hr Ha) as [id' Hwt].
  pose proof Hwt as [(ses & k & out & ad' & Ha' & _)]. rewrite Ha in Ha'. injection Ha' as ->. simpl.
  destruct (bool_decide_reflect (id' = id)) as [->|]; simpl; [|done]. by intros [= <- _].
Qed.

Lemma agent_call_resting x s w c r x' s' w' :
  resting strict b na cf x s w -> (strict = true -> agent_disciplined s c) ->
  run_agent_call c (x, s) w = (r, (x', s'), w') -> r <> Panic -> resting strict b na cf x' s' w'.
Proof.
  intros Hr Hd Hrun Hp. pose proof Hr as [Hb _]. destruct c as [t|id|id| |t|c]; simpl in Hrun.
  - apply forget_run in Hrun as (r0 & Hrun & Hp0). destruct (active x) as [a|] eqn:Ha.
    + rewrite (start_refused _ _ _ _ _ Ha) in Hrun. by injection Hrun as _ <- <- <-.
    + eapply resting_finished; [|by rewrite Hp0].
      exact (wp_run _ _ _ _ _ _ _ (wp_agent_start strict b na cf t x s w Hb Hd Ha) Hrun).
  - apply forget_run in Hrun as (r0 & Hrun & Hp0). destruct (require_pending x id) as [[t ad]|e] eqn:Hreq.
    + pose proof (require_pending_Ok _ _ _ _ _ _ Hr Hreq) as Hwt.
      destruct (wp_run _ _ _ _ _ _ _ (wp_approve_and_resume strict b na cf t id x s w Hb Hwt) Hrun)
        as [Hf|(Hb' & Hwt' & _)]; [by eapply resting_finished; [|rewrite Hp0]|].
      split; [done|]. right. by exists t, id.
    + rewrite (proj1 (approval_refused _ _ _ _ _ Hreq)) in Hrun. by injection Hrun as _ <- <- <-.
  - destruct (require_pending x id) as [[t ad]|e] eqn:Hreq.
    + pose proof (require_pending_Ok _ _ _ _ _ _ Hr Hreq) as Hwt.
      exact (proj1 (wp_run _ _ _ _ _ _ _ (wp_agent_deny t id x s w Hb Hwt) Hrun)).
    + rewrite (proj2 (approval_refused _ _ _ _ _ Hreq)) in Hrun. by injection Hrun as _ <- <- <-.
  - apply forget_run in Hrun as (r0 & Hrun & _).
    exact (proj1 (wp_run _ _ _ _ _ _ _ (wp_agent_expire x s w Hr) Hrun)).
  - apply forget_run in Hrun as (r0 & Hrun & _).
    destruct (active x) as [a|] eqn:Ha; [destruct (decide (active_task_id a = t)) as [Ht|Ht]|].
    + refine (proj1 (wp_run _ _ _ _ _ _ _ (wp_agent_cancel t x s w Hr _) Hrun)).
      intros a'. rewrite Ha. by intros [= <-].
    + rewrite (cancel_refused _ _ _ _ _ Ha Ht) in Hrun. by injection Hrun as _ <- <- <-.
    + refine (proj1 (wp_run _ _ _ _ _ _ _ (wp_agent_cancel t x s w Hr _) Hrun)). by rewrite Ha.
  - unfold ask_supervisor, zoom, map_err in Hrun. simpl in Hrun.
    destruct (run_call c s w) as [[r0 s1] w1] eqn:Hc.
    assert (Hb1 : base strict b na cf x s1 w1).
    { eapply base_follows; [done|]. by eapply path_call; [| |apply path_refl]. }
    destruct Hr as [_ Hr]. destruct r0; injection Hrun as <- <- <- <-; by split.
Qed.

Lemma reachable_resting x s w : reachable_agent x s w -> resting strict b na cf x s w.
Proof.
  induction 1 as [mo s w Hcf Hs|mo s w Hcf Hs|x s w c r x' s' w' _ IH Hd Hrun Hp|x s w w' _ IH Hw].
  - apply resting_none; [|done]. split; simpl; [by apply facade_init | done | done | by split; [|apply configured_ok]].
  - apply resting_none; [|done]. split; simpl; [by apply facade_init | | done | by split; [|apply configured_ok]].
    intros n [= <-]. by apply facade_init.
  - by eapply agent_call_resting.
  - destruct IH. split; [by eapply base_time | done].
Qed.

End Calls.

(** ** A concrete runtime *)

Definition agent_builder : ToolAdapterBuilder (list (list string)) :=
  match register "commit" "test_runner" "git.commit" [] demo_builder with
  | Ok b => b
  | Err _ => demo_builder
  end.

Definition demo_script : list ModelDecision :=
  [CallTool "run_tests" ["--all"]; CallTool "commit" []; Finish (mk_AgentOutput "done")].

Definition DemoAgent : Type :=
  AgentRuntime ScriptedModelAdapter ScriptedModelSession (list (list string)) DemoNet
  * TaskSupervisor InMemoryEventStore.

Definition demo_agent : DemoAgent :=
  (with_network_gate (AgentRuntime_new (mk_ScriptedModelAdapter (Some demo_script))
     (build agent_builder).1 (build agent_builder).2 AgentConfig_default) (ExecutionGate_new demo_network),
   demo_supervisor).

Fixpoint run_agent_calls (cs : list AgentCall) (y : DemoAgent) (w : World) : DemoAgent * World :=
  match cs with
  | [] => (y, w)
  | c :: cs' => let '(_, y', w') := run_agent_call c y w in run_agent_calls cs' y' w'
  end.

Definition agent_run (cs : list AgentCall) : DemoAgent * World := run_agent_calls cs demo_agent world0.

(** Whether every call of a run returned. *)
Fixpoint calls_return (cs : list AgentCall) (y : DemoAgent) (w : World) : bool :=
  match cs with
  | [] => true
  | c :: cs' =>
      let '(r, y', w') := run_agent_call c y w in
      match r with Panic => false | _ => calls_return cs' y' w' end
  end.

Lemma run_agent_calls_reachable cs y w :
  reachable_agent false agent_builder demo_network AgentConfig_default y.1 y.2 w ->
  calls_return cs y w = true ->
  let '(y', w') := run_agent_calls cs y w in
  reachable_agent false agent_builder demo_network AgentConfig_default y'.1 y'.2 w'.
Proof.
  revert y w. induction cs as [|c cs IH]; intros [x s] w Hr Hc; simpl in *; [done|].
  destruct (run_agent_call c (x, s) w) as [[r [x' s']] w'] eqn:E. apply IH; [|by destruct r].
  eapply agent_called; [exact Hr | done | exact E | by intros ->].
Qed.

Lemma agent_run_reachable cs :
  calls_return cs demo_agent world0 = true ->
  reachable_agent false agent_builder demo_network AgentConfig_default
    (agent_run cs).1.1 (agent_run cs).1.2 (agent_run cs).2.
Proof.
  intros Hc. pose proof (run_agent_calls_reachable cs demo_agent world0) as Hr.
  unfold agent_run. destruct (run_agent_calls cs demo_agent world0) as [[x s] w]. apply Hr; [|done].
  apply agent_init_network; [by left | apply demo_reachable].
Qed.

Definition agent_start_calls : list AgentCall := [AgentOther (CallSubmit example_task); AgentStart demo_task].

Definition waiting_agent : DemoAgent * World := agent_run agent_start_calls.

Definition waiting_id : ApprovalId := mk_ApprovalId 2.

Lemma waiting_agent_reachable :
  reachable_agent false agent_builder demo_network AgentConfig_default
    waiting_agent.1.1 waiting_agent.1.2 waiting_agent.2.
Proof. apply agent_run_reachable. vm_compute. reflexivity. Qed.

(** ** Properties *)

(** C16: An agent run is a run of its gates: whatever the model proposes and
    whatever else uses the supervisor, each of the two gates is at every moment in a
    state that its own interface reaches, on operations its trusted catalog prepared,
    so everything proved of tool calls and network exchanges holds under an agent;
    and whatever a gate keeps for approval carries the context of its own task. *)
Theorem agent_runs_through_its_gates `{EnvLaws} {Mo Ses MErr HT N Sk St} `{ModelLaws Mo Ses MErr}
    `{ToolHandlerLaws HT} `{SocketsLaws N Sk} `{EventStoreLaws St} strict (b : ToolAdapterBuilder HT)
    (na : NetworkAdapter N) cf (x : AgentRuntime Mo Ses HT N) (s : TaskSupervisor St) w :
  reachable_agent strict b na cf x s w ->
  reachable_facade (prepared b) strict (adapter (build b).2) (tool_gate x) s w
  /\ (forall n, agent_network x = Some n -> reachable_facade net_prepared strict na (network_gate n) s w)
  /\ (forall o pe, gate_pending (tool_gate x) !! o = Some pe ->
        prepared b (pe_operation pe) /\ carries s (pe_task_id pe) (pe_operation pe))
  /\ (forall n o pe, agent_network x = Some n -> gate_pending (network_gate n) !! o = Some pe ->
        net_prepared (pe_operation pe) /\ carries s (pe_task_id pe) (pe_operation pe)).
Proof.
  intros Hr. destruct (reachable_resting _ _ _ _ _ _ _ Hr) as [[Ht Hn _ _] _]. split_and!.
  - done.
  - done.
  - exact (facade_carries (prepared b) (prepared_context b) _ _ _ _ _ Ht).
  - intros n o pe Hx. exact (facade_carries net_prepared net_prepared_context _ _ _ _ _ (Hn n Hx) o pe).
Qed.

Lemma agent_runs_through_its_gates_witness :
  exists o pe, gate_pending (tool_gate waiting_agent.1.1) !! o = Some pe
    /\ carries waiting_agent.1.2 (pe_task_id pe) (pe_operation pe) /\ pe_task_id pe = demo_task.
Proof.
  destruct (agent_runs_through_its_gates _ _ _ _ _ _ _ waiting_agent_reachable) as (_ & _ & Hp & _).
  destruct (gate_pending (tool_gate waiting_agent.1.1) !! mk_OperationId 1) as [pe|] eqn:E;
    [|vm_compute in E; discriminate].
  exists (mk_OperationId 1), pe. split; [exact E|]. split; [apply (Hp _ _ E)|].
  vm_compute in E. injection E as <-. reflexivity.
Defined.

(** C29: A model session is bounded and never left running: between calls a
    session waits for exactly one approval, and it has been asked for the decisions
    of steps 1, 2, ... in this order, each once and never beyond the configured limit
    of at most 64, however many approvals it went through. *)
Theorem agent_sessions_are_bounded `{EnvLaws} {Mo Ses MErr HT N Sk St} `{ModelLaws Mo Ses MErr}
    `{ToolHandlerLaws HT} `{SocketsLaws N Sk} `{EventStoreLaws St} strict (b : ToolAdapterBuilder HT)
    (na : NetworkAdapter N) cf (x : AgentRuntime Mo Ses HT N) (s : TaskSupervisor St) w a :
  reachable_agent strict b na cf x s w -> active x = Some a ->
  (exists p, pending_approval a = Some p)
  /\ session_after (Mo := Mo) (next_step a - 1) (active_model a)
  /\ 1 <= next_step a - 1 <= max_steps cf /\ max_steps cf <= 64.
Proof.
  intros Hr Ha. pose proof (reachable_resting _ _ _ _ _ _ _ Hr) as Hrest.
  destruct (ba_config _ _ _ _ _ _ _ (proj1 Hrest)) as [_ [_ H64]].
  destruct (resting_waiting _ _ _ _ _ _ _ _ Hrest Ha) as [id [(ses & k & out & ad & Ha' & Hses & Hk & _)]].
  rewrite Ha in Ha'. injection Ha' as ->. simpl. split_and!; [by eexists | done | lia | lia |].
  unfold MAX_MODEL_STEPS in H64. lia.
Qed.

Lemma agent_sessions_are_bounded_witness :
  exists a, active waiting_agent.1.1 = Some a /\ 1 <= next_step a - 1 <= 16.
Proof.
  destruct (active waiting_agent.1.1) as [a|] eqn:E; [|vm_compute in E; discriminate].
  exists a. split; [reflexivity|].
  exact (proj1 (proj2 (proj2 (agent_sessions_are_bounded _ _ _ _ _ _ _ _ waiting_agent_reachable E)))).
Defined.

(** C28: Every run of the agent comes to a conclusion.  For a model and handlers that
    do not panic, starting a task with an idle agent (a busy one refuses, which is not
    the subject here; in strict runs the task does not wait for an approval), or
    approving the operation the session of the task waits for, always returns: the
    loop ends within its step limit.  Then the task has succeeded, or has failed, or
    waits for the approval that was returned while the session waits with it; only if
    the supervisor itself fails is the task not concluded, and then the session is
    dropped or still waiting. *)
Theorem agent_runs_conclude `{EnvLaws} {Mo Ses MErr HT N Sk St} `{ModelLaws Mo Ses MErr}
    `{ToolHandlerLaws HT} `{SocketsLaws N Sk} `{EventStoreLaws St} strict (b : ToolAdapterBuilder HT)
    (na : NetworkAdapter N) cf (x : AgentRuntime Mo Ses HT N) (s : TaskSupervisor St) w t r x' s' w' :
  reachable_agent strict b na cf x s w -> calm (Mo := Mo) (Ses := Ses) (HT := HT) ->
  (active x = None /\ (strict = true -> task_state s t <> Some WaitingApproval)
     /\ agent_start t (x, s) w = (r, (x', s'), w'))
  \/ (exists id ad, require_pending x id = Ok (t, ad) /\ approve_and_resume id (x, s) w = (r, (x', s'), w')) ->
  match r with
  | Return (Completed _) => active x' = None /\ task_state s' t = Some Succeeded
  | Return (RunDenied _) => active x' = None /\ task_state s' t = Some Failed
  | Return (WaitingForApproval q) => task_state s' t = Some WaitingApproval
      /\ exists ad, require_pending x' (request_approval_id q) = Ok (t, ad)
  | Raise (AgentSupervisor _) => active x' = None \/ exists id ad, require_pending x' id = Ok (t, ad)
  | Raise AgentInvalidConfig | Raise AgentCapacityExceeded | Raise AgentInvalidState | Panic => False
  | Raise _ => active x' = None /\ task_state s' t = Some Failed
  end.
Proof.
  intros Hreach Hcalm Hcall. pose proof (reachable_resting _ _ _ _ _ _ _ Hreach) as Hrest.
  pose proof Hrest as [Hb _].
  assert (Hpend : forall id, waiting cf t id x' -> exists ad, require_pending x' id = Ok (t, ad)).
  { intros id Hwt. destruct (require_pending_waiting cf t id x' Hwt) as (ad & ? & _). by exists ad. }
  assert (Hfin : finished_run strict b na cf t r (x', s') w' ->
    match r with
    | Return (Completed _) => active x' = None /\ task_state s' t = Some Succeeded
    | Return (RunDenied _) => active x' = None /\ task_state s' t = Some Failed
    | Return (WaitingForApproval q) => task_state s' t = Some WaitingApproval
        /\ exists ad, require_pending x' (request_approval_id q) = Ok (t, ad)
    | Raise (AgentSupervisor _) => active x' = None \/ exists id ad, require_pending x' id = Ok (t, ad)
    | Raise AgentInvalidConfig | Raise AgentCapacityExceeded | Raise AgentInvalidState | Panic => False
    | Raise _ => active x' = None /\ task_state s' t = Some Failed
    end).
  { intros [Hc _]. destruct r as [[out|q|reason]|e|]; simpl in Hc; [done | | done | |by apply Hc].
    - destruct Hc. split; [done | by apply Hpend].
    - destruct e; try done. by left. }
  destruct Hcall as [(Ha & Hd & Hrun)|(id & ad & Hreq & Hrun)].
  - apply Hfin. exact (wp_run _ _ _ _ _ _ _ (wp_agent_start strict b na cf t x s w Hb Hd Ha) Hrun).
  - pose proof (require_pending_Ok _ _ _ _ _ _ _ _ _ _ Hrest Hreq) as Hwt.
    destruct (wp_run _ _ _ _ _ _ _ (wp_approve_and_resume strict b na cf t id x s w Hb Hwt) Hrun)
      as [Hf|(_ & Hwt' & e & ->)]; [by apply Hfin|]. simpl. right. exists id. by apply Hpend.
Qed.

Lemma demo_calm : calm (Mo := ScriptedModelAdapter) (Ses := ScriptedModelSession) (HT := list (list string)).
Proof.
  split.
  - intros q [[|d ds]] w; vm_compute; discriminate.
  - intros q [[ds|]] w; vm_compute; discriminate.
  - intros c args h w. vm_compute. discriminate.
Qed.

Lemma agent_runs_conclude_witness :
  let run := approve_and_resume waiting_id waiting_agent.1 waiting_agent.2 in
  run.1.1 = Return (Completed (mk_AgentOutput "done"))
  /\ active run.1.2.1 = None /\ task_state run.1.2.2 demo_task = Some Succeeded.
Proof.
  intros run. assert (E : run.1.1 = Return (Completed (mk_AgentOutput "done"))) by (vm_compute; reflexivity).
  split; [exact E|].
  pose proof (agent_runs_conclude _ _ _ _ _ _ _ demo_task run.1.1 run.1.2.1 run.1.2.2 run.2
    waiting_agent_reachable demo_calm) as Hc. rewrite E in Hc. apply Hc. right. exists waiting_id, PendingTool.
  split; vm_compute; reflexivity.
Defined.

(** An agent serves one session and obeys only its exact approval: while
    a session is active no other task can be started or cancelled through the
    runtime, and without a session that waits for exactly the given approval,
    approving or denying it is refused; a refused call changes neither the runtime,
    nor the supervisor, nor reads a clock. *)
Theorem agent_refuses_other_work `{EnvLaws} {Mo Ses MErr HT N Sk St} `{ModelLaws Mo Ses MErr}
    `{ToolHandlerLaws HT} `{SocketsLaws N Sk} `{EventStoreLaws St}
    (x : AgentRuntime Mo Ses HT N) (s : TaskSupervisor St) w :
  (forall a t, active x = Some a -> agent_start t (x, s) w = (Raise AgentCapacityExceeded, (x, s), w))
  /\ (forall a t, active x = Some a -> active_task_id a <> t ->
        agent_cancel t (x, s) w = (Raise AgentInvalidState, (x, s), w))
  /\ (forall id, (forall a p, active x = Some a -> pending_approval a = Some p -> ap_approval_id p <> id) ->
        approve_and_resume id (x, s) w = (Raise AgentInvalidState, (x, s), w)
        /\ agent_deny id (x, s) w = (Raise AgentInvalidState, (x, s), w)).
Proof.
  split_and!.
  - intros a t. apply start_refused.
  - intros a t. apply cancel_refused.
  - intros id Hno. apply (approval_refused id AgentInvalidState). unfold require_pending.
    destruct (active x) as [a|]; simpl; [|done]. destruct (pending_approval a) as [p|] eqn:Hp; simpl; [|done].
    by rewrite bool_decide_eq_false_2 by (by apply (Hno a p)).
Qed.

Lemma agent_refuses_other_work_witness :
  agent_start demo_task waiting_agent.1 waiting_agent.2
    = (Raise AgentCapacityExceeded, waiting_agent.1, waiting_agent.2)
  /\ approve_and_resume (mk_ApprovalId 9) waiting_agent.1 waiting_agent.2
    = (Raise AgentInvalidState, waiting_agent.1, waiting_agent.2).
Proof.
  rewrite (surjective_pairing waiting_agent.1).
  destruct (agent_refuses_other_work waiting_agent.1.1 waiting_agent.1.2 waiting_agent.2) as (Hs & _ & Hp).
  destruct (active waiting_agent.1.1) as [a|] eqn:E; [|vm_compute in E; discriminate]. split.
  - exact (Hs a demo_task eq_refl).
  - apply Hp. intros a' p Ha Hpa. injection Ha as <-. vm_compute in E. injection E as <-.
    vm_compute in Hpa. injection Hpa as <-. discriminate.
Defined.

(** Denying ends the work, cancelling ends the task: when [deny] returns,
    the session is dropped and its task has failed; when [cancel] returns, the session
    is dropped and the task is in a terminal state; when they fail, the session is
    kept. *)
Theorem agent_deny_and_cancel_end_the_task `{EnvLaws} {Mo Ses MErr HT N Sk St} `{ModelLaws Mo Ses MErr}
    `{ToolHandlerLaws HT} `{SocketsLaws N Sk} `{EventStoreLaws St} strict (b : ToolAdapterBuilder HT)
    (na : NetworkAdapter N) cf (x : AgentRuntime Mo Ses HT N) (s : TaskSupervisor St) w a x' s' w' :
  reachable_agent strict b na cf x s w -> active x = Some a ->
  (forall id ad r, require_pending x id = Ok (active_task_id a, ad) ->
     agent_deny id (x, s) w = (r, (x', s'), w') ->
     match r with
     | Return _ => active x' = None /\ task_state s' (active_task_id a) = Some Failed
     | Raise _ => active x' = Some a
     | Panic => False
     end)
  /\ (forall r, agent_cancel (active_task_id a) (x, s) w = (r, (x', s'), w') ->
     match r with
     | Return _ => active x' = None
         /\ exists q, task_state s' (active_task_id a) = Some q /\ is_terminal q = true
     | Raise _ => active x' = Some a
     | Panic => False
     end).
Proof.
  intros Hreach Ha. pose proof (reachable_resting _ _ _ _ _ _ _ Hreach) as Hrest. pose proof Hrest as [Hb _].
  rewrite <-Ha. split.
  - intros id ad r Hreq Hrun. pose proof (require_pending_Ok _ _ _ _ _ _ _ _ _ _ Hrest Hreq) as Hwt.
    destruct (wp_run _ _ _ _ _ _ _ (wp_agent_deny strict b na cf (active_task_id a) id x s w Hb Hwt) Hrun)
      as [_ Hr]. destruct r; [done | by destruct Hr | done].
  - intros r Hrun. assert (Hown : forall a', active x = Some a' -> active_task_id a' = active_task_id a)
      by (intros a'; rewrite Ha; by intros [= <-]).
    destruct (wp_run _ _ _ _ _ _ _ (wp_agent_cancel strict b na cf _ x s w Hrest Hown) Hrun) as [_ Hr].
    destruct r; [done | by destruct Hr | done].
Qed.

Lemma agent_deny_and_cancel_end_the_task_witness :
  let run := agent_deny waiting_id waiting_agent.1 waiting_agent.2 in
  active run.1.2.1 = None /\ task_state run.1.2.2 demo_task = Some Failed.
Proof.
  intros run. destruct (active waiting_agent.1.1) as [a|] eqn:E; [|vm_compute in E; discriminate].
  destruct (agent_deny_and_cancel_end_the_task _ _ _ _ _ _ _ a run.1.2.1 run.1.2.2 run.2
    waiting_agent_reachable E) as [Hd _].
  assert (Ht : active_task_id a = demo_task) by (vm_compute in E; injection E as <-; reflexivity).
  rewrite Ht in Hd. apply (Hd waiting_id PendingTool (Return tt)); vm_compute; reflexivity.
Defined.

(** A session whose task has ended blocks the agent: once the active
    task is terminal (another client cancelled it, or its approval expired while it was
    being approved), [expire] does not drop the session but fails with
    [TaskNotRunning] and changes nothing, and no task can be started; only cancelling
    that very task frees the runtime. *)
Theorem ended_task_blocks_the_agent `{EnvLaws} {Mo Ses MErr HT N Sk St} `{ModelLaws Mo Ses MErr}
    `{ToolHandlerLaws HT} `{SocketsLaws N Sk} `{EventStoreLaws St}
    (x : AgentRuntime Mo Ses HT N) (s : TaskSupervisor St) w a rec :
  active x = Some a -> tasks s !! active_task_id a = Some rec -> is_terminal (state rec) = true ->
  agent_expire (x, s) w = (Raise (AgentSupervisor TaskNotRunning), (x, s), w)
  /\ (forall t, agent_start t (x, s) w = (Raise AgentCapacityExceeded, (x, s), w))
  /\ (pending_adapter x = Some PendingTool ->
      exists g', agent_cancel (active_task_id a) (x, s) w
        = (Return false, (set_active None (set_tool_gate g' x), s), w)).
Proof.
  intros Ha Hrec Hterm. split_and!.
  - unfold agent_expire, bind, gets, active_task. simpl. rewrite Ha. simpl.
    unfold ask_supervisor, zoom, map_err, wall_time_exceeded, get_task, bind, gets, lift. simpl.
    rewrite Hrec. simpl. by destruct (state rec).
  - intros t. by eapply start_refused.
  - intros Hp. unfold agent_cancel, bind, gets. cbn [fst snd]. rewrite Ha, bool_decide_eq_true_2 by done.
    cbn [negb fst snd]. rewrite Hp. simpl. unfold ask_tool_gate, zoom, attempt, ToolExecutionGate_cancel, gate_cancel, on_supervisor, bind, zoom, map_err.
    simpl. unfold cancel, bind, gets, lift, task_state. simpl. rewrite Hrec. simpl. rewrite Hterm. simpl.
    by eexists.
Qed.

(** The supervisor's own client cancels the task of a waiting session. *)
Definition blocked_agent : DemoAgent * World :=
  agent_run (agent_start_calls ++ [AgentOther (CallCancel demo_task)]).

Lemma ended_task_blocks_the_agent_witness :
  agent_expire blocked_agent.1 blocked_agent.2
  = (Raise (AgentSupervisor TaskNotRunning), blocked_agent.1, blocked_agent.2).
Proof.
  destruct (active blocked_agent.1.1) as [a|] eqn:E; [|vm_compute in E; discriminate].
  destruct (tasks blocked_agent.1.2 !! active_task_id a) as [rec|] eqn:Hrec;
    [|vm_compute in E; injection E as <-; vm_compute in Hrec; discriminate].
  rewrite (surjective_pairing blocked_agent.1).
  refine (proj1 (ended_task_blocks_the_agent _ _ _ a rec E Hrec _)).
  vm_compute in E. injection E as <-. vm_compute in Hrec. injection Hrec as <-. reflexivity.
Defined.

(** ** Decisions *)

Lemma valid_argument_loop_spec args total :
  valid_argument_loop args total = true <-> validate_argument_loop args total = Ok tt.
Proof.
  revert total. induction args as [|a args IH]; intros total; simpl; [done|].
  destruct (_ || _); [done|]. destruct (checked_add _ _ _) as [n|]; simpl; [|done].
  destruct (_ <? _); [done | apply IH].
Qed.

Lemma are_valid_arguments_spec args : are_valid_arguments args = true <-> validate_arguments args = Ok tt.
Proof.
  unfold are_valid_arguments, validate_arguments. destruct (_ <? _); [done | apply valid_argument_loop_spec].
Qed.

(** The agent accepts the decisions its adapters can take: a final answer
    is accepted exactly when it is non-empty, at most 1 MiB and free of NULs; a tool
    decision exactly when the route is an identifier the Tool registration accepts and
    the arguments pass the Tool catalog's own check; and an exchange the Network
    catalog prepares is a decision the agent accepts. *)
Theorem model_decisions_match_the_adapters :
  (forall text d, decision_finish text = Ok d <->
     d = Finish (mk_AgentOutput text) /\ text <> "" /\ str_len text <= 1024 * 1024
     /\ contains_char NUL text = false)
  /\ (forall route args d, decision_call_tool route args = Ok d <->
     d = CallTool route args /\ tool_is_valid_identifier route = true /\ validate_arguments args = Ok tt)
  /\ (forall host port request op, prepare_tcp_exchange host port request = Ok op ->
     decision_tcp_exchange host port request = Ok (TcpExchange host port request)).
Proof.
  split_and!.
  - intros text d. unfold decision_finish, AgentOutput_from_text.
    destruct text as [|c text]; [by split; [|intros (_ & ? & _)]|]. cbn [is_empty_str orb].
    destruct (Z.ltb_spec MAX_FINAL_OUTPUT_BYTES (str_len (String c text))) as [Hl|Hl]; cbn [orb].
    { split; [done|]. intros (_ & _ & ? & _). unfold MAX_FINAL_OUTPUT_BYTES in Hl. lia. }
    destruct (contains_char NUL (String c text)); cbn [res_bind]; [by split; [|intros (_ & _ & _ & ?)]|].
    split; [by intros [= <-] | by intros [-> _]].
  - intros route args d. unfold decision_call_tool. rewrite <-are_valid_arguments_spec.
    change (agent_is_valid_identifier route) with (tool_is_valid_identifier route).
    destruct (tool_is_valid_identifier route), (are_valid_arguments args); simpl;
      (split; [by intros [= <-] | by intros (-> & ? & ?)]).
  - intros host port request op. unfold prepare_tcp_exchange, validate_exchange, decision_tcp_exchange.
    by destruct (_ || _ || _ || _).
Qed.
