(* ===== verification/NetworkAudit.v ===== *)
(** * Network exchanges on the record

    An agent, its network gate, the adapter's sockets and the supervisor's audit log,
    put together: the addresses contacted and the bytes sent are counted against what
    the log permits and the task contracts grant. *)

From stdpp Require Import base numbers list gmap strings.
From Stdlib Require Import ZArith Lia.
From S2P Require Import Prelude RustStd RustNet TaskState TaskSpec Policy Event Approval Supervisor Recovery.
From S2P Require Import SupervisorInv SupervisorFacts SupervisorOps SupervisorRun SupervisorProps.
From S2P Require Import Execution ExecutionProps Facade Accounting ToolAdapter ToolProps NetworkAdapter Agent AgentFacts AgentRun AgentProps.

Section Audit.
Context `{EnvLaws} {N Sk St : Type} `{SocketsLaws N Sk} `{EventStoreLaws St}.
Implicit Types (a x : NetworkAdapter N) (s : TaskSupervisor St).

(** A destination of a contract the supervisor holds. *)
Definition in_contract s (address : SocketAddr) : Prop := exists t rec ds host,
  tasks s !! t = Some rec /\ network (capabilities (spec rec)) = AllowNetwork ds
  /\ mk_NetworkDestination host Tcp (socket_port address) ∈ ds /\ parse_IpAddr host = Some (socket_ip address).

Lemma in_contract_evolves strict s s' address : evolves strict s s' -> in_contract s address -> in_contract s' address.
Proof.
  intros He (t & rec & ds & host & Hrec & ?). destruct (He t rec Hrec) as (rec' & Hrec' & [Hsp _ _]).
  exists t, rec', ds, host. by rewrite Hsp.
Qed.

(** Since the adapter was [a]. *)
Record traffic_permitted a x s : Prop := {
  tp_contacts : (length (s_contacted (net x)) <= length (s_contacted (net a)) + all_permits s)%nat;
  tp_bytes : len (s_wire (net x)) <= len (s_wire (net a)) + Z.of_nat (all_permits s) * MAX_TCP_REQUEST_BYTES;
  tp_addresses : forall address, address ∈ s_contacted (net x) ->
    address ∈ s_contacted (net a) \/ in_contract s address;
}.

Lemma traffic_quiet a x x' s s' :
  s_contacted (net x') = s_contacted (net x) -> s_wire (net x') = s_wire (net x) ->
  (all_permits s <= all_permits s')%nat -> (forall address, in_contract s address -> in_contract s' address) ->
  traffic_permitted a x s -> traffic_permitted a x' s'.
Proof.
  intros Hc Hw Hp Hi [Hn Hb Ha]. split; rewrite ?Hc, ?Hw.
  - lia.
  - unfold MAX_TCP_REQUEST_BYTES in *. lia.
  - intros address [?|?]%Ha; [by left | right; auto].
Qed.

Lemma traffic_run strict a x s s' t op w1 rx x' w' :
  carries s t op -> execute op x w1 = (rx, x', w') -> advances strict s s' ->
  permitted s s' t (capability_request op) -> traffic_permitted a x s -> traffic_permitted a x' s'.
Proof.
  intros (rec & c & Hrec & _) He Hadv [Hp (rec' & Hrec' & Hg)] Htp.
  pose proof (wp_run _ _ _ _ _ _ _ (wp_network_execute op x w1) He) as (_ & _ & _ & Hex).
  pose proof (all_permits_permit strict s s' t Hadv (mk_is_Some _ _ Hrec) Hp) as Hall.
  assert (Hi : forall address, in_contract s address -> in_contract s' address)
    by (intros address; apply (in_contract_evolves strict), Hadv).
  destruct Hex as [[(_ & Hc & Hw) _]|(ip & sent & Hv & Hc & Hw & Hpre & _)].
  - apply (traffic_quiet a x x' s s'); [done | done | lia | done | done].
  - destruct Htp as [Hn Hb Ha]. apply validate_exchange_Ok in Hv as (Hip & _ & Hlen & _). split.
    + rewrite Hc, length_app. simpl. lia.
    + apply prefix_length in Hpre. rewrite Hw, len_app. unfold len, MAX_TCP_REQUEST_BYTES in *. lia.
    + intros address. rewrite Hc, elem_of_app, list_elem_of_singleton. intros [Hold| ->].
      { apply Ha in Hold as [?|?]; [by left | right; auto]. }
      right. destruct Hg as (ds & Hds & Hin). by exists t, rec', ds, (tcp_host op).
Qed.

Lemma gate_traffic_permitted strict a g s w :
  reachable_facade net_prepared strict a g s w -> traffic_permitted a (adapter g) s.
Proof.
  apply (facade_accounts net_prepared net_prepared_context (traffic_permitted a)).
  - intros s0. split; [lia | unfold MAX_TCP_REQUEST_BYTES; lia | auto].
  - intros x s1 s2 Htp Hadv. apply (traffic_quiet a x x s1 s2); [done | done | by eapply all_permits_advances | | done].
    intros address. apply (in_contract_evolves strict), Hadv.
  - intros g1 s1 g2 s2 w2 Htp (t & op & w1 & rx & _ & Hc & He & Hadv & Hp). by eapply traffic_run.
Qed.

End Audit.

(** C4: Agents contact no address off the record.  Whatever the model proposes and
    whatever else uses the supervisor, along every run of an agent with a network gate:
    every address it has contacted is a TCP destination that the contract of a task
    held by the supervisor allows; the contacts are at most as many as the permits on
    the audit logs of the tasks (operations allowed, and approvals consumed), and the
    bytes sent are at most the request limit for each permit. *)
Theorem agents_contact_only_permitted_destinations `{EnvLaws} {Mo Ses MErr HT N Sk St} `{ModelLaws Mo Ses MErr}
    `{ToolHandlerLaws HT} `{SocketsLaws N Sk} `{EventStoreLaws St} strict (b : ToolAdapterBuilder HT)
    (na : NetworkAdapter N) cf (x : AgentRuntime Mo Ses HT N) (s : TaskSupervisor St) w n :
  s_contacted (net na) = [] -> s_wire (net na) = [] ->
  reachable_agent strict b na cf x s w -> agent_network x = Some n ->
  (forall address, address ∈ s_contacted (net (adapter (network_gate n))) -> in_contract s address)
  /\ (length (s_contacted (net (adapter (network_gate n)))) <= all_permits s)%nat
  /\ len (s_wire (net (adapter (network_gate n)))) <= Z.of_nat (all_permits s) * MAX_TCP_REQUEST_BYTES.
Proof.
  intros Hc0 Hw0 Hr Hn. destruct (reachable_resting _ _ _ _ _ _ _ Hr) as [[_ Hnet _ _] _].
  destruct (gate_traffic_permitted strict na _ s w (Hnet n Hn)) as [Hc Hb Ha]. rewrite Hc0 in Hc, Ha. rewrite Hw0 in Hb.
  split; [|split; [exact Hc | exact Hb]]. intros address [Hnil|?]%Ha; [by apply not_elem_of_nil in Hnil | done].
Qed.

(** *** An agent that exchanges *)

Definition network_task : TaskSpec :=
  mk_TaskSpec "exchange" "Fetch the report"
    (mk_CapabilitySet [] (AllowNetwork [mk_NetworkDestination "127.0.0.1" Tcp 8080]) [])
    (mk_Budget 60 67108864 2) (mk_ApprovalPolicy []).

Definition exchanging_agent : DemoAgent :=
  (with_network_gate (AgentRuntime_new
     (mk_ScriptedModelAdapter (Some [TcpExchange "127.0.0.1" 8080 [1; 2; 3]; Finish (mk_AgentOutput "done")]))
     (build agent_builder).1 (build agent_builder).2 AgentConfig_default) (ExecutionGate_new demo_network),
   demo_supervisor).

Definition exchange_calls : list AgentCall := [AgentOther (CallSubmit network_task); AgentStart demo_task].

Definition exchanged_agent : DemoAgent * World := run_agent_calls exchange_calls exchanging_agent world0.

Lemma exchanged_agent_reachable :
  reachable_agent false agent_builder demo_network AgentConfig_default
    exchanged_agent.1.1 exchanged_agent.1.2 exchanged_agent.2.
Proof.
  pose proof (run_agent_calls_reachable exchange_calls exchanging_agent world0
    (agent_init_network _ _ _ _ _ _ _ (or_introl eq_refl) (demo_reachable false world0)) ltac:(vm_compute; reflexivity)) as Hr.
  unfold exchanged_agent. by destruct (run_agent_calls exchange_calls exchanging_agent world0) as [[x s] w].
Qed.

Lemma agents_contact_only_permitted_destinations_witness :
  exists n, agent_network exchanged_agent.1.1 = Some n
    /\ s_contacted (net (adapter (network_gate n))) = [mk_SocketAddr (V4 [127; 0; 0; 1]) 8080]
    /\ (length (s_contacted (net (adapter (network_gate n)))) <= all_permits exchanged_agent.1.2)%nat.
Proof.
  assert (Hn : exists n, agent_network exchanged_agent.1.1 = Some n
    /\ s_contacted (net (adapter (network_gate n))) = [mk_SocketAddr (V4 [127; 0; 0; 1]) 8080])
    by (vm_compute; eexists; split; reflexivity).
  destruct Hn as (n & Hn & Hc). exists n. split; [exact Hn|]. split; [exact Hc|].
  exact (proj1 (proj2 (agents_contact_only_permitted_destinations false agent_builder demo_network AgentConfig_default
    exchanged_agent.1.1 exchanged_agent.1.2 exchanged_agent.2 n eq_refl eq_refl exchanged_agent_reachable Hn))).
Defined.
