(* ===== verification/LocalApi.v ===== *)
(** * Local API (aios-local-api: lib.rs)

    Requests, responses and the service on the supervisor; the framing of both
    on a byte stream; the server and client sides of one connection, with the
    JSON codec of the serde_json crate as a parameter. *)

From stdpp Require Import base numbers list gmap strings.
From Stdlib Require Import ZArith Lia.
From S2P Require Import Prelude RustStd TaskState TaskSpec Policy Event Approval Supervisor.

Definition DEFAULT_MAX_FRAME_BYTES : Z := 64 * 1024.
Definition DEFAULT_EVENT_PAGE_SIZE : Z := 100.
Definition MAX_EVENT_PAGE_SIZE : Z := 256.
Definition MIN_SUPPORTED_PROTOCOL_VERSION : Z := 4.
Definition MAX_SUPPORTED_PROTOCOL_VERSION : Z := 4.
Definition PROTOCOL_VERSION : Z := MAX_SUPPORTED_PROTOCOL_VERSION.
Definition MIN_MAX_FRAME_BYTES : Z := 1024.
Definition MAX_MAX_FRAME_BYTES : Z := 1024 * 1024.

Definition is_supported_protocol_version (version : Z) : bool :=
  (MIN_SUPPORTED_PROTOCOL_VERSION <=? version) && (version <=? MAX_SUPPORTED_PROTOCOL_VERSION).

Inductive LocalApiError :=
| ApiInvalidConfig
| UnsafeSocketDirectory
| SocketAlreadyExists
| FrameTooLarge
| Protocol
| Io.

#[export] Instance LocalApiError_eq_dec : EqDecision LocalApiError.
Proof. solve_decision. Defined.

Definition display_LocalApiError (e : LocalApiError) : string :=
  match e with
  | ApiInvalidConfig => "invalid local API configuration"
  | UnsafeSocketDirectory => "socket directory permissions are unsafe"
  | SocketAlreadyExists => "socket path already exists"
  | FrameTooLarge => "frame exceeds configured limit"
  | Protocol => "invalid local API protocol data"
  | Io => "local API I/O failure"
  end.

Record ServerConfig := mk_ServerConfig {
  max_frame_bytes : Z;
  connection_timeout : Z;
}.

Definition ServerConfig_default : ServerConfig :=
  mk_ServerConfig DEFAULT_MAX_FRAME_BYTES (Duration_from_secs 5).

Definition ServerConfig_validate (self : ServerConfig) : Result ServerConfig LocalApiError :=
  if negb ((MIN_MAX_FRAME_BYTES <=? max_frame_bytes self)
           && (max_frame_bytes self <=? MAX_MAX_FRAME_BYTES))
     || Duration_is_zero (connection_timeout self)
  then Err ApiInvalidConfig
  else Ok self.

(** ** Requests and responses *)

Inductive ApiMethod :=
| Health
| Submit (task : TaskSpec)
| GetTask (task_id : TaskId)
| Events (task_id : TaskId) (after_sequence : Z) (limit : Z)
| Start (task_id : TaskId)
| Succeed (task_id : TaskId)
| Fail (task_id : TaskId)
| Cancel (task_id : TaskId).

Record ApiRequest := mk_ApiRequest {
  protocol_version : Z;
  api_method : ApiMethod;
}.

Definition ApiRequest_new (request : ApiMethod) : ApiRequest := mk_ApiRequest PROTOCOL_VERSION request.

Record ProtocolVersionRange := mk_ProtocolVersionRange { minimum : Z; maximum : Z }.

Definition ProtocolVersionRange_supported : ProtocolVersionRange :=
  mk_ProtocolVersionRange MIN_SUPPORTED_PROTOCOL_VERSION MAX_SUPPORTED_PROTOCOL_VERSION.

Inductive SubmissionDisposition := Accepted | Existing | RejectedSubmission.

Record TaskView := mk_TaskView { view_task_id : TaskId; view_state : TaskState }.

Definition view_of (task : TaskSnapshot) : TaskView :=
  mk_TaskView (snapshot_task_id task) (snapshot_state task).

Record ValidationIssue := mk_ValidationIssue { issue_field : string; issue_message : string }.

Inductive ApiErrorCode :=
| CodeInvalidRequest
| CodeUnsupportedProtocolVersion
| CodeFrameTooLarge
| CodeTaskNotFound
| CodeIdempotencyConflict
| CodeCapacityExceeded
| CodeInvalidStateTransition
| CodeApprovalFailed
| CodeStorageUnavailable
| CodeResponseTooLarge.

#[export] Instance ApiErrorCode_eq_dec : EqDecision ApiErrorCode.
Proof. solve_decision. Defined.

Record ApiError := mk_ApiError { error_code : ApiErrorCode; error_message : string }.

#[export] Instance ApiError_eq_dec : EqDecision ApiError.
Proof. solve_decision. Defined.

Inductive ApiResult :=
| ResultHealthy (supported_protocol_versions : ProtocolVersionRange)
| ResultSubmitted (disposition : SubmissionDisposition) (task : TaskView)
    (validation_errors : list ValidationIssue)
| ResultTask (task : TaskView)
| ResultEvents (events : list TaskEvent) (has_more : bool)
| ResultCancelled (task : TaskView) (changed : bool).

Inductive ApiOutcome :=
| OutcomeOk (result : ApiResult)
| OutcomeError (error : ApiError).

Record ApiResponse := mk_ApiResponse {
  response_version : Z;
  api_outcome : ApiOutcome;
}.

Definition ok (result : ApiResult) : ApiResponse := mk_ApiResponse PROTOCOL_VERSION (OutcomeOk result).

Definition api_error (code : ApiErrorCode) (message : string) : ApiResponse :=
  mk_ApiResponse PROTOCOL_VERSION (OutcomeError (mk_ApiError code message)).

Definition invalid_request_response : ApiResponse :=
  api_error CodeInvalidRequest "request is invalid".

Definition supervisor_error_response (error : SupervisorError) : ApiResponse :=
  match error with
  | TaskNotFound => api_error CodeTaskNotFound "task not found"
  | IdempotencyConflict =>
      api_error CodeIdempotencyConflict "idempotency key conflicts with existing input"
  | CapacityExceeded => api_error CodeCapacityExceeded "task capacity exceeded"
  | TaskNotRunning | InvalidStateTransition _ =>
      api_error CodeInvalidStateTransition "requested task transition is not allowed"
  | ApprovalFailure _ => api_error CodeApprovalFailed "approval operation failed"
  | EventStoreFailure _ => api_error CodeStorageUnavailable "event storage is unavailable"
  end.

Definition validation_issues (errors : list ValidationError) : list ValidationIssue :=
  (fun error => mk_ValidationIssue (field error) (message error)) <$> errors.

Definition submission_response (result : SubmitResult) : ApiResponse :=
  match result with
  | SubmitAccepted task => ok (ResultSubmitted Accepted (view_of task) [])
  | SubmitExisting task => ok (ResultSubmitted Existing (view_of task) [])
  | SubmitRejected task errors =>
      ok (ResultSubmitted RejectedSubmission (view_of task) (validation_issues errors))
  end.

Definition default_event_page_size : Z := DEFAULT_EVENT_PAGE_SIZE.

(** ** The service *)

Section Service.
Context `{Env} {S : Type} `{!EventStore S}.

(** [handle] has no error of its own: the service is the supervisor. *)
Abbreviation Service := (M (TaskSupervisor S) Empty_set).

Definition task_response (task_id : TaskId) (result : TaskView -> ApiResult) : Service ApiResponse :=
  let! found := gets (fun s => get s task_id) in
  match found with
  | None => ret (api_error CodeTaskNotFound "task not found")
  | Some task => ret (ok (result (view_of task)))
  end.

Definition transition_response (task_id : TaskId)
    (transition : TaskId -> M (TaskSupervisor S) SupervisorError unit) : Service ApiResponse :=
  let! r := attempt (transition task_id) in
  match r with
  | Ok _ => task_response task_id ResultTask
  | Err error => ret (supervisor_error_response error)
  end.

Definition handle (request : ApiRequest) : Service ApiResponse :=
  if negb (is_supported_protocol_version (protocol_version request)) then
    ret (api_error CodeUnsupportedProtocolVersion "protocol version is not supported")
  else
    match api_method request with
    | Health => ret (ok (ResultHealthy ProtocolVersionRange_supported))
    | Submit task =>
        let! r := attempt (submit task) in
        match r with
        | Ok result => ret (submission_response result)
        | Err error => ret (supervisor_error_response error)
        end
    | GetTask task_id => task_response task_id ResultTask
    | Events task_id after_sequence limit =>
        if (limit =? 0) || (MAX_EVENT_PAGE_SIZE <? limit) then ret invalid_request_response
        else
          let! r := gets (fun s => Supervisor.events s task_id after_sequence) in
          match r with
          | Ok events =>
              let has_more := limit <? len events in
              ret (ok (ResultEvents (take (Z.to_nat limit) events) has_more))
          | Err error => ret (supervisor_error_response error)
          end
    | Start task_id => transition_response task_id start
    | Succeed task_id => transition_response task_id succeed
    | Fail task_id => transition_response task_id fail
    | Cancel task_id =>
        let! r := attempt (Supervisor.cancel task_id) in
        match r with
        | Ok changed => task_response task_id (fun task => ResultCancelled task changed)
        | Err error => ret (supervisor_error_response error)
        end
    end.

End Service.

(** ** Streams

    One end of a connection: the bytes still to come, after which reads meet
    end-of-file or an I/O error, and the bytes written so far, of which the peer
    accepts [room] more before writes fail. *)

Record Stream := mk_Stream {
  incoming : list Z;
  read_fails : bool;
  outgoing : list Z;
  room : option nat;
}.

(** [read] of one byte: [None] at end of file. *)
Definition read_byte (s : Stream) : Result (option Z) LocalApiError * Stream :=
  match incoming s with
  | b :: rest => (Ok (Some b), mk_Stream rest (read_fails s) (outgoing s) (room s))
  | [] => (if read_fails s then Err Io else Ok None, s)
  end.

(** [read_exact], any failure mapped to the protocol error. *)
Definition read_exact (n : nat) (s : Stream) : Result (list Z) LocalApiError * Stream :=
  if bool_decide (n <= length (incoming s))%nat then
    (Ok (take n (incoming s)), mk_Stream (drop n (incoming s)) (read_fails s) (outgoing s) (room s))
  else (Err Protocol, mk_Stream [] (read_fails s) (outgoing s) (room s)).

(** [write_all]: what does not fit is lost and reported. *)
Definition write_all (bytes : list Z) (s : Stream) : Result unit LocalApiError * Stream :=
  match room s with
  | None => (Ok tt, mk_Stream (incoming s) (read_fails s) (outgoing s ++ bytes) None)
  | Some n =>
      if bool_decide (length bytes <= n)%nat then
        (Ok tt, mk_Stream (incoming s) (read_fails s) (outgoing s ++ bytes) (Some (n - length bytes)%nat))
      else (Err Io, mk_Stream (incoming s) (read_fails s) (outgoing s ++ take n bytes) (Some 0%nat))
  end.

(** [u32::to_be_bytes] and [u32::from_be_bytes]. *)
Definition to_be_bytes (n : Z) : list Z :=
  [Z.land (Z.shiftr n 24) 255; Z.land (Z.shiftr n 16) 255; Z.land (Z.shiftr n 8) 255; Z.land n 255].

Definition from_be_bytes (l : list Z) : Z :=
  foldl (fun acc b => Z.lor (Z.shiftl acc 8) b) 0 l.

Definition u32_max : Z := 2 ^ 32 - 1.

Definition read_frame (max_frame_bytes : Z) (s : Stream)
    : Result (option (list Z)) LocalApiError * Stream :=
  match read_byte s with
  | (Err e, s) => (Err e, s)
  | (Ok None, s) => (Ok None, s)
  | (Ok (Some first), s) =>
      match read_exact 3 s with
      | (Err e, s) => (Err e, s)
      | (Ok rest, s) =>
          let length := from_be_bytes (first :: rest) in
          if length =? 0 then (Err Protocol, s)
          else if max_frame_bytes <? length then (Err FrameTooLarge, s)
          else
            match read_exact (Z.to_nat length) s with
            | (Err e, s) => (Err e, s)
            | (Ok payload, s) => (Ok (Some payload), s)
            end
      end
  end.

Definition write_frame (payload : list Z) (max_frame_bytes : Z) (s : Stream)
    : Result unit LocalApiError * Stream :=
  if bool_decide (payload = []) || (max_frame_bytes <? len payload) then (Err FrameTooLarge, s)
  else
    match try_into u32_max (len payload) with
    | None => (Err FrameTooLarge, s)
    | Some length =>
        match write_all (to_be_bytes length) s with
        | (Err e, s) => (Err e, s)
        | (Ok _, s) => write_all payload s
        end
    end.

(** ** One connection *)

Section Connection.
Context `{Env} {S : Type} `{!EventStore S}.

(** serde_json: [from_slice] at the types of the protocol and [to_vec]. *)
Context (parse_probe : list Z -> option Z) (parse_request : list Z -> option ApiRequest)
  (encode_response : ApiResponse -> option (list Z))
  (encode_request : ApiRequest -> option (list Z)) (parse_response : list Z -> option ApiResponse).

Definition write_response (response : ApiResponse) (max_frame_bytes : Z) (s : Stream)
    : Result unit LocalApiError * Stream :=
  match encode_response response with
  | None => (Err Protocol, s)
  | Some payload =>
      if max_frame_bytes <? len payload then
        match encode_response (api_error CodeResponseTooLarge "response exceeds configured limit") with
        | None => (Err Protocol, s)
        | Some payload => write_frame payload max_frame_bytes s
        end
      else write_frame payload max_frame_bytes s
  end.

(** What [serve_stream] answers to the payload of a frame. *)
Definition answer (payload : list Z) : M (TaskSupervisor S) Empty_set ApiResponse :=
  match parse_probe payload with
  | Some version =>
      if negb (is_supported_protocol_version version) then
        ret (api_error CodeUnsupportedProtocolVersion "protocol version is not supported")
      else
        match parse_request payload with
        | Some request => handle request
        | None => ret invalid_request_response
        end
  | None => ret invalid_request_response
  end.

(** [serve_stream] on a stream and the service. *)
Definition serve_stream (max_frame_bytes : Z)
    : M (Stream * TaskSupervisor S) LocalApiError unit :=
  fun x w =>
    let '(stream, service) := x in
    let respond (response : ApiResponse) stream service w :=
      match write_response response max_frame_bytes stream with
      | (Ok _, stream) => (Return tt, (stream, service), w)
      | (Err e, stream) => (Raise e, (stream, service), w)
      end in
    match read_frame max_frame_bytes stream with
    | (Ok (Some payload), stream) =>
        match answer payload service w with
        | (Return response, service, w) => respond response stream service w
        | (Raise e, service, w) => match e with end
        | (Panic, service, w) => (Panic, (stream, service), w)
        end
    | (Ok None, stream) => (Raise Protocol, (stream, service), w)
    | (Err FrameTooLarge, stream) =>
        respond (api_error CodeFrameTooLarge "request frame is too large") stream service w
    | (Err e, stream) => (Raise e, (stream, service), w)
    end.

(** The client half of [send_request] before and after the exchange. *)
Definition client_send (request : ApiRequest) (config : ServerConfig) (s : Stream)
    : Result unit LocalApiError * Stream :=
  match ServerConfig_validate config with
  | Err e => (Err e, s)
  | Ok config =>
      match encode_request request with
      | None => (Err Protocol, s)
      | Some payload => write_frame payload (max_frame_bytes config) s
      end
  end.

Definition client_receive (config : ServerConfig) (s : Stream) : Result ApiResponse LocalApiError :=
  match read_frame (max_frame_bytes config) s with
  | (Err e, _) => Err e
  | (Ok None, _) => Err Protocol
  | (Ok (Some payload), _) =>
      match parse_response payload with
      | None => Err Protocol
      | Some response =>
          if negb (response_version response =? PROTOCOL_VERSION) then Err Protocol else Ok response
      end
  end.

End Connection.
