(* ===== verification/LocalApiProps.v ===== *)
(** * Properties of the local API *)

From stdpp Require Import base numbers list gmap strings.
From Stdlib Require Import ZArith Lia.
From S2P Require Import Prelude RustStd TaskState TaskSpec Policy Event Approval Supervisor Recovery.
From S2P Require Import SupervisorInv SupervisorFacts SupervisorOps RecoveryFacts SupervisorRun SupervisorProps LocalApi.

(** ** Framing *)

Lemma shiftl_lor_add a b : 0 <= b < 256 -> Z.lor (Z.shiftl a 8) b = a * 256 + b.
Proof.
  intros Hb. rewrite Z.shiftl_mul_pow2 by lia. change (2 ^ 8) with 256.
  assert (Hland : Z.land (a * 256) b = 0).
  { apply Z.bits_inj'. intros i Hi. rewrite Z.land_spec, Z.bits_0. change 256 with (2 ^ 8).
    destruct (Z.lt_ge_cases i 8).
    - by rewrite Z.mul_pow2_bits_low by lia.
    - rewrite (Z.bits_above_log2 b), Bool.andb_false_r; [done | lia |].
      destruct (decide (b = 0)) as [->|]; [simpl; lia|].
      apply Z.lt_le_trans with 8; [|done]. apply Z.log2_lt_pow2; simpl; lia. }
  by rewrite <-Z.lxor_lor, Z.add_nocarry_lxor by done.
Qed.

Lemma land_255 a : Z.land a 255 = a mod 256.
Proof. change 255 with (Z.ones 8). by rewrite Z.land_ones. Qed.

Lemma be_bytes_round_trip n : 0 <= n <= u32_max -> from_be_bytes (to_be_bytes n) = n.
Proof.
  intros Hn. unfold u32_max in Hn. unfold from_be_bytes, to_be_bytes. cbn [foldl].
  rewrite !land_255, !Z.shiftr_div_pow2 by lia.
  rewrite !shiftl_lor_add by (apply Z.mod_pos_bound; lia).
  change (2 ^ 24) with 16777216. change (2 ^ 16) with 65536. change (2 ^ 8) with 256.
  Z.div_mod_to_equations. lia.
Qed.

(** The bytes of one frame. *)
Definition frame (payload : list Z) : list Z := to_be_bytes (len payload) ++ payload.

Lemma write_all_Ok bytes s s' :
  write_all bytes s = (Ok tt, s') ->
  outgoing s' = outgoing s ++ bytes /\ incoming s' = incoming s /\ read_fails s' = read_fails s.
Proof.
  unfold write_all. destruct (room s) as [n|]; [|by intros [= <-]].
  case_bool_decide; by intros [= <-].
Qed.

Lemma write_frame_Ok payload max s s' :
  write_frame payload max s = (Ok tt, s') ->
  payload <> [] /\ len payload <= max /\ len payload <= u32_max
  /\ outgoing s' = outgoing s ++ frame payload /\ incoming s' = incoming s.
Proof.
  unfold write_frame, try_into. case_bool_decide as Hne; [done|]. simpl.
  destruct (Z.ltb_spec max (len payload)) as [|Hmax]; [done|].
  pose proof (len_nonneg payload) as Hlen. rewrite (proj2 (Z.leb_le 0 _)) by done. cbn [andb].
  destruct (Z.leb_spec (len payload) u32_max) as [Hu|]; [|done].
  destruct (write_all (to_be_bytes (len payload)) s) as [[[]|e] s1] eqn:E1; [|done]. intros E2.
  apply write_all_Ok in E1 as (Ho1 & Hi1 & _), E2 as (Ho2 & Hi2 & _).
  split_and!; try done; [|congruence]. unfold frame. by rewrite Ho2, Ho1, <-app_assoc.
Qed.

Lemma read_exact_app bytes rest s :
  incoming s = bytes ++ rest ->
  read_exact (length bytes) s
  = (Ok bytes, mk_Stream rest (read_fails s) (outgoing s) (room s)).
Proof.
  intros Hi. unfold read_exact. rewrite Hi, bool_decide_eq_true_2 by (rewrite length_app; lia).
  by rewrite take_app_length, drop_app_length.
Qed.

Lemma read_frame_frame payload rest max s :
  incoming s = frame payload ++ rest -> payload <> [] -> len payload <= max -> len payload <= u32_max ->
  read_frame max s = (Ok (Some payload), mk_Stream rest (read_fails s) (outgoing s) (room s)).
Proof.
  intros Hi Hne Hmax Hu. pose proof (len_nonneg payload) as Hlen.
  assert (Hpos : len payload <> 0) by (unfold len; destruct payload; [done | simpl; lia]).
  pose proof (be_bytes_round_trip (len payload)) as Hrt.
  unfold frame in Hi. unfold to_be_bytes in *. rewrite <-app_assoc in Hi. cbn [app] in Hi.
  unfold read_frame, read_byte. rewrite Hi.
  rewrite (read_exact_app [_; _; _] (payload ++ rest)) by done.
  rewrite Hrt by lia. rewrite (proj2 (Z.eqb_neq _ _)) by done.
  rewrite (proj2 (Z.ltb_ge _ _)) by done.
  replace (Z.to_nat (len payload)) with (length payload) by (unfold len; lia).
  by rewrite (read_exact_app payload rest) by done.
Qed.

(** Frames survive the stream: a frame that was written in full is read
    back, by a reader with the same limit and whatever follows it, as exactly the
    payload, and the reader stops at its end. *)
Theorem frames_round_trip payload max s s' :
  write_frame payload max s = (Ok tt, s') ->
  exists bytes, outgoing s' = outgoing s ++ bytes /\ len bytes = 4 + len payload
    /\ forall t rest, incoming t = bytes ++ rest ->
         read_frame max t = (Ok (Some payload), mk_Stream rest (read_fails t) (outgoing t) (room t)).
Proof.
  intros (Hne & Hmax & Hu & Ho & _)%write_frame_Ok. exists (frame payload). split_and!; [done | |].
  - unfold frame. by rewrite len_app.
  - intros t rest Hi. by apply read_frame_frame.
Qed.

Definition empty_stream : Stream := mk_Stream [] false [] None.

Lemma frames_round_trip_witness :
  let s' := (write_frame [123; 125] 1024 empty_stream).2 in
  exists bytes, outgoing s' = bytes
    /\ read_frame 1024 (mk_Stream (bytes ++ [7]) false [] None)
       = (Ok (Some [123; 125]), mk_Stream [7] false [] None).
Proof.
  intros s'.
  destruct (frames_round_trip [123; 125] 1024 empty_stream s') as (bytes & Ho & _ & Hr);
    [vm_compute; reflexivity|].
  exists bytes. split; [exact Ho|].
  exact (Hr (mk_Stream (bytes ++ [7]) false [] None) [7] eq_refl).
Defined.

(** The bytes of a stream are [u8]. *)
Definition is_bytes (l : list Z) : Prop := Forall (fun b => 0 <= b < 256) l.

Lemma from_be_bytes_nonneg l : is_bytes l -> 0 <= from_be_bytes l.
Proof.
  unfold from_be_bytes. assert (Hgen : forall acc, 0 <= acc -> is_bytes l ->
    0 <= foldl (fun acc b => Z.lor (Z.shiftl acc 8) b) acc l); [|by apply Hgen].
  induction l as [|b l IH]; intros acc Hacc Hl; simpl; [done|].
  apply Forall_cons in Hl as [Hb Hl]. apply IH; [|done].
  rewrite Z.lor_nonneg, Z.shiftl_nonneg. lia.
Qed.

(** Reading is bounded whatever the peer sends: a payload has between one
    byte and the limit and follows its four-byte header on the wire; an announced
    length above the limit is refused after the header without reading further;
    nothing is ever written. *)
Theorem read_frame_is_bounded max s r s' :
  is_bytes (incoming s) -> read_frame max s = (r, s') ->
  outgoing s' = outgoing s /\
  match r with
  | Ok (Some payload) => 1 <= len payload <= max
      /\ exists header, length header = 4%nat /\ from_be_bytes header = len payload
         /\ incoming s = header ++ payload ++ incoming s'
  | Ok None => s' = s /\ incoming s = []
  | Err FrameTooLarge => exists header, length header = 4%nat /\ max < from_be_bytes header
      /\ incoming s = header ++ incoming s'
  | Err e => e = Protocol \/ e = Io
  end.
Proof.
  intros Hby. unfold read_frame, read_byte. destruct (incoming s) as [|b rest] eqn:Hi.
  { destruct (read_fails s); intros [= <- <-]; auto. }
  unfold read_exact at 1. cbn [incoming]. case_bool_decide as H3; [|intros [= <- <-]; auto].
  set (header := b :: take 3 rest). cbn [fst snd].
  assert (Hlen : length header = 4%nat) by (unfold header; simpl; rewrite length_take; lia).
  assert (Hsplit : b :: rest = header ++ drop 3 rest) by (unfold header; simpl; by rewrite take_drop).
  assert (Hpos : 0 <= from_be_bytes header).
  { apply from_be_bytes_nonneg. rewrite Hsplit in Hby. by apply Forall_app in Hby as [? _]. }
  destruct (Z.eqb_spec (from_be_bytes header) 0) as [|Hnz]; [intros [= <- <-]; auto|].
  destruct (Z.ltb_spec max (from_be_bytes header)) as [Hbig|Hfit].
  { intros [= <- <-]. split; [done|]. exists header. split_and!; [done | done | exact Hsplit]. }
  unfold read_exact. cbn [incoming]. case_bool_decide as Hn; [|intros [= <- <-]; auto].
  intros [= <- <-]. split; [done|]. cbn [incoming].
  assert (Hpay : len (take (Z.to_nat (from_be_bytes header)) (drop 3 rest)) = from_be_bytes header).
  { unfold len. rewrite length_take. lia. }
  rewrite Hpay. split; [lia|]. exists header. split_and!; [done | done |].
  by rewrite take_drop.
Qed.

Lemma read_frame_is_bounded_witness :
  let s := mk_Stream [0; 16; 0; 0; 1; 2; 3] false [] None in
  exists header, length header = 4%nat /\ 1024 < from_be_bytes header
    /\ incoming s = header ++ [1; 2; 3].
Proof.
  intros s.
  refine (proj2 (read_frame_is_bounded 1024 s (Err FrameTooLarge) (mk_Stream [1; 2; 3] false [] None) _ _)).
  - unfold is_bytes. apply (bool_decide_unpack _). vm_compute. exact I.
  - vm_compute. reflexivity.
Defined.

(** ** The service *)

(** Every error the service can report. *)
Definition api_error_pool : list ApiError :=
  [ mk_ApiError CodeInvalidRequest "request is invalid";
    mk_ApiError CodeUnsupportedProtocolVersion "protocol version is not supported";
    mk_ApiError CodeTaskNotFound "task not found";
    mk_ApiError CodeIdempotencyConflict "idempotency key conflicts with existing input";
    mk_ApiError CodeCapacityExceeded "task capacity exceeded";
    mk_ApiError CodeInvalidStateTransition "requested task transition is not allowed";
    mk_ApiError CodeApprovalFailed "approval operation failed";
    mk_ApiError CodeStorageUnavailable "event storage is unavailable" ].

Ltac in_api_pool := apply (bool_decide_unpack _); vm_compute; exact I.

Section Service.
Context `{EnvLaws} {St : Type} `{EventStoreLaws St}.
Implicit Types s : TaskSupervisor St.

(** A response of the current protocol; an error is one of the pool and comes
    with an unchanged supervisor. *)
Definition sound_response s s' (response : ApiResponse) : Prop :=
  response_version response = PROTOCOL_VERSION /\
  match api_outcome response with
  | OutcomeOk _ => True
  | OutcomeError e => e ∈ api_error_pool /\ unchanged s s'
  end.

Definition handled s w (r : outcome ApiResponse Empty_set) s' w' : Prop :=
  sup_inv false s' w' /\ world_le w w' /\ exists response, r = Return response /\ sound_response s s' response.

Lemma handled_same s w response :
  sup_inv false s w -> response_version response = PROTOCOL_VERSION ->
  match api_outcome response with OutcomeOk _ => True | OutcomeError e => e ∈ api_error_pool end ->
  handled s w (Return response) s w.
Proof.
  intros Hi Hv He. split; [done|]. split; [done|]. exists response. split; [done|]. split; [done|].
  destruct (api_outcome response); [done | split; [done | apply unchanged_refl]].
Qed.

Lemma supervisor_error_sound s s' e : unchanged s s' -> sound_response s s' (supervisor_error_response e).
Proof. intros Hu. destruct e; (split; [done|]); simpl; (split; [in_api_pool | done]). Qed.

Lemma wp_task_response t s0 s w result w0 :
  sup_inv false s w -> world_le w0 w -> task_state s t <> None ->
  wp (task_response t result) (handled s0 w0) s w.
Proof.
  intros Hi Hw Ht. unfold task_response, get. wp_step. wp_step.
  destruct (task_state s t) as [q|]; [|done]. cbn. split; [done|]. split; [done|].
  eexists. split; [done|]. by split.
Qed.

Lemma wp_transition_response t m s w :
  wp (m t) (fun r s' w' => sup_inv false s' w' /\ world_le w w' /\
    match r with Return _ => task_state s' t <> None | Raise _ => unchanged s s' | Panic => False end) s w ->
  wp (transition_response t m) (handled s w) s w.
Proof.
  intros Hm. unfold transition_response. wp_step. wp_step. eapply wp_mono; [exact Hm|].
  intros [u|e|] s' w' (Hi & Hw & Hr); cbn beta iota; [by apply wp_task_response | | done].
  wp_step. split; [done|]. split; [done|]. eexists. split; [done|]. by apply supervisor_error_sound.
Qed.

Lemma started_known s t r now s' : started s t r now s' -> task_state s' t <> None.
Proof. intros [E _]. rewrite E. unfold task_state. simpl. by rewrite lookup_insert_eq. Qed.

Lemma finished_known s t cur next f s' : finished s t cur next f s' -> task_state s' t <> None.
Proof. intros [Hs _ _ _]. by rewrite Hs, decide_True. Qed.

Lemma wp_start_known t s w :
  sup_inv false s w ->
  wp (start t) (fun r s' w' => sup_inv false s' w' /\ world_le w w' /\
    match r with Return _ => task_state s' t <> None | Raise _ => unchanged s s' | Panic => False end) s w.
Proof.
  intros Hi. eapply wp_mono; [by apply (wp_start false)|]. intros [u|e|] s' w' (? & ? & Hr); try done.
  destruct Hr as (r & k & _ & _ & _ & Hst). post. by eapply started_known.
Qed.

Lemma wp_finish_known t next s w :
  sup_inv false s w -> is_terminal next = true ->
  wp (transition t next) (fun r s' w' => sup_inv false s' w' /\ world_le w w' /\
    match r with Return _ => task_state s' t <> None | Raise _ => unchanged s s' | Panic => False end) s w.
Proof.
  intros Hi Hn. eapply wp_mono; [by apply (wp_transition_terminal false)|].
  intros [u|e|] s' w' (? & ? & Hr); post; try done.
  - destruct Hr as (cur & _ & _ & Hf). by eapply finished_known.
  - apply Hr.
Qed.

Lemma wp_handle request s w : sup_inv false s w -> wp (handle request) (handled s w) s w.
Proof.
  intros Hi. unfold handle. destruct (is_supported_protocol_version _); simpl.
  2:{ wp_step. apply handled_same; [done | done | in_api_pool]. }
  destruct (api_method request) as [|task|t|t after limit|t|t|t|t].
  - wp_step. by apply handled_same.
  - wp_step. wp_step. eapply wp_mono; [by apply (wp_submit false)|].
    intros [res|e|] s' w' (Hi' & Hw & Hr); cbn beta iota; [| |done]; wp_step;
      (split; [done|]; split; [done|]; eexists; split; [done|]).
    + by destruct res.
    + apply supervisor_error_sound, Hr.
  - unfold task_response, get. wp_step. wp_step.
    destruct (task_state s t); wp_step; apply handled_same; try done. in_api_pool.
  - destruct (_ || _); [wp_step; apply handled_same; [done | done | in_api_pool]|].
    wp_step. wp_step. destruct (Supervisor.events s t after) as [evs|e]; wp_step.
    + by apply handled_same.
    + split; [done|]. split; [done|]. eexists. split; [done|]. apply supervisor_error_sound, unchanged_refl.
  - by apply wp_transition_response, wp_start_known.
  - by apply wp_transition_response, wp_finish_known.
  - by apply wp_transition_response, wp_finish_known.
  - wp_step. wp_step. eapply wp_mono; [by apply (wp_cancel false)|].
    intros [b|e|] s' w' (Hi' & Hw & Hr); cbn beta iota; [| |done].
    + apply wp_task_response; [done | done |]. destruct b.
      * destruct Hr as (cur & _ & _ & Hf). by eapply finished_known.
      * destruct Hr as (-> & cur & Hcur & _). by rewrite Hcur.
    + wp_step. split; [done|]. split; [done|]. eexists. split; [done|]. by apply supervisor_error_sound.
Qed.

End Service.

(** The service always answers in the supported protocol and never panics;
    an error answer is one of eight fixed code and message pairs, so it echoes no
    input, and comes with an unchanged supervisor. *)
Theorem api_errors_are_fixed_and_harmless `{EnvLaws} {St} `{EventStoreLaws St}
    request (s : TaskSupervisor St) w r s' w' :
  reachable false s w -> handle request s w = (r, s', w') ->
  exists response, r = Return response /\ response_version response = PROTOCOL_VERSION
    /\ forall e, api_outcome response = OutcomeError e -> e ∈ api_error_pool /\ unchanged s s'.
Proof.
  intros Hi%reachable_inv Hrun.
  apply (wp_run _ _ _ _ _ _ _ (wp_handle request s w Hi)) in Hrun as (_ & _ & response & -> & Hv & Ho).
  exists response. split_and!; [done | done |]. intros e He. by rewrite He in Ho.
Qed.

Lemma api_errors_are_fixed_and_harmless_witness :
  let request := ApiRequest_new (Succeed demo_task) in
  let s := (demo_run demo_calls).1 in
  exists response, (handle request s (demo_run demo_calls).2).1.1 = Return response
    /\ error_code <$> (match api_outcome response with OutcomeError e => Some e | _ => None end)
       = Some CodeInvalidStateTransition.
Proof.
  intros request s.
  set (run := handle request s (demo_run demo_calls).2).
  assert (Hr : reachable false s (demo_run demo_calls).2) by (apply demo_reach; vm_compute; reflexivity).
  assert (Hrun : run = (run.1.1, run.1.2, run.2)) by (destruct run as [[? ?] ?]; reflexivity).
  destruct (api_errors_are_fixed_and_harmless request s (demo_run demo_calls).2 run.1.1 run.1.2 run.2
              Hr Hrun) as (response & Hres & _).
  exists response. split; [exact Hres|]. vm_compute in Hres. injection Hres as <-. vm_compute. reflexivity.
Defined.

(** Event pages are exact: for a known task and a limit between 1 and 256
    the page after a sequence number is the next [limit] events of the log, and
    [has_more] says whether the log goes on, so pages read one after another, each
    after the last, return the whole log in order. *)
Theorem event_pages_are_exact `{EnvLaws} {St} `{EventStoreLaws St} strict
    (s : TaskSupervisor St) w t after limit evs more :
  reachable strict s w -> 0 <= after -> 1 <= limit ->
  (handle (ApiRequest_new (Events t after limit)) s w).1.1 = Return (ok (ResultEvents evs more)) ->
  let log := store_log (event_store s) t in
  evs = take (Z.to_nat limit) (drop (Z.to_nat after) log)
  /\ (more = true <-> after + limit < len log)
  /\ evs ++ drop (Z.to_nat (after + limit)) log = drop (Z.to_nat after) log
  /\ limit <= MAX_EVENT_PAGE_SIZE.
Proof.
  intros Hi%reachable_inv Ha Hlim. unfold handle. simpl.
  rewrite (proj2 (Z.eqb_neq limit 0)) by lia. simpl.
  destruct (Z.ltb_spec MAX_EVENT_PAGE_SIZE limit); [done|].
  unfold bind, gets, Supervisor.events. destruct (task_state s t) as [q|]; [|done].
  destruct (list_events (event_store s) t after) as [l|e] eqn:Hl; simpl; [|by destruct e].
  assert (Hwf : store_wf (event_store s)) by apply Hi.
  apply list_events_spec in Hl; [|done].
  rewrite contiguous_filter_drop in Hl by (done || by apply store_contiguous).
  intros [= <- <-]. subst l. split_and!; [done | | | done].
  - rewrite Z.ltb_lt. unfold len. rewrite length_drop. lia.
  - rewrite Z2Nat.inj_add by lia. rewrite <-drop_drop. apply take_drop.
Qed.

Lemma event_pages_are_exact_witness :
  let s := (demo_run demo_calls).1 in
  let log := log_of (event_store s) demo_task in
  exists evs, (handle (ApiRequest_new (Events demo_task 1 2)) s (demo_run demo_calls).2).1.1
      = Return (ok (ResultEvents evs true))
    /\ evs ++ drop 3 log = drop 1 log.
Proof.
  intros s log.
  assert (Hr : reachable true s (demo_run demo_calls).2) by (apply demo_reach; vm_compute; reflexivity).
  exists (take 2 (drop 1 log)).
  assert (Hrun : (handle (ApiRequest_new (Events demo_task 1 2)) s (demo_run demo_calls).2).1.1
    = Return (ok (ResultEvents (take 2 (drop 1 log)) true))) by (vm_compute; reflexivity).
  split; [exact Hrun|].
  exact (proj1 (proj2 (proj2 (event_pages_are_exact true s (demo_run demo_calls).2 demo_task 1 2 _ true
                                Hr ltac:(lia) ltac:(lia) Hrun)))).
Defined.

(** ** One connection *)

Section Session.
Context `{EnvLaws} {St : Type} `{EventStoreLaws St}.
Context (parse_probe : list Z -> option Z) (parse_request : list Z -> option ApiRequest)
  (encode_response : ApiResponse -> option (list Z))
  (encode_request : ApiRequest -> option (list Z)) (parse_response : list Z -> option ApiResponse).

(** What the codec promises for the values of one exchange. *)
Record codec_round_trips (request : ApiRequest) (response : ApiResponse) : Prop := {
  cr_request : forall p, encode_request request = Some p ->
    parse_probe p = Some (protocol_version request) /\ parse_request p = Some request;
  cr_response : exists q, encode_response response = Some q /\ q <> [] /\ parse_response q = Some response;
}.

Definition too_large_response : ApiResponse :=
  api_error CodeResponseTooLarge "response exceeds configured limit".

Lemma answer_handles request p (s : TaskSupervisor St) w :
  parse_probe p = Some (protocol_version request) -> parse_request p = Some request ->
  answer parse_probe parse_request p s w = handle request s w.
Proof.
  intros Hp Hr. unfold answer. rewrite Hp, Hr.
  destruct (is_supported_protocol_version (protocol_version request)) eqn:Hv; [done|].
  unfold handle. by rewrite Hv.
Qed.

Lemma write_all_roomy bytes t : room t = None ->
  write_all bytes t = (Ok tt, mk_Stream (incoming t) (read_fails t) (outgoing t ++ bytes) None).
Proof. intros Hr. unfold write_all. by rewrite Hr. Qed.

Lemma write_frame_roomy payload max t :
  room t = None -> payload <> [] -> len payload <= max -> max <= MAX_MAX_FRAME_BYTES ->
  write_frame payload max t
  = (Ok tt, mk_Stream (incoming t) (read_fails t) (outgoing t ++ frame payload) None).
Proof.
  intros Hr Hne Hmax Hcap. unfold MAX_MAX_FRAME_BYTES in Hcap. unfold write_frame, try_into, u32_max.
  rewrite bool_decide_eq_false_2 by done. pose proof (len_nonneg payload).
  rewrite (proj2 (Z.ltb_ge max _)) by done. simpl.
  rewrite (proj2 (Z.leb_le 0 _)), (proj2 (Z.leb_le _ (4294967295))) by lia. simpl.
  rewrite write_all_roomy by done. simpl. rewrite write_all_roomy by done. simpl. by rewrite <-app_assoc.
Qed.

(** What the client is sent for a response: the response itself if its encoding fits
    the limit, and otherwise the fixed error. *)
Definition delivered (max : Z) (response sent : ApiResponse) : Prop :=
  exists q, encode_response response = Some q
    /\ (len q <= max /\ sent = response \/ max < len q /\ sent = too_large_response).

Lemma write_response_frames request response max t :
  codec_round_trips request response -> codec_round_trips request too_large_response ->
  (forall q, encode_response too_large_response = Some q -> len q <= max) ->
  room t = None -> max <= MAX_MAX_FRAME_BYTES ->
  exists sent q, delivered max response sent /\ parse_response q = Some sent /\ q <> [] /\ len q <= max
    /\ write_response encode_response response max t
       = (Ok tt, mk_Stream (incoming t) (read_fails t) (outgoing t ++ frame q) None).
Proof.
  intros [_ (q & Hq & Hne & Hpq)] [_ (ql & Hql & Hnel & Hpql)] Hfit Hroom Hcap.
  unfold write_response. fold too_large_response. rewrite Hq, Hql. specialize (Hfit ql Hql).
  destruct (Z.ltb_spec max (len q)) as [Hbig|Hok].
  - exists too_large_response, ql. split_and!; auto; [|by apply write_frame_roomy]. exists q. auto.
  - exists response, q. split_and!; auto; [|by apply write_frame_roomy]. exists q. auto.
Qed.

End Session.

(** One exchange over a pair of streams. *)
Lemma exchange_round_trips `{EnvLaws} {St} `{EventStoreLaws St}
    parse_probe parse_request encode_response encode_request parse_response
    request config (s : TaskSupervisor St) w response s' w' c1 fails :
  sup_inv false s w ->
  client_send encode_request request config empty_stream = (Ok tt, c1) ->
  handle request s w = (Return response, s', w') ->
  codec_round_trips parse_probe parse_request encode_response encode_request parse_response
    request response ->
  codec_round_trips parse_probe parse_request encode_response encode_request parse_response
    request too_large_response ->
  (forall q, encode_response too_large_response = Some q -> len q <= MIN_MAX_FRAME_BYTES) ->
  exists stream sent,
    serve_stream parse_probe parse_request encode_response (max_frame_bytes config)
      (mk_Stream (outgoing c1) fails [] None, s) w = (Return tt, (stream, s'), w')
    /\ delivered encode_response (max_frame_bytes config) response sent
    /\ client_receive parse_response config (mk_Stream (outgoing stream) fails [] None) = Ok sent.
Proof.
  intros Hi Hsend Hrun Hc Hcl Hsmall. unfold client_send in Hsend.
  destruct (ServerConfig_validate config) as [cfg|] eqn:Hcfg; [|done].
  unfold ServerConfig_validate in Hcfg.
  destruct (negb _ || _) eqn:Hv; [done|]. injection Hcfg as <-.
  rewrite Bool.orb_false_iff, Bool.negb_false_iff, Bool.andb_true_iff, !Z.leb_le in Hv.
  destruct Hv as [[Hmin Hmax] _].
  destruct (encode_request request) as [p|] eqn:Hp; [|done].
  destruct (cr_request _ _ _ _ _ _ _ Hc p Hp) as [Hprobe Hreq].
  apply write_frame_Ok in Hsend as (Hne & Hle & Hu & Ho & _). simpl in Ho.
  destruct (write_response_frames parse_probe parse_request encode_response encode_request
    parse_response request response (max_frame_bytes config) (mk_Stream [] fails [] None))
    as (sent & q & Hs & Hpq & Hqne & Hqle & Hw); try done.
  { intros q Hq. specialize (Hsmall q Hq). lia. }
  exists (mk_Stream [] fails (frame q) None), sent. split_and!; [| done |].
  - unfold serve_stream. rewrite (read_frame_frame p []) by (done || by rewrite Ho, app_nil_r).
    rewrite (answer_handles parse_probe parse_request request p) by done. rewrite Hrun.
    cbn [read_fails outgoing room]. rewrite Hw. done.
  - unfold client_receive. rewrite (read_frame_frame q []); [|by rewrite app_nil_r | done | done |].
    + rewrite Hpq.
      assert (Hver : response_version sent = PROTOCOL_VERSION).
      { destruct Hs as (? & _ & [[_ ->] | [_ ->]]); [|done].
        apply (wp_run _ _ _ _ _ _ _ (wp_handle request s w Hi)) in Hrun
          as (_ & _ & r0 & [= <-] & Hv & _). done. }
      by rewrite Hver.
    + unfold MAX_MAX_FRAME_BYTES, u32_max in *. lia.
Qed.

(** C38: One connection carries one exchange faithfully.  Assumed are that the client
    could send its request (which fits the limit), that both sides use the same limit,
    that the codec, a parameter, reads back this request, its response and the fixed
    too-large error as what was written, and that this error fits the smallest limit.
    Then the service handles exactly this request, the supervisor is as the service
    left it, and the client receives exactly the response the service computed if that
    fits the limit, and otherwise the fixed too-large error. *)
Theorem local_exchange_round_trips `{EnvLaws} {St} `{EventStoreLaws St}
    parse_probe parse_request encode_response encode_request parse_response
    request config (s : TaskSupervisor St) w response s' w' c1 fails :
  reachable false s w ->
  client_send encode_request request config empty_stream = (Ok tt, c1) ->
  handle request s w = (Return response, s', w') ->
  codec_round_trips parse_probe parse_request encode_response encode_request parse_response
    request response ->
  codec_round_trips parse_probe parse_request encode_response encode_request parse_response
    request too_large_response ->
  (forall q, encode_response too_large_response = Some q -> len q <= MIN_MAX_FRAME_BYTES) ->
  exists stream sent,
    serve_stream parse_probe parse_request encode_response (max_frame_bytes config)
      (mk_Stream (outgoing c1) fails [] None, s) w = (Return tt, (stream, s'), w')
    /\ delivered encode_response (max_frame_bytes config) response sent
    /\ client_receive parse_response config (mk_Stream (outgoing stream) fails [] None) = Ok sent.
Proof. intros Hi%reachable_inv. by apply exchange_round_trips. Qed.

(** A toy codec for one exchange: [health] and its two possible answers. *)
Definition toy_encode_response (r : ApiResponse) : option (list Z) :=
  match api_outcome r with OutcomeOk _ => Some [1] | OutcomeError _ => Some [2] end.

Definition toy_parse_response (l : list Z) : option ApiResponse :=
  match l with
  | [1] => Some (ok (ResultHealthy ProtocolVersionRange_supported))
  | [2] => Some too_large_response
  | _ => None
  end.

Lemma local_exchange_round_trips_witness :
  exists stream,
    (serve_stream (fun _ => Some 4) (fun _ => Some (ApiRequest_new Health)) toy_encode_response 65536
      (mk_Stream (outgoing (client_send (fun _ => Some [9]) (ApiRequest_new Health) ServerConfig_default
                              empty_stream).2) false [] None, demo_supervisor) world0).1.2.1 = stream
    /\ client_receive toy_parse_response ServerConfig_default
         (mk_Stream (outgoing stream) false [] None)
       = Ok (ok (ResultHealthy ProtocolVersionRange_supported)).
Proof.
  set (c1 := (client_send (fun _ => Some [9]) (ApiRequest_new Health) ServerConfig_default empty_stream).2).
  destruct (local_exchange_round_trips (fun _ => Some 4) (fun _ => Some (ApiRequest_new Health))
    toy_encode_response (fun _ => Some [9]) toy_parse_response (ApiRequest_new Health)
    ServerConfig_default demo_supervisor world0
    (ok (ResultHealthy ProtocolVersionRange_supported)) demo_supervisor world0 c1 false)
    as (stream & sent & Hserve & Hsent & Hrecv).
  - apply demo_reachable.
  - vm_compute. reflexivity.
  - vm_compute. reflexivity.
  - split; [by intros p [= <-] | exists [1]; by split_and!].
  - split; [by intros p [= <-] | exists [2]; by split_and!].
  - intros q [= <-]. vm_compute. discriminate.
  - exists stream. split.
    + change 65536 with (max_frame_bytes ServerConfig_default). fold c1. rewrite Hserve. reflexivity.
    + rewrite Hrecv. by destruct Hsent as (q & [= <-] & [[_ ->] | [Hbig _]]).
Defined.
