(* ===== verification/RustOs.v ===== *)
(** * More of the Rust standard library: text and paths

    What the process adapter uses of [std::path] on Unix (paths are byte strings;
    comparisons go by components), of the line and word iterators of [str], and of
    the decimal text of unsigned integers. *)

From stdpp Require Import base numbers list strings.
From Stdlib Require Import ZArith Lia Ascii.
From Stdlib Require Import String.
From stdpp Require Import list.
From S2P Require Import Prelude RustStd.

#[local] Open Scope string_scope.
#[local] Open Scope Z_scope.

(** ** Paths *)

Inductive Component := RootDir | CurDir | ParentDir | Normal (name : string).

#[export] Instance Component_eq_dec : EqDecision Component.
Proof. solve_decision. Defined.

(** A piece between separators; empty pieces and dots are not components. *)
Definition body_component (piece : string) : option Component :=
  if is_empty_str piece || String.eqb piece "." then None
  else if String.eqb piece ".." then Some ParentDir
  else Some (Normal piece).

Definition is_absolute (p : string) : bool := starts_with_char SLASH p.

(** [Path::components]: a dot counts only at the start of a relative path. *)
Definition components (p : string) : list Component :=
  if is_absolute p then RootDir :: omap body_component (split SLASH p)
  else match split SLASH p with
       | "." :: rest => CurDir :: omap body_component rest
       | pieces => omap body_component pieces
       end.

(** [Path == Path] and [Path::starts_with] compare components. *)
Definition path_eqb (p q : string) : bool := bool_decide (components p = components q).

Fixpoint components_prefix (b p : list Component) : bool :=
  match b, p with
  | [], _ => true
  | c :: b', d :: p' => bool_decide (c = d) && components_prefix b' p'
  | _ :: _, [] => false
  end.

Definition path_starts_with (p base : string) : bool :=
  components_prefix (components base) (components p).

Definition path_is_root_dir (p : string) : bool := path_eqb p "/".

Fixpoint ends_with_slash (p : string) : bool :=
  match p with
  | EmptyString => false
  | String c EmptyString => Ascii.eqb c SLASH
  | String _ p' => ends_with_slash p'
  end.

(** [Path::join] *)
Definition path_join (base p : string) : string :=
  if is_absolute p then p
  else if is_empty_str base || ends_with_slash base then base ++ p
  else base ++ String SLASH p.

(** [as_path] of the iterator of components: what is left, without empty pieces
    and dots at its ends. *)
Definition skipped (piece : string) : bool := is_empty_str piece || String.eqb piece ".".

Definition trim_pieces (pieces : list string) : list string :=
  reverse (drop_while skipped (reverse (drop_while skipped pieces))).

(** The pieces after the first [n] components. *)
Fixpoint skip_components (n : nat) (pieces : list string) : list string :=
  match n, pieces with
  | O, _ => pieces
  | _, [] => []
  | S n', piece :: rest =>
      if skipped piece then skip_components n rest else skip_components n' rest
  end.

(** [Path::strip_prefix] of an absolute path. *)
Definition path_strip_prefix (p base : string) : option string :=
  if is_absolute p && path_starts_with p base then
    Some (join SLASH (trim_pieces
      (skip_components (pred (length (components base))) (split SLASH p))))
  else None.

(** The components of [Path::parent]. *)
Definition parent_components (p : string) : option (list Component) :=
  match reverse (components p) with
  | [] | RootDir :: _ => None
  | _ :: rest => Some (reverse rest)
  end.

(** [Path::parent] *)
Definition path_parent (p : string) : option string :=
  match parent_components p with
  | None => None
  | Some _ =>
      let kept := reverse (drop_while skipped
                    (drop 1 (drop_while skipped (reverse (split SLASH p))))) in
      Some (if is_absolute p then String SLASH (join SLASH (drop_while skipped kept)) else join SLASH kept)
  end.

Definition path_file_name (p : string) : option string :=
  match reverse (components p) with
  | Normal name :: _ => Some name
  | _ => None
  end.

(** ** Lines and words *)

Definition NEWLINE : ascii := ascii_of_nat 10.
Definition CARRIAGE_RETURN : ascii := ascii_of_nat 13.

(** A line without the carriage return before its newline. *)
Fixpoint strip_cr (s : string) : string :=
  match s with
  | EmptyString => EmptyString
  | String c EmptyString => if Ascii.eqb c CARRIAGE_RETURN then EmptyString else s
  | String c s' => String c (strip_cr s')
  end.

(** [str::lines]: a final newline does not start another line, and only a
    carriage return in front of a newline belongs to the line ending. *)
Fixpoint lines_of (pieces : list string) : list string :=
  match pieces with
  | [] => []
  | [last] => if is_empty_str last then [] else [last]
  | line :: rest => strip_cr line :: lines_of rest
  end.

Definition lines (s : string) : list string := lines_of (split NEWLINE s).

Definition is_ascii_whitespace (c : ascii) : bool :=
  let b := byte_of c in (b =? 9) || (b =? 10) || (b =? 12) || (b =? 13) || (b =? 32).

(** [str::split_ascii_whitespace] with the word being read. *)
Fixpoint words_from (word : string) (s : string) : list string :=
  match s with
  | EmptyString => if is_empty_str word then [] else [word]
  | String c s' =>
      if is_ascii_whitespace c then
        if is_empty_str word then words_from "" s' else word :: words_from "" s'
      else words_from (word ++ String c EmptyString) s'
  end.

Definition split_ascii_whitespace (s : string) : list string := words_from "" s.

(** [str::trim], as text. *)
Definition trim_str (s : string) : list Z := trim (chars s).

(** ** Decimal text *)

Definition digit_char (d : Z) : ascii := ascii_of_byte_Z (48 + d).

Fixpoint decimal_digits (fuel : nat) (n : Z) (acc : string) : string :=
  match fuel with
  | O => acc
  | S fuel' =>
      let acc' := String (digit_char (n mod 10)) acc in
      if n <? 10 then acc' else decimal_digits fuel' (n / 10) acc'
  end.

(** [to_string] of a [u64] or [usize]: at most twenty digits. *)
Definition u64_to_string (n : Z) : string := decimal_digits 20 n "".

Fixpoint parse_digits (max : Z) (s : string) (value : Z) : option Z :=
  match s with
  | EmptyString => Some value
  | String c s' =>
      let d := byte_of c - 48 in
      if (0 <=? d) && (d <=? 9) && (value * 10 + d <=? max) then parse_digits max s' (value * 10 + d)
      else None
  end.

(** [str::parse] for unsigned integers up to [max]. *)
Definition parse_unsigned (max : Z) (s : string) : option Z :=
  match s with
  | EmptyString => None
  | String c EmptyString => if byte_of c =? 43 then None else parse_digits max s 0
  | String c s' => if byte_of c =? 43 then parse_digits max s' 0 else parse_digits max s 0
  end.

Lemma digit_char_byte d : 0 <= d < 10 -> byte_of (digit_char d) = 48 + d.
Proof.
  intros Hd. unfold digit_char, byte_of, ascii_of_byte_Z. rewrite N_ascii_embedding; lia.
Qed.

Lemma decimal_digits_shape fuel n acc :
  0 <= n -> exists d s, 0 <= d < 10 /\ decimal_digits (S fuel) n acc = String (digit_char d) s.
Proof.
  revert n acc. induction fuel as [|fuel IH]; intros n acc Hn.
  - simpl. pose proof (Z.mod_pos_bound n 10). destruct (n <? 10); exists (n mod 10); eexists; split; done || lia.
  - cbn [decimal_digits]. destruct (Z.ltb_spec n 10) as [Hlt|Hge].
    + pose proof (Z.mod_pos_bound n 10). exists (n mod 10). eexists. split; [lia | done].
    + apply IH. apply Z.div_pos; lia.
Qed.

Lemma parse_decimal_digits max fuel : forall n acc,
  0 <= n <= max -> n < 10 ^ Z.of_nat fuel ->
  parse_digits max (decimal_digits fuel n acc) 0 = parse_digits max acc n.
Proof.
  induction fuel as [|fuel IH]; intros n acc Hn Hf.
  { simpl in Hf. replace n with 0 by lia. done. }
  assert (Hstep : forall v, 0 <= v -> v * 10 + n mod 10 = n ->
    parse_digits max (String (digit_char (n mod 10)) acc) v = parse_digits max acc n).
  { intros v Hv E. cbn [parse_digits]. pose proof (Z.mod_pos_bound n 10 eq_refl).
    rewrite digit_char_byte by lia. replace (48 + n mod 10 - 48) with (n mod 10) by lia. rewrite E.
    by rewrite !(proj2 (Z.leb_le _ _)) by lia. }
  cbn [decimal_digits]. destruct (Z.ltb_spec n 10) as [Hlt|Hge].
  - apply Hstep; [lia|]. rewrite Z.mod_small; lia.
  - pose proof (Z.div_mod n 10 ltac:(lia)) as Hdm. pose proof (Z.mod_pos_bound n 10 eq_refl).
    assert (0 <= n / 10 <= n) by (split; [apply Z.div_pos; lia | apply Z.div_le_upper_bound; lia]).
    rewrite IH; [apply Hstep; lia | lia|].
    apply Z.div_lt_upper_bound; [lia|]. rewrite Nat2Z.inj_succ, Z.pow_succ_r in Hf by lia. lia.
Qed.

Lemma parse_u64_to_string max n : 0 <= n <= max -> max <= u64_max -> parse_unsigned max (u64_to_string n) = Some n.
Proof.
  intros Hn Hmax. unfold u64_to_string.
  destruct (decimal_digits_shape 19 n "") as (d & s & Hd & E); [lia|].
  assert (Hp : parse_digits max (decimal_digits 20 n "") 0 = Some n).
  { rewrite parse_decimal_digits; [done | done|]. unfold u64_max in Hmax. simpl. lia. }
  rewrite E in Hp |- *. unfold parse_unsigned.
  assert (Hb : (byte_of (digit_char d) =? 43) = false)
    by (apply Z.eqb_neq; rewrite digit_char_byte by lia; lia).
  rewrite Hb. by destruct s.
Qed.
