(* ===== verification/ProcessHost.v ===== *)
(** * The process adapter and its host (aios-adapter-process: lib.rs)

    The file-system interface the adapter uses, the identities it pins, the checks
    on executables, directories and sandbox paths, and the manager of Task scratch
    directories.  The host is a parameter: every call may also see what other
    processes did in between.  The model is that of the release target, Linux on
    x86_64. *)

From stdpp Require Import base numbers list gmap strings.
From Stdlib Require Import ZArith Lia.
From S2P Require Import Prelude RustStd RustOs Event.

#[local] Open Scope string_scope.
#[local] Open Scope Z_scope.

Definition DEFAULT_TIMEOUT : Z := Duration_from_secs 30.
Definition MAX_TIMEOUT : Z := Duration_from_secs (60 * 60).
Definition MAX_SANDBOX_PATH_BYTES : Z := 4096.

Inductive ProcessAdapterError :=
| ProcInvalidConfig
| ProcInvalidSandbox
| ProcUnsupportedPlatform
| ProcInvalidArguments
| ProcArgumentsDenied
| ProcExecutableChanged
| ProcSpawnFailed
| ProcWaitFailed
| ProcTimedOut
| ProcExitFailed
| ProcOutputFailed
| ProcInvalidResourceControl
| ProcResourceLimitExceeded
| ProcSeccompUnavailable
| ProcUnsupportedFilesystemCapability
| ProcDescriptorTransferFailed.

#[export] Instance ProcessAdapterError_eq_dec : EqDecision ProcessAdapterError.
Proof. solve_decision. Defined.

Definition display_ProcessAdapterError (e : ProcessAdapterError) : string :=
  match e with
  | ProcInvalidConfig => "invalid Process Adapter configuration"
  | ProcInvalidSandbox => "invalid Process Adapter sandbox configuration"
  | ProcUnsupportedPlatform => "Process Adapter sandbox is unsupported on this platform"
  | ProcInvalidArguments => "invalid process arguments"
  | ProcArgumentsDenied => "process arguments denied"
  | ProcExecutableChanged => "configured executable identity changed"
  | ProcSpawnFailed => "process spawn failed"
  | ProcWaitFailed => "process wait failed"
  | ProcTimedOut => "process timed out"
  | ProcExitFailed => "process exited unsuccessfully"
  | ProcOutputFailed => "process output construction failed"
  | ProcInvalidResourceControl => "invalid Process Adapter resource control"
  | ProcResourceLimitExceeded => "process resource limit exceeded"
  | ProcSeccompUnavailable => "Process Adapter seccomp boundary unavailable"
  | ProcUnsupportedFilesystemCapability => "unsupported filesystem Capability semantics"
  | ProcDescriptorTransferFailed => "filesystem Capability descriptor transfer failed"
  end.

(** ** Files of the host *)

Inductive FileType := TypeDirectory | TypeRegular | TypeSymlink | TypeSocket | TypeSpecial.

#[export] Instance FileType_eq_dec : EqDecision FileType.
Proof. solve_decision. Defined.

Record Metadata := mk_Metadata {
  md_type : FileType;
  md_mode : Z;
  md_dev : Z;
  md_ino : Z;
  md_nlink : Z;
  md_len : Z;
}.

Definition is_symlink (m : Metadata) : bool := bool_decide (md_type m = TypeSymlink).
Definition is_dir (m : Metadata) : bool := bool_decide (md_type m = TypeDirectory).
Definition is_file (m : Metadata) : bool := bool_decide (md_type m = TypeRegular).
Definition is_socket (m : Metadata) : bool := bool_decide (md_type m = TypeSocket).

Inductive IoError := IoNotFound | IoOther.

Class Files (K : Type) := {
  f_metadata : string -> K -> Result Metadata IoError * K;
  f_symlink_metadata : string -> K -> Result Metadata IoError * K;
  f_canonicalize : string -> K -> Result string IoError * K;
  f_create_dir : string -> Z -> K -> Result unit IoError * K;
  f_set_permissions : string -> Z -> K -> Result unit IoError * K;
  f_remove_dir : string -> K -> Result unit IoError * K;
  f_read_to_string : string -> K -> Result string IoError * K;
  f_write : string -> string -> K -> Result unit IoError * K;
}.

(** [canonicalize] answers absolute paths; device and inode numbers are 64-bit. *)
Class FilesLaws (K : Type) `{Files K} : Prop := {
  canonicalize_absolute : forall p k q k', f_canonicalize p k = (Ok q, k') -> is_absolute q = true;
  metadata_range : forall p k m k', f_metadata p k = (Ok m, k') ->
    0 <= md_dev m <= u64_max /\ 0 <= md_ino m <= u64_max;
}.

(** A call on the host. *)
Definition sys {K E A} (op : K -> A * K) : M K E A :=
  fun k w => let '(a, k') := op k in (Return a, k', w).

(** [call.map_err(|_| e)?] *)
Definition sys_or {K E A} (e : E) (op : K -> Result A IoError * K) : M K E A :=
  let! r := sys op in lift (res_map_err (fun _ => e) r).

Lemma wp_sys {K E A} (op : K -> A * K) (Q : outcome A E -> K -> World -> Prop) k w :
  Q (Return (op k).1) (op k).2 w -> wp (sys op) Q k w.
Proof. unfold wp, sys. by destruct (op k). Qed.

Lemma wp_sys_or {K E A} (e : E) (op : K -> Result A IoError * K) Q k w :
  (forall a k', op k = (Ok a, k') -> Q (Return a) k' w) ->
  (forall i k', op k = (Err i, k') -> Q (Raise e) k' w) ->
  wp (sys_or e op) Q k w.
Proof. intros Hok Herr. unfold sys_or, sys, wp, bind, lift. destruct (op k) as [[a|i] k'] eqn:E1; simpl; eauto. Qed.

(** [thread::sleep]: the readings of the clock that pass by meanwhile. *)
Class Sleeps `{Env} := sleep_passes : Z -> World -> nat.

(** After a sleep the clock is at least the duration past every reading before. *)
Class SleepLaws `{Sleeps} : Prop :=
  sleep_long_enough : forall d w n, (n < instants_read w)%nat ->
    instant_at n + d <= instant_at (instants_read w + sleep_passes d w).

Definition thread_sleep `{Sleeps} {X E} (d : Z) : M X E unit := fun x w =>
  (Return tt, x, mk_World (instants_read w + sleep_passes d w) (system_times_read w) (uuids_minted w)).

(** [t + d] on instants, which panics on overflow. *)
Definition Instant_add {X E} (t d : Z) : M X E Z :=
  match Instant_checked_add t d with Some u => ret u | None => panic end.

Section Host.
Context {K : Type} `{!Files K}.

Abbreviation Proc := (M K ProcessAdapterError).

(** [path.is_file()] and [path.is_dir()] *)
Definition path_is_file (p : string) : Proc bool :=
  let! r := sys (f_metadata p) in
  ret (match r with Ok m => is_file m | Err _ => false end).

Definition path_is_dir (p : string) : Proc bool :=
  let! r := sys (f_metadata p) in
  ret (match r with Ok m => is_dir m | Err _ => false end).

(** ** Identities *)

Record DirectoryIdentity := mk_DirectoryIdentity { dir_device : Z; dir_inode : Z }.

Record ExecutableIdentity := mk_ExecutableIdentity { exe_device : Z; exe_inode : Z }.

#[export] Instance DirectoryIdentity_eq_dec : EqDecision DirectoryIdentity.
Proof. solve_decision. Defined.

#[export] Instance ExecutableIdentity_eq_dec : EqDecision ExecutableIdentity.
Proof. solve_decision. Defined.

Definition DirectoryIdentity_read (p : string) : Proc DirectoryIdentity :=
  let! m := sys_or ProcInvalidSandbox (f_metadata p) in
  if negb (is_dir m) then throw ProcInvalidSandbox
  else ret (mk_DirectoryIdentity (md_dev m) (md_ino m)).

(** The execute bits are 0o111. *)
Definition ExecutableIdentity_read (p : string) : Proc ExecutableIdentity :=
  let! m := sys_or ProcExecutableChanged (f_metadata p) in
  if negb (is_file m) || (Z.land (md_mode m) 73 =? 0) then throw ProcExecutableChanged
  else ret (mk_ExecutableIdentity (md_dev m) (md_ino m)).

(** ** Checks on host paths *)

Definition canonical_executable (p : string) : Proc string :=
  if negb (is_absolute p) then throw ProcInvalidConfig
  else
    let! canonical := sys_or ProcInvalidConfig (f_canonicalize p) in
    do! map_err (fun _ => ProcInvalidConfig) (ExecutableIdentity_read canonical) in
    ret canonical.

Definition canonical_directory (p : string) : Proc string :=
  if negb (is_absolute p) then throw ProcInvalidConfig
  else
    let! canonical := sys_or ProcInvalidConfig (f_canonicalize p) in
    let! directory := path_is_dir canonical in
    if negb directory then throw ProcInvalidConfig else ret canonical.

(** No permission for group and others: 0o077. *)
Definition validate_owner_only_directory (p : string) : Proc unit :=
  let! m := sys_or ProcInvalidSandbox (f_symlink_metadata p) in
  if is_symlink m || negb (is_dir m) || negb (Z.land (md_mode m) 63 =? 0)
  then throw ProcInvalidSandbox
  else ret tt.

Definition canonical_task_scratch_root (p : string) : Proc string :=
  if negb (is_absolute p) || (MAX_SANDBOX_PATH_BYTES <? str_len p) then throw ProcInvalidSandbox
  else
    let! m := sys_or ProcInvalidSandbox (f_symlink_metadata p) in
    if is_symlink m || negb (is_dir m) then throw ProcInvalidSandbox
    else
      do! validate_owner_only_directory p in
      let! canonical := sys_or ProcInvalidSandbox (f_canonicalize p) in
      if path_is_root_dir canonical then throw ProcInvalidSandbox else ret canonical.

(** The mode is 0o700. *)
Definition create_owner_only_directory (p : string) : Proc unit :=
  do! sys_or ProcInvalidSandbox (f_create_dir p 448) in
  let! permissions := sys (f_set_permissions p 448) in
  match permissions with
  | Err _ => do! sys (f_remove_dir p) in throw ProcInvalidSandbox
  | Ok _ => ret tt
  end.

Definition canonical_task_scratch_directory (p root_directory : string) : Proc string :=
  do! validate_owner_only_directory p in
  let! canonical := sys_or ProcInvalidSandbox (f_canonicalize p) in
  if negb (bool_decide (parent_components canonical = Some (components root_directory)))
  then throw ProcInvalidSandbox
  else ret canonical.

Definition validate_task_scratch_identity (p : string) (expected : DirectoryIdentity) : Proc unit :=
  do! validate_owner_only_directory p in
  let! identity := DirectoryIdentity_read p in
  if negb (bool_decide (identity = expected)) then throw ProcInvalidSandbox else ret tt.

Definition canonical_sandbox_root (p : string) : Proc string :=
  let! canonical := map_err (fun _ => ProcInvalidSandbox) (canonical_directory p) in
  if path_is_root_dir canonical then throw ProcInvalidSandbox else ret canonical.

Definition canonical_scratch_directory (p root_filesystem : string) : Proc string :=
  let! canonical := map_err (fun _ => ProcInvalidSandbox) (canonical_directory p) in
  if path_is_root_dir canonical || path_starts_with canonical root_filesystem
     || path_starts_with root_filesystem canonical
  then throw ProcInvalidSandbox
  else ret canonical.

Definition is_normal (c : Component) : bool := match c with Normal _ => true | _ => false end.

Definition validate_sandbox_absolute_path (p : string) : Result unit ProcessAdapterError :=
  if negb (is_absolute p) || (MAX_SANDBOX_PATH_BYTES <? str_len p) || contains_char NUL p
  then Err ProcInvalidSandbox
  else
    match components p with
    | RootDir :: rest => if forallb is_normal rest then Ok tt else Err ProcInvalidSandbox
    | _ => Err ProcInvalidSandbox
    end.

Definition canonical_sandbox_executable (root_filesystem sandbox_executable : string)
    : Proc (string * ExecutableIdentity * string) :=
  do! lift (validate_sandbox_absolute_path sandbox_executable) in
  let! relative := lift (ok_or (path_strip_prefix sandbox_executable "/") ProcInvalidSandbox) in
  let! executable := sys_or ProcInvalidSandbox (f_canonicalize (path_join root_filesystem relative)) in
  if negb (path_starts_with executable root_filesystem) then throw ProcInvalidSandbox
  else
    let! identity := map_err (fun _ => ProcInvalidSandbox) (ExecutableIdentity_read executable) in
    let! resolved_relative :=
      lift (ok_or (path_strip_prefix executable root_filesystem) ProcInvalidSandbox) in
    ret (executable, identity, path_join "/" resolved_relative).

Definition SANDBOX_MOUNT_POINTS : list string := ["proc"; "dev"; "tmp"; "workspace"].

Definition validate_sandbox_mount_points (root_filesystem : string) : Proc unit :=
  for_each (fun relative =>
    let! m := sys_or ProcInvalidSandbox (f_symlink_metadata (path_join root_filesystem relative)) in
    if negb (is_dir m) then throw ProcInvalidSandbox else ret tt)
    SANDBOX_MOUNT_POINTS.

(** ** Task scratch directories *)

(** The text of a Task identifier belongs to the uuid crate. *)
Class TaskIdText := task_id_to_string : TaskId -> string.
Context `{!TaskIdText}.

Record TaskScratchManager := mk_TaskScratchManager {
  scratch_root_directory : string;
  scratch_root_identity : DirectoryIdentity;
}.

Record TaskScratch := mk_TaskScratch {
  scratch_task_id : TaskId;
  scratch_directory : string;
  scratch_identity : DirectoryIdentity;
}.

Definition TaskScratchManager_new (root_directory : string) : Proc TaskScratchManager :=
  let! root_directory := canonical_task_scratch_root root_directory in
  let! root_identity := DirectoryIdentity_read root_directory in
  ret (mk_TaskScratchManager root_directory root_identity).

Definition validate_scratch_root (self : TaskScratchManager) : Proc unit :=
  do! validate_owner_only_directory (scratch_root_directory self) in
  let! identity := DirectoryIdentity_read (scratch_root_directory self) in
  if negb (bool_decide (identity = scratch_root_identity self)) then throw ProcInvalidSandbox else ret tt.

Definition TaskScratchManager_create (self : TaskScratchManager) (task_id : TaskId) : Proc TaskScratch :=
  do! validate_scratch_root self in
  let directory := path_join (scratch_root_directory self) (task_id_to_string task_id) in
  if MAX_SANDBOX_PATH_BYTES <? str_len directory then throw ProcInvalidSandbox
  else
    do! create_owner_only_directory directory in
    let! validated := attempt (
      do! validate_scratch_root self in
      let! canonical := canonical_task_scratch_directory directory (scratch_root_directory self) in
      let! identity := DirectoryIdentity_read canonical in
      ret (canonical, identity)) in
    match validated with
    | Ok (canonical, identity) => ret (mk_TaskScratch task_id canonical identity)
    | Err error => do! sys (f_remove_dir directory) in throw error
    end.

End Host.
