(* ===== verification/Seccomp.v ===== *)
(** * The seccomp filter (aios-adapter-process: seccomp.rs)

    The filter is a classic BPF program that the adapter writes, instruction by
    instruction, into a sealed memory file.  Its meaning is given by the evaluator
    that the module's own tests run on the bytes. *)

From stdpp Require Import base numbers list gmap strings.
From Stdlib Require Import ZArith Lia.
From S2P Require Import Prelude RustStd ProcessHost.

Definition AUDIT_ARCH_X86_64 : Z := 0xc000003e.
Definition X32_SYSCALL_BIT : Z := 0x40000000.
Definition MAX_REVIEWED_SYSCALL : Z := 470.
Definition BPF_LD_W_ABS : Z := 0x20.
Definition BPF_JMP_JEQ_K : Z := 0x15.
Definition BPF_JMP_JGE_K : Z := 0x35.
Definition BPF_JMP_JGT_K : Z := 0x25.
Definition BPF_RET_K : Z := 0x06.
Definition SECCOMP_DATA_NR_OFFSET : Z := 0.
Definition SECCOMP_DATA_ARCH_OFFSET : Z := 4.
Definition SECCOMP_RET_KILL_PROCESS : Z := 0x80000000.
Definition SECCOMP_RET_ALLOW : Z := 0x7fff0000.

Definition BLOCKED_SYSCALLS : list (string * Z) :=
  [("ptrace", 101); ("syslog", 103); ("personality", 135); ("vhangup", 153);
   ("pivot_root", 155); ("acct", 163); ("settimeofday", 164); ("mount", 165);
   ("umount2", 166); ("swapon", 167); ("swapoff", 168); ("reboot", 169);
   ("iopl", 172); ("ioperm", 173); ("init_module", 175); ("delete_module", 176);
   ("quotactl", 179); ("lookup_dcookie", 212); ("clock_settime", 227); ("kexec_load", 246);
   ("add_key", 248); ("request_key", 249); ("keyctl", 250); ("unshare", 272);
   ("perf_event_open", 298); ("fanotify_init", 300); ("name_to_handle_at", 303); ("open_by_handle_at", 304);
   ("clock_adjtime", 305); ("setns", 308); ("process_vm_readv", 310); ("process_vm_writev", 311);
   ("kcmp", 312); ("finit_module", 313); ("kexec_file_load", 320); ("bpf", 321);
   ("userfaultfd", 323); ("io_uring_setup", 425); ("io_uring_enter", 426); ("io_uring_register", 427);
   ("open_tree", 428); ("move_mount", 429); ("fsopen", 430); ("fsconfig", 431);
   ("fsmount", 432); ("fspick", 433); ("pidfd_getfd", 438); ("process_madvise", 440);
   ("mount_setattr", 442); ("quotactl_fd", 443); ("memfd_secret", 447); ("process_mrelease", 448);
   ("statmount", 457); ("listmount", 458); ("lsm_set_self_attr", 460); ("lsm_list_modules", 461);
   ("open_tree_attr", 467); ("file_getattr", 468); ("file_setattr", 469); ("listns", 470)]%string.

(** ** The program *)

Record FilterInstruction := mk_FilterInstruction {
  code : Z;
  jump_true : Z;
  jump_false : Z;
  value : Z;
}.

Definition statement (code value : Z) : FilterInstruction := mk_FilterInstruction code 0 0 value.

Definition jump (code value jump_true jump_false : Z) : FilterInstruction :=
  mk_FilterInstruction code jump_true jump_false value.

(** [to_ne_bytes] on a little-endian target. *)
Definition u16_to_ne_bytes (n : Z) : list Z := [n mod 256; n / 256 mod 256].

Definition u32_to_ne_bytes (n : Z) : list Z :=
  [n mod 256; n / 256 mod 256; n / 65536 mod 256; n / 16777216 mod 256].

Definition append_bytes (i : FilterInstruction) (out : list Z) : list Z :=
  out ++ u16_to_ne_bytes (code i) ++ [jump_true i] ++ [jump_false i] ++ u32_to_ne_bytes (value i).

Definition block_syscall (entry : string * Z) : list FilterInstruction :=
  [jump BPF_JMP_JEQ_K entry.2 0 1; statement BPF_RET_K SECCOMP_RET_KILL_PROCESS].

Definition default_filter_instructions : list FilterInstruction :=
  [statement BPF_LD_W_ABS SECCOMP_DATA_ARCH_OFFSET;
   jump BPF_JMP_JEQ_K AUDIT_ARCH_X86_64 1 0;
   statement BPF_RET_K SECCOMP_RET_KILL_PROCESS;
   statement BPF_LD_W_ABS SECCOMP_DATA_NR_OFFSET;
   jump BPF_JMP_JGE_K X32_SYSCALL_BIT 0 1;
   statement BPF_RET_K SECCOMP_RET_KILL_PROCESS;
   jump BPF_JMP_JGT_K MAX_REVIEWED_SYSCALL 0 1;
   statement BPF_RET_K SECCOMP_RET_KILL_PROCESS]
  ++ concat (map block_syscall BLOCKED_SYSCALLS)
  ++ [statement BPF_RET_K SECCOMP_RET_ALLOW].

Definition default_filter_bytes : list Z :=
  foldl (fun bytes i => append_bytes i bytes) [] default_filter_instructions.

Definition ensure_supported_target : Result unit ProcessAdapterError := Ok tt.

(** ** The sealed file *)

Inductive SealFlag := SEAL_WRITE | SEAL_GROW | SEAL_SHRINK | SEAL_SEAL.

(** The kernel's memory files: [mf_create] is [memfd_create] with close-on-exec
    and sealing allowed, the descriptor is its number. *)
Class MemoryFiles (K : Type) := {
  mf_create : string -> K -> Result Z IoError * K;
  mf_write_all : Z -> list Z -> K -> Result unit IoError * K;
  mf_seek_start : Z -> K -> Result unit IoError * K;
  mf_add_seals : Z -> list SealFlag -> K -> Result unit IoError * K;
  mf_clear_cloexec : Z -> K -> Result unit IoError * K;
}.

Record SeccompFilterFile := mk_SeccompFilterFile { raw_fd : Z }.

Definition SeccompFilterFile_create {K} `{!MemoryFiles K} (inherit_across_exec : bool)
    : M K ProcessAdapterError SeccompFilterFile :=
  do! lift ensure_supported_target in
  let! fd := sys_or ProcSeccompUnavailable (mf_create "aios-seccomp") in
  do! sys_or ProcSeccompUnavailable (mf_write_all fd default_filter_bytes) in
  do! sys_or ProcSeccompUnavailable (mf_seek_start fd) in
  do! sys_or ProcSeccompUnavailable (mf_add_seals fd [SEAL_WRITE; SEAL_GROW; SEAL_SHRINK; SEAL_SEAL]) in
  do! (if inherit_across_exec then sys_or ProcSeccompUnavailable (mf_clear_cloexec fd) else ret tt) in
  if fd <=? 2 then throw ProcSeccompUnavailable else ret (mk_SeccompFilterFile fd).

(** ** The evaluator *)

(** [instruction(bytes, index)]; an index past the end panics. *)
Definition instruction (bytes : list Z) (index : nat) : option FilterInstruction :=
  match take 8 (drop (index * 8) bytes) with
  | [c0; c1; jt; jf; v0; v1; v2; v3] =>
      Some (mk_FilterInstruction (c0 + 256 * c1) jt jf (v0 + 256 * v1 + 65536 * v2 + 16777216 * v3))
  | _ => None
  end.

(** One turn on the instruction at [pc]: the next counter and accumulator, or the
    returned value; [None] where the evaluator panics. *)
Definition evaluate_instruction (i : FilterInstruction) (architecture syscall : Z) (pc : nat) (acc : Z)
    : option (Z + nat * Z) :=
  let jump_by (taken : bool) :=
    Some (inr ((pc + Z.to_nat (if taken then jump_true i else jump_false i) + 1)%nat, acc)) in
  if code i =? BPF_LD_W_ABS then
    if value i =? SECCOMP_DATA_NR_OFFSET then Some (inr (S pc, syscall))
    else if value i =? SECCOMP_DATA_ARCH_OFFSET then Some (inr (S pc, architecture))
    else None
  else if code i =? BPF_JMP_JEQ_K then jump_by (acc =? value i)
  else if code i =? BPF_JMP_JGE_K then jump_by (value i <=? acc)
  else if code i =? BPF_JMP_JGT_K then jump_by (value i <? acc)
  else if code i =? BPF_RET_K then Some (inl (value i))
  else None.

Fixpoint evaluate_loop (fuel : nat) (bytes : list Z) (architecture syscall : Z) (pc : nat) (acc : Z)
    : option Z :=
  match fuel with
  | O => None
  | S fuel' =>
      match instruction bytes pc ≫= fun i => evaluate_instruction i architecture syscall pc acc with
      | None => None
      | Some (inl r) => Some r
      | Some (inr (pc', acc')) => evaluate_loop fuel' bytes architecture syscall pc' acc'
      end
  end.

(** Every turn moves the counter forward, so as many turns as instructions are
    enough. *)
Definition filter_evaluate (bytes : list Z) (architecture syscall : Z) : option Z :=
  evaluate_loop (length bytes / 8) bytes architecture syscall 0 0.

(** ** Decoding *)

Record instruction_ok (i : FilterInstruction) : Prop := {
  io_code : 0 <= code i < 2 ^ 16;
  io_value : 0 <= value i < 2 ^ 32;
}.

Definition encode (i : FilterInstruction) : list Z := append_bytes i [].

Lemma encode_length i : length (encode i) = 8%nat.
Proof. done. Qed.

Lemma append_bytes_encode i out : append_bytes i out = out ++ encode i.
Proof. done. Qed.

Lemma encode_all prog out :
  foldl (fun bytes i => append_bytes i bytes) out prog = out ++ concat (map encode prog).
Proof.
  revert out. induction prog as [|i prog IH]; intros out; simpl; [by rewrite app_nil_r|].
  rewrite IH, append_bytes_encode, <-app_assoc. done.
Qed.

Lemma u16_round_trip n : 0 <= n < 2 ^ 16 -> n mod 256 + 256 * (n / 256 mod 256) = n.
Proof.
  intros Hn. rewrite (Z.mod_small (n / 256)) by (split; [apply Z.div_pos; lia | apply Z.div_lt_upper_bound; lia]).
  pose proof (Z.div_mod n 256). lia.
Qed.

Lemma u32_round_trip n : 0 <= n < 2 ^ 32 ->
  n mod 256 + 256 * (n / 256 mod 256) + 65536 * (n / 65536 mod 256) + 16777216 * (n / 16777216 mod 256) = n.
Proof.
  intros Hn. rewrite (Z.mod_small (n / 16777216))
    by (split; [apply Z.div_pos; lia | apply Z.div_lt_upper_bound; lia]).
  change 65536 with (256 * 256). change 16777216 with (256 * 256 * 256).
  rewrite <-!Z.div_div by lia.
  pose proof (Z.div_mod n 256). pose proof (Z.div_mod (n / 256) 256). pose proof (Z.div_mod (n / 256 / 256) 256). lia.
Qed.

Lemma instruction_encode i rest : instruction_ok i -> instruction (encode i ++ rest) 0 = Some i.
Proof.
  intros [Hc Hv]. unfold instruction. simpl. rewrite u16_round_trip, u32_round_trip by done. by destruct i.
Qed.

Lemma instruction_decodes prog k :
  Forall instruction_ok prog -> instruction (concat (map encode prog)) k = prog !! k.
Proof.
  intros Hok. revert k. induction Hok as [|i prog Hi _ IH]; intros k; simpl.
  - unfold instruction. by rewrite drop_nil.
  - destruct k as [|k]; [by apply instruction_encode|]. simpl. rewrite <-IH. unfold instruction.
    done.
Qed.

Lemma default_filter_ok : Forall instruction_ok default_filter_instructions.
Proof.
  apply Forall_forall. intros i Hi.
  assert (Hb : forallb (fun i => (0 <=? code i) && (code i <? 2 ^ 16) && (0 <=? value i) && (value i <? 2 ^ 32))
    default_filter_instructions = true) by (vm_compute; reflexivity).
  rewrite forallb_forall in Hb. specialize (Hb i). rewrite <-list_elem_of_In in Hb. apply Hb in Hi.
  rewrite !andb_true_iff in Hi. split; lia.
Qed.

Lemma default_filter_decodes k : instruction default_filter_bytes k = default_filter_instructions !! k.
Proof.
  unfold default_filter_bytes. rewrite encode_all, app_nil_l. apply instruction_decodes, default_filter_ok.
Qed.

(** ** The verdict *)

(** What the filter lets through: x86_64 calls of the reviewed range that are not
    in the table. *)
Definition syscall_allowed (architecture nr : Z) : bool :=
  (architecture =? AUDIT_ARCH_X86_64) && (nr <=? MAX_REVIEWED_SYSCALL)
  && negb (bool_decide (nr ∈ BLOCKED_SYSCALLS.*2)).

Definition verdict (architecture nr : Z) : Z :=
  if syscall_allowed architecture nr then SECCOMP_RET_ALLOW else SECCOMP_RET_KILL_PROCESS.

Section Run.
Context (architecture nr : Z).

Abbreviation run fuel pc acc := (evaluate_loop fuel default_filter_bytes architecture nr pc acc).

Lemma run_on fuel pc acc i pc' acc' :
  default_filter_instructions !! pc = Some i ->
  evaluate_instruction i architecture nr pc acc = Some (inr (pc', acc')) ->
  run (S fuel) pc acc = run fuel pc' acc'.
Proof. intros Hi He. cbn [evaluate_loop]. rewrite default_filter_decodes, Hi. cbn [mbind option_bind]. by rewrite He. Qed.

Lemma run_returns fuel pc acc i r :
  default_filter_instructions !! pc = Some i ->
  evaluate_instruction i architecture nr pc acc = Some (inl r) -> run (S fuel) pc acc = Some r.
Proof. intros Hi He. cbn [evaluate_loop]. rewrite default_filter_decodes, Hi. cbn [mbind option_bind]. by rewrite He. Qed.

(** A test followed by the kill it guards. *)
Lemma run_guard fuel pc acc op k (b : bool) :
  default_filter_instructions !! pc = Some (jump op k 0 1) ->
  default_filter_instructions !! S pc = Some (statement BPF_RET_K SECCOMP_RET_KILL_PROCESS) ->
  evaluate_instruction (jump op k 0 1) architecture nr pc acc
    = Some (inr ((pc + Z.to_nat (if b then 0 else 1)%Z + 1)%nat, acc)) ->
  run (S (S fuel)) pc acc = if b then Some SECCOMP_RET_KILL_PROCESS else run (S fuel) (S (S pc)) acc.
Proof.
  intros Hi Hk He. rewrite (run_on _ _ _ _ _ _ Hi He). destruct b.
  - replace (pc + Z.to_nat 0 + 1)%nat with (S pc) by (simpl; lia). by apply (run_returns _ _ _ _ _ Hk).
  - replace (pc + Z.to_nat 1 + 1)%nat with (S (S pc)) by (simpl; lia). done.
Qed.

(** The tail of the program: the blocked numbers from [l] on. *)
Lemma run_blocked l : forall pc fuel,
  drop pc default_filter_instructions
    = concat (map block_syscall l) ++ [statement BPF_RET_K SECCOMP_RET_ALLOW] ->
  (2 * length l < fuel)%nat ->
  run fuel pc nr = Some (if bool_decide (nr ∈ l.*2) then SECCOMP_RET_KILL_PROCESS else SECCOMP_RET_ALLOW).
Proof.
  induction l as [|e l IH]; intros pc fuel Hdrop Hfuel.
  - destruct fuel as [|fuel]; [lia|]. apply run_returns with (statement BPF_RET_K SECCOMP_RET_ALLOW); [|done].
    rewrite <-(Nat.add_0_r pc), <-lookup_drop, Hdrop. done.
  - destruct fuel as [|[|fuel]]; [simpl in Hfuel; lia..|]. simpl in Hdrop.
    rewrite (run_guard fuel pc nr BPF_JMP_JEQ_K e.2 (nr =? e.2)); [| | |done].
    + destruct (Z.eqb_spec nr e.2) as [->|Hne]; [by rewrite bool_decide_eq_true_2 by set_solver|].
      rewrite IH; [| replace (S (S pc)) with (pc + 2)%nat by lia; by rewrite <-drop_drop, Hdrop | simpl in Hfuel; lia].
      f_equal. simpl. erewrite bool_decide_ext; [done|]. set_solver.
    + rewrite <-(Nat.add_0_r pc), <-lookup_drop, Hdrop. done.
    + replace (S pc) with (pc + 1)%nat by lia. rewrite <-lookup_drop, Hdrop. done.
Qed.

Lemma filter_fuel : (length default_filter_bytes / 8)%nat = 129%nat.
Proof. vm_compute. done. Qed.

(** The verdict of the program is the declared one. *)
Lemma filter_verdict : filter_evaluate default_filter_bytes architecture nr = Some (verdict architecture nr).
Proof.
  unfold filter_evaluate, verdict, syscall_allowed. rewrite filter_fuel.
  rewrite (run_on 128 0 0 _ 1 architecture eq_refl eq_refl).
  rewrite (run_on 127 1 architecture _ _ architecture eq_refl eq_refl).
  cbn [jump_true jump_false jump value].
  destruct (architecture =? AUDIT_ARCH_X86_64); [|by apply run_returns with (statement BPF_RET_K SECCOMP_RET_KILL_PROCESS)].
  change (1 + Z.to_nat 1 + 1)%nat with 3%nat. rewrite (run_on 126 3 architecture _ 4 nr eq_refl eq_refl).
  rewrite (run_guard 124 4 nr BPF_JMP_JGE_K X32_SYSCALL_BIT (X32_SYSCALL_BIT <=? nr) eq_refl eq_refl eq_refl).
  rewrite (run_guard 123 6 nr BPF_JMP_JGT_K MAX_REVIEWED_SYSCALL (MAX_REVIEWED_SYSCALL <? nr) eq_refl eq_refl eq_refl).
  rewrite (run_blocked BLOCKED_SYSCALLS 8 124) by (done || simpl; lia).
  unfold X32_SYSCALL_BIT, MAX_REVIEWED_SYSCALL. cbn [andb].
  destruct (Z.leb_spec 0x40000000 nr), (Z.ltb_spec 470 nr), (Z.leb_spec nr 470); try lia; try done.
  by destruct (bool_decide (nr ∈ BLOCKED_SYSCALLS.*2)).
Qed.

End Run.

(** ** The sealed file of a host *)

Record MemFile := mk_MemFile {
  mem_bytes : list Z;
  mem_offset : nat;
  mem_seals : list SealFlag;
  mem_cloexec : bool;
}.

(** memfd_create(2), write(2), lseek(2) and fcntl(2): a new file is empty, may be
    sealed and closes on exec; an unsealed file is written at its offset; seals
    accumulate. *)
Class MemoryFilesLaws (K : Type) `{MemoryFiles K} := {
  mem_file : K -> Z -> option MemFile;
  mf_create_law : forall name k fd k',
    mf_create name k = (Ok fd, k') -> mem_file k' fd = Some (mk_MemFile [] 0 [] true);
  mf_write_law : forall fd b k k' m,
    mem_file k fd = Some m -> mem_seals m = [] -> mf_write_all fd b k = (Ok tt, k') ->
    mem_file k' fd = Some (mk_MemFile (take (mem_offset m) (mem_bytes m) ++ b ++ drop (mem_offset m + length b) (mem_bytes m))
                                      (mem_offset m + length b) [] (mem_cloexec m));
  mf_seek_law : forall fd k k' m,
    mem_file k fd = Some m -> mf_seek_start fd k = (Ok tt, k') ->
    mem_file k' fd = Some (mk_MemFile (mem_bytes m) 0 (mem_seals m) (mem_cloexec m));
  mf_seals_law : forall fd seals k k' m,
    mem_file k fd = Some m -> mf_add_seals fd seals k = (Ok tt, k') ->
    mem_file k' fd = Some (mk_MemFile (mem_bytes m) (mem_offset m) (mem_seals m ++ seals) (mem_cloexec m));
  mf_clear_law : forall fd k k' m,
    mem_file k fd = Some m -> mf_clear_cloexec fd k = (Ok tt, k') ->
    mem_file k' fd = Some (mk_MemFile (mem_bytes m) (mem_offset m) (mem_seals m) false);
}.

Section Sealed.
Context {K : Type} `{MemoryFilesLaws K}.

Definition sealed_filter (inherit : bool) (f : SeccompFilterFile) (k : K) : Prop :=
  2 < raw_fd f /\ exists m, mem_file k (raw_fd f) = Some m
    /\ mem_seals m = [SEAL_WRITE; SEAL_GROW; SEAL_SHRINK; SEAL_SEAL] /\ mem_offset m = 0%nat
    /\ mem_cloexec m = negb inherit
    /\ forall architecture nr, filter_evaluate (mem_bytes m) architecture nr = Some (verdict architecture nr).

Lemma wp_SeccompFilterFile_create inherit k w :
  wp (SeccompFilterFile_create inherit)
     (fun r k' w' => w' = w /\ match r with
        | Return f => sealed_filter inherit f k'
        | Raise e => e = ProcSeccompUnavailable
        | Panic => False
        end) k w.
Proof.
  unfold SeccompFilterFile_create. do 2 wp_step. cbn [ensure_supported_target]. wp_step. apply wp_sys_or; [|done]. intros fd k1 E1%mf_create_law.
  wp_step. apply wp_sys_or; [|done]. intros [] k2 E2. pose proof (mf_write_law _ _ _ _ _ E1 eq_refl E2) as M2.
  wp_step. apply wp_sys_or; [|done]. intros [] k3 E3. pose proof (mf_seek_law _ _ _ _ M2 E3) as M3.
  wp_step. apply wp_sys_or; [|done]. intros [] k4 E4. pose proof (mf_seals_law _ _ _ _ _ M3 E4) as M4.
  cbn [mem_bytes mem_offset mem_seals mem_cloexec] in M4. rewrite take_nil, drop_nil, app_nil_r in M4. cbn [app] in M4.
  assert (Hend : forall k5, (2 < fd) ->
    mem_file k5 fd = Some (mk_MemFile default_filter_bytes 0 [SEAL_WRITE; SEAL_GROW; SEAL_SHRINK; SEAL_SEAL] (negb inherit)) ->
    sealed_filter inherit (mk_SeccompFilterFile fd) k5).
  { intros k5 Hfd Hm. split; [done|]. eexists. split; [exact Hm|].
    do 3 (split; [done|]). intros. apply filter_verdict. }
  wp_step. destruct inherit.
  - apply wp_sys_or; [|done]. intros [] k5 E5. pose proof (mf_clear_law _ _ _ _ M4 E5) as M5.
    wp_step; wp_step; [done|]. bool_prop. split; [done | by apply Hend].
  - wp_step. wp_step; wp_step; [done|]. bool_prop. split; [done | by apply Hend].
Qed.

End Sealed.

(** C33: Creating the seccomp filter leaves a memory file that is rewound, carries
    all four seals, is inherited exactly when asked and has a number above the
    standard streams; its bytes, run by the evaluator on any architecture and call
    number, allow exactly the x86_64 calls of the reviewed range that are not in
    the table and kill the process on every other.  Every failure is the one
    error; nothing panics and the evaluation always ends. *)
Theorem seccomp_filter_is_sealed_and_exact {K} `{MemoryFilesLaws K} (inherit : bool) (k : K) (w : World) :
  match SeccompFilterFile_create inherit k w with
  | (Return f, k', w') => w' = w /\ 2 < raw_fd f /\ exists m, mem_file k' (raw_fd f) = Some m
      /\ mem_seals m = [SEAL_WRITE; SEAL_GROW; SEAL_SHRINK; SEAL_SEAL] /\ mem_offset m = 0%nat
      /\ mem_cloexec m = negb inherit
      /\ forall architecture nr,
           filter_evaluate (mem_bytes m) architecture nr
           = Some (if (architecture =? AUDIT_ARCH_X86_64) && (nr <=? MAX_REVIEWED_SYSCALL)
                      && negb (bool_decide (nr ∈ BLOCKED_SYSCALLS.*2))
                   then SECCOMP_RET_ALLOW else SECCOMP_RET_KILL_PROCESS)
  | (Raise e, _, _) => e = ProcSeccompUnavailable
  | (Panic, _, _) => False
  end.
Proof.
  pose proof (wp_SeccompFilterFile_create inherit k w) as Hwp. unfold wp in Hwp.
  destruct (SeccompFilterFile_create inherit k w) as [[[f|e|] k'] w']; destruct Hwp as [? Hr]; done.
Qed.

(** A host with memory files: the next free descriptor and the files. *)
Record DemoMemory := mk_DemoMemory { dm_next : Z; dm_files : gmap Z MemFile }.

Definition dm_update (fd : Z) (f : MemFile -> MemFile) (k : DemoMemory) : Result unit IoError * DemoMemory :=
  match dm_files k !! fd with
  | Some m => (Ok tt, mk_DemoMemory (dm_next k) (<[fd := f m]> (dm_files k)))
  | None => (Err IoOther, k)
  end.

#[export] Instance DemoMemory_files : MemoryFiles DemoMemory := {|
  mf_create _ k := (Ok (dm_next k),
    mk_DemoMemory (dm_next k + 1) (<[dm_next k := mk_MemFile [] 0 [] true]> (dm_files k)));
  mf_write_all fd b := dm_update fd (fun m =>
    mk_MemFile (take (mem_offset m) (mem_bytes m) ++ b ++ drop (mem_offset m + length b) (mem_bytes m))
               (mem_offset m + length b) (mem_seals m) (mem_cloexec m));
  mf_seek_start fd := dm_update fd (fun m => mk_MemFile (mem_bytes m) 0 (mem_seals m) (mem_cloexec m));
  mf_add_seals fd seals := dm_update fd (fun m =>
    mk_MemFile (mem_bytes m) (mem_offset m) (mem_seals m ++ seals) (mem_cloexec m));
  mf_clear_cloexec fd := dm_update fd (fun m => mk_MemFile (mem_bytes m) (mem_offset m) (mem_seals m) false);
|}.

#[export] Program Instance DemoMemory_laws : MemoryFilesLaws DemoMemory :=
  {| mem_file k fd := dm_files k !! fd |}.
Next Obligation. intros name k fd k' [= <- <-]. simpl. by rewrite lookup_insert_eq. Qed.
Next Obligation.
  intros fd b k k' m Hm Hs. simpl. unfold dm_update. rewrite Hm. intros [= <-]. simpl. by rewrite lookup_insert_eq, Hs.
Qed.
Next Obligation. intros fd k k' m Hm. simpl. unfold dm_update. rewrite Hm. intros [= <-]. simpl. by rewrite lookup_insert_eq. Qed.
Next Obligation.
  intros fd seals k k' m Hm. simpl. unfold dm_update. rewrite Hm. intros [= <-]. simpl. by rewrite lookup_insert_eq.
Qed.
Next Obligation. intros fd k k' m Hm. simpl. unfold dm_update. rewrite Hm. intros [= <-]. simpl. by rewrite lookup_insert_eq. Qed.

Lemma seccomp_filter_is_sealed_and_exact_witness :
  let k := mk_DemoMemory 3 ∅ in let w := mk_World 0 0 0 in
  (exists f k', SeccompFilterFile_create true k w = (Return f, k', w) /\ raw_fd f = 3)
  /\ match SeccompFilterFile_create true k w with
     | (Return f, k', w') => 2 < raw_fd f
     | _ => False
     end.
Proof.
  intros k w. split; [by eexists; eexists|].
  pose proof (seccomp_filter_is_sealed_and_exact true k w) as H.
  destruct (SeccompFilterFile_create true k w) as [[[f|e|] k'] w'] eqn:E; [apply H | |done].
  exfalso. assert (Hex : exists f k', SeccompFilterFile_create true k w = (Return f, k', w)) by (by eexists; eexists).
  destruct Hex as (f & k2 & E2). by rewrite E in E2.
Defined.
