(* ===== verification/Cgroup.v ===== *)
(** * Task cgroups (aios-adapter-process: cgroup.rs)

    The resource budget of a Task, the manager of a delegated cgroup v2 subtree and
    the handle that launches, measures and kills what runs in a Task's cgroup. *)

From stdpp Require Import base numbers list gmap strings.
From Stdlib Require Import ZArith Lia.
From S2P Require Import Prelude RustStd RustOs TaskSpec Event ProcessHost.

#[local] Open Scope string_scope.
#[local] Open Scope Z_scope.

Definition CGROUP2_MOUNT : string := "/sys/fs/cgroup".
Definition CLEANUP_TIMEOUT : Z := Duration_from_secs 5.
Definition CLEANUP_POLL_INTERVAL : Z := Duration_from_millis 5.

(** ** Budgets *)

Record CgroupResourceBudget := mk_CgroupResourceBudget {
  cpu_time_micros : Z;
  cgroup_memory_bytes : Z;
}.

#[export] Instance CgroupResourceBudget_eq_dec : EqDecision CgroupResourceBudget.
Proof. solve_decision. Defined.

Definition CgroupResourceBudget_new (cpu_time memory_bytes : Z)
    : Result CgroupResourceBudget ProcessAdapterError :=
  let? cpu_time_micros := ok_or (try_into u64_max (cpu_time / 1000)) ProcInvalidConfig in
  if (cpu_time_micros =? 0) || (MAX_TIMEOUT <? cpu_time) || (memory_bytes =? 0)
  then Err ProcInvalidConfig
  else Ok (mk_CgroupResourceBudget cpu_time_micros memory_bytes).

Definition from_task_budget (budget : Budget) : Result CgroupResourceBudget ProcessAdapterError :=
  CgroupResourceBudget_new (Duration_from_secs (wall_time_seconds budget)) (memory_bytes budget).

Definition budget_cpu_time (self : CgroupResourceBudget) : Z := cpu_time_micros self * 1000.

(** ** Text of the control files *)

Definition contains_word (contents expected : string) : bool :=
  existsb (fun word => String.eqb word expected) (split_ascii_whitespace contents).

Fixpoint find_map {A B} (f : A -> option B) (l : list A) : option B :=
  match l with
  | [] => None
  | a :: l' => match f a with Some b => Some b | None => find_map f l' end
  end.

(** The value of a line of two words that starts with the key. *)
Definition keyed_value (key line : string) : option string :=
  match split_ascii_whitespace line with
  | [name; value] => if String.eqb name key then Some value else None
  | _ => None
  end.

Definition parse_keyed_u64 (contents key : string) : Result Z ProcessAdapterError :=
  let? value := ok_or (find_map (keyed_value key) (lines contents)) ProcInvalidResourceControl in
  ok_or (parse_unsigned u64_max value) ProcInvalidResourceControl.

Section Cgroups.
Context {K : Type} `{!Files K, !TaskIdText} `{Env} `{!Sleeps}.

Abbreviation Proc := (M K ProcessAdapterError).

Definition read_keyed_u64 (path key : string) : Proc Z :=
  let! contents := sys_or ProcInvalidResourceControl (f_read_to_string path) in
  lift (parse_keyed_u64 contents key).

(** Every file of the list is a regular file of the directory. *)
Definition require_files (directory : string) (files : list string) : Proc unit :=
  for_each (fun file =>
    let! present := path_is_file (path_join directory file) in
    if negb present then throw ProcInvalidResourceControl else ret tt) files.

Definition TASK_CGROUP_FILES : list string :=
  ["cgroup.procs"; "cgroup.kill"; "cgroup.events"; "cpu.stat"; "memory.current"; "memory.events";
   "memory.max"; "memory.swap.max"; "memory.oom.group"].

(** ** The delegated root *)

Definition current_cgroup_directory : Proc string :=
  let! membership := sys_or ProcInvalidResourceControl (f_read_to_string "/proc/self/cgroup") in
  let! relative := lift (ok_or (find_map (strip_prefix "0::") (lines membership)) ProcInvalidResourceControl) in
  let! relative := lift (ok_or (strip_prefix "/" relative) ProcInvalidResourceControl) in
  sys_or ProcInvalidResourceControl (f_canonicalize (path_join CGROUP2_MOUNT relative)).

Definition canonical_cgroup_root (path : string) : Proc string :=
  if negb (is_absolute path) || (MAX_SANDBOX_PATH_BYTES <? str_len path)
  then throw ProcInvalidResourceControl
  else
    let! m := sys_or ProcInvalidResourceControl (f_symlink_metadata path) in
    if is_symlink m || negb (is_dir m) then throw ProcInvalidResourceControl
    else
      let! canonical := sys_or ProcInvalidResourceControl (f_canonicalize path) in
      if path_eqb canonical CGROUP2_MOUNT || negb (path_starts_with canonical CGROUP2_MOUNT)
      then throw ProcInvalidResourceControl
      else ret canonical.

Definition validate_cgroup_root (path : string) : Proc unit :=
  do! require_files path ["cgroup.controllers"; "cgroup.procs"; "cgroup.subtree_control"] in
  let! controllers := sys_or ProcInvalidResourceControl (f_read_to_string (path_join path "cgroup.controllers")) in
  let! enabled := sys_or ProcInvalidResourceControl (f_read_to_string (path_join path "cgroup.subtree_control")) in
  if negb (contains_word controllers "cpu") || negb (contains_word controllers "memory")
     || negb (contains_word enabled "cpu") || negb (contains_word enabled "memory")
  then throw ProcInvalidResourceControl
  else
    let! root_processes := sys_or ProcInvalidResourceControl (f_read_to_string (path_join path "cgroup.procs")) in
    if negb (bool_decide (trim_str root_processes = [])) then throw ProcInvalidResourceControl
    else
      let! current := current_cgroup_directory in
      if path_eqb current path || negb (path_starts_with current path)
      then throw ProcInvalidResourceControl
      else ret tt.

Record CgroupV2Manager := mk_CgroupV2Manager {
  cgroup_root_directory : string;
  cgroup_root_identity : DirectoryIdentity;
}.

(** [DirectoryIdentity::read(..).map_err(|_| InvalidResourceControl)] *)
Definition read_cgroup_identity (path : string) : Proc DirectoryIdentity :=
  map_err (fun _ => ProcInvalidResourceControl) (DirectoryIdentity_read path).

Definition CgroupV2Manager_new (root_directory : string) : Proc CgroupV2Manager :=
  let! root_directory := canonical_cgroup_root root_directory in
  do! validate_cgroup_root root_directory in
  let! root_identity := read_cgroup_identity root_directory in
  ret (mk_CgroupV2Manager root_directory root_identity).

Definition cgroup_validate_root (self : CgroupV2Manager) : Proc unit :=
  do! validate_cgroup_root (cgroup_root_directory self) in
  let! identity := read_cgroup_identity (cgroup_root_directory self) in
  if negb (bool_decide (identity = cgroup_root_identity self))
  then throw ProcInvalidResourceControl
  else ret tt.

(** ** Task cgroups *)

(** [TaskCgroup] and its clone [TaskCgroupState] have the same fields. *)
Record TaskCgroup := mk_TaskCgroup {
  cgroup_task_id : TaskId;
  cgroup_directory : string;
  cgroup_identity : DirectoryIdentity;
  cgroup_budget : CgroupResourceBudget;
}.

Definition configure_task_cgroup (directory : string) (budget : CgroupResourceBudget) : Proc unit :=
  do! require_files directory TASK_CGROUP_FILES in
  do! sys_or ProcInvalidResourceControl
        (f_write (path_join directory "memory.max") (u64_to_string (cgroup_memory_bytes budget))) in
  do! sys_or ProcInvalidResourceControl (f_write (path_join directory "memory.swap.max") "0") in
  sys_or ProcInvalidResourceControl (f_write (path_join directory "memory.oom.group") "1").

Definition task_cgroup_directory (self : CgroupV2Manager) (task_id : TaskId) : string :=
  path_join (cgroup_root_directory self) ("task-" ++ task_id_to_string task_id).

(** [fs::create_dir] asks for the mode 0o777. *)
Definition CgroupV2Manager_create (self : CgroupV2Manager) (task_id : TaskId) (budget : CgroupResourceBudget)
    : Proc TaskCgroup :=
  do! cgroup_validate_root self in
  let directory := task_cgroup_directory self task_id in
  if MAX_SANDBOX_PATH_BYTES <? str_len directory then throw ProcInvalidResourceControl
  else
    do! sys_or ProcInvalidResourceControl (f_create_dir directory 511) in
    let! configured := attempt (
      do! configure_task_cgroup directory budget in
      let! identity := read_cgroup_identity directory in
      ret (mk_TaskCgroup task_id directory identity budget)) in
    match configured with
    | Ok cgroup => ret cgroup
    | Err error => do! sys (f_remove_dir directory) in throw error
    end.

Definition validate_task_cgroup_identity (directory : string) (expected_identity : DirectoryIdentity) : Proc unit :=
  let! m := sys_or ProcInvalidResourceControl (f_symlink_metadata directory) in
  if is_symlink m || negb (is_dir m) then throw ProcInvalidResourceControl
  else
    let! identity := read_cgroup_identity directory in
    if negb (bool_decide (identity = expected_identity)) then throw ProcInvalidResourceControl
    else require_files directory TASK_CGROUP_FILES.

Definition terminate_task_cgroup (directory : string) (expected_identity : DirectoryIdentity) : Proc unit :=
  do! validate_task_cgroup_identity directory expected_identity in
  sys_or ProcInvalidResourceControl (f_write (path_join directory "cgroup.kill") "1").

Definition validate_cleanup_target (directory : string) (expected_identity : DirectoryIdentity) : Proc unit :=
  do! validate_task_cgroup_identity directory expected_identity in
  let! current := current_cgroup_directory in
  if path_eqb current directory || path_starts_with current directory
  then throw ProcInvalidResourceControl
  else ret tt.

(** The loop of [wait_until_empty_until]; running out of fuel is [Panic]. *)
Fixpoint wait_until_empty_loop (fuel : nat) (directory : string) (expected_identity : DirectoryIdentity)
    (deadline : Z) : Proc unit :=
  match fuel with
  | O => panic
  | S fuel' =>
      let! now := Instant_now in
      if deadline <=? now then throw ProcInvalidResourceControl
      else
        do! validate_task_cgroup_identity directory expected_identity in
        let! populated := read_keyed_u64 (path_join directory "cgroup.events") "populated" in
        if populated =? 0 then ret tt
        else
          do! thread_sleep CLEANUP_POLL_INTERVAL in
          wait_until_empty_loop fuel' directory expected_identity deadline
  end.

(** No deadline is further away than the clean-up timeout. *)
Definition CLEANUP_TURNS : nat := Z.to_nat (CLEANUP_TIMEOUT / CLEANUP_POLL_INTERVAL) + 1.

Definition wait_until_empty_until (directory : string) (expected_identity : DirectoryIdentity) (deadline : Z)
    : Proc unit :=
  wait_until_empty_loop CLEANUP_TURNS directory expected_identity deadline.

Definition wait_until_empty (directory : string) (expected_identity : DirectoryIdentity) : Proc unit :=
  let! now := Instant_now in
  let! deadline := Instant_add now CLEANUP_TIMEOUT in
  wait_until_empty_until directory expected_identity deadline.

Definition TaskCgroup_finish (self : TaskCgroup) : Proc unit :=
  do! terminate_task_cgroup (cgroup_directory self) (cgroup_identity self) in
  do! wait_until_empty (cgroup_directory self) (cgroup_identity self) in
  sys_or ProcInvalidResourceControl (f_remove_dir (cgroup_directory self)).

(** ** Stale cgroups *)

(** One identifier of the loop: whether its cgroup was removed. *)
Definition reconcile_one (self : CgroupV2Manager) (deadline : Z) (task_id : TaskId) : Proc bool :=
  let! now := Instant_now in
  if deadline <=? now then throw ProcInvalidResourceControl
  else
    do! cgroup_validate_root self in
    let directory := task_cgroup_directory self task_id in
    if MAX_SANDBOX_PATH_BYTES <? str_len directory then throw ProcInvalidResourceControl
    else
      let! found := sys (f_symlink_metadata directory) in
      match found with
      | Err IoNotFound => ret false
      | Err IoOther => throw ProcInvalidResourceControl
      | Ok m =>
          if is_symlink m || negb (is_dir m) then throw ProcInvalidResourceControl
          else
            let! identity := read_cgroup_identity directory in
            do! validate_cleanup_target directory identity in
            do! terminate_task_cgroup directory identity in
            do! wait_until_empty_until directory identity deadline in
            let! now := Instant_now in
            if deadline <=? now then throw ProcInvalidResourceControl
            else
              do! cgroup_validate_root self in
              do! validate_cleanup_target directory identity in
              do! sys_or ProcInvalidResourceControl (f_remove_dir directory) in
              ret true
      end.

Fixpoint reconcile_loop (self : CgroupV2Manager) (deadline : Z) (task_ids : list TaskId) (removed : Z)
    : Proc Z :=
  match task_ids with
  | [] => ret removed
  | task_id :: rest =>
      let! gone := reconcile_one self deadline task_id in
      if gone then
        let! removed := lift (ok_or (checked_add usize_max removed 1) ProcInvalidResourceControl) in
        reconcile_loop self deadline rest removed
      else reconcile_loop self deadline rest removed
  end.

Definition reconcile_stale_task_cgroups (self : CgroupV2Manager) (task_ids : list TaskId) : Proc Z :=
  do! cgroup_validate_root self in
  let! now := Instant_now in
  let! deadline := Instant_add now CLEANUP_TIMEOUT in
  let! removed := reconcile_loop self deadline task_ids 0 in
  do! cgroup_validate_root self in
  ret removed.

(** ** Limits *)

Definition TaskCgroupState_validate (self : TaskCgroup) : Proc unit :=
  do! validate_task_cgroup_identity (cgroup_directory self) (cgroup_identity self) in
  let read file := sys_or ProcInvalidResourceControl (f_read_to_string (path_join (cgroup_directory self) file)) in
  let! memory_max := read "memory.max" in
  let! swap_max := read "memory.swap.max" in
  let! oom_group := read "memory.oom.group" in
  if negb (bool_decide (trim_str memory_max = chars (u64_to_string (cgroup_memory_bytes (cgroup_budget self)))))
     || negb (bool_decide (trim_str swap_max = chars "0")) || negb (bool_decide (trim_str oom_group = chars "1"))
  then throw ProcInvalidResourceControl
  else ret tt.

Definition limit_reached (self : TaskCgroup) : Proc bool :=
  do! TaskCgroupState_validate self in
  let! cpu_usage := read_keyed_u64 (path_join (cgroup_directory self) "cpu.stat") "usage_usec" in
  let! memory_max_events := read_keyed_u64 (path_join (cgroup_directory self) "memory.events") "max" in
  let! oom_kills := read_keyed_u64 (path_join (cgroup_directory self) "memory.events") "oom_kill" in
  ret ((cpu_time_micros (cgroup_budget self) <=? cpu_usage) || (0 <? memory_max_events) || (0 <? oom_kills)).

Definition terminate (self : TaskCgroup) : Proc unit :=
  terminate_task_cgroup (cgroup_directory self) (cgroup_identity self).

Definition launch_identity (self : TaskCgroup) : string * Z * Z :=
  (path_join (cgroup_directory self) "cgroup.procs",
   dir_device (cgroup_identity self), dir_inode (cgroup_identity self)).

End Cgroups.
