(* ===== verification/Rootfs.v ===== *)
(** * Root filesystems (aios-adapter-process: rootfs.rs, bin/aios-rootfs-build.rs)

    The digest of a sealed tree with its text, the bounded traversal and measurement
    of a tree, verification against a pinned digest, and the builder of the minimal
    tree.  SHA-256 is the sha2 crate's and stays a parameter. *)

From stdpp Require Import base numbers list gmap strings sorting.
From Stdlib Require Import ZArith Lia Ascii.
From Stdlib Require Import String.
From stdpp Require Import list.
From S2P Require Import Prelude RustStd RustOs ProcessHost.

#[local] Open Scope string_scope.
#[local] Open Scope Z_scope.

Definition MAX_ROOT_FILESYSTEM_ENTRIES : Z := 4096.
Definition MAX_ROOT_FILESYSTEM_FILE_BYTES : Z := 256 * 1024 * 1024.
Definition MAX_ROOT_FILESYSTEM_TOTAL_BYTES : Z := 512 * 1024 * 1024.
Definition DIGEST_BYTES : Z := 32.
Definition DIGEST_HEX_BYTES : Z := DIGEST_BYTES * 2.
Definition DIGEST_DOMAIN : list Z := (bytes_of "AIOS_ROOTFS_TREE_SHA256_V1" ++ [0])%list.

(** ** Digests *)

Record RootFilesystemDigest := mk_RootFilesystemDigest { digest_bytes : list Z }.

#[export] Instance RootFilesystemDigest_eq_dec : EqDecision RootFilesystemDigest.
Proof. solve_decision. Defined.

Definition hex_digit (d : Z) : ascii := ascii_of_byte_Z (if d <? 10 then 48 + d else 87 + d).

(** [{byte:02x}] for every byte *)
Fixpoint display_hex (bytes : list Z) : string :=
  match bytes with
  | [] => ""
  | b :: bytes' => String (hex_digit (b / 16)) (String (hex_digit (b mod 16)) (display_hex bytes'))
  end.

Definition display_digest (d : RootFilesystemDigest) : string := display_hex (digest_bytes d).

Definition decode_hex (byte : Z) : Result Z ProcessAdapterError :=
  if (48 <=? byte) && (byte <=? 57) then Ok (byte - 48)
  else if (97 <=? byte) && (byte <=? 102) then Ok (byte - 97 + 10)
  else Err ProcInvalidSandbox.

Fixpoint parse_hex (s : string) : Result (list Z) ProcessAdapterError :=
  match s with
  | String h (String l s') =>
      let? high := decode_hex (byte_of h) in
      let? low := decode_hex (byte_of l) in
      let? rest := parse_hex s' in
      Ok (high * 16 + low :: rest)
  | _ => Ok []
  end.

Definition digest_from_str (value : string) : Result RootFilesystemDigest ProcessAdapterError :=
  if negb (str_len value =? DIGEST_HEX_BYTES) then Err ProcInvalidSandbox
  else let? bytes := parse_hex value in Ok (mk_RootFilesystemDigest bytes).

(** ** What the host adds *)

Class Sha256 := sha256 : list Z -> list Z.

(** Directory streams and open files, by handle. *)
Class Trees (K : Type) := {
  t_read_dir : string -> K -> Result Z IoError * K;
  t_next : Z -> K -> option (Result string IoError) * K;
  t_open : string -> K -> Result Z IoError * K;
  t_file_metadata : Z -> K -> Result Metadata IoError * K;
  t_read : Z -> K -> Result (list Z) IoError * K;
  t_create_new : string -> Z -> K -> Result Z IoError * K;
  t_copy : Z -> Z -> K -> Result Z IoError * K;
}.

Definition u32_to_be_bytes (n : Z) : list Z :=
  [n / 16777216 mod 256; n / 65536 mod 256; n / 256 mod 256; n mod 256].

Definition u64_to_be_bytes (n : Z) : list Z :=
  (u32_to_be_bytes (n / 4294967296) ++ u32_to_be_bytes n)%list.

(** Paths are compared as their bytes. *)
Definition path_bytes_le : relation string := strings.String.le.

#[export] Instance path_bytes_le_dec : RelDecision path_bytes_le := strings.String.le_dec.

(** Write bits 0o222, permission bits 0o777. *)
Definition writable (m : Metadata) : bool := negb (Z.land (md_mode m) 146 =? 0).
Definition permission_bits (m : Metadata) : Z := Z.land (md_mode m) 511.

Section Rootfs.
Context {K : Type} `{!Files K, !Trees K, !Sha256}.

Abbreviation Proc := (M K ProcessAdapterError).

(** ** Traversal *)

(** The entries of one open directory; running out of fuel is [Panic]. *)
Fixpoint collect_entries (fuel : nat) (directory relative_directory : string) (stream : Z)
    (paths directories : list string) : Proc (list string * list string) :=
  match fuel with
  | O => panic
  | S fuel' =>
      let! entry := sys (t_next stream) in
      match entry with
      | None => ret (paths, directories)
      | Some (Err _) => throw ProcInvalidSandbox
      | Some (Ok file_name) =>
          let relative := path_join relative_directory file_name in
          if MAX_SANDBOX_PATH_BYTES <? str_len relative then throw ProcInvalidSandbox
          else
            let! m := sys_or ProcInvalidSandbox (f_symlink_metadata (path_join directory file_name)) in
            if is_symlink m || (negb (is_dir m) && negb (is_file m)) then throw ProcInvalidSandbox
            else
              let paths := (paths ++ [relative])%list in
              if MAX_ROOT_FILESYSTEM_ENTRIES <? len paths then throw ProcInvalidSandbox
              else collect_entries fuel' directory relative_directory stream paths
                     (if is_dir m then (directories ++ [relative])%list else directories)
      end
  end.

(** As many turns as the limit admits entries, one for the entry beyond it and
    one for the end. *)
Definition COLLECT_TURNS : nat := Z.to_nat MAX_ROOT_FILESYSTEM_ENTRIES + 2.

(** The stack of directories; its last element is popped. *)
Fixpoint collect_loop (fuel : nat) (root : string) (paths directories : list string) : Proc (list string) :=
  match fuel with
  | O => panic
  | S fuel' =>
      match last directories with
      | None => ret paths
      | Some relative_directory =>
          let directory := path_join root relative_directory in
          let! stream := sys_or ProcInvalidSandbox (t_read_dir directory) in
          let! found := collect_entries COLLECT_TURNS directory relative_directory stream
                          paths (removelast directories) in
          let '(paths, directories) := found in
          collect_loop fuel' root paths directories
      end
  end.

Definition collect_relative_paths (root : string) : Proc (list string) :=
  collect_loop COLLECT_TURNS root [] [""].

(** ** Measurement *)

(** [metadata.len()] bytes are expected; the hash input so far and what was read. *)
Fixpoint read_contents (fuel : nat) (file : Z) (expected read_bytes : Z) (hasher : list Z) : Proc (list Z) :=
  match fuel with
  | O => panic
  | S fuel' =>
      let! buffer := sys_or ProcInvalidSandbox (t_read file) in
      if bool_decide (buffer = []) then
        if negb (read_bytes =? expected) then throw ProcInvalidSandbox else ret hasher
      else
        let! read_bytes := lift (ok_or (checked_add u64_max read_bytes (len buffer)) ProcInvalidSandbox) in
        if expected <? read_bytes then throw ProcInvalidSandbox
        else read_contents fuel' file expected read_bytes (hasher ++ buffer)%list
  end.

(** Every read but the last is of at least one byte. *)
Definition READ_TURNS (expected : Z) : nat := Z.to_nat expected + 2.

(** One path of the loop: the hash input and the total of the file sizes. *)
Definition measure_path (root relative : string) (total_bytes : Z) (hasher : list Z) : Proc (Z * list Z) :=
  let path := path_join root relative in
  let! m := sys_or ProcInvalidSandbox (f_symlink_metadata path) in
  let path_bytes := bytes_of relative in
  let! path_length := lift (ok_or (try_into (2 ^ 32 - 1) (len path_bytes)) ProcInvalidSandbox) in
  let hasher := (hasher ++ u32_to_be_bytes path_length ++ path_bytes ++ u32_to_be_bytes (permission_bits m))%list in
  if is_dir m then
    if writable m then throw ProcInvalidSandbox else ret (total_bytes, hasher ++ bytes_of "D")%list
  else if negb (is_file m) || negb (md_nlink m =? 1) || writable m || (MAX_ROOT_FILESYSTEM_FILE_BYTES <? md_len m)
  then throw ProcInvalidSandbox
  else
    let! total := lift (ok_or (checked_add u64_max total_bytes (md_len m)) ProcInvalidSandbox) in
    if MAX_ROOT_FILESYSTEM_TOTAL_BYTES <? total then throw ProcInvalidSandbox
    else
      let hasher := (hasher ++ bytes_of "F" ++ u64_to_be_bytes (md_len m))%list in
      let! file := sys_or ProcInvalidSandbox (t_open path) in
      let! opened := sys_or ProcInvalidSandbox (t_file_metadata file) in
      if negb (md_dev opened =? md_dev m) || negb (md_ino opened =? md_ino m) || negb (md_len opened =? md_len m)
         || negb (md_nlink opened =? 1) || writable opened
      then throw ProcInvalidSandbox
      else
        let! hasher := read_contents (READ_TURNS (md_len m)) file (md_len m) 0 hasher in
        ret (total, hasher).

Fixpoint measure_loop (root : string) (relative_paths : list string) (total_bytes : Z) (hasher : list Z)
    : Proc (list Z) :=
  match relative_paths with
  | [] => ret hasher
  | relative :: rest =>
      let! measured := measure_path root relative total_bytes hasher in
      let '(total_bytes, hasher) := measured in
      measure_loop root rest total_bytes hasher
  end.

Definition measure_tree (root : string) : Proc RootFilesystemDigest :=
  let! relative_paths := collect_relative_paths root in
  let relative_paths := merge_sort path_bytes_le relative_paths in
  let hasher := DIGEST_DOMAIN in
  let! m := sys_or ProcInvalidSandbox (f_symlink_metadata root) in
  if is_symlink m || negb (is_dir m) || writable m then throw ProcInvalidSandbox
  else
    let hasher := (hasher ++ bytes_of "R" ++ u32_to_be_bytes (permission_bits m))%list in
    let! hasher := measure_loop root relative_paths 0 hasher in
    ret (mk_RootFilesystemDigest (sha256 hasher)).

(** ** Verification *)

Definition validate_read_only_directory (path : string) : Proc unit :=
  let! m := sys_or ProcInvalidSandbox (f_symlink_metadata path) in
  if is_symlink m || negb (is_dir m) || writable m then throw ProcInvalidSandbox else ret tt.

Definition canonical_read_only_root (path : string) : Proc string :=
  if negb (is_absolute path) || (MAX_SANDBOX_PATH_BYTES <? str_len path) then throw ProcInvalidSandbox
  else
    let! m := sys_or ProcInvalidSandbox (f_symlink_metadata path) in
    if is_symlink m || negb (is_dir m) then throw ProcInvalidSandbox
    else
      do! validate_read_only_directory path in
      let! canonical := sys_or ProcInvalidSandbox (f_canonicalize path) in
      if path_is_root_dir canonical then throw ProcInvalidSandbox else ret canonical.

Definition RootFilesystemDigest_measure (directory : string) : Proc RootFilesystemDigest :=
  let! directory := canonical_read_only_root directory in
  measure_tree directory.

Definition validate_tree (directory : string) (identity : DirectoryIdentity)
    (expected_digest : RootFilesystemDigest) : Proc unit :=
  do! validate_read_only_directory directory in
  let! found := DirectoryIdentity_read directory in
  if negb (bool_decide (found = identity)) then throw ProcInvalidSandbox
  else
    let! measured := measure_tree directory in
    if negb (bool_decide (measured = expected_digest)) then throw ProcInvalidSandbox else ret tt.

Record VerifiedRootFilesystemState := mk_VerifiedRootFilesystemState {
  state_digest : RootFilesystemDigest;
  state_identity : DirectoryIdentity;
}.

Record VerifiedRootFilesystem := mk_VerifiedRootFilesystem {
  verified_directory : string;
  verified_digest : RootFilesystemDigest;
  verified_identity : DirectoryIdentity;
}.

Definition VerifiedRootFilesystem_open (directory : string) (expected_digest : RootFilesystemDigest)
    : Proc VerifiedRootFilesystem :=
  let! directory := canonical_read_only_root directory in
  do! validate_sandbox_mount_points directory in
  let! identity := DirectoryIdentity_read directory in
  do! validate_tree directory identity expected_digest in
  ret (mk_VerifiedRootFilesystem directory expected_digest identity).

Definition verified_state (self : VerifiedRootFilesystem) : VerifiedRootFilesystemState :=
  mk_VerifiedRootFilesystemState (verified_digest self) (verified_identity self).

Definition validate_verified_root_filesystem (directory : string) (state : VerifiedRootFilesystemState)
    : Proc unit :=
  validate_tree directory (state_identity state) (state_digest state).

(** ** The minimal tree *)

Definition MINIMAL_DIRECTORIES : list string := ["bin"; "proc"; "dev"; "tmp"; "workspace"].

(** Modes 0o700, 0o500 and 0o555; the execute bits are 0o111. *)
Definition build_minimal_root_filesystem (busybox output : string) : Proc RootFilesystemDigest :=
  if negb (is_absolute busybox) || path_is_root_dir output then throw ProcInvalidSandbox
  else
    do! lift (validate_sandbox_absolute_path output) in
    let! source_link := sys_or ProcInvalidSandbox (f_symlink_metadata busybox) in
    if is_symlink source_link || negb (is_file source_link) then throw ProcInvalidSandbox
    else
      let! source := sys_or ProcInvalidSandbox (f_canonicalize busybox) in
      let! source_metadata := sys_or ProcInvalidSandbox (f_metadata source) in
      if negb (is_file source_metadata) || (Z.land (md_mode source_metadata) 73 =? 0)
         || (MAX_ROOT_FILESYSTEM_FILE_BYTES <? md_len source_metadata)
      then throw ProcInvalidSandbox
      else
        do! sys_or ProcInvalidSandbox (f_create_dir output 448) in
        do! for_each (fun relative => sys_or ProcInvalidSandbox (f_create_dir (path_join output relative) 448))
              MINIMAL_DIRECTORIES in
        let! source_file := sys_or ProcInvalidSandbox (t_open source) in
        let! opened := sys_or ProcInvalidSandbox (t_file_metadata source_file) in
        if negb (md_dev opened =? md_dev source_metadata) || negb (md_ino opened =? md_ino source_metadata)
           || negb (md_len opened =? md_len source_metadata)
        then throw ProcInvalidSandbox
        else
          let destination := path_join output "bin/busybox" in
          let! destination_file := sys_or ProcInvalidSandbox (t_create_new destination 320) in
          let! copied := sys_or ProcInvalidSandbox (t_copy source_file destination_file) in
          if negb (copied =? md_len source_metadata) then throw ProcInvalidSandbox
          else
            do! sys_or ProcInvalidSandbox (f_set_permissions destination 365) in
            do! for_each (fun relative =>
                  sys_or ProcInvalidSandbox (f_set_permissions (path_join output relative) 365))
                  MINIMAL_DIRECTORIES in
            do! sys_or ProcInvalidSandbox (f_set_permissions output 365) in
            let! digest := RootFilesystemDigest_measure output in
            do! VerifiedRootFilesystem_open output digest in
            ret digest.

(** ** The command aios-rootfs-build *)

Inductive ExitCode := ExitSuccess | ExitFailure | ExitFrom (code : Z).

(** Exit code, standard output and standard error; the arguments start with the
    program name. *)
Definition rootfs_build_main (arguments : list string) : M K Empty_set (ExitCode * string * string) :=
  match drop 1 arguments with
  | [busybox; output] =>
      let! built := attempt (build_minimal_root_filesystem busybox output) in
      match built with
      | Ok digest => ret (ExitSuccess, display_digest digest ++ String NEWLINE "", "")
      | Err error => ret (ExitFailure, "", display_ProcessAdapterError error ++ String NEWLINE "")
      end
  | _ => ret (ExitFrom 2, "", "usage: aios-rootfs-build <absolute-busybox-path> <absolute-output-path>"
                              ++ String NEWLINE "")
  end.

End Rootfs.
