(* ===== verification/Descriptor.v ===== *)
(** * Filesystem Capabilities as descriptors (aios-adapter-process: descriptor.rs)

    The read Capabilities of a Task are opened beneath a trusted root before the
    Task's process starts, and sent to its launcher over a socket. *)

From stdpp Require Import base numbers list gmap strings sorting.
From Stdlib Require Import ZArith Lia.
From S2P Require Import Prelude RustStd RustOs TaskSpec ProcessHost Seccomp.

#[local] Open Scope string_scope.
#[local] Open Scope Z_scope.

Definition MAX_FILESYSTEM_CAPABILITY_MOUNTS : Z := 128.

Record FilesystemCapabilityMount := mk_FilesystemCapabilityMount {
  mount_capability : FileCapability;
  mount_descriptor : Z;
}.

(** The sending end of the socket pair. *)
Record DescriptorSender := mk_DescriptorSender { sender_socket : Z }.

(** [p_openat2] is openat2(2) with the flags of the source: a path descriptor,
    beneath the directory, through no symbolic link, no magic link and no mount. *)
Class Descriptors (K : Type) := {
  p_open_directory : string -> K -> Result Z IoError * K;
  p_openat2 : Z -> string -> K -> Result Z IoError * K;
  p_stream_pair : K -> Result (Z * Z) IoError * K;
  p_sendmsg : Z -> list Z -> list Z -> K -> Result Z IoError * K;
}.

(** ** Orders *)

(** [Read < Write] *)
Definition access_le (a b : FileAccess) : Prop :=
  match a, b with Write, Read => False | _, _ => True end.

#[export] Instance access_le_dec : RelDecision access_le.
Proof. intros [] []; simpl; apply _. Defined.

(** Path, then access. *)
Definition capability_le (l r : FileCapability) : Prop :=
  match String.compare (path l) (path r) with
  | Lt => True
  | Eq => access_le (access l) (access r)
  | Gt => False
  end.

#[export] Instance capability_le_dec : RelDecision capability_le.
Proof. intros l r. unfold capability_le. destruct (String.compare _ _); apply _. Defined.

Definition path_depth (p : string) : Z := len (components p).

(** Depth, then path. *)
Definition depth_le (l r : FileCapability) : Prop :=
  match Z.compare (path_depth (path l)) (path_depth (path r)) with
  | Lt => True
  | Eq => Is_true (String.leb (path l) (path r))
  | Gt => False
  end.

#[export] Instance depth_le_dec : RelDecision depth_le.
Proof. intros l r. unfold depth_le. destruct (Z.compare _ _); apply _. Defined.

(** ** Validation *)

Fixpoint validate_capability_loop (ordered : list FileCapability) (previous : option FileCapability)
    : Result unit ProcessAdapterError :=
  match ordered with
  | [] => Ok tt
  | capability :: rest =>
      do? validate_sandbox_absolute_path (path capability) in
      if String.eqb (path capability) "/" then Err ProcInvalidSandbox
      else if negb (bool_decide (access capability = Read)) then Err ProcUnsupportedFilesystemCapability
      else if bool_decide (previous = Some capability) then Err ProcInvalidSandbox
      else validate_capability_loop rest (Some capability)
  end.

Definition validate_capabilities (capabilities : list FileCapability) : Result unit ProcessAdapterError :=
  if MAX_FILESYSTEM_CAPABILITY_MOUNTS <? len capabilities then Err ProcInvalidSandbox
  else validate_capability_loop (merge_sort capability_le capabilities) None.

Section Descriptors.
Context {K : Type} `{!Files K, !Descriptors K}.

Abbreviation Proc := (M K ProcessAdapterError).

(** ** Opening *)

Fixpoint open_each (root : Z) (capabilities : list FileCapability) : Proc (list FilesystemCapabilityMount) :=
  match capabilities with
  | [] => ret []
  | capability :: rest =>
      let! relative := lift (ok_or (path_strip_prefix (path capability) "/") ProcInvalidSandbox) in
      let! descriptor := sys_or ProcInvalidSandbox (p_openat2 root relative) in
      let! mounts := open_each root rest in
      ret (mk_FilesystemCapabilityMount capability descriptor :: mounts)
  end.

Definition open_capabilities (source_root : string) (capabilities : list FileCapability)
    : Proc (list FilesystemCapabilityMount) :=
  let! root := sys_or ProcInvalidSandbox (p_open_directory source_root) in
  open_each root (merge_sort depth_le capabilities).

Definition open_filesystem_capabilities (source_root : string) (capabilities : list FileCapability)
    : Proc (list FilesystemCapabilityMount) :=
  if bool_decide (capabilities = []) then ret []
  else
    let! source_root := canonical_directory source_root in
    do! lift (validate_capabilities capabilities) in
    open_capabilities source_root capabilities.

(** ** Sending *)

(** The sender and the descriptor that becomes the child's standard input. *)
Definition descriptor_channel : Proc (DescriptorSender * Z) :=
  let! sockets := sys_or ProcDescriptorTransferFailed p_stream_pair in
  ret (mk_DescriptorSender sockets.1, sockets.2).

(** One byte of payload; the control buffer is sized for the descriptors, and a
    message that does not fit is the same error. *)
Definition sender_send (self : DescriptorSender) (seccomp : SeccompFilterFile)
    (mounts : list FilesystemCapabilityMount) : Proc unit :=
  let descriptors := raw_fd seccomp :: map mount_descriptor mounts in
  let payload := [1] in
  let! sent := sys_or ProcDescriptorTransferFailed (p_sendmsg (sender_socket self) payload descriptors) in
  if negb (sent =? len payload) then throw ProcDescriptorTransferFailed else ret tt.

End Descriptors.
