(* ===== verification/Process.v ===== *)
(** * The process handler (aios-adapter-process: lib.rs)

    Argument and environment checks, the two builders, the construction of the
    command, the loop that waits for the child, and the handler registered with the
    Tool adapter. *)

From stdpp Require Import base numbers list gmap strings sorting.
From Stdlib Require Import ZArith Lia.
From S2P Require Import Prelude RustStd RustOs TaskState TaskSpec Policy Event Approval Supervisor.
From S2P Require Import Execution Facade ToolAdapter ProcessHost Seccomp Cgroup Rootfs Descriptor.

#[local] Open Scope string_scope.
#[local] Open Scope Z_scope.

Definition PROCESS_MAX_ARGUMENTS : Z := 64.
Definition PROCESS_MAX_ARGUMENT_BYTES : Z := 4096.
Definition PROCESS_MAX_TOTAL_ARGUMENT_BYTES : Z := 64 * 1024.
Definition MAX_ENVIRONMENT_VARIABLES : Z := 64.
Definition MAX_ENVIRONMENT_NAME_BYTES : Z := 128.
Definition MAX_ENVIRONMENT_VALUE_BYTES : Z := 4096.
Definition MAX_TOTAL_ENVIRONMENT_BYTES : Z := 64 * 1024.
Definition WAIT_POLL_INTERVAL : Z := Duration_from_millis 5.

(** ** Arguments and environment *)

Fixpoint process_argument_loop (arguments : list string) (total_bytes : Z) : Result unit ProcessAdapterError :=
  match arguments with
  | [] => Ok tt
  | argument :: rest =>
      if (PROCESS_MAX_ARGUMENT_BYTES <? str_len argument) || contains_char NUL argument
      then Err ProcInvalidArguments
      else
        let? total := ok_or (checked_add usize_max total_bytes (str_len argument)) ProcInvalidArguments in
        if PROCESS_MAX_TOTAL_ARGUMENT_BYTES <? total then Err ProcInvalidArguments
        else process_argument_loop rest total
  end.

Definition process_validate_arguments (fixed dynamic : list string) : Result unit ProcessAdapterError :=
  let? count := ok_or (checked_add usize_max (len fixed) (len dynamic)) ProcInvalidArguments in
  if PROCESS_MAX_ARGUMENTS <? count then Err ProcInvalidArguments
  else process_argument_loop (fixed ++ dynamic)%list 0.

Definition is_ascii_alphabetic (c : Z) : bool := is_ascii_lowercase c || is_ascii_uppercase c.

Definition is_valid_environment_name (name : string) : bool :=
  match chars name with
  | [] => false
  | first :: rest =>
      (str_len name <=? MAX_ENVIRONMENT_NAME_BYTES) && (is_ascii_alphabetic first || (first =? 95))
      && forallb (fun c => is_ascii_alphanumeric c || (c =? 95)) rest
  end.

Fixpoint environment_loop (entries : list (string * string)) (environment : gmap string string) (total_bytes : Z)
    : Result (gmap string string) ProcessAdapterError :=
  match entries with
  | [] => Ok environment
  | (name, value) :: rest =>
      if negb (is_valid_environment_name name) || (MAX_ENVIRONMENT_VALUE_BYTES <? str_len value)
         || contains_char NUL value
      then Err ProcInvalidConfig
      else
        let? total := ok_or (checked_add usize_max total_bytes (str_len name)
                             ≫= fun total => checked_add usize_max total (str_len value)) ProcInvalidConfig in
        if (MAX_TOTAL_ENVIRONMENT_BYTES <? total) || bool_decide (is_Some (environment !! name))
        then Err ProcInvalidConfig
        else environment_loop rest (<[name := value]> environment) total
  end.

Definition validate_environment (entries : list (string * string)) : Result (gmap string string) ProcessAdapterError :=
  if MAX_ENVIRONMENT_VARIABLES <? len entries then Err ProcInvalidConfig
  else environment_loop entries ∅ 0.

(** ** Commands *)

Inductive ChildStdin := StdinNull | StdinDescriptor (fd : Z).

(** [std::process::Command] as the adapter configures it: a cleared environment
    with the given entries, null output streams, a process group of its own. *)
Record Command := mk_Command {
  command_program : string;
  command_args : list string;
  command_env : gmap string string;
  command_dir : string;
  command_stdin : ChildStdin;
}.

(** Children by number; an exit status is whether it is a success. *)
Class Processes (K : Type) := {
  p_spawn : Command -> K -> Result Z IoError * K;
  p_try_wait : Z -> K -> Result (option bool) IoError * K;
  p_kill : Z -> K -> Result unit IoError * K;
  p_wait : Z -> K -> Result unit IoError * K;
}.

Definition bubblewrap_arguments (root_filesystem scratch_directory sandbox_executable : string)
    (seccomp_fd : option Z) : list string :=
  (["--unshare-all"; "--unshare-user"; "--disable-userns"; "--die-with-parent"; "--new-session"]
   ++ match seccomp_fd with Some fd => ["--seccomp"; u64_to_string fd] | None => [] end
   ++ ["--cap-drop"; "ALL"; "--ro-bind"; root_filesystem; "/"; "--proc"; "/proc"; "--dev"; "/dev";
       "--tmpfs"; "/tmp"; "--bind"; scratch_directory; "/workspace"; "--chdir"; "/workspace"; "--";
       sandbox_executable])%list.

(** ** The handler *)

Record CgroupLaunch := mk_CgroupLaunch {
  cl_launcher : string;
  cl_launcher_identity : ExecutableIdentity;
  cl_task_cgroup : TaskCgroup;
}.

Record BubblewrapLauncher := mk_BubblewrapLauncher {
  bl_bubblewrap : string;
  bl_bubblewrap_identity : ExecutableIdentity;
  bl_root_filesystem : string;
  bl_verified_root_state : option VerifiedRootFilesystemState;
  bl_sandbox_executable : string;
  bl_cgroup_launch : option CgroupLaunch;
  bl_mounts : list FilesystemCapabilityMount;
}.

Inductive ProcessLauncher := Direct | Bubblewrap (launcher : BubblewrapLauncher).

Record ProcessToolHandler := mk_ProcessToolHandler {
  ph_executable : string;
  ph_executable_identity : ExecutableIdentity;
  ph_working_directory : string;
  ph_working_directory_identity : option DirectoryIdentity;
  ph_fixed_arguments : list string;
  ph_environment : gmap string string;
  ph_timeout : Z;
  ph_argument_policy : list string -> bool;
  ph_launcher : ProcessLauncher;
}.

Definition handler_mounts (h : ProcessToolHandler) : list FilesystemCapabilityMount :=
  match ph_launcher h with Direct => [] | Bubblewrap b => bl_mounts b end.

Definition handler_cgroup (h : ProcessToolHandler) : option TaskCgroup :=
  match ph_launcher h with
  | Direct => None
  | Bubblewrap b => option_map cl_task_cgroup (bl_cgroup_launch b)
  end.

Definition optionally {X E A} (o : option A) (f : A -> M X E unit) : M X E unit :=
  match o with Some a => f a | None => ret tt end.

(** [timeout.is_zero() || timeout > MAX_TIMEOUT] *)
Definition timeout_invalid (timeout : Z) : bool := Duration_is_zero timeout || (MAX_TIMEOUT <? timeout).

(** Equal as sorted lists of paths with their accesses. *)
Definition filesystem_capabilities_match (expected : list FileCapability) (mounted : list FilesystemCapabilityMount)
    : bool :=
  if negb (len expected =? len mounted) then false
  else bool_decide (merge_sort capability_le expected
                    = merge_sort capability_le (map mount_capability mounted)).

Section Process.
Context {K : Type} `{!Files K, !Trees K, !Sha256, !MemoryFiles K, !Descriptors K, !Processes K, !TaskIdText}.
Context `{Env} `{!Sleeps}.

Abbreviation Proc := (M K ProcessAdapterError).

(** *** Before the command *)

(** [ExecutableIdentity::read(path)? != identity] is an error. *)
Definition require_executable (p : string) (expected : ExecutableIdentity) : Proc unit :=
  let! identity := ExecutableIdentity_read p in
  if negb (bool_decide (identity = expected)) then throw ProcExecutableChanged else ret tt.

(** The checks on the request, the executable and the scratch directory. *)
Definition check_run (self : ProcessToolHandler) (dynamic_arguments : list string) (timeout : Z)
    (filesystem_capabilities_authorized : bool) : Proc unit :=
  if timeout_invalid timeout then throw ProcInvalidConfig
  else
    do! lift (process_validate_arguments (ph_fixed_arguments self) dynamic_arguments) in
    if negb (ph_argument_policy self dynamic_arguments) then throw ProcArgumentsDenied
    else
      do! require_executable (ph_executable self) (ph_executable_identity self) in
      do! optionally (ph_working_directory_identity self)
            (validate_task_scratch_identity (ph_working_directory self)) in
      if negb (bool_decide (handler_mounts self = [])) && negb filesystem_capabilities_authorized
      then throw ProcInvalidSandbox
      else ret tt.

Definition create_filter (self : ProcessToolHandler) : Proc (option SeccompFilterFile) :=
  match ph_launcher self with
  | Direct => ret None
  | Bubblewrap _ =>
      let! f := SeccompFilterFile_create (bool_decide (handler_mounts self = [])) in
      ret (Some f)
  end.

(** The program, the arguments before Bubblewrap's own, the standard input and
    the sender of the descriptors. *)
Definition launcher_command (b : BubblewrapLauncher)
    : Proc (string * list string * ChildStdin * option DescriptorSender) :=
  match bl_cgroup_launch b with
  | Some cl =>
      let '(process_file, device, inode) := launch_identity (cl_task_cgroup cl) in
      if bool_decide (bl_mounts b = []) then
        ret (cl_launcher cl, [process_file; u64_to_string device; u64_to_string inode; bl_bubblewrap b],
             StdinNull, None)
      else
        let! channel := descriptor_channel in
        ret (cl_launcher cl,
             (["--descriptor-broker"; process_file; u64_to_string device; u64_to_string inode; bl_bubblewrap b;
               u64_to_string (len (bl_mounts b))]
              ++ concat (map (fun m => ["read"; path (mount_capability m)]) (bl_mounts b)))%list,
             StdinDescriptor channel.2, Some channel.1)
  | None =>
      if negb (bool_decide (bl_mounts b = [])) then throw ProcInvalidResourceControl
      else ret (bl_bubblewrap b, [], StdinNull, None)
  end.

Definition bubblewrap_command (self : ProcessToolHandler) (b : BubblewrapLauncher)
    (seccomp_filter : option SeccompFilterFile) (dynamic_arguments : list string)
    : Proc (Command * option DescriptorSender) :=
  do! require_executable (bl_bubblewrap b) (bl_bubblewrap_identity b) in
  do! optionally (bl_verified_root_state b) (validate_verified_root_filesystem (bl_root_filesystem b)) in
  do! optionally (bl_cgroup_launch b) (fun cl => require_executable (cl_launcher cl) (cl_launcher_identity cl)) in
  let! launch := launcher_command b in
  let '(program, prefix, stdin, sender) := launch in
  let! seccomp_fd :=
    (if bool_decide (bl_mounts b = []) then
       let! f := lift (ok_or seccomp_filter ProcSeccompUnavailable) in ret (Some (raw_fd f))
     else ret None) in
  ret (mk_Command program
         (prefix ++ bubblewrap_arguments (bl_root_filesystem b) (ph_working_directory self)
                      (bl_sandbox_executable b) seccomp_fd
          ++ ph_fixed_arguments self ++ dynamic_arguments)%list
         (ph_environment self) "/" stdin, sender).

Definition build_command (self : ProcessToolHandler) (seccomp_filter : option SeccompFilterFile)
    (dynamic_arguments : list string) : Proc (Command * option DescriptorSender) :=
  match ph_launcher self with
  | Direct =>
      ret (mk_Command (ph_executable self) (ph_fixed_arguments self ++ dynamic_arguments)%list
             (ph_environment self) (ph_working_directory self) StdinNull, None)
  | Bubblewrap b => bubblewrap_command self b seccomp_filter dynamic_arguments
  end.

(** [task_cgroup.limit_reached()?] as an error *)
Definition check_limit (task_cgroup : option TaskCgroup) : Proc unit :=
  optionally task_cgroup (fun cg =>
    let! reached := limit_reached cg in
    if reached then throw ProcResourceLimitExceeded else ret tt).

(** *** After the command *)

Definition terminate_cgroup_child (task_cgroup : TaskCgroup) (child : Z) : Proc unit :=
  let! termination := attempt (terminate task_cgroup) in
  do! sys (p_kill child) in
  do! sys_or ProcWaitFailed (p_wait child) in
  lift termination.

(** Kill and reap, results ignored. *)
Definition abandon_child (task_cgroup : option TaskCgroup) (child : Z) : Proc unit :=
  match task_cgroup with
  | Some cg => do! attempt (E' := ProcessAdapterError) (terminate_cgroup_child cg child) in ret tt
  | None => do! sys (p_kill child) in do! sys (p_wait child) in ret tt
  end.

Definition transfer_descriptors (self : ProcessToolHandler) (seccomp_filter : option SeccompFilterFile)
    (sender : DescriptorSender) : Proc unit :=
  match ph_launcher self, seccomp_filter with
  | Bubblewrap b, Some f => sender_send sender f (bl_mounts b)
  | _, _ => throw ProcDescriptorTransferFailed
  end.

(** The deadline has passed. *)
Definition stop_at_deadline (task_cgroup : option TaskCgroup) (child : Z) : Proc unit :=
  match task_cgroup with
  | Some cg => terminate_cgroup_child cg child
  | None =>
      let! killed := sys (p_kill child) in
      if is_ok killed then sys_or ProcWaitFailed (p_wait child)
      else
        let! status := sys_or ProcWaitFailed (p_try_wait child) in
        match status with None => throw ProcWaitFailed | Some _ => ret tt end
  end.

(** The limits of the cgroup of a running child. *)
Definition stop_at_limit (task_cgroup : option TaskCgroup) (child : Z) : Proc unit :=
  match task_cgroup with
  | None => ret tt
  | Some cg =>
      let! limit := attempt (limit_reached cg) in
      match limit with
      | Ok false => ret tt
      | Ok true => do! terminate_cgroup_child cg child in throw ProcResourceLimitExceeded
      | Err error => do! terminate_cgroup_child cg child in throw error
      end
  end.

(** The waiting loop; running out of fuel is [Panic]. *)
Fixpoint wait_loop (fuel : nat) (task_cgroup : option TaskCgroup) (child deadline : Z) : Proc ToolOutput :=
  match fuel with
  | O => panic
  | S fuel' =>
      let! status := sys (p_try_wait child) in
      match status with
      | Err _ => do! abandon_child task_cgroup child in throw ProcWaitFailed
      | Ok (Some true) =>
          do! check_limit task_cgroup in
          lift (res_map_err (fun _ => ProcOutputFailed) (ToolOutput_from_bytes []))
      | Ok (Some false) => do! check_limit task_cgroup in throw ProcExitFailed
      | Ok None =>
          let! now := Instant_now in
          do! stop_at_limit task_cgroup child in
          if deadline <=? now then do! stop_at_deadline task_cgroup child in throw ProcTimedOut
          else
            do! thread_sleep (Z.min WAIT_POLL_INTERVAL (Duration_saturating_sub deadline now)) in
            wait_loop fuel' task_cgroup child deadline
      end
  end.

(** Every turn but the last sleeps a poll interval or up to the deadline. *)
Definition WAIT_TURNS (timeout : Z) : nat := Z.to_nat (timeout / WAIT_POLL_INTERVAL) + 2.

Definition run_checked_with_timeout (self : ProcessToolHandler) (dynamic_arguments : list string) (timeout : Z)
    (filesystem_capabilities_authorized : bool) : Proc ToolOutput :=
  do! check_run self dynamic_arguments timeout filesystem_capabilities_authorized in
  let! seccomp_filter := create_filter self in
  let! built := build_command self seccomp_filter dynamic_arguments in
  let '(command, descriptor_sender) := built in
  do! check_limit (handler_cgroup self) in
  let! now := Instant_now in
  let! deadline := lift (ok_or (Instant_checked_add now timeout) ProcInvalidConfig) in
  let! child := sys_or ProcSpawnFailed (p_spawn command) in
  do! optionally descriptor_sender (fun sender =>
        let! transfer := attempt (transfer_descriptors self seccomp_filter sender) in
        match transfer with
        | Ok _ => ret tt
        | Err error => do! abandon_child (handler_cgroup self) child in throw error
        end) in
  wait_loop (WAIT_TURNS timeout) (handler_cgroup self) child deadline.

Definition run_checked (self : ProcessToolHandler) (dynamic_arguments : list string) : Proc ToolOutput :=
  run_checked_with_timeout self dynamic_arguments (ph_timeout self) false.

(** *** As a Tool handler *)

Definition process_execute (self : ProcessToolHandler) (arguments : list string) : M K ToolFailure ToolOutput :=
  map_err (fun _ => ToolFailure_new) (run_checked self arguments).

(** The timeout of a run for a Task and whether it is the Task's budget. *)
Definition task_timeout_for (self : ProcessToolHandler) (context : TaskExecutionContext) (task_timeout : Z)
    : Result (Z * bool) ToolFailure :=
  match ph_launcher self with
  | Direct => Ok (Z.min (ph_timeout self) task_timeout, task_timeout <=? ph_timeout self)
  | Bubblewrap b =>
      match bl_cgroup_launch b with
      | None => Err ToolFailure_new
      | Some cl =>
          let? derived_budget := res_map_err (fun _ => ToolFailure_new) (from_task_budget (context_budget context)) in
          if negb (bool_decide (cgroup_task_id (cl_task_cgroup cl) = context_task_id context))
             || negb (bool_decide (cgroup_budget (cl_task_cgroup cl) = derived_budget))
             || negb (filesystem_capabilities_match (filesystem_capabilities context) (bl_mounts b))
          then Err ToolFailure_new
          else Ok (task_timeout, true)
      end
  end.

Definition process_failure (timeout_is_task_budget : bool) (error : ProcessAdapterError) : ToolFailure :=
  if bool_decide (error = ProcResourceLimitExceeded)
     || (bool_decide (error = ProcTimedOut) && timeout_is_task_budget)
  then ToolFailure_budget_exceeded else ToolFailure_new.

Definition process_execute_for_task (self : ProcessToolHandler) (context : TaskExecutionContext)
    (arguments : list string) : M K ToolFailure ToolOutput :=
  let! now := Instant_now in
  let task_timeout := remaining_wall_time context now in
  if Duration_is_zero task_timeout then throw ToolFailure_budget_exceeded
  else
    let! chosen := lift (task_timeout_for self context task_timeout) in
    map_err (process_failure chosen.2) (run_checked_with_timeout self arguments chosen.1 true).

(** The handler with the host it runs on. *)
#[export] Instance Process_ToolHandler : ToolHandler (ProcessToolHandler * K) := {|
  handler_execute arguments := fun x w =>
    let '(r, k, w') := process_execute x.1 arguments x.2 w in (r, (x.1, k), w');
  handler_execute_for_task context arguments := fun x w =>
    let '(r, k, w') := process_execute_for_task x.1 context arguments x.2 w in (r, (x.1, k), w');
|}.

(** ** Builders *)

Record ProcessToolBuilder := mk_ProcessToolBuilder {
  pb_executable : string;
  pb_working_directory : string;
  pb_fixed_arguments : list string;
  pb_environment : list (string * string);
  pb_timeout : Z;
  pb_argument_policy : list string -> bool;
}.

Definition ProcessToolBuilder_new (executable working_directory : string) (argument_policy : list string -> bool)
    : ProcessToolBuilder :=
  mk_ProcessToolBuilder executable working_directory [] [] DEFAULT_TIMEOUT argument_policy.

Definition pb_with_fixed_arguments (arguments : list string) (b : ProcessToolBuilder) : ProcessToolBuilder :=
  mk_ProcessToolBuilder (pb_executable b) (pb_working_directory b) arguments (pb_environment b) (pb_timeout b)
    (pb_argument_policy b).

Definition pb_with_environment (environment : list (string * string)) (b : ProcessToolBuilder) : ProcessToolBuilder :=
  mk_ProcessToolBuilder (pb_executable b) (pb_working_directory b) (pb_fixed_arguments b) environment (pb_timeout b)
    (pb_argument_policy b).

Definition pb_with_timeout (timeout : Z) (b : ProcessToolBuilder) : ProcessToolBuilder :=
  mk_ProcessToolBuilder (pb_executable b) (pb_working_directory b) (pb_fixed_arguments b) (pb_environment b) timeout
    (pb_argument_policy b).

Definition ProcessToolBuilder_build (self : ProcessToolBuilder) : Proc ProcessToolHandler :=
  if timeout_invalid (pb_timeout self) then throw ProcInvalidConfig
  else
    do! lift (process_validate_arguments (pb_fixed_arguments self) []) in
    let! executable := canonical_executable (pb_executable self) in
    let! executable_identity := ExecutableIdentity_read executable in
    let! working_directory := canonical_directory (pb_working_directory self) in
    let! environment := lift (validate_environment (pb_environment self)) in
    ret (mk_ProcessToolHandler executable executable_identity working_directory None (pb_fixed_arguments self)
           environment (pb_timeout self) (pb_argument_policy self) Direct).

Record BubblewrapProcessToolBuilder := mk_BubblewrapProcessToolBuilder {
  bb_bubblewrap : string;
  bb_root_filesystem : string;
  bb_sandbox_executable : string;
  bb_scratch_directory : string;
  bb_task_scratch_identity : option DirectoryIdentity;
  bb_task_id : option TaskId;
  bb_verified_root_state : option VerifiedRootFilesystemState;
  bb_task_cgroup_state : option TaskCgroup;
  bb_cgroup_launcher : option string;
  bb_source_root : option string;
  bb_filesystem_capabilities : list FileCapability;
  bb_fixed_arguments : list string;
  bb_environment : list (string * string);
  bb_timeout : Z;
  bb_argument_policy : list string -> bool;
}.

Definition BubblewrapProcessToolBuilder_new (bubblewrap root_filesystem sandbox_executable scratch_directory : string)
    (argument_policy : list string -> bool) : BubblewrapProcessToolBuilder :=
  mk_BubblewrapProcessToolBuilder bubblewrap root_filesystem sandbox_executable scratch_directory
    None None None None None None [] [] [] DEFAULT_TIMEOUT argument_policy.

Definition new_for_task (bubblewrap root_filesystem sandbox_executable : string) (task_scratch : TaskScratch)
    (argument_policy : list string -> bool) : BubblewrapProcessToolBuilder :=
  mk_BubblewrapProcessToolBuilder bubblewrap root_filesystem sandbox_executable (scratch_directory task_scratch)
    (Some (scratch_identity task_scratch)) (Some (scratch_task_id task_scratch))
    None None None None [] [] [] DEFAULT_TIMEOUT argument_policy.

Definition new_for_verified_task (bubblewrap : string) (root_filesystem : VerifiedRootFilesystem)
    (sandbox_executable : string) (task_scratch : TaskScratch) (argument_policy : list string -> bool)
    : BubblewrapProcessToolBuilder :=
  mk_BubblewrapProcessToolBuilder bubblewrap (verified_directory root_filesystem) sandbox_executable
    (scratch_directory task_scratch) (Some (scratch_identity task_scratch)) (Some (scratch_task_id task_scratch))
    (Some (verified_state root_filesystem)) None None None [] [] [] DEFAULT_TIMEOUT argument_policy.

(** The setters that later checks depend on. *)
Definition bb_with_task_cgroup (task_cgroup : TaskCgroup) (cgroup_launcher : string)
    (b : BubblewrapProcessToolBuilder) : BubblewrapProcessToolBuilder :=
  mk_BubblewrapProcessToolBuilder (bb_bubblewrap b) (bb_root_filesystem b) (bb_sandbox_executable b)
    (bb_scratch_directory b) (bb_task_scratch_identity b) (bb_task_id b) (bb_verified_root_state b)
    (Some task_cgroup) (Some cgroup_launcher) (bb_source_root b) (bb_filesystem_capabilities b)
    (bb_fixed_arguments b) (bb_environment b) (bb_timeout b) (bb_argument_policy b).

Definition bb_with_filesystem_capabilities (source_root : string) (capabilities : list FileCapability)
    (b : BubblewrapProcessToolBuilder) : BubblewrapProcessToolBuilder :=
  mk_BubblewrapProcessToolBuilder (bb_bubblewrap b) (bb_root_filesystem b) (bb_sandbox_executable b)
    (bb_scratch_directory b) (bb_task_scratch_identity b) (bb_task_id b) (bb_verified_root_state b)
    (bb_task_cgroup_state b) (bb_cgroup_launcher b) (Some source_root) capabilities
    (bb_fixed_arguments b) (bb_environment b) (bb_timeout b) (bb_argument_policy b).

Definition bb_with_fixed_arguments (arguments : list string) (b : BubblewrapProcessToolBuilder)
    : BubblewrapProcessToolBuilder :=
  mk_BubblewrapProcessToolBuilder (bb_bubblewrap b) (bb_root_filesystem b) (bb_sandbox_executable b)
    (bb_scratch_directory b) (bb_task_scratch_identity b) (bb_task_id b) (bb_verified_root_state b)
    (bb_task_cgroup_state b) (bb_cgroup_launcher b) (bb_source_root b) (bb_filesystem_capabilities b)
    arguments (bb_environment b) (bb_timeout b) (bb_argument_policy b).

Definition bb_with_environment (environment : list (string * string)) (b : BubblewrapProcessToolBuilder)
    : BubblewrapProcessToolBuilder :=
  mk_BubblewrapProcessToolBuilder (bb_bubblewrap b) (bb_root_filesystem b) (bb_sandbox_executable b)
    (bb_scratch_directory b) (bb_task_scratch_identity b) (bb_task_id b) (bb_verified_root_state b)
    (bb_task_cgroup_state b) (bb_cgroup_launcher b) (bb_source_root b) (bb_filesystem_capabilities b)
    (bb_fixed_arguments b) environment (bb_timeout b) (bb_argument_policy b).

Definition bb_with_timeout (timeout : Z) (b : BubblewrapProcessToolBuilder) : BubblewrapProcessToolBuilder :=
  mk_BubblewrapProcessToolBuilder (bb_bubblewrap b) (bb_root_filesystem b) (bb_sandbox_executable b)
    (bb_scratch_directory b) (bb_task_scratch_identity b) (bb_task_id b) (bb_verified_root_state b)
    (bb_task_cgroup_state b) (bb_cgroup_launcher b) (bb_source_root b) (bb_filesystem_capabilities b)
    (bb_fixed_arguments b) (bb_environment b) timeout (bb_argument_policy b).

(** The checks on the configuration, before any path is looked at. *)
Definition bubblewrap_config (self : BubblewrapProcessToolBuilder) : Proc unit :=
  do! lift ensure_supported_target in
  if timeout_invalid (bb_timeout self) then throw ProcInvalidConfig
  else
    do! optionally (bb_task_cgroup_state self) (fun cg =>
          if negb (bool_decide (bb_task_id self = Some (cgroup_task_id cg)))
          then throw ProcInvalidResourceControl
          else TaskCgroupState_validate cg) in
    if negb (Bool.eqb (bool_decide (is_Some (bb_task_cgroup_state self))) (bool_decide (is_Some (bb_cgroup_launcher self))))
    then throw ProcInvalidResourceControl
    else
      let mounts_wanted := negb (bool_decide (bb_filesystem_capabilities self = [])) in
      if mounts_wanted && (bool_decide (bb_task_id self = None) || bool_decide (bb_task_cgroup_state self = None))
      then throw ProcInvalidSandbox
      else if negb (Bool.eqb (bool_decide (is_Some (bb_source_root self))) mounts_wanted)
      then throw ProcInvalidSandbox
      else lift (process_validate_arguments (bb_fixed_arguments self) []).

Definition bubblewrap_cgroup_launch (task_cgroup : option TaskCgroup) (launcher : option string)
    : Proc (option CgroupLaunch) :=
  match task_cgroup, launcher with
  | Some cg, Some launcher =>
      let! launcher := map_err (fun _ => ProcInvalidResourceControl) (canonical_executable launcher) in
      let! launcher_identity := map_err (fun _ => ProcInvalidResourceControl) (ExecutableIdentity_read launcher) in
      ret (Some (mk_CgroupLaunch launcher launcher_identity cg))
  | None, None => ret None
  | _, _ => throw ProcInvalidResourceControl
  end.

Definition BubblewrapProcessToolBuilder_build (self : BubblewrapProcessToolBuilder) : Proc ProcessToolHandler :=
  do! bubblewrap_config self in
  let! bubblewrap := canonical_executable (bb_bubblewrap self) in
  let! bubblewrap_identity := ExecutableIdentity_read bubblewrap in
  let! root_filesystem := canonical_sandbox_root (bb_root_filesystem self) in
  do! validate_sandbox_mount_points root_filesystem in
  do! optionally (bb_verified_root_state self) (validate_verified_root_filesystem root_filesystem) in
  let! scratch := canonical_scratch_directory (bb_scratch_directory self) root_filesystem in
  do! optionally (bb_task_scratch_identity self) (validate_task_scratch_identity scratch) in
  let! resolved := canonical_sandbox_executable root_filesystem (bb_sandbox_executable self) in
  let '(executable, executable_identity, sandbox_executable) := resolved in
  let! environment := lift (validate_environment (bb_environment self)) in
  let! mounts :=
    match bb_source_root self with
    | Some source_root => open_filesystem_capabilities source_root (bb_filesystem_capabilities self)
    | None => ret []
    end in
  let! cgroup_launch := bubblewrap_cgroup_launch (bb_task_cgroup_state self) (bb_cgroup_launcher self) in
  ret (mk_ProcessToolHandler executable executable_identity scratch (bb_task_scratch_identity self)
         (bb_fixed_arguments self) environment (bb_timeout self) (bb_argument_policy self)
         (Bubblewrap (mk_BubblewrapLauncher bubblewrap bubblewrap_identity root_filesystem
                        (bb_verified_root_state self) sandbox_executable cgroup_launch mounts))).

End Process.
