(* ===== verification/CgroupLaunch.v ===== *)
(** * The launcher (aios-adapter-process: bin/aios-cgroup-launch.rs)

    A process the adapter starts in place of Bubblewrap: it checks the Task's cgroup,
    receives descriptors, moves itself into the cgroup and becomes Bubblewrap. *)

From stdpp Require Import base numbers list gmap strings.
From Stdlib Require Import ZArith Lia.
From S2P Require Import Prelude RustStd RustOs ProcessHost.

#[local] Open Scope string_scope.
#[local] Open Scope Z_scope.

Definition FAILURE_EXIT_CODE : Z := 125.
Definition MAX_LAUNCH_ARGUMENTS : Z := 512.
Definition MAX_DESCRIPTOR_MOUNTS : Z := 128.
Definition LAUNCH_MAX_PATH_BYTES : Z := 4096.

(** A received message: its payload, whether it was truncated, its descriptors. *)
Record Received := mk_Received {
  received_payload : list Z;
  received_truncated : bool;
  received_rights : list Z;
}.

(** [l_inherit] clears close-on-exec; the message comes from the standard input
    into a control buffer for that many descriptors. *)
Class LaunchHost (K : Type) := {
  l_open_write : string -> K -> Result Z IoError * K;
  l_write_all : Z -> string -> K -> Result unit IoError * K;
  l_process_id : K -> Z;
  l_recvmsg : Z -> K -> Result Received IoError * K;
  l_inherit : Z -> K -> Result unit IoError * K;
}.

(** The image handed to [exec], with an empty environment.  A successful [exec]
    does not return; after a failed one the launcher fails. *)
Record ExecImage := mk_ExecImage {
  image_program : string;
  image_args : list string;
  image_env : gmap string string;
  image_stdin_null : bool;
}.

Definition launch_parse (value : string) : Result Z unit := ok_or (parse_unsigned u64_max value) tt.

Definition launch_validate_sandbox_path (p : string) : Result unit unit :=
  if negb (is_absolute p) || (LAUNCH_MAX_PATH_BYTES <? str_len p) then Err tt
  else
    match components p with
    | RootDir :: rest => if forallb is_normal rest then Ok tt else Err tt
    | _ => Err tt
    end.

(** The mounts of the command line and the arguments after them. *)
Fixpoint parse_mounts (mount_count : nat) (arguments : list string) : Result (list string * list string) unit :=
  match mount_count with
  | O => Ok ([], arguments)
  | S n =>
      match arguments with
      | access :: destination :: rest =>
          if negb (String.eqb access "read") then Err tt
          else
            do? launch_validate_sandbox_path destination in
            let? parsed := parse_mounts n rest in
            Ok (destination :: parsed.1, parsed.2)
      | _ => Err tt
      end
  end.

Fixpoint position (x : string) (l : list string) : option nat :=
  match l with
  | [] => None
  | a :: l' => if String.eqb a x then Some 0%nat else option_map S (position x l')
  end.

(** [--seccomp fd] and one [--ro-bind-fd fd destination] per mount. *)
Fixpoint mount_arguments (mounts : list string) (descriptors : list Z) : list string :=
  match mounts, descriptors with
  | mount :: mounts', descriptor :: descriptors' =>
      ["--ro-bind-fd"; u64_to_string descriptor; mount] ++ mount_arguments mounts' descriptors'
  | _, _ => []
  end%list.

Definition splice (at_ : nat) (inserted l : list string) : list string :=
  (take at_ l ++ inserted ++ drop at_ l)%list.

Section Launch.
Context {K : Type} `{!Files K, !LaunchHost K}.

Abbreviation Launch := (M K unit).

Definition open_cgroup_procs (p : string) (expected_device expected_inode : Z) : Launch Z :=
  if negb (is_absolute p) || (LAUNCH_MAX_PATH_BYTES <? str_len p)
     || negb (bool_decide (path_file_name p = Some "cgroup.procs"))
  then throw tt
  else
    let! m := sys_or tt (f_symlink_metadata p) in
    if is_symlink m || negb (is_file m) then throw tt
    else
      let! file := sys_or tt (l_open_write p) in
      let! parent := lift (ok_or (path_parent p) tt) in
      let! pm := sys_or tt (f_metadata parent) in
      if negb (is_dir pm) || negb (md_dev pm =? expected_device) || negb (md_ino pm =? expected_inode)
      then throw tt
      else ret file.

Definition validate_executable (p : string) : Launch unit :=
  if negb (is_absolute p) || (LAUNCH_MAX_PATH_BYTES <? str_len p) then throw tt
  else
    let! m := sys_or tt (f_metadata p) in
    if negb (is_file m) then throw tt else ret tt.

Definition receive_descriptors (expected : Z) : Launch (list Z) :=
  let! received := sys_or tt (l_recvmsg expected) in
  if negb (len (received_payload received) =? 1) || received_truncated received
     || negb (bool_decide (received_payload received = [1]))
  then throw tt
  else if negb (len (received_rights received) =? expected) then throw tt
  else ret (received_rights received).

Definition enter_cgroup (file : Z) : Launch unit :=
  let! pid := gets l_process_id in
  sys_or tt (l_write_all file (u64_to_string pid)).

Definition run_legacy (cgroup_procs : string) (arguments : list string) : Launch ExecImage :=
  match arguments with
  | device :: inode :: rest =>
      let! expected_device := lift (launch_parse device) in
      let! expected_inode := lift (launch_parse inode) in
      match rest with
      | executable :: child_arguments =>
          if MAX_LAUNCH_ARGUMENTS <? len child_arguments then throw tt
          else
            let! file := open_cgroup_procs cgroup_procs expected_device expected_inode in
            do! validate_executable executable in
            do! enter_cgroup file in
            ret (mk_ExecImage executable child_arguments ∅ false)
      | [] => throw tt
      end
  | _ => throw tt
  end.

(** The command line of the broker: cgroup file, device, inode, executable, number
    of mounts, the mounts, the child's arguments. *)
Definition run_descriptor_broker (arguments : list string) : Launch ExecImage :=
  match arguments with
  | cgroup_procs :: device :: inode :: executable :: count :: rest =>
      let! expected_device := lift (launch_parse device) in
      let! expected_inode := lift (launch_parse inode) in
      let! mount_count := lift (launch_parse count) in
      if MAX_DESCRIPTOR_MOUNTS <? mount_count then throw tt
      else
        let! parsed := lift (parse_mounts (Z.to_nat mount_count) rest) in
        let '(mounts, child_arguments) := parsed in
        let descriptor_argument_count := mount_count * 3 + 2 in
        if MAX_LAUNCH_ARGUMENTS <? len child_arguments + descriptor_argument_count then throw tt
        else
          let! file := open_cgroup_procs cgroup_procs expected_device expected_inode in
          do! validate_executable executable in
          let! descriptors := receive_descriptors (mount_count + 1) in
          if existsb (fun descriptor => descriptor <=? 2) descriptors then throw tt
          else
            do! enter_cgroup file in
            let! delimiter := lift (ok_or (position "--" child_arguments) tt) in
            match descriptors with
            | [] => panic
            | seccomp :: mounted =>
                let descriptor_arguments :=
                  (["--seccomp"; u64_to_string seccomp] ++ mount_arguments mounts mounted)%list in
                let child_arguments := splice delimiter descriptor_arguments child_arguments in
                do! for_each (fun descriptor => sys_or tt (l_inherit descriptor)) descriptors in
                ret (mk_ExecImage executable child_arguments ∅ true)
            end
  | _ => throw tt
  end.

(** The arguments start with the program name. *)
Definition launch_run (arguments : list string) : Launch ExecImage :=
  match arguments with
  | _ :: first :: rest =>
      if String.eqb first "--descriptor-broker" then run_descriptor_broker rest else run_legacy first rest
  | _ => throw tt
  end.

End Launch.
