(* ===== verification/LocalServer.v ===== *)
(** * The local server (aios-local-api: lib.rs)

    Binding the socket, the accept loop on the service, removing the socket, and the
    client's whole request.  The host is that of the process adapter, with Unix
    sockets.  A connection is a [Stream]: what the peer sends within the timeouts and
    how much it takes. *)

From stdpp Require Import base numbers list gmap strings.
From Stdlib Require Import ZArith Lia.
From S2P Require Import Prelude RustStd RustOs TaskState TaskSpec Event Approval Supervisor LocalApi ProcessHost.

#[local] Open Scope string_scope.
#[local] Open Scope Z_scope.

(** [UnixListener] and [UnixStream]; listeners and connections are named by
    numbers.  [u_reply] is the client's connection once what it wrote was sent and
    the peer has answered; [u_close] ends a connection, and the peer has then read
    what was written. *)
Class UnixSockets (K : Type) := {
  u_bind : string -> K -> Result Z IoError * K;
  u_accept : Z -> K -> Result (Z * Stream) IoError * K;
  u_connect : string -> K -> Result (Z * Stream) IoError * K;
  u_set_read_timeout : Z -> Z -> K -> Result unit IoError * K;
  u_set_write_timeout : Z -> Z -> K -> Result unit IoError * K;
  u_reply : Z -> Stream -> K -> Stream * K;
  u_close : Z -> Stream -> K -> unit * K;
  u_remove_file : string -> K -> Result unit IoError * K;
}.

Record LocalServer := mk_LocalServer {
  listener : Z;
  socket_path : string;
  socket_device : Z;
  socket_inode : Z;
  server_config : ServerConfig;
}.

Section Host.
Context {K : Type} `{!Files K, !UnixSockets K}.

Abbreviation Api := (M K LocalApiError).

(** ** Binding and removing the socket *)

(** The mode of a new directory is 0o700. *)
Definition prepare_socket_parent (path : string) : Api unit :=
  match path_parent path with
  | None => throw ApiInvalidConfig
  | Some parent =>
      if is_empty_str parent then throw ApiInvalidConfig
      else
        let! found := sys (f_symlink_metadata parent) in
        match found with
        | Ok m =>
            if is_symlink m || negb (is_dir m) || negb (Z.land (md_mode m) 63 =? 0)
            then throw UnsafeSocketDirectory
            else ret tt
        | Err IoNotFound => sys_or Io (f_create_dir parent 448)
        | Err IoOther => throw Io
        end
  end.

(** The mode of the socket is 0o600. *)
Definition LocalServer_bind (path : string) (config : ServerConfig) : Api LocalServer :=
  let! config := lift (ServerConfig_validate config) in
  do! prepare_socket_parent path in
  let! found := sys (f_symlink_metadata path) in
  match found with
  | Ok _ => throw SocketAlreadyExists
  | Err IoOther => throw Io
  | Err IoNotFound =>
      let! listener := sys_or Io (u_bind path) in
      do! sys_or Io (f_set_permissions path 384) in
      let! m := sys_or Io (f_symlink_metadata path) in
      ret (mk_LocalServer listener path (md_dev m) (md_ino m) config)
  end.

(** [Drop]: the socket goes only if it is still the one that was bound. *)
Definition LocalServer_drop {E} (self : LocalServer) : M K E unit :=
  let! found := sys (f_symlink_metadata (socket_path self)) in
  match found with
  | Err _ => ret tt
  | Ok m =>
      if is_socket m && (md_dev m =? socket_device self) && (md_ino m =? socket_inode self) then
        do! sys (u_remove_file (socket_path self)) in ret tt
      else ret tt
  end.

(** ** Connections *)

Definition configure_stream (connection timeout : Z) : Api unit :=
  do! sys_or Io (u_set_read_timeout connection timeout) in
  sys_or Io (u_set_write_timeout connection timeout).

Section Codec.
Context `{Env} {S : Type} `{!EventStore S}.
Context (parse_probe : list Z -> option Z) (parse_request : list Z -> option ApiRequest)
  (encode_response : ApiResponse -> option (list Z))
  (encode_request : ApiRequest -> option (list Z)) (parse_response : list Z -> option ApiResponse).

(** The server runs on its host and the service. *)
Abbreviation Serving := (M (K * TaskSupervisor S) LocalApiError).

Definition on_host {E A} (m : M K E A) : M (K * TaskSupervisor S) E A :=
  zoom fst (fun k x => (k, x.2)) m.

(** [serve_stream] on an accepted connection, which is closed when the stream goes
    out of scope. *)
Definition serve_connection (connection : Z) (stream : Stream) (max_frame_bytes : Z) : Serving unit :=
  fun x w =>
    let '(r, (stream', service), w') :=
      serve_stream parse_probe parse_request encode_response max_frame_bytes (stream, x.2) w in
    (r, ((u_close connection stream' x.1).2, service), w').

Definition serve_once (self : LocalServer) : Serving unit :=
  let! accepted := on_host (sys_or Io (u_accept (listener self))) in
  let '(connection, stream) := accepted in
  let! configured :=
    on_host (attempt (configure_stream connection (connection_timeout (server_config self)))) in
  match configured with
  | Err e => do! on_host (sys (u_close connection stream)) in throw e
  | Ok _ => serve_connection connection stream (max_frame_bytes (server_config self))
  end.

(** One turn of [serve_forever]: only [accept] can end the loop. *)
Definition serve_turn (self : LocalServer) : Serving unit :=
  let! accepted := on_host (sys_or Io (u_accept (listener self))) in
  let '(connection, stream) := accepted in
  let! configured :=
    on_host (attempt (configure_stream connection (connection_timeout (server_config self)))) in
  match configured with
  | Err _ => on_host (sys (u_close connection stream))
  | Ok _ =>
      do! attempt (E' := LocalApiError)
            (serve_connection connection stream (max_frame_bytes (server_config self))) in
      ret tt
  end.

(** The first [turns] turns of [serve_forever], which has no end of its own:
    [Return] is the server still serving. *)
Fixpoint serve_forever (turns : nat) (self : LocalServer) : Serving unit :=
  match turns with
  | O => ret tt
  | Datatypes.S turns' => do! serve_turn self in serve_forever turns' self
  end.

(** ** The client *)

(** The exchange of [send_request] on its open connection. *)
Definition exchange (request : ApiRequest) (config : ServerConfig) (connection : Z) (stream : Stream)
    : Api ApiResponse := fun k w =>
  match (do! configure_stream connection (connection_timeout config) in
         lift (ok_or (encode_request request) Protocol)) k w with
  | (Raise e, k, w) => (Raise e, (u_close connection stream k).2, w)
  | (Panic, k, w) => (Panic, (u_close connection stream k).2, w)
  | (Return payload, k, w) =>
      match write_frame payload (max_frame_bytes config) stream with
      | (Err e, stream) => (Raise e, (u_close connection stream k).2, w)
      | (Ok _, stream) =>
          let '(stream, k) := u_reply connection stream k in
          match client_receive parse_response config stream with
          | Err e => (Raise e, (u_close connection stream k).2, w)
          | Ok response => (Return response, (u_close connection stream k).2, w)
          end
      end
  end.

Definition send_request (path : string) (request : ApiRequest) (config : ServerConfig) : Api ApiResponse :=
  let! config := lift (ServerConfig_validate config) in
  let! connected := sys_or Io (u_connect path) in
  exchange request config connected.1 connected.2.

End Codec.
End Host.
