(* ===== verification/Daemon.v ===== *)
(** * The daemon (aios-local-api: bin/aiosd.rs)

    Its options and its life: bind the socket, open and recover the store, remove
    stale cgroups, serve. *)

From stdpp Require Import base numbers list gmap strings.
From Stdlib Require Import ZArith Lia.
From S2P Require Import Prelude RustStd TaskState TaskSpec Event Approval Supervisor Recovery SqliteStore.
From S2P Require Import LocalApi ProcessHost Cgroup LocalServer.

#[local] Open Scope string_scope.
#[local] Open Scope Z_scope.

Definition DAEMON_MAX_EVENTS_PER_TASK : Z := 10000.
Definition DAEMON_MAX_TASKS : Z := 10000.

(** ** Options *)

Record DaemonOptions := mk_DaemonOptions {
  daemon_socket : string;
  daemon_database : string;
  daemon_cgroup_root : option string;
}.

(** What [main] reports; options have only one error. *)
Inductive DaemonError :=
| DaemonOptionsError
| DaemonLocalApi (e : LocalApiError)
| DaemonStore (e : EventStoreError)
| DaemonSupervisor (e : SupervisorError)
| DaemonProcess (e : ProcessAdapterError).

(** The loop on pairs of a name and a value. *)
Fixpoint daemon_options_loop (arguments : list string) (socket database cgroup_root : option string)
    : Result (option string * option string * option string) DaemonError :=
  match arguments with
  | [] => Ok (socket, database, cgroup_root)
  | [_] => Err DaemonOptionsError
  | argument :: value :: rest =>
      if String.eqb argument "--socket" && negb (bool_decide (is_Some socket)) then
        daemon_options_loop rest (Some value) database cgroup_root
      else if String.eqb argument "--database" && negb (bool_decide (is_Some database)) then
        daemon_options_loop rest socket (Some value) cgroup_root
      else if String.eqb argument "--cgroup-root" && negb (bool_decide (is_Some cgroup_root)) then
        daemon_options_loop rest socket database (Some value)
      else Err DaemonOptionsError
  end.

Definition DaemonOptions_parse (arguments : list string) : Result DaemonOptions DaemonError :=
  let? found := daemon_options_loop arguments None None None in
  let '(socket, database, cgroup_root) := found in
  let? socket := ok_or socket DaemonOptionsError in
  let? database := ok_or database DaemonOptionsError in
  Ok (mk_DaemonOptions socket database cgroup_root).

(** ** The main function *)

(** A method on an owned value. *)
Definition consuming {X Y E A} (y : Y) (m : M Y E A) : M X E A :=
  fun x w => let '(r, _, w') := m y w in (r, x, w').

Section Daemon.
Context `{Env, EventText} {C : Type} `{!Sqlite C}.
Context {K : Type} `{!Files K, !UnixSockets K, !DatabaseFiles K C, !TaskIdText, !Sleeps}.

Abbreviation Main := (M K DaemonError).

(** The server is dropped when the rest of [main] fails. *)
Definition dropping_server {A} (server : LocalServer) (m : Main A) : Main A := fun k w =>
  match m k w with
  | (Return a, k, w) => (Return a, k, w)
  | (Raise e, k, w) => (do! LocalServer_drop server in throw e) k w
  | (Panic, k, w) => (do! LocalServer_drop server in panic) k w
  end.

(** Everything between binding the socket and serving it. *)
Definition aiosd_recover (options : DaemonOptions) : Main (TaskSupervisor (SqliteEventStore C)) :=
  let! store := map_err DaemonStore (Sqlite_open (daemon_database options) DAEMON_MAX_EVENTS_PER_TASK) in
  let! supervisor := map_err DaemonSupervisor (consuming store (recover DAEMON_MAX_TASKS)) in
  match daemon_cgroup_root options with
  | None => ret supervisor
  | Some cgroup_root =>
      let! manager := map_err DaemonProcess (CgroupV2Manager_new cgroup_root) in
      do! map_err DaemonProcess
            (reconcile_stale_task_cgroups manager (recovered_task_ids supervisor)) in
      ret supervisor
  end.

Definition aiosd_start (arguments : list string) : Main (LocalServer * TaskSupervisor (SqliteEventStore C)) :=
  let! options := lift (DaemonOptions_parse arguments) in
  let! server := map_err DaemonLocalApi (LocalServer_bind (daemon_socket options) ServerConfig_default) in
  let! supervisor := dropping_server server (aiosd_recover options) in
  ret (server, supervisor).

Context (parse_probe : list Z -> option Z) (parse_request : list Z -> option ApiRequest)
  (encode_response : ApiResponse -> option (list Z)).

(** [serve_forever] on the service that [main] owns: the service after so many
    turns. *)
Definition serving (turns : nat) (server : LocalServer) (supervisor : TaskSupervisor (SqliteEventStore C))
    : Main (TaskSupervisor (SqliteEventStore C)) := fun k w =>
  match serve_forever parse_probe parse_request encode_response turns server (k, supervisor) w with
  | (Return _, (k, supervisor), w) => (Return supervisor, k, w)
  | (Raise e, (k, _), w) => (Raise (DaemonLocalApi e), k, w)
  | (Panic, (k, _), w) => (Panic, k, w)
  end.

(** The daemon up to its first [turns] turns of serving. *)
Definition aiosd_main (turns : nat) (arguments : list string) : Main (TaskSupervisor (SqliteEventStore C)) :=
  let! started := aiosd_start arguments in
  dropping_server started.1 (serving turns started.1 started.2).

End Daemon.
