(* ===== verification/Aiosctl.v ===== *)
(** * The command line (aios-local-api: bin/aiosctl.rs)

    From the arguments to one request, its response and the exit code. *)

From stdpp Require Import base numbers list gmap strings.
From Stdlib Require Import ZArith Lia.
From S2P Require Import Prelude RustStd RustOs TaskState TaskSpec Event LocalApi ProcessHost LocalServer.

#[local] Open Scope string_scope.
#[local] Open Scope Z_scope.

Definition USAGE : string :=
  "usage: aiosctl --socket PATH <health|submit|get|events|start|succeed|fail|cancel> [ARGUMENTS]".

Inductive CliError :=
| CliUsage
| CliInvalidTaskId
| CliInvalidNumber
| CliTaskFileTooLarge
| CliInvalidTaskFile
| CliTaskFileIo
| CliTransport (e : LocalApiError).

Definition display_CliError (e : CliError) : string :=
  match e with
  | CliUsage => USAGE
  | CliInvalidTaskId => "task ID is invalid"
  | CliInvalidNumber => "numeric argument is invalid"
  | CliTaskFileTooLarge => "task file exceeds the 65,536-byte limit"
  | CliInvalidTaskFile => "task file is not valid Task JSON"
  | CliTaskFileIo => "task file could not be read"
  | CliTransport _ => "local API request failed"
  end.

Inductive CliCommand :=
| CliHealth
| CliSubmit (path : string)
| CliGet (task_id : TaskId)
| CliEvents (task_id : TaskId) (after_sequence limit : Z)
| CliStart (task_id : TaskId)
| CliSucceed (task_id : TaskId)
| CliFail (task_id : TaskId)
| CliCancel (task_id : TaskId).

Record CliOptions := mk_CliOptions { cli_socket : string; cli_command : CliCommand }.

(** Numbers are [u64] and [u16]. *)
Definition parse_number (max : Z) (value : string) : Result Z CliError :=
  ok_or (parse_unsigned max value) CliInvalidNumber.

(** [File::open], and [take(limit).read_to_end] on what it opened. *)
Class TaskFiles (K : Type) := {
  tf_open : string -> K -> Result Z IoError * K;
  tf_read_to_end : Z -> Z -> K -> Result (list Z) IoError * K;
}.

Section Command.
(** The text of an identifier (uuid). *)
Context (task_id_from_str : string -> option TaskId).

Definition cli_parse_task_id (value : string) : Result TaskId CliError :=
  ok_or (task_id_from_str value) CliInvalidTaskId.

Definition CliCommand_parse (name : string) (values : list string) : Result CliCommand CliError :=
  match values with
  | [] => if String.eqb name "health" then Ok CliHealth else Err CliUsage
  | [value] =>
      if String.eqb name "submit" then Ok (CliSubmit value)
      else if String.eqb name "get" then let? t := cli_parse_task_id value in Ok (CliGet t)
      else if String.eqb name "events" then
        let? t := cli_parse_task_id value in Ok (CliEvents t 0 DEFAULT_EVENT_PAGE_SIZE)
      else if String.eqb name "start" then let? t := cli_parse_task_id value in Ok (CliStart t)
      else if String.eqb name "succeed" then let? t := cli_parse_task_id value in Ok (CliSucceed t)
      else if String.eqb name "fail" then let? t := cli_parse_task_id value in Ok (CliFail t)
      else if String.eqb name "cancel" then let? t := cli_parse_task_id value in Ok (CliCancel t)
      else Err CliUsage
  | [task_id; after_sequence] =>
      if String.eqb name "events" then
        let? t := cli_parse_task_id task_id in
        let? after := parse_number u64_max after_sequence in
        Ok (CliEvents t after DEFAULT_EVENT_PAGE_SIZE)
      else Err CliUsage
  | [task_id; after_sequence; limit] =>
      if String.eqb name "events" then
        let? t := cli_parse_task_id task_id in
        let? after := parse_number u64_max after_sequence in
        let? limit := parse_number u16_max limit in
        Ok (CliEvents t after limit)
      else Err CliUsage
  | _ => Err CliUsage
  end.

(** A missing command is reported before an empty socket, and both before a bad
    command. *)
Definition CliOptions_parse (arguments : list string) : Result CliOptions CliError :=
  match arguments with
  | first :: rest =>
      if negb (String.eqb first "--socket") then Err CliUsage
      else
        match rest with
        | socket :: command :: values =>
            if is_empty_str socket then Err CliUsage
            else
              let? command := CliCommand_parse command values in
              Ok (mk_CliOptions socket command)
        | _ => Err CliUsage
        end
  | [] => Err CliUsage
  end.

Section Run.
Context {K : Type} `{!Files K, !UnixSockets K, !TaskFiles K}.
Context (parse_task : list Z -> option TaskSpec)
  (encode_request : ApiRequest -> option (list Z)) (parse_response : list Z -> option ApiResponse)
  (pretty_response : ApiResponse -> option string).

Abbreviation Cli := (M K CliError).

Definition load_task (path : string) : Cli TaskSpec :=
  let! file := sys_or CliTaskFileIo (tf_open path) in
  let! limit := lift (ok_or (try_into u64_max DEFAULT_MAX_FRAME_BYTES) CliTaskFileTooLarge) in
  let! bytes := sys_or CliTaskFileIo (tf_read_to_end file (limit + 1)) in
  if DEFAULT_MAX_FRAME_BYTES <? len bytes then throw CliTaskFileTooLarge
  else lift (ok_or (parse_task bytes) CliInvalidTaskFile).

Definition into_method (self : CliCommand) : Cli ApiMethod :=
  match self with
  | CliHealth => ret Health
  | CliSubmit path => let! task := load_task path in ret (Submit task)
  | CliGet t => ret (GetTask t)
  | CliEvents t after limit => ret (Events t after limit)
  | CliStart t => ret (Start t)
  | CliSucceed t => ret (Succeed t)
  | CliFail t => ret (Fail t)
  | CliCancel t => ret (Cancel t)
  end.

Definition cli_run (arguments : list string) : Cli ApiResponse :=
  let! options := lift (CliOptions_parse arguments) in
  let! method := into_method (cli_command options) in
  map_err CliTransport
    (send_request encode_request parse_response (cli_socket options) (ApiRequest_new method)
       ServerConfig_default).

(** What [main] leaves: the exit code, standard output and standard error. *)
Record CliExit := mk_CliExit { exit_code : Z; standard_output : option string; standard_error : option string }.

Definition is_transport (e : CliError) : bool := match e with CliTransport _ => true | _ => false end.

Definition cli_main (arguments : list string) : M K Empty_set CliExit :=
  let! ran := attempt (cli_run arguments) in
  match ran with
  | Ok response =>
      match pretty_response response with
      | Some json =>
          ret (mk_CliExit (match api_outcome response with OutcomeError _ => 2 | OutcomeOk _ => 0 end)
                 (Some json) None)
      | None => ret (mk_CliExit 1 None (Some "failed to encode local API response"))
      end
  | Err error => ret (mk_CliExit (if is_transport error then 1 else 2) None (Some (display_CliError error)))
  end.

End Run.
End Command.
