(* ===== verification/DemoHost.v ===== *)
(** * A concrete host

    A small machine on which the witnesses of the process adapter run: a table of
    files by path, memory files, children with scripted exits. *)

From stdpp Require Import base numbers list gmap strings.
From Stdlib Require Import ZArith Lia Ascii.
From S2P Require Import Prelude RustStd RustOs TaskSpec Event ProcessHost Seccomp Cgroup Rootfs Descriptor.
From S2P Require Import Policy Approval Supervisor Execution Facade ToolAdapter Process CgroupLaunch.

#[local] Open Scope string_scope.
#[local] Open Scope Z_scope.

(** ** The machine *)

Record DemoNode := mk_DemoNode {
  dn_path : string;
  dn_meta : Metadata;
  dn_names : list string;
  dn_text : string;
}.

Record DemoHost := mk_DemoHost {
  dh_nodes : list DemoNode;
  dh_streams : gmap Z (list string);
  dh_files : gmap Z string;
  dh_memory : DemoMemory;
  dh_next : Z;
  dh_exits : list (option bool);
}.

Definition find_node (p : string) (nodes : list DemoNode) : option DemoNode :=
  list_find (fun n => path_eqb (dn_path n) p = true) nodes ≫= fun found => Some found.2.

Definition set_nodes (nodes : list DemoNode) (k : DemoHost) : DemoHost :=
  mk_DemoHost nodes (dh_streams k) (dh_files k) (dh_memory k) (dh_next k) (dh_exits k).

(** Numbers of the file system are 64-bit. *)
Definition clamp (m : Metadata) : Metadata :=
  mk_Metadata (md_type m) (md_mode m) (md_dev m mod 2 ^ 64) (md_ino m mod 2 ^ 64) (md_nlink m) (md_len m).

Definition demo_lookup {A} (f : DemoNode -> A) (p : string) (k : DemoHost) : Result A IoError * DemoHost :=
  (ok_or (f <$> find_node p (dh_nodes k)) IoNotFound, k).

Definition file_meta (ino mode length : Z) : Metadata := mk_Metadata TypeRegular mode 1 ino 1 length.
Definition dir_meta (ino mode : Z) : Metadata := mk_Metadata TypeDirectory mode 1 ino 2 0.

(** The parent of a path and the last name. *)
Fixpoint split_last (p : string) : option (string * string) :=
  match p with
  | EmptyString => None
  | String c p' =>
      match split_last p' with
      | Some (parent, name) => Some (String c parent, name)
      | None => if Ascii.eqb c "/" then Some ("", p') else None
      end
  end.

Definition update_node (p : string) (f : DemoNode -> DemoNode) (k : DemoHost) : DemoHost :=
  set_nodes (map (fun n => if path_eqb (dn_path n) p then f n else n) (dh_nodes k)) k.

(** A new node, listed in its parent. *)
Definition add_node (n : DemoNode) (k : DemoHost) : DemoHost :=
  let k' := match split_last (dn_path n) with
            | Some (parent, name) => update_node parent (fun d =>
                mk_DemoNode (dn_path d) (dn_meta d) (dn_names d ++ [name])%list (dn_text d)) k
            | None => k
            end in
  set_nodes (n :: dh_nodes k') k'.

Definition with_mode (mode : Z) (m : Metadata) : Metadata :=
  mk_Metadata (md_type m) mode (md_dev m) (md_ino m) (md_nlink m) (md_len m).

#[export] Instance demo_files : Files DemoHost := {|
  f_metadata := demo_lookup (fun n => clamp (dn_meta n));
  f_symlink_metadata := demo_lookup (fun n => clamp (dn_meta n));
  f_canonicalize p k :=
    if is_absolute p then demo_lookup (fun _ => p) p k else (Err IoNotFound, k);
  f_create_dir p mode k :=
    match find_node p (dh_nodes k) with
    | Some _ => (Err IoOther, k)
    | None => (Ok tt, add_node (mk_DemoNode p (dir_meta 99 mode) [] "") k)
    end;
  f_set_permissions p mode k :=
    (Ok tt, update_node p (fun n => mk_DemoNode (dn_path n) (with_mode mode (dn_meta n)) (dn_names n) (dn_text n)) k);
  f_remove_dir p k :=
    (Ok tt, set_nodes (filter (fun n => path_eqb (dn_path n) p = false) (dh_nodes k)) k);
  f_read_to_string := demo_lookup dn_text;
  f_write p text k :=
    (Ok tt, update_node p (fun n => mk_DemoNode (dn_path n) (dn_meta n) (dn_names n) text) k);
|}.

#[export] Instance demo_files_laws : FilesLaws DemoHost.
Proof.
  split.
  - intros p k q k'. cbn. destruct (is_absolute p) eqn:Hp; [|done]. unfold demo_lookup.
    destruct (find_node p (dh_nodes k)); cbn; [by intros [= <- <-] | done].
  - intros p k m k'. cbn. unfold demo_lookup. destruct (find_node p (dh_nodes k)) as [n|]; cbn; [|done].
    intros [= <- <-]. cbn [clamp md_dev md_ino]. unfold u64_max.
    pose proof (Z.mod_pos_bound (md_dev (dn_meta n)) (2 ^ 64) eq_refl).
    pose proof (Z.mod_pos_bound (md_ino (dn_meta n)) (2 ^ 64) eq_refl). lia.
Qed.

(** A new handle. *)
Definition fresh (f : Z -> DemoHost -> DemoHost) (k : DemoHost) : Result Z IoError * DemoHost :=
  (Ok (dh_next k), f (dh_next k)
     (mk_DemoHost (dh_nodes k) (dh_streams k) (dh_files k) (dh_memory k) (dh_next k + 1) (dh_exits k))).

#[export] Instance demo_trees : Trees DemoHost := {|
  t_read_dir p k :=
    match find_node p (dh_nodes k) with
    | None => (Err IoNotFound, k)
    | Some n => fresh (fun h k => mk_DemoHost (dh_nodes k) (<[h := dn_names n]> (dh_streams k)) (dh_files k)
                                    (dh_memory k) (dh_next k) (dh_exits k)) k
    end;
  t_next h k :=
    match dh_streams k !! h with
    | Some (name :: names) =>
        (Some (Ok name), mk_DemoHost (dh_nodes k) (<[h := names]> (dh_streams k)) (dh_files k)
                           (dh_memory k) (dh_next k) (dh_exits k))
    | _ => (None, k)
    end;
  t_open p k :=
    match find_node p (dh_nodes k) with
    | None => (Err IoNotFound, k)
    | Some n => fresh (fun h k => mk_DemoHost (dh_nodes k) (dh_streams k) (<[h := p]> (dh_files k))
                                    (dh_memory k) (dh_next k) (dh_exits k)) k
    end;
  t_file_metadata h k :=
    match dh_files k !! h with
    | None => (Err IoOther, k)
    | Some p => demo_lookup (fun n => clamp (dn_meta n)) p k
    end;
  t_read h k :=
    match dh_files k !! h ≫= fun p => find_node p (dh_nodes k) with
    | None => (Ok [], k)
    | Some n => (Ok (bytes_of (dn_text n)),
                 mk_DemoHost (dh_nodes k) (dh_streams k) (delete h (dh_files k)) (dh_memory k) (dh_next k) (dh_exits k))
    end;
  t_create_new p mode k :=
    match find_node p (dh_nodes k) with
    | Some _ => (Err IoOther, k)
    | None => fresh (fun h k => mk_DemoHost (dh_nodes k) (dh_streams k) (<[h := p]> (dh_files k))
                                  (dh_memory k) (dh_next k) (dh_exits k))
                (add_node (mk_DemoNode p (file_meta 98 mode 0) [] "") k)
    end;
  t_copy s d k :=
    match dh_files k !! s ≫= (fun p => find_node p (dh_nodes k)), dh_files k !! d with
    | Some n, Some p =>
        (Ok (str_len (dn_text n)), update_node p (fun m =>
           mk_DemoNode (dn_path m) (file_meta (md_ino (dn_meta m)) (md_mode (dn_meta m)) (str_len (dn_text n)))
             (dn_names m) (dn_text n)) k)
    | _, _ => (Err IoOther, k)
    end;
|}.

(** The hash of the demonstration is the identity, which has no collisions. *)
#[export] Instance demo_sha256 : Sha256 := fun bytes => bytes.

Definition on_memory {A} (op : DemoMemory -> A * DemoMemory) (k : DemoHost) : A * DemoHost :=
  let '(a, m) := op (dh_memory k) in
  (a, mk_DemoHost (dh_nodes k) (dh_streams k) (dh_files k) m (dh_next k) (dh_exits k)).

#[export] Instance demo_memory_files : MemoryFiles DemoHost := {|
  mf_create n := on_memory (mf_create n);
  mf_write_all fd b := on_memory (mf_write_all fd b);
  mf_seek_start fd := on_memory (mf_seek_start fd);
  mf_add_seals fd s := on_memory (mf_add_seals fd s);
  mf_clear_cloexec fd := on_memory (mf_clear_cloexec fd);
|}.

#[export] Instance demo_descriptors : Descriptors DemoHost := {|
  p_open_directory p := fresh (fun _ k => k);
  p_openat2 d p := fresh (fun _ k => k);
  p_stream_pair k := (Ok (dh_next k, dh_next k + 1),
    mk_DemoHost (dh_nodes k) (dh_streams k) (dh_files k) (dh_memory k) (dh_next k + 2) (dh_exits k));
  p_sendmsg s b fds k := (Ok (len b), k);
|}.

#[export] Instance demo_processes : Processes DemoHost := {|
  p_spawn c := fresh (fun _ k => k);
  p_try_wait child k :=
    match dh_exits k with
    | [] => (Ok None, k)
    | e :: es => (Ok e, mk_DemoHost (dh_nodes k) (dh_streams k) (dh_files k) (dh_memory k) (dh_next k) es)
    end;
  p_kill child k := (Ok tt, k);
  p_wait child k := (Ok tt, k);
|}.

(** The launcher on the same machine: the message holds descriptors from 5 on. *)
#[export] Instance demo_launch_host : LaunchHost DemoHost := {|
  l_open_write p := fresh (fun _ k => k);
  l_write_all f text k := (Ok tt, k);
  l_process_id k := 77;
  l_recvmsg expected k := (Ok (mk_Received [1] false (seqZ 5 expected)), k);
  l_inherit d k := (Ok tt, k);
|}.

(** ** The clock *)

#[export] Instance demo_task_id_text : TaskIdText := fun task_id => u64_to_string (Z.of_N (task_uuid task_id)).

(** The clock of the demonstration advances by a millisecond at every reading. *)
#[export] Instance demo_sleeps : Sleeps := fun d w => Z.to_nat (d / 1000000).

#[export] Instance demo_sleep_laws : SleepLaws.
Proof.
  intros d w n Hn. change (Z.of_nat n * 1000000 + d <= Z.of_nat (instants_read w + Z.to_nat (d / 1000000)) * 1000000).
  pose proof (Z.div_mod d 1000000 ltac:(lia)). pose proof (Z.mod_pos_bound d 1000000 eq_refl). lia.
Qed.

(** ** The files *)

Definition line (s : string) : string := s ++ String NEWLINE "".

Definition demo_dir (p : string) (ino mode : Z) (names : list string) : DemoNode :=
  mk_DemoNode p (dir_meta ino mode) names "".

Definition demo_file (p : string) (ino mode : Z) (text : string) : DemoNode :=
  mk_DemoNode p (file_meta ino mode (str_len text)) [] text.

(** A sealed root filesystem; modes 0o555. *)
Definition demo_rootfs : list DemoNode :=
  [demo_dir "/rootfs" 10 365 ["bin"; "proc"; "dev"; "tmp"; "workspace"]; demo_dir "/rootfs/bin" 11 365 ["tool"];
   demo_file "/rootfs/bin/tool" 12 365 "tool-v1"; demo_dir "/rootfs/proc" 13 365 []; demo_dir "/rootfs/dev" 14 365 [];
   demo_dir "/rootfs/tmp" 15 365 []; demo_dir "/rootfs/workspace" 16 365 []].

(** A delegated cgroup with the cgroup of task 7. *)
Definition demo_cgroup : list DemoNode :=
  [demo_file "/proc/self/cgroup" 30 292 (line "0::/aios/main"); demo_dir "/sys/fs/cgroup/aios" 31 493 [];
   demo_dir "/sys/fs/cgroup/aios/main" 32 493 [];
   demo_file "/sys/fs/cgroup/aios/cgroup.controllers" 33 292 (line "cpu memory");
   demo_file "/sys/fs/cgroup/aios/cgroup.subtree_control" 34 292 (line "cpu memory");
   demo_file "/sys/fs/cgroup/aios/cgroup.procs" 35 292 "";
   demo_dir "/sys/fs/cgroup/aios/task-7" 40 493 [];
   demo_file "/sys/fs/cgroup/aios/task-7/cgroup.procs" 41 420 "";
   demo_file "/sys/fs/cgroup/aios/task-7/cgroup.kill" 42 420 "";
   demo_file "/sys/fs/cgroup/aios/task-7/cgroup.events" 43 420 (line "populated 0");
   demo_file "/sys/fs/cgroup/aios/task-7/cpu.stat" 44 420 (line "usage_usec 10");
   demo_file "/sys/fs/cgroup/aios/task-7/memory.current" 45 420 (line "0");
   demo_file "/sys/fs/cgroup/aios/task-7/memory.events" 46 420 (line "max 0" ++ line "oom_kill 0");
   demo_file "/sys/fs/cgroup/aios/task-7/memory.max" 47 420 (line "4096");
   demo_file "/sys/fs/cgroup/aios/task-7/memory.swap.max" 48 420 (line "0");
   demo_file "/sys/fs/cgroup/aios/task-7/memory.oom.group" 49 420 (line "1")].

(** Executables, a scratch directory and the root of the Capabilities. *)
Definition demo_programs : list DemoNode :=
  [demo_file "/usr/bin/bwrap" 20 493 "bwrap"; demo_file "/usr/bin/launch" 21 493 "launch";
   demo_file "/bin/true" 22 493 "true"; demo_dir "/scratch/7" 23 448 []; demo_dir "/srv" 24 493 [];
   demo_dir "/work" 25 493 []].

(** Children run for one turn and then succeed. *)
Definition demo_host : DemoHost :=
  mk_DemoHost (demo_rootfs ++ demo_cgroup ++ demo_programs)%list ∅ ∅ (mk_DemoMemory 3 ∅) 10 [None; Some true].

Definition demo_task7 : TaskId := mk_TaskId 7.
Definition demo_cgroup_manager : CgroupV2Manager :=
  mk_CgroupV2Manager "/sys/fs/cgroup/aios" (mk_DirectoryIdentity 1 31).
Definition demo_task_cgroup : TaskCgroup :=
  mk_TaskCgroup demo_task7 "/sys/fs/cgroup/aios/task-7" (mk_DirectoryIdentity 1 40) (mk_CgroupResourceBudget 1000000 4096).

(** A handler without sandbox. *)
Definition demo_builder : ProcessToolBuilder :=
  pb_with_timeout (Duration_from_millis 20) (ProcessToolBuilder_new "/bin/true" "/work" (fun _ => true)).

(** A sandboxed one with a Capability. *)
Definition demo_sandbox_builder : BubblewrapProcessToolBuilder :=
  bb_with_environment [("LANG", "C")]
    (bb_with_filesystem_capabilities "/srv" [mk_FileCapability "/data" Read]
       (bb_with_task_cgroup demo_task_cgroup "/usr/bin/launch"
          (new_for_task "/usr/bin/bwrap" "/rootfs" "/bin/tool"
             (mk_TaskScratch demo_task7 "/scratch/7" (mk_DirectoryIdentity 1 23)) (fun _ => true)))).
