(* ===== verification/DemoServer.v ===== *)
(** * A concrete host with sockets and a database

    The machine of [DemoHost] with a queue of connections that clients have opened,
    and a database file with fixed contents. *)

From stdpp Require Import base numbers list gmap strings.
From Stdlib Require Import ZArith Lia.
From S2P Require Import Prelude RustStd RustOs TaskState TaskSpec Policy Event Approval Supervisor Recovery.
From S2P Require Import SupervisorInv SupervisorRun SupervisorProps SqliteStore SqliteProps LocalApi ProcessHost.
From S2P Require Import LocalServer DemoHost.

#[local] Open Scope string_scope.
#[local] Open Scope Z_scope.

Record DemoServer := mk_DemoServer { ds_host : DemoHost; ds_queue : list Stream }.

Definition on_demo {A} (op : DemoHost -> A * DemoHost) (k : DemoServer) : A * DemoServer :=
  let '(a, h) := op (ds_host k) in (a, mk_DemoServer h (ds_queue k)).

#[export] Instance demo_server_files : Files DemoServer := {|
  f_metadata p := on_demo (f_metadata p);
  f_symlink_metadata p := on_demo (f_symlink_metadata p);
  f_canonicalize p := on_demo (f_canonicalize p);
  f_create_dir p mode := on_demo (f_create_dir p mode);
  f_set_permissions p mode := on_demo (f_set_permissions p mode);
  f_remove_dir p := on_demo (f_remove_dir p);
  f_read_to_string p := on_demo (f_read_to_string p);
  f_write p text := on_demo (f_write p text);
|}.

Definition demo_socket (p : string) : DemoNode := mk_DemoNode p (mk_Metadata TypeSocket 384 1 70 1 0) [] "".

#[export] Instance demo_server_sockets : UnixSockets DemoServer := {|
  u_bind p k := (Ok 3, mk_DemoServer (set_nodes (demo_socket p :: dh_nodes (ds_host k)) (ds_host k)) (ds_queue k));
  u_accept _ k :=
    match ds_queue k with
    | [] => (Err IoOther, k)
    | stream :: queue => (Ok (4, stream), mk_DemoServer (ds_host k) queue)
    end;
  u_connect _ k := (Ok (5, mk_Stream [] false [] None), k);
  u_set_read_timeout _ _ k := (Ok tt, k);
  u_set_write_timeout _ _ k := (Ok tt, k);
  u_reply _ stream k := (mk_Stream (outgoing stream) (read_fails stream) (outgoing stream) (room stream), k);
  u_close _ _ k := (tt, k);
  u_remove_file p k :=
    (Ok tt, mk_DemoServer (set_nodes (filter (fun n => path_eqb (dn_path n) p = false) (dh_nodes (ds_host k)))
                             (ds_host k)) (ds_queue k));
|}.

(** The file holds the log of a task that waited for an approval at the crash. *)
Definition crashed_db : MemDb.Db := connection (event_store MemDb.run.1).

#[export] Instance demo_server_database : DatabaseFiles DemoServer MemDb.Db := {|
  symlink_metadata _ _ := Ok (mk_FileMetadata false true 384);
  create_new_file _ _ k := (None, k);
  connection_open _ _ := Some crashed_db;
  connection_open_in_memory _ := None;
|}.

Definition demo_arguments : list string :=
  ["--socket"; "/work/aiosd.sock"; "--database"; "/work/events.sqlite"; "--cgroup-root"; "/sys/fs/cgroup/aios"].

(** The parent of the socket is for its owner only. *)
Definition demo_server_host : DemoHost :=
  set_nodes (demo_dir "/work" 25 448 [] :: dh_nodes demo_host) demo_host.

(** One peer sends garbage, the next a request of one byte, the third nothing. *)
Definition demo_connections : list Stream :=
  [mk_Stream [1; 2; 3] false [] None; mk_Stream [0; 0; 0; 1; 9] false [] None; mk_Stream [] true [] None].

Definition demo_server : DemoServer := mk_DemoServer demo_server_host demo_connections.

(** A codec for these: the byte 9 submits the example task. *)
Definition demo_parse_request (payload : list Z) : option ApiRequest :=
  match payload with [9] => Some (ApiRequest_new (Submit example_task)) | _ => None end.
Definition demo_encode_response (r : ApiResponse) : option (list Z) :=
  match api_outcome r with OutcomeOk _ => Some [1] | OutcomeError _ => Some [2] end.
