(* ===== verification/RootfsProps.v ===== *)
(** * Properties of the root filesystem digest

    What a host shows of a tree, stated without the traversal of the code, and that
    a measurement hashes exactly that. *)

From stdpp Require Import base numbers list gmap strings sorting.
From Stdlib Require Import ZArith Lia Ascii.
From Stdlib Require Import String.
From stdpp Require Import list.
From S2P Require Import Prelude RustStd RustOs Event ProcessHost Rootfs DemoHost.

#[local] Open Scope string_scope.
#[local] Open Scope list_scope.
#[local] Open Scope Z_scope.

(** ** The text of a digest *)

Definition is_byte (b : Z) : Prop := 0 <= b < 256.

Record digest_wf (d : RootFilesystemDigest) : Prop := {
  dw_length : len (digest_bytes d) = DIGEST_BYTES;
  dw_bytes : Forall is_byte (digest_bytes d);
}.

Lemma byte_of_range c : is_byte (byte_of c).
Proof. unfold is_byte, byte_of. pose proof (N_ascii_bounded c). lia. Qed.

Lemma byte_of_inj c d : byte_of c = byte_of d -> c = d.
Proof. unfold byte_of. intros E%N2Z.inj. by rewrite <-(ascii_N_embedding c), <-(ascii_N_embedding d), E. Qed.

Lemma hex_digit_byte d : 0 <= d < 16 -> byte_of (hex_digit d) = if d <? 10 then 48 + d else 87 + d.
Proof. intros Hd. unfold hex_digit, byte_of, ascii_of_byte_Z. rewrite N_ascii_embedding; destruct (d <? 10); lia. Qed.

Lemma decode_hex_digit c d : decode_hex (byte_of c) = Ok d <-> 0 <= d < 16 /\ c = hex_digit d.
Proof.
  split.
  - intros Hd. assert (Hr : 0 <= d < 16 /\ byte_of c = if d <? 10 then 48 + d else 87 + d).
    { unfold decode_hex in Hd. destruct (_ && _) eqn:E1; [|clear E1; destruct (_ && _) eqn:E1; [|done]];
        injection Hd as <-; rewrite andb_true_iff, !Z.leb_le in E1; 
        (split; [lia|]); symmetry; [rewrite (proj2 (Z.ltb_lt _ _)) by lia | rewrite (proj2 (Z.ltb_ge _ _)) by lia]; lia. }
    destruct Hr as [Hr Hb]. split; [done|]. apply byte_of_inj. by rewrite hex_digit_byte.
  - intros [Hd ->]. rewrite hex_digit_byte by done. unfold decode_hex.
    destruct (Z.ltb_spec d 10).
    + rewrite !(proj2 (Z.leb_le _ _)) by lia. simpl. f_equal. lia.
    + rewrite (proj2 (Z.leb_gt (87 + d) 57)), !(proj2 (Z.leb_le _ _)) by lia. simpl. f_equal. lia.
Qed.

Lemma parse_hex_display l : Forall is_byte l -> parse_hex (display_hex l) = Ok l.
Proof.
  induction 1 as [|b l Hb _ IH]; [done|]. unfold is_byte in Hb. cbn [display_hex parse_hex].
  pose proof (Z.mod_pos_bound b 16 eq_refl). assert (0 <= b / 16 < 16).
  { split; [apply Z.div_pos; lia | apply Z.div_lt_upper_bound; lia]. }
  rewrite (proj2 (decode_hex_digit _ (b / 16))), (proj2 (decode_hex_digit _ (b mod 16))) by done.
  cbn [res_bind]. rewrite IH. cbn [res_bind]. do 2 f_equal. pose proof (Z.div_mod b 16). lia.
Qed.

Lemma display_hex_length l : String.length (display_hex l) = (2 * length l)%nat.
Proof. induction l as [|b l IH]; [done|]. cbn [display_hex String.length length]. rewrite IH. lia. Qed.

Lemma parse_hex_inv n : forall s l, String.length s = (2 * n)%nat -> parse_hex s = Ok l ->
  length l = n /\ Forall is_byte l /\ s = display_hex l.
Proof.
  induction n as [|n IH]; intros s l Hlen Hp.
  - destruct s; [|done]. injection Hp as <-. done.
  - destruct s as [|h [|c s]]; [done | simpl in Hlen; lia|]. cbn [parse_hex] in Hp.
    destruct (decode_hex (byte_of h)) as [high|] eqn:Hh; [|done]. apply decode_hex_digit in Hh as [Hh ->].
    destruct (decode_hex (byte_of c)) as [low|] eqn:Hl; [|done]. apply decode_hex_digit in Hl as [Hl ->].
    cbn [res_bind] in Hp. destruct (parse_hex s) as [rest|] eqn:Hr; [|done]. injection Hp as <-.
    destruct (IH s rest) as (Hn & Hb & ->); [simpl in Hlen; lia | done|].
    split; [simpl; lia|]. split; [constructor; [unfold is_byte; lia | done]|]. cbn [display_hex].
    replace ((high * 16 + low) / 16) with high by (apply (Z.div_unique _ _ _ low); lia).
    by replace ((high * 16 + low) mod 16) with low by (apply (Z.mod_unique _ _ high); lia).
Qed.

(** The text of a digest is canonical: parsing accepts exactly the texts that
    displaying some 32-byte digest produces, and returns that digest, so parsing and
    displaying are inverse to each other and no two texts name the same digest. *)
Theorem digest_text_is_canonical (s : string) (d : RootFilesystemDigest) :
  digest_from_str s = Ok d
  <-> len (digest_bytes d) = DIGEST_BYTES /\ Forall (fun b => 0 <= b < 256) (digest_bytes d)
      /\ s = display_digest d.
Proof.
  unfold digest_from_str, display_digest, DIGEST_HEX_BYTES, DIGEST_BYTES, str_len, len. split.
  - destruct (Z.eqb_spec (Z.of_nat (String.length s)) (32 * 2)) as [Hs|]; [|done]. cbn [negb].
    destruct (parse_hex s) as [l|] eqn:Hp; [|done]. intros [= <-].
    destruct (parse_hex_inv 32 s l) as (Hn & Hb & ->); [lia | done|]. cbn [digest_bytes]. rewrite Hn. done.
  - intros (Hn & Hb & ->). rewrite display_hex_length.
    replace (Z.of_nat (2 * length (digest_bytes d)) =? 32 * 2) with true by (symmetry; apply Z.eqb_eq; lia).
    cbn [negb]. rewrite parse_hex_display by done. by destruct d.
Qed.

(** ** The tree behind a digest *)

Inductive NodeKind := DirectoryNode | FileNode (contents : list Z).

Record TreeEntry := mk_TreeEntry {
  entry_path : string;
  entry_mode : Z;
  entry_kind : NodeKind;
}.

Record Tree := mk_Tree { tree_mode : Z; tree_entries : list TreeEntry }.

Definition encode_kind (kind : NodeKind) : list Z :=
  match kind with
  | DirectoryNode => bytes_of "D"
  | FileNode contents => bytes_of "F" ++ u64_to_be_bytes (len contents) ++ contents
  end.

Definition encode_entry (e : TreeEntry) : list Z :=
  u32_to_be_bytes (len (bytes_of (entry_path e))) ++ bytes_of (entry_path e)
  ++ u32_to_be_bytes (entry_mode e) ++ encode_kind (entry_kind e).

Definition encode_tree (t : Tree) : list Z :=
  DIGEST_DOMAIN ++ bytes_of "R" ++ u32_to_be_bytes (tree_mode t) ++ concat (map encode_entry (tree_entries t)).

Definition node_size (kind : NodeKind) : Z :=
  match kind with DirectoryNode => 0 | FileNode contents => len contents end.

Definition entry_size (e : TreeEntry) : Z := node_size (entry_kind e).

Fixpoint tree_size (es : list TreeEntry) : Z :=
  match es with [] => 0 | e :: es' => entry_size e + tree_size es' end.

(** What the measurement guarantees of an entry. *)
Record entry_wf (e : TreeEntry) : Prop := {
  ew_path : len (bytes_of (entry_path e)) < 2 ^ 32;
  ew_mode : 0 <= entry_mode e < 512 /\ Z.land (entry_mode e) 146 = 0;
  ew_size : entry_size e <= MAX_ROOT_FILESYSTEM_FILE_BYTES;
}.

(** ** What a host shows *)

(** The answers of the host along a walk, as relations: which file contents, which
    directory entries and which tree a sequence of its answers shows. *)
Section Shown.
Context {K : Type} `{!Files K, !Trees K}.

(** Reading an open file up to its end. *)
Inductive file_shown (file : Z) : K -> list Z -> K -> Prop :=
| file_end k k' : t_read file k = (Ok [], k') -> file_shown file k [] k'
| file_chunk k chunk k1 rest k2 :
    t_read file k = (Ok chunk, k1) -> chunk <> [] -> file_shown file k1 rest k2 ->
    file_shown file k (chunk ++ rest) k2.

(** The entries of an open directory, with whether they are directories; there is
    nothing in it but directories and files. *)
Inductive directory_shown (directory relative : string) (stream : Z) : K -> list (string * bool) -> K -> Prop :=
| directory_end k k' : t_next stream k = (None, k') -> directory_shown directory relative stream k [] k'
| directory_entry k name k1 m k2 rest k3 :
    t_next stream k = (Some (Ok name), k1) ->
    f_symlink_metadata (path_join directory name) k1 = (Ok m, k2) ->
    is_symlink m = false -> is_dir m = true \/ is_file m = true ->
    directory_shown directory relative stream k2 rest k3 ->
    directory_shown directory relative stream k ((path_join relative name, is_dir m) :: rest) k3.

(** Every directory still to visit is opened and listed, the latest first, and the
    directories found in it are visited too. *)
Inductive paths_shown (root : string) : list string -> K -> list string -> K -> Prop :=
| paths_end k : paths_shown root [] k [] k
| paths_directory waiting directory k stream k1 entries k2 rest k3 :
    t_read_dir (path_join root directory) k = (Ok stream, k1) ->
    directory_shown (path_join root directory) directory stream k1 entries k2 ->
    paths_shown root (waiting ++ (filter (fun e => e.2 = true) entries).*1) k2 rest k3 ->
    paths_shown root (waiting ++ [directory]) k (entries.*1 ++ rest) k3.

(** One path: a directory, or a file, opened as the one that was looked at and read
    whole. *)
Inductive entry_shown (root : string) : K -> TreeEntry -> K -> Prop :=
| entry_directory k relative m k' :
    f_symlink_metadata (path_join root relative) k = (Ok m, k') -> is_dir m = true ->
    entry_shown root k (mk_TreeEntry relative (Z.land (md_mode m) 511) DirectoryNode) k'
| entry_file k relative m k1 file k2 opened k3 contents k4 :
    f_symlink_metadata (path_join root relative) k = (Ok m, k1) -> is_dir m = false -> is_file m = true ->
    t_open (path_join root relative) k1 = (Ok file, k2) -> t_file_metadata file k2 = (Ok opened, k3) ->
    md_dev opened = md_dev m -> md_ino opened = md_ino m -> md_nlink opened = 1 ->
    file_shown file k3 contents k4 -> len contents = md_len m ->
    entry_shown root k (mk_TreeEntry relative (Z.land (md_mode m) 511) (FileNode contents)) k4.

Inductive entries_shown (root : string) : K -> list TreeEntry -> K -> Prop :=
| entries_end k : entries_shown root k [] k
| entries_next k e k1 es k2 :
    entry_shown root k e k1 -> entries_shown root k1 es k2 -> entries_shown root k (e :: es) k2.

(** The tree below [root]: its own mode, and every path found below it, in order. *)
Record tree_shown (root : string) (k : K) (t : Tree) (k' : K) : Prop := {
  ts_walk : exists paths m k1 k2,
    paths_shown root [EmptyString] k paths k1
    /\ f_symlink_metadata root k1 = (Ok m, k2) /\ is_dir m = true /\ is_symlink m = false
    /\ tree_mode t = Z.land (md_mode m) 511
    /\ map entry_path (tree_entries t) ≡ₚ paths
    /\ entries_shown root k2 (tree_entries t) k';
  ts_sorted : StronglySorted path_bytes_le (map entry_path (tree_entries t));
}.

End Shown.

Section Observation.
Context {K : Type} `{!Files K, !Trees K}.

Abbreviation Proc := (M K ProcessAdapterError).

(** The walk of the measurement without the hash, a step between it and the tree the
    host shows. *)
Definition observe_path (root relative : string) (total_bytes : Z) : Proc (Z * TreeEntry) :=
  let path := path_join root relative in
  let! m := sys_or ProcInvalidSandbox (f_symlink_metadata path) in
  do! lift (ok_or (try_into (2 ^ 32 - 1) (len (bytes_of relative))) ProcInvalidSandbox) in
  if is_dir m then
    if writable m then throw ProcInvalidSandbox
    else ret (total_bytes, mk_TreeEntry relative (permission_bits m) DirectoryNode)
  else if negb (is_file m) || negb (md_nlink m =? 1) || writable m || (MAX_ROOT_FILESYSTEM_FILE_BYTES <? md_len m)
  then throw ProcInvalidSandbox
  else
    let! total := lift (ok_or (checked_add u64_max total_bytes (md_len m)) ProcInvalidSandbox) in
    if MAX_ROOT_FILESYSTEM_TOTAL_BYTES <? total then throw ProcInvalidSandbox
    else
      let! file := sys_or ProcInvalidSandbox (t_open path) in
      let! opened := sys_or ProcInvalidSandbox (t_file_metadata file) in
      if negb (md_dev opened =? md_dev m) || negb (md_ino opened =? md_ino m) || negb (md_len opened =? md_len m)
         || negb (md_nlink opened =? 1) || writable opened
      then throw ProcInvalidSandbox
      else
        let! contents := read_contents (READ_TURNS (md_len m)) file (md_len m) 0 [] in
        ret (total, mk_TreeEntry relative (permission_bits m) (FileNode contents)).

Fixpoint observe_loop (root : string) (relative_paths : list string) (total_bytes : Z) : Proc (list TreeEntry) :=
  match relative_paths with
  | [] => ret []
  | relative :: rest =>
      let! observed := observe_path root relative total_bytes in
      let! entries := observe_loop root rest observed.1 in
      ret (observed.2 :: entries)
  end.

Definition observe_tree (root : string) : Proc Tree :=
  let! relative_paths := collect_relative_paths root in
  let! m := sys_or ProcInvalidSandbox (f_symlink_metadata root) in
  if is_symlink m || negb (is_dir m) || writable m then throw ProcInvalidSandbox
  else
    let! entries := observe_loop root (merge_sort path_bytes_le relative_paths) 0 in
    ret (mk_Tree (permission_bits m) entries).

(** *** Traversal and reading always end *)

Lemma wp_collect_entries fuel directory relative stream : forall paths directories k w,
  len paths <= MAX_ROOT_FILESYSTEM_ENTRIES -> MAX_ROOT_FILESYSTEM_ENTRIES - len paths + 1 < Z.of_nat fuel ->
  wp (collect_entries fuel directory relative stream paths directories)
     (fun r _ w' => w' = w /\ match r with
        | Return (paths', directories') =>
            len paths' <= MAX_ROOT_FILESYSTEM_ENTRIES
            /\ len directories' - len directories <= len paths' - len paths
        | Raise e => e = ProcInvalidSandbox
        | Panic => False
        end) k w.
Proof.
  induction fuel as [|fuel IH]; intros paths directories k w Hp Hf; [lia|]. cbn [collect_entries].
  wp_step. apply wp_sys. destruct (t_next stream k) as [[[file_name|]|] k1]; cbn [fst snd].
  - cbv zeta. destruct (_ <? _); [done|]. wp_step. apply wp_sys_or; [|done]. intros m k2 _.
    wp_step; [done|]. cbv zeta. destruct (Z.ltb_spec MAX_ROOT_FILESYSTEM_ENTRIES (len (paths ++ [path_join relative file_name])))
      as [Hgt|Hle]; [done|].
    rewrite len_app in Hle. change (len [path_join relative file_name]) with 1 in Hle.
    eapply wp_mono; [apply IH; rewrite len_app; change (len [path_join relative file_name]) with 1; lia|].
    intros [[paths' directories']|e|] k' w' [-> Hr]; try done. split; [done|]. destruct Hr as [H1 H2]. split; [done|].
    rewrite len_app in H2. change (len [path_join relative file_name]) with 1 in H2.
    destruct (is_dir m); [rewrite len_app in H2; change (len [path_join relative file_name]) with 1 in H2|]; lia.
  - done.
  - split; [done|]. lia.
Qed.

Lemma len_removelast {A} (l : list A) x : last l = Some x -> len (removelast l) = len l - 1.
Proof.
  intros Hl. assert (l <> []) as Hne by (by intros ->).
  unfold len. rewrite (app_removelast_last x Hne) at 2. rewrite length_app. simpl. lia.
Qed.

Lemma wp_collect_loop fuel root : forall paths directories k w,
  len paths <= MAX_ROOT_FILESYSTEM_ENTRIES ->
  MAX_ROOT_FILESYSTEM_ENTRIES - len paths + len directories < Z.of_nat fuel ->
  wp (collect_loop fuel root paths directories)
     (fun r _ w' => w' = w /\ match r with
        | Return paths' => len paths' <= MAX_ROOT_FILESYSTEM_ENTRIES
        | Raise e => e = ProcInvalidSandbox
        | Panic => False
        end) k w.
Proof.
  induction fuel as [|fuel IH]; intros paths directories k w Hp Hf.
  { pose proof (len_nonneg directories). lia. }
  cbn [collect_loop]. destruct (last directories) as [relative|] eqn:Hl; [|by wp_step].
  cbv zeta. wp_step. apply wp_sys_or; [|done]. intros stream k1 _. wp_step.
  eapply wp_mono; [apply wp_collect_entries; [done|]|].
  { unfold COLLECT_TURNS, MAX_ROOT_FILESYSTEM_ENTRIES. pose proof (len_nonneg paths). lia. }
  intros [[paths' directories']|e|] k2 w2 [-> Hr]; try done. destruct Hr as [H1 H2].
  apply IH; [done|]. rewrite (len_removelast directories relative Hl) in H2. lia.
Qed.

Lemma wp_collect_relative_paths root k w :
  wp (collect_relative_paths root)
     (fun r _ w' => w' = w /\ match r with
        | Return paths => len paths <= MAX_ROOT_FILESYSTEM_ENTRIES
        | Raise e => e = ProcInvalidSandbox
        | Panic => False
        end) k w.
Proof. apply wp_collect_loop; vm_compute; congruence. Qed.

Lemma wp_read_contents fuel file expected : forall read_bytes hasher k w,
  (expected - read_bytes + 1 < Z.of_nat fuel) -> 0 < Z.of_nat fuel ->
  wp (read_contents fuel file expected read_bytes hasher)
     (fun r _ w' => w' = w /\ match r with
        | Return hasher' => exists c, hasher' = hasher ++ c /\ len c = expected - read_bytes
        | Raise e => e = ProcInvalidSandbox
        | Panic => False
        end) k w.
Proof.
  induction fuel as [|fuel IH]; intros read_bytes hasher k w Hf Hpos; [lia|]. cbn [read_contents].
  wp_step. apply wp_sys_or; [|done]. intros buffer k1 _. case_bool_decide as Hb.
  - destruct (Z.eqb_spec read_bytes expected) as [->|]; cbn [negb]; wp_step; [|done].
    split; [done|]. exists []. by rewrite app_nil_r, Z.sub_diag.
  - wp_step. apply wp_lift. destruct (checked_add _ _ _) as [n|] eqn:Hn; cbn [ok_or]; [|done].
    apply checked_add_Some in Hn as [-> _]. destruct (Z.ltb_spec expected (read_bytes + len buffer)); [by wp_step|].
    assert (0 < len buffer) by (destruct buffer; [done | unfold len; simpl; lia]).
    eapply wp_mono; [apply IH; lia|]. intros [h|e|] k' w' [-> Hr]; try done. split; [done|].
    destruct Hr as (c & -> & Hc). exists (buffer ++ c). by rewrite app_assoc, len_app, Hc; split; [|lia].
Qed.

(** *** The hash input is the encoding of what was observed *)

#[local] Opaque u32_to_be_bytes u64_to_be_bytes bytes_of DIGEST_DOMAIN.

Lemma read_contents_hasher fuel file expected : forall read_bytes hasher c k w,
  read_contents fuel file expected read_bytes (hasher ++ c) k w
  = bind (read_contents fuel file expected read_bytes c) (fun c' => ret (hasher ++ c')) k w.
Proof.
  induction fuel as [|fuel IH]; intros read_bytes hasher c k w; [done|]. cbn [read_contents].
  unfold sys_or, bind, sys, lift. destruct (t_read file k) as [[buffer|] k1]; [|done]. simpl.
  case_bool_decide; [by destruct (negb _)|].
  destruct (checked_add _ _ _) as [n|]; [|done]. simpl. destruct (_ <? _); [done|].
  rewrite <-app_assoc. apply IH.
Qed.

Lemma read_contents_exact file expected k w :
  match read_contents (READ_TURNS expected) file expected 0 [] k w with
  | (Return c, _, w') => len c = expected /\ w' = w
  | (Raise e, _, w') => e = ProcInvalidSandbox /\ w' = w
  | (Panic, _, _) => False
  end.
Proof.
  pose proof (wp_read_contents (READ_TURNS expected) file expected 0 [] k w) as Hwp.
  unfold READ_TURNS, wp in *. destruct (read_contents _ _ _ _ _ k w) as [[[c|e|] k'] w'].
  - destruct Hwp as [-> (c' & -> & Hc)]; [lia..|]. split; [simpl; lia | done].
  - destruct Hwp; [lia.. | done].
  - destruct Hwp; [lia.. | done].
Qed.

Lemma measure_path_observes root relative total hasher k w :
  measure_path root relative total hasher k w
  = bind (observe_path root relative total) (fun o => ret (o.1, hasher ++ encode_entry o.2)) k w.
Proof.
  unfold measure_path, observe_path, sys_or, bind, sys, lift. cbv zeta.
  destruct (f_symlink_metadata _ k) as [[m|] k1]; [|done]. simpl.
  destruct (try_into _ _) as [n|] eqn:Hn; [|done]. apply try_into_Some in Hn as [-> _]. simpl.
  destruct (is_dir m).
  { destruct (writable m); [done|]. unfold ret, encode_entry. cbn [fst snd entry_path entry_mode entry_kind encode_kind]. by rewrite <-!app_assoc. }
  destruct (_ || _); [done|]. destruct (checked_add _ _ _) as [n|]; [|done]. simpl. destruct (_ <? _); [done|].
  destruct (t_open _ k1) as [[file|] k2]; [|done]. simpl.
  destruct (t_file_metadata file k2) as [[opened|] k3]; [|done]. simpl. destruct (_ || _); [done|].
  pose proof (read_contents_exact file (md_len m) k3 w) as Hex.
  match goal with |- context [read_contents _ file _ 0 ?h] => rewrite <-(app_nil_r h) end.
  rewrite read_contents_hasher. unfold bind.
  destruct (read_contents _ _ _ _ [] k3 w) as [[[c|e|] k4] w4]; [|done|done]. destruct Hex as [<- _].
  unfold ret, encode_entry. cbn [fst snd entry_path entry_mode entry_kind encode_kind]. by rewrite <-!app_assoc.
Qed.

Lemma measure_loop_observes root : forall relative_paths total hasher k w,
  measure_loop root relative_paths total hasher k w
  = bind (observe_loop root relative_paths total) (fun es => ret (hasher ++ concat (map encode_entry es))) k w.
Proof.
  induction relative_paths as [|relative rest IH]; intros total hasher k w; simpl.
  { unfold bind, ret. by rewrite app_nil_r. }
  unfold bind at 1 2 3. rewrite measure_path_observes. unfold bind at 1.
  destruct (observe_path root relative total k w) as [[[[t e]|e|] k1] w1]; [|done|done]. simpl.
  rewrite IH. unfold bind. destruct (observe_loop root rest t k1 w1) as [[[es|e'|] k2] w2]; [|done|done].
  unfold ret. simpl. by rewrite <-app_assoc.
Qed.

(** The measurement is the hash of the encoded observation. *)
Lemma measure_tree_observes `{!Sha256} root k w :
  measure_tree root k w
  = bind (observe_tree root) (fun t => ret (mk_RootFilesystemDigest (sha256 (encode_tree t)))) k w.
Proof.
  unfold measure_tree, observe_tree, sys_or, bind, sys, lift. cbv zeta.
  destruct (collect_relative_paths root k w) as [[[paths|e|] k1] w1]; [|done|done].
  destruct (f_symlink_metadata root k1) as [[m|] k2]; [|done]. simpl.
  destruct (_ || _); [done|]. rewrite measure_loop_observes. unfold bind.
  destruct (observe_loop _ _ _ k2 w1) as [[[es|e|] k3] w3]; [|done|done].
  unfold ret, encode_tree. cbn [tree_mode tree_entries]. by rewrite <-!app_assoc.
Qed.

(** *** Bounds on what was observed *)

Lemma permission_bits_range m : 0 <= permission_bits m < 512.
Proof.
  unfold permission_bits. change 511 with (Z.ones 9). rewrite Z.land_ones by lia. apply Z.mod_pos_bound. lia.
Qed.

Lemma permission_bits_sealed m : writable m = false -> Z.land (permission_bits m) 146 = 0.
Proof.
  unfold writable, permission_bits. rewrite negb_false_iff, Z.eqb_eq. intros E.
  rewrite <-Z.land_assoc. by change (Z.land 511 146) with 146.
Qed.

Definition bounded_entries (total : Z) (paths : list string) (es : list TreeEntry) : Prop :=
  map entry_path es = paths /\ Forall entry_wf es
  /\ (es <> [] -> total + tree_size es <= Z.max total MAX_ROOT_FILESYSTEM_TOTAL_BYTES).

Lemma wp_observe_path root relative total k w :
  wp (observe_path root relative total)
     (fun r _ w' => w' = w /\ match r with
        | Return (total', e) => entry_path e = relative /\ entry_wf e /\ total' = total + entry_size e
            /\ total' <= Z.max total MAX_ROOT_FILESYSTEM_TOTAL_BYTES
        | Raise e => e = ProcInvalidSandbox
        | Panic => False
        end) k w.
Proof.
  unfold observe_path. cbv zeta. wp_step. apply wp_sys_or; [|done]. intros m k1 _. wp_step. apply wp_lift.
  destruct (try_into _ _) as [n|] eqn:Hn; cbn [ok_or]; [|done]. apply try_into_Some in Hn as [-> Hpath].
  pose proof (permission_bits_range m) as Hr. pose proof (permission_bits_sealed m) as Hs.
  destruct (is_dir m).
  { destruct (writable m); wp_step; [done|]. split; [done|]. split; [done|]. split; [|unfold entry_size; simpl; lia].
    split; simpl; [lia | by split; [|apply Hs] | unfold entry_size, MAX_ROOT_FILESYSTEM_FILE_BYTES; simpl; lia]. }
  destruct (_ || _) eqn:Hg; [by wp_step|]. bool_prop. destruct Hg as [[[_ _] Hw] Hlen].
  wp_step. apply wp_lift. destruct (checked_add _ _ _) as [t|] eqn:Ht; cbn [ok_or]; [|done].
  apply checked_add_Some in Ht as [-> _]. destruct (Z.ltb_spec MAX_ROOT_FILESYSTEM_TOTAL_BYTES (total + md_len m)); [by wp_step|].
  wp_step. apply wp_sys_or; [|done]. intros file k2 _. wp_step. apply wp_sys_or; [|done]. intros opened k3 _.
  destruct (_ || _); [by wp_step|]. wp_step. pose proof (read_contents_exact file (md_len m) k3 w) as Hex. unfold wp.
  destruct (read_contents _ _ _ _ _ k3 w) as [[[c|e|] k4] w4]; [|by destruct Hex as [-> ->]|done].
  destruct Hex as [Hc ->]. split; [done|]. split; [done|]. unfold entry_size. simpl. rewrite Hc. split; [|lia].
  split; simpl; [lia | by split; [|apply Hs] | unfold entry_size; simpl; lia].
Qed.

Lemma wp_observe_loop root : forall relative_paths total k w,
  wp (observe_loop root relative_paths total)
     (fun r _ w' => w' = w /\ match r with
        | Return es => bounded_entries total relative_paths es
        | Raise e => e = ProcInvalidSandbox
        | Panic => False
        end) k w.
Proof.
  induction relative_paths as [|relative rest IH]; intros total k w; simpl.
  { wp_step. by repeat split. }
  wp_step. eapply wp_mono; [apply wp_observe_path|].
  intros [[t e]|e|] k1 w1 [-> Hr]; try done. destruct Hr as (Hp & He & -> & Ht). cbn [fst snd].
  wp_step. eapply wp_mono; [apply IH|]. intros [es|e'|] k2 w2 [-> Hr]; try done.
  wp_step. split; [done|]. destruct Hr as (Hps & Hes & Hsz). split; [simpl; by rewrite Hp, Hps|].
  split; [by constructor|]. intros _. simpl. destruct es as [|e2 es]; [simpl; lia|]. specialize (Hsz ltac:(done)). lia.
Qed.

(** A tree within the limits, listed in the order of its paths. *)
Record tree_bounded (t : Tree) : Prop := {
  tb_mode : 0 <= tree_mode t < 512 /\ Z.land (tree_mode t) 146 = 0;
  tb_count : len (tree_entries t) <= MAX_ROOT_FILESYSTEM_ENTRIES;
  tb_sorted : StronglySorted path_bytes_le (map entry_path (tree_entries t));
  tb_entries : Forall entry_wf (tree_entries t);
  tb_total : tree_size (tree_entries t) <= MAX_ROOT_FILESYSTEM_TOTAL_BYTES;
}.

Lemma paths_sorted paths : StronglySorted path_bytes_le (merge_sort path_bytes_le paths).
Proof.
  apply StronglySorted_merge_sort; [|exact strings.String.le_total].
  pose proof strings.String.le_po as [[_ Htrans] _]. exact Htrans.
Qed.

Lemma wp_observe_tree root k w :
  wp (observe_tree root)
     (fun r _ w' => w' = w /\ match r with
        | Return t => tree_bounded t
        | Raise e => e = ProcInvalidSandbox
        | Panic => False
        end) k w.
Proof.
  unfold observe_tree. wp_step. eapply wp_mono; [apply wp_collect_relative_paths|].
  intros [paths|e|] k1 w1 [-> Hr]; try done. wp_step. apply wp_sys_or; [|done]. intros m k2 _.
  destruct (_ || _) eqn:Hg; [by wp_step|]. bool_prop. destruct Hg as [[_ _] Hw].
  wp_step. eapply wp_mono; [apply wp_observe_loop|]. intros [es|e|] k3 w3 [-> Hes]; try done.
  wp_step. split; [done|]. destruct Hes as (Hps & Hwf & Hsz). split; simpl.
  - split; [apply permission_bits_range | by apply permission_bits_sealed].
  - unfold len in *. rewrite <-(length_map entry_path), Hps, (Permutation_length (merge_sort_Permutation _ _)). done.
  - rewrite Hps. apply paths_sorted.
  - done.
  - destruct es as [|e es]; [vm_compute; congruence|]. specialize (Hsz ltac:(done)). unfold MAX_ROOT_FILESYSTEM_TOTAL_BYTES in *. lia.
Qed.

(** *** What was observed is what the host shows *)

Lemma read_contents_shown fuel file expected : forall read_bytes hasher k w h k' w',
  read_contents fuel file expected read_bytes hasher k w = (Return h, k', w') ->
  exists c, h = hasher ++ c /\ file_shown file k c k'.
Proof.
  induction fuel as [|fuel IH]; intros read_bytes hasher k w h k' w'; [done|]. cbn [read_contents].
  unfold sys_or, bind, sys, lift. destruct (t_read file k) as [[buffer|] k1] eqn:Hr; [|done]. simpl.
  case_bool_decide as Hb.
  - destruct (negb _); [done|]. intros [= <- <- <-]. exists []. rewrite app_nil_r. split; [done|].
    apply file_end. by rewrite Hr, Hb.
  - destruct (checked_add _ _ _) as [n|]; [|done]. simpl. destruct (_ <? _); [done|].
    intros (c & -> & Hc)%IH. exists (buffer ++ c). rewrite app_assoc. split; [done|]. by eapply file_chunk.
Qed.

Lemma collect_entries_shown fuel directory relative stream : forall paths directories k w ps ds k' w',
  collect_entries fuel directory relative stream paths directories k w = (Return (ps, ds), k', w') ->
  exists entries, ps = paths ++ entries.*1 /\ ds = directories ++ (filter (fun e => e.2 = true) entries).*1
    /\ directory_shown directory relative stream k entries k'.
Proof.
  induction fuel as [|fuel IH]; intros paths directories k w ps ds k' w'; [done|]. cbn [collect_entries].
  unfold sys_or, bind at 1, sys. destruct (t_next stream k) as [[[name|]|] k1] eqn:Hn; [|done|].
  - cbv zeta. destruct (_ <? _); [done|]. unfold bind, lift.
    destruct (f_symlink_metadata _ k1) as [[m|] k2] eqn:Hm; [|done]. simpl. destruct (_ || _) eqn:Hg; [done|].
    destruct (_ <? _); [done|]. intros (entries & -> & -> & Hs)%IH. apply orb_false_iff in Hg as [Hl Hk].
    exists ((path_join relative name, is_dir m) :: entries).
    split; [by rewrite <-app_assoc|]. split.
    + rewrite filter_cons. cbn [snd]. destruct (is_dir m); case_decide; try done. by rewrite <-app_assoc.
    + eapply directory_entry; [done..| |done]. destruct (is_dir m), (is_file m); auto.
  - unfold ret. intros [= <- <- <- <-]. exists []. rewrite !app_nil_r. split; [done|]. split; [done|]. by apply directory_end.
Qed.

Lemma collect_loop_shown fuel root : forall paths directories k w ps k' w',
  collect_loop fuel root paths directories k w = (Return ps, k', w') ->
  exists found, ps = paths ++ found /\ paths_shown root directories k found k'.
Proof.
  induction fuel as [|fuel IH]; intros paths directories k w ps k' w'; [done|]. cbn [collect_loop].
  destruct (last directories) as [relative|] eqn:Hl.
  - cbv zeta. unfold sys_or, bind, sys, lift.
    destruct (t_read_dir _ k) as [[stream|] k1] eqn:Hd; [|done]. cbn [res_map_err]. unfold ret at 1.
    destruct (collect_entries _ _ _ _ _ _ k1 w) as [[[[ps1 ds1]|e|] k2] w2] eqn:He; [|done..].
    apply collect_entries_shown in He as (entries & -> & -> & Hs).
    intros (found & -> & Hf)%IH. exists (entries.*1 ++ found). rewrite app_assoc. split; [done|].
    assert (directories = removelast directories ++ [relative]) as ->.
    { assert (directories <> []) as Hne by (by intros ->).
      rewrite (app_removelast_last relative Hne) at 1. f_equal. f_equal.
      clear -Hl. induction directories as [|x [|y l] IH]; [done | by injection Hl|]. by apply IH. }
    eapply paths_directory; [done..|exact Hf].
  - unfold ret. intros [= <- <- <-]. exists []. rewrite app_nil_r. split; [done|].
    destruct directories as [|x l]; [constructor|]. exfalso.
    clear IH. revert x Hl. induction l as [|y l IH]; intros x Hl; [done|]. by eapply IH.
Qed.

Lemma observe_path_shown root relative total k w total' e k' w' :
  observe_path root relative total k w = (Return (total', e), k', w') -> entry_shown root k e k'.
Proof.
  unfold observe_path, sys_or, bind, sys, lift. cbv zeta.
  destruct (f_symlink_metadata _ k) as [[m|] k1] eqn:Hm; [|done]. simpl.
  destruct (try_into _ _) as [n|]; [|done]. simpl. destruct (is_dir m) eqn:Hd.
  { destruct (writable m); [done|]. unfold ret. intros [= _ <- <- _]. by apply entry_directory. }
  destruct (_ || _) eqn:Hg; [done|]. rewrite !orb_false_iff, negb_false_iff in Hg. destruct Hg as [[[Hfile _] _] _].
  destruct (checked_add _ _ _) as [n'|]; [|done]. cbn [ok_or]. unfold ret at 1.
  destruct (MAX_ROOT_FILESYSTEM_TOTAL_BYTES <? n'); [discriminate|].
  destruct (t_open _ k1) as [[file|] k2] eqn:Ho; [|done]. simpl.
  destruct (t_file_metadata file k2) as [[opened|] k3] eqn:Hf; [|done]. simpl. destruct (_ || _) eqn:Hg2; [done|].
  pose proof (read_contents_exact file (md_len m) k3 w) as Hex.
  destruct (read_contents _ _ _ _ [] k3 w) as [[[c|e'|] k4] w4] eqn:Hr; [|done..]. unfold ret. intros [= _ <- <- _].
  apply read_contents_shown in Hr as (c' & -> & Hc). destruct Hex as [Hlen _].
  rewrite !orb_false_iff, !negb_false_iff, !Z.eqb_eq in Hg2. destruct Hg2 as [[[[Hdev Hino] _] Hlink] _].
  by eapply entry_file.
Qed.

Lemma observe_loop_shown root : forall relative_paths total k w es k' w',
  observe_loop root relative_paths total k w = (Return es, k', w') -> entries_shown root k es k'.
Proof.
  induction relative_paths as [|relative rest IH]; intros total k w es k' w'; simpl.
  { unfold ret. intros [= <- <- _]. constructor. }
  unfold bind. destruct (observe_path root relative total k w) as [[[[t e]|e|] k1] w1] eqn:He; [|done..]. simpl.
  destruct (observe_loop root rest t k1 w1) as [[[es'|e'|] k2] w2] eqn:Hr; [|done..]. unfold ret. intros [= <- <- _].
  econstructor; [by eapply observe_path_shown | by eapply IH].
Qed.

Lemma observe_tree_shown root k w t k' w' :
  observe_tree root k w = (Return t, k', w') -> tree_shown root k t k'.
Proof.
  intros Hrun. pose proof (wp_observe_tree root k w) as Hwp. unfold wp in Hwp. rewrite Hrun in Hwp. destruct Hwp as [_ Hb].
  split; [|apply Hb]. revert Hrun. unfold observe_tree, sys_or, bind, sys, lift.
  destruct (collect_relative_paths root k w) as [[[paths|e|] k1] w1] eqn:Hc; [|done..].
  destruct (f_symlink_metadata root k1) as [[m|] k2] eqn:Hm; [|done]. simpl. destruct (_ || _) eqn:Hg; [done|].
  rewrite !orb_false_iff, negb_false_iff in Hg. destruct Hg as [[Hlink Hdir] _].
  pose proof (wp_observe_loop root (merge_sort path_bytes_le paths) 0 k2 w1) as Hl. unfold wp in Hl.
  destruct (observe_loop root _ 0 k2 w1) as [[[es|e|] k3] w3] eqn:He; [|done..]. unfold ret. intros [= <- <- _].
  apply collect_loop_shown in Hc as (found & -> & Hf). destruct Hl as [_ (Hpaths & _)].
  exists found, m, k1, k2. simpl. split_and!; try done.
  - rewrite Hpaths. apply merge_sort_Permutation.
  - by eapply observe_loop_shown.
Qed.

End Observation.

(** *** The encoding is injective *)

#[local] Transparent u32_to_be_bytes u64_to_be_bytes.

Lemma u32_to_be_bytes_inj m n : 0 <= m < 2 ^ 32 -> 0 <= n < 2 ^ 32 -> u32_to_be_bytes m = u32_to_be_bytes n -> m = n.
Proof.
  assert (Hdec : forall x, 0 <= x < 2 ^ 32 ->
    x = 16777216 * (x / 16777216 mod 256) + 65536 * (x / 65536 mod 256) + 256 * (x / 256 mod 256) + x mod 256).
  { intros x Hx. rewrite (Z.mod_small (x / 16777216)) by (split; [apply Z.div_pos; lia | apply Z.div_lt_upper_bound; lia]).
    change 65536 with (256 * 256). change 16777216 with (256 * 256 * 256). rewrite <-!Z.div_div by lia.
    pose proof (Z.div_mod x 256). pose proof (Z.div_mod (x / 256) 256). pose proof (Z.div_mod (x / 256 / 256) 256). lia. }
  intros Hm Hn [= H1 H2 H3 H4]. rewrite (Hdec m Hm), (Hdec n Hn). by rewrite H1, H2, H3, H4.
Qed.

Lemma u64_to_be_bytes_inj m n : 0 <= m < 2 ^ 64 -> 0 <= n < 2 ^ 64 -> u64_to_be_bytes m = u64_to_be_bytes n -> m = n.
Proof.
  intros Hm Hn E. unfold u64_to_be_bytes in E. apply app_inj_1 in E as [Eh El]; [|done].
  assert (Hh : m / 4294967296 = n / 4294967296).
  { apply u32_to_be_bytes_inj; [split; [apply Z.div_pos; lia | apply Z.div_lt_upper_bound; lia].. | done]. }
  assert (Hl : m mod 4294967296 = n mod 4294967296).
  { apply u32_to_be_bytes_inj; [apply Z.mod_pos_bound; lia.. |]. unfold u32_to_be_bytes in *.
    assert (Hmod : forall x, (x mod 4294967296) mod 256 = x mod 256).
    { intros x. change 4294967296 with (256 * 16777216). rewrite Z.rem_mul_r by lia.
      rewrite Z.mul_comm, Z_mod_plus_full, Z.mod_mod by lia. done. }
    assert (Hdiv : forall x d e, 0 < d -> 0 < e -> 4294967296 = d * (256 * e) ->
      x mod 4294967296 / d mod 256 = x / d mod 256).
    { intros x d e Hd He E2. rewrite E2, (Z.rem_mul_r x d (256 * e)) by lia.
      rewrite Z.mul_comm, Z.div_add, (Z.div_small (x mod d)) by (lia || apply Z.mod_pos_bound; lia). rewrite Z.add_0_l.
      rewrite Z.rem_mul_r by lia. rewrite Z.mul_comm, Z_mod_plus_full, Z.mod_mod by lia. done. }
    injection El as H1 H2 H3 H4. rewrite !Hmod. rewrite !(Hdiv _ 16777216 1), !(Hdiv _ 65536 256), !(Hdiv _ 256 65536) by lia.
    by rewrite H1, H2, H3, H4. }
  rewrite (Z.div_mod m 4294967296), (Z.div_mod n 4294967296) by lia. by rewrite Hh, Hl.
Qed.

#[local] Transparent bytes_of.

Lemma bytes_of_inj s t : bytes_of s = bytes_of t -> s = t.
Proof.
  revert t. induction s as [|c s IH]; intros [|d t]; try done. unfold bytes_of. simpl. intros [= Hc Hs].
  f_equal; [by apply byte_of_inj | by apply IH].
Qed.

Lemma encode_kind_inj a b r1 r2 :
  node_size a <= MAX_ROOT_FILESYSTEM_FILE_BYTES -> node_size b <= MAX_ROOT_FILESYSTEM_FILE_BYTES ->
  encode_kind a ++ r1 = encode_kind b ++ r2 -> a = b /\ r1 = r2.
Proof.
  unfold MAX_ROOT_FILESYSTEM_FILE_BYTES. destruct a as [|c], b as [|d]; try done.
  - intros _ _ E. by injection E.
  - intros Hc Hd E. cbn [encode_kind] in E. rewrite <-!app_assoc in E.
    apply app_inj_1 in E as [_ E]; [|done]. apply app_inj_1 in E as [El E]; [|done].
    simpl in Hc, Hd. pose proof (len_nonneg c). pose proof (len_nonneg d).
    apply u64_to_be_bytes_inj in El; [|lia..]. apply app_inj_1 in E as [-> ->]; [done|]. unfold len in El. lia.
Qed.

Lemma encode_entry_inj e1 e2 r1 r2 :
  entry_wf e1 -> entry_wf e2 -> encode_entry e1 ++ r1 = encode_entry e2 ++ r2 -> e1 = e2 /\ r1 = r2.
Proof.
  intros [Hp1 [Hm1 _] Hs1] [Hp2 [Hm2 _] Hs2]. unfold encode_entry. rewrite <-!app_assoc. intros E.
  apply app_inj_1 in E as [El E]; [|done].
  pose proof (len_nonneg (bytes_of (entry_path e1))). pose proof (len_nonneg (bytes_of (entry_path e2))).
  apply u32_to_be_bytes_inj in El; [|lia..]. apply app_inj_1 in E as [Ep%bytes_of_inj E]; [|unfold len in El; lia].
  apply app_inj_1 in E as [Em E]; [|done]. apply u32_to_be_bytes_inj in Em; [|lia..].
  apply encode_kind_inj in E as [Ek ->]; [|done..]. destruct e1, e2; simpl in *. by subst.
Qed.

Lemma encode_entries_inj l1 : forall l2, Forall entry_wf l1 -> Forall entry_wf l2 ->
  concat (map encode_entry l1) = concat (map encode_entry l2) -> l1 = l2.
Proof.
  induction l1 as [|e1 l1 IH]; intros [|e2 l2] H1 H2 E; [done..|].
  apply Forall_cons in H1 as [Hw1 H1]. apply Forall_cons in H2 as [Hw2 H2]. cbn [map concat] in E.
  apply encode_entry_inj in E as [-> E]; [|done..]. f_equal. by apply IH.
Qed.

Lemma encode_tree_inj t1 t2 : tree_bounded t1 -> tree_bounded t2 -> encode_tree t1 = encode_tree t2 -> t1 = t2.
Proof.
  intros [[Hm1 _] _ _ He1 _] [[Hm2 _] _ _ He2 _] E. unfold encode_tree in E.
  apply app_inj_1 in E as [_ E]; [|done]. apply app_inj_1 in E as [_ E]; [|done].
  apply app_inj_1 in E as [Em E]; [|done]. apply u32_to_be_bytes_inj in Em; [|lia..].
  apply encode_entries_inj in E; [|done..]. destruct t1, t2; simpl in *. by subst.
Qed.

(** ** The properties *)

(** A digest is the hash of the encoding of the tree the host shows. *)
Lemma measure_tree_shown {K} `{!Files K, !Trees K, !Sha256} (root : string) (k : K) w d k' w' :
  measure_tree root k w = (Return d, k', w') ->
  w' = w /\ exists t, tree_shown root k t k' /\ tree_bounded t /\ d = mk_RootFilesystemDigest (sha256 (encode_tree t)).
Proof.
  rewrite measure_tree_observes. unfold bind. pose proof (wp_observe_tree root k w) as Hwp. unfold wp in Hwp.
  destruct (observe_tree root k w) as [[[t|e|] k1] w1] eqn:Ho; [|done..]. unfold ret. intros [= <- <- <-].
  destruct Hwp as [-> Hb]. split; [done|]. exists t. split; [by eapply observe_tree_shown | done].
Qed.

(** Measuring a tree always ends, whatever the host does to it meanwhile: with a
    digest or with the one error, without reading the clock.  A digest is the hash of
    the encoding of the tree the host showed; that tree has at most 4096 entries
    in the order of their paths, none writable, no file and no sum of files above the
    limits. *)
Theorem measuring_a_tree_is_bounded {K} `{!Files K, !Trees K, !Sha256} (root : string) (k : K) (w : World) :
  match measure_tree root k w with
  | (Return d, k', w') => w' = w /\ exists t,
      tree_shown root k t k' /\ d = mk_RootFilesystemDigest (sha256 (encode_tree t))
      /\ len (tree_entries t) <= MAX_ROOT_FILESYSTEM_ENTRIES
      /\ StronglySorted path_bytes_le (map entry_path (tree_entries t))
      /\ Forall (fun e => Z.land (entry_mode e) 146 = 0 /\ entry_size e <= MAX_ROOT_FILESYSTEM_FILE_BYTES)
           (tree_entries t)
      /\ tree_size (tree_entries t) <= MAX_ROOT_FILESYSTEM_TOTAL_BYTES
  | (Raise e, _, w') => e = ProcInvalidSandbox /\ w' = w
  | (Panic, _, _) => False
  end.
Proof.
  pose proof (measure_tree_shown root k w) as Hm. pose proof (wp_observe_tree root k w) as Hwp. unfold wp in Hwp.
  rewrite measure_tree_observes in *. unfold bind in *.
  destruct (observe_tree root k w) as [[[t|e|] k'] w'] eqn:Ho; destruct Hwp as [-> Ht]; [|done|done].
  destruct (Hm _ _ _ eq_refl) as (_ & t' & Hs & [_ Hc Hsort He Hsz] & Hd). simpl. split; [done|].
  exists t'. repeat (split; [done|]). split; [|done].
  eapply Forall_impl; [exact He|]. intros e [_ [_ Hm'] Hz]. done.
Qed.

(** C31: A digest identifies the measured tree.  A measurement that returns a digest
    was shown a tree by its host, every directory below the root listed to its end and
    every file read to its end, and two measurements, on any hosts, with the same digest
    were shown the same tree, with the same paths, modes, kinds and file contents,
    unless they exhibit two different inputs on which SHA-256 collides. *)
Theorem rootfs_digest_identifies_the_tree {K1 K2} `{!Files K1, !Trees K1, !Files K2, !Trees K2, !Sha256}
    root1 (k1 : K1) k1' w1 w1' root2 (k2 : K2) k2' w2 w2' d :
  measure_tree root1 k1 w1 = (Return d, k1', w1') -> measure_tree root2 k2 w2 = (Return d, k2', w2') ->
  exists t1 t2, tree_shown root1 k1 t1 k1' /\ tree_shown root2 k2 t2 k2'
    /\ (t1 = t2 \/ exists p q, p <> q /\ sha256 p = sha256 q).
Proof.
  intros (_ & t1 & Hs1 & Hb1 & E1)%measure_tree_shown (_ & t2 & Hs2 & Hb2 & E2)%measure_tree_shown.
  exists t1, t2. split; [done|]. split; [done|].
  destruct (decide (encode_tree t1 = encode_tree t2)) as [Heq|Hne].
  - left. by apply encode_tree_inj.
  - right. exists (encode_tree t1), (encode_tree t2). split; [done|]. congruence.
Qed.

Lemma rootfs_digest_identifies_the_tree_witness :
  exists d k t, measure_tree "/rootfs" demo_host world0 = (Return d, k, world0)
    /\ tree_shown "/rootfs" demo_host t k.
Proof.
  destruct (measure_tree "/rootfs" demo_host world0) as [[r k] w] eqn:E.
  assert (Hr : match measure_tree "/rootfs" demo_host world0 with
    | (Return _, _, w') => w' = world0 | _ => False end) by (vm_compute; reflexivity).
  rewrite E in Hr. destruct r as [d|e|]; [|destruct Hr..]. subst w.
  destruct (rootfs_digest_identifies_the_tree "/rootfs" demo_host k world0 world0 "/rootfs" demo_host k world0 world0 d E E)
    as (t1 & t2 & H1 & H2 & _). exists d, k, t1. split; [reflexivity | exact H1].
Defined.

(** What that tree is. *)
Example demo_tree_paths :
  match observe_tree "/rootfs" demo_host world0 with
  | (Return t, _, _) => map entry_path (tree_entries t) = ["bin"; "bin/tool"; "dev"; "proc"; "tmp"; "workspace"]
  | _ => False
  end.
Proof. vm_compute. reflexivity. Qed.
