(* ===== verification/HostLog.v ===== *)
(** * Hosts that keep a log

    Every host of the process adapter can be run with a log of the calls made on it.
    The theorems about what the adapter does to the host are about this log, for any
    host whatsoever. *)

From stdpp Require Import base numbers list gmap strings.
From Stdlib Require Import ZArith Lia.
From S2P Require Import Prelude RustStd RustOs TaskState TaskSpec Policy Event Approval Supervisor.
From S2P Require Import Execution Facade ToolAdapter LocalApi ProcessHost Seccomp Cgroup Rootfs Descriptor Process.

(** Calls that only look at the host, or touch memory files and sockets of the
    adapter's own, are [CallRead]; what [metadata] and [symlink_metadata] answered is
    kept. *)
Inductive HostCall :=
| CallMetadata (p : string) (r : Result Metadata IoError)
| CallSymlinkMetadata (p : string) (r : Result Metadata IoError)
| CallRead
| CallCreateDir (p : string) (mode : Z) (ok : bool)
| CallSetPermissions (p : string) (mode : Z) (ok : bool)
| CallRemoveDir (p : string) (ok : bool)
| CallWrite (p text : string) (ok : bool)
| CallCreateNew (p : string) (mode : Z) (ok : bool)
| CallCopy (source destination : Z) (ok : bool)
| CallSpawn (c : Command) (child : option Z)
| CallTryWait (child : Z) (r : Result (option bool) IoError)
| CallKill (child : Z)
| CallWait (child : Z) (ok : bool)
| CallSend (socket : Z) (payload descriptors : list Z)
| CallBind (p : string) (ok : bool)
| CallAccept (listener : Z) (accepted : option Stream)
| CallRemoveFile (p : string) (ok : bool).

Definition is_read (c : HostCall) : Prop :=
  match c with CallMetadata _ _ | CallSymlinkMetadata _ _ | CallRead => True | _ => False end.

#[export] Instance is_read_dec c : Decision (is_read c).
Proof. destruct c; apply _. Defined.

(** The calls with an effect. *)
Definition effects (t : list HostCall) : list HostCall := filter (fun c => ~ is_read c) t.

Lemma effects_reads t : Forall is_read t -> effects t = [].
Proof.
  unfold effects. induction 1 as [|c t Hc _ IH]; [done|]. rewrite filter_cons. case_decide as Hn; [by destruct Hn | done].
Qed.

Lemma effects_app t1 t2 : effects (t1 ++ t2) = effects t1 ++ effects t2.
Proof. apply filter_app. Qed.

Record Logged (K : Type) := mk_Logged { logged_host : K; log : list HostCall }.
Arguments mk_Logged {K}.
Arguments logged_host {K}.
Arguments log {K}.

Definition logged {K A} (entry : A -> HostCall) (op : K -> A * K) : Logged K -> A * Logged K :=
  fun l => let '(a, k) := op (logged_host l) in (a, mk_Logged k (log l ++ [entry a])).

Section Instances.
Context {K : Type}.

#[export] Instance logged_files `{!Files K} : Files (Logged K) := {|
  f_metadata p := logged (CallMetadata p) (f_metadata p);
  f_symlink_metadata p := logged (CallSymlinkMetadata p) (f_symlink_metadata p);
  f_canonicalize p := logged (fun _ => CallRead) (f_canonicalize p);
  f_create_dir p mode := logged (fun r => CallCreateDir p mode (is_ok r)) (f_create_dir p mode);
  f_set_permissions p mode := logged (fun r => CallSetPermissions p mode (is_ok r)) (f_set_permissions p mode);
  f_remove_dir p := logged (fun r => CallRemoveDir p (is_ok r)) (f_remove_dir p);
  f_read_to_string p := logged (fun _ => CallRead) (f_read_to_string p);
  f_write p text := logged (fun r => CallWrite p text (is_ok r)) (f_write p text);
|}.

#[export] Instance logged_trees `{!Trees K} : Trees (Logged K) := {|
  t_read_dir p := logged (fun _ => CallRead) (t_read_dir p);
  t_next s := logged (fun _ => CallRead) (t_next s);
  t_open p := logged (fun _ => CallRead) (t_open p);
  t_file_metadata f := logged (fun _ => CallRead) (t_file_metadata f);
  t_read f := logged (fun _ => CallRead) (t_read f);
  t_create_new p mode := logged (fun r => CallCreateNew p mode (is_ok r)) (t_create_new p mode);
  t_copy s d := logged (fun r => CallCopy s d (is_ok r)) (t_copy s d);
|}.

#[export] Instance logged_memory_files `{!MemoryFiles K} : MemoryFiles (Logged K) := {|
  mf_create n := logged (fun _ => CallRead) (mf_create n);
  mf_write_all fd b := logged (fun _ => CallRead) (mf_write_all fd b);
  mf_seek_start fd := logged (fun _ => CallRead) (mf_seek_start fd);
  mf_add_seals fd s := logged (fun _ => CallRead) (mf_add_seals fd s);
  mf_clear_cloexec fd := logged (fun _ => CallRead) (mf_clear_cloexec fd);
|}.

#[export] Instance logged_descriptors `{!Descriptors K} : Descriptors (Logged K) := {|
  p_open_directory p := logged (fun _ => CallRead) (p_open_directory p);
  p_openat2 d p := logged (fun _ => CallRead) (p_openat2 d p);
  p_stream_pair := logged (fun _ => CallRead) p_stream_pair;
  p_sendmsg s b fds := logged (fun _ => CallSend s b fds) (p_sendmsg s b fds);
|}.

#[export] Instance logged_processes `{!Processes K} : Processes (Logged K) := {|
  p_spawn c := logged (fun r => CallSpawn c (match r with Ok child => Some child | Err _ => None end)) (p_spawn c);
  p_try_wait child := logged (CallTryWait child) (p_try_wait child);
  p_kill child := logged (fun _ => CallKill child) (p_kill child);
  p_wait child := logged (fun r => CallWait child (is_ok r)) (p_wait child);
|}.

End Instances.

(** ** What a computation adds to the log *)

Section Traces.
Context {K E : Type}.
Implicit Types l : Logged K.

(** [R] holds of the outcome, the calls made and the world before and after. *)
Definition traces {A} (m : M (Logged K) E A) (R : outcome A E -> list HostCall -> World -> World -> Prop) : Prop :=
  forall l w, wp m (fun r l' w' => exists t, log l' = log l ++ t /\ R r t w w') l w.

(** Reads only, without reading the clock; it may panic only if [P]. *)
Definition quiet (P : Prop) {A} (m : M (Logged K) E A) : Prop :=
  traces m (fun r t w w' => Forall is_read t /\ w' = w /\ (r = Panic -> P)).

Lemma wp_traces {A} (m : M (Logged K) E A) R Q l w :
  traces m R -> (forall r l' w' t, log l' = log l ++ t -> R r t w w' -> Q r l' w') -> wp m Q l w.
Proof. intros Hm HQ. eapply wp_mono; [apply Hm|]. intros r l' w' (t & Ht & HR). eauto. Qed.

Lemma traces_mono {A} (m : M (Logged K) E A) (R R' : _ -> _ -> _ -> _ -> Prop) :
  traces m R -> (forall r t w w', R r t w w' -> R' r t w w') -> traces m R'.
Proof. intros Hm HR l w. eapply wp_traces; [exact Hm|]. eauto. Qed.

Lemma reads_ret P {A} (a : A) : quiet P (ret a).
Proof. intros l w. apply wp_ret. exists []. by rewrite app_nil_r. Qed.

Lemma reads_throw P {A} (e : E) : quiet P (throw e : M (Logged K) E A).
Proof. intros l w. apply wp_throw. exists []. by rewrite app_nil_r. Qed.

Lemma reads_lift P {A} (r : Result A E) : quiet P (lift r).
Proof. destruct r; [apply reads_ret | apply reads_throw]. Qed.

Lemma reads_bind P {A B} (m : M (Logged K) E A) (f : A -> M (Logged K) E B) :
  quiet P m -> (forall a, quiet P (f a)) -> quiet P (bind m f).
Proof.
  intros Hm Hf l w. apply wp_bind. eapply wp_traces; [exact Hm|]. intros [a|e|] l1 w1 t1 Ht1 (Hr1 & -> & Hp).
  - eapply wp_traces; [apply Hf|]. intros r l2 w2 t2 Ht2 (Hr2 & -> & Hp2). exists (t1 ++ t2).
    rewrite Ht2, Ht1, app_assoc. split; [done|]. split; [by apply Forall_app|]. done.
  - by exists t1.
  - exists t1. auto.
Qed.

Lemma reads_for_each P {A} (f : A -> M (Logged K) E unit) xs : (forall a, quiet P (f a)) -> quiet P (for_each f xs).
Proof. intros Hf. induction xs as [|a xs IH]; simpl; [apply reads_ret|]. by apply reads_bind. Qed.

(** A logged call. *)
Lemma traces_logged {A} entry (op : K -> A * K) :
  traces (sys (logged entry op) : M (Logged K) E A)
    (fun r t w w' => exists a, r = Return a /\ t = [entry a] /\ w' = w).
Proof.
  intros l w. apply wp_sys. unfold logged. destruct (op (logged_host l)) as [a k]. simpl.
  eexists. split; [done|]. by exists a.
Qed.

Lemma traces_logged_or {A} (e : E) entry (op : K -> Result A IoError * K) :
  traces (sys_or e (logged entry op) : M (Logged K) E A)
    (fun r t w w' => w' = w /\ ((exists a, r = Return a /\ t = [entry (Ok a)])
                              \/ (exists i, r = Raise e /\ t = [entry (Err i)]))).
Proof.
  intros l w. apply wp_sys_or; unfold logged; intros a k'; destruct (op (logged_host l)) as [r k]; intros [= -> <-];
    simpl; eexists; (split; [done|]); split; eauto.
Qed.

Lemma reads_logged P {A} entry (op : K -> A * K) :
  (forall a, is_read (entry a)) -> quiet P (sys (logged entry op) : M (Logged K) E A).
Proof.
  intros He. eapply traces_mono; [apply traces_logged|]. intros r t w w' (a & -> & -> & ->).
  split; [by repeat constructor | done].
Qed.

Lemma reads_logged_or P {A} (e : E) entry (op : K -> Result A IoError * K) :
  (forall a, is_read (entry a)) -> quiet P (sys_or e (logged entry op) : M (Logged K) E A).
Proof.
  intros He. eapply traces_mono; [apply traces_logged_or|].
  intros r t w w' [-> [(a & -> & ->)|(a & -> & ->)]]; (split; [by repeat constructor | done]).
Qed.

Lemma reads_panic (P : Prop) {A} : P -> quiet P (panic : M (Logged K) E A).
Proof. intros HP l w. apply wp_panic. exists []. by rewrite app_nil_r. Qed.

(** Ending is shown apart, for loops with fuel. *)
Lemma quiet_ends {A} (m : M (Logged K) E A) :
  quiet True m -> (forall l w, wp m (fun r _ _ => r <> Panic) l w) -> quiet False m.
Proof.
  intros Hm He l w. pose proof (wp_and _ _ _ _ _ (Hm l w) (He l w)) as Hb. eapply wp_mono; [exact Hb|].
  intros r l' w' [(t & Ht & Hr & Hw & _) Hp]. exists t. auto.
Qed.

End Traces.

Abbreviation reads := (quiet False).


Lemma reads_map_err P {K E E' A} (f : E -> E') (m : M (Logged K) E A) : quiet P m -> quiet P (map_err f m).
Proof.
  intros Hm l w. apply wp_map_err. eapply wp_traces; [exact Hm|]. intros [a|e|] l1 w1 t1 Ht1 (Hr1 & -> & Hp);
    exists t1; repeat (split; [done|]); done || (intros _; by apply Hp).
Qed.

Lemma reads_attempt P {K E E' A} (m : M (Logged K) E A) : quiet P m -> quiet P (attempt (E' := E') m).
Proof.
  intros Hm l w. apply wp_attempt. eapply wp_traces; [exact Hm|]. intros [a|e|] l1 w1 t1 Ht1 (Hr1 & -> & Hp);
    exists t1; repeat (split; [done|]); done || (intros _; by apply Hp).
Qed.

(** One structural step of a proof that a computation only reads. *)
Create HintDb reads.
Ltac reads_step :=
  lazymatch goal with
  | |- quiet _ (bind _ _) => apply reads_bind; [|intros ?]
  | |- quiet _ (ret _) => apply reads_ret
  | |- quiet _ panic => apply reads_panic; exact I
  | |- quiet _ (throw _) => apply reads_throw
  | |- quiet _ (lift _) => apply reads_lift
  | |- quiet _ (for_each _ _) => apply reads_for_each; intros ?
  | |- quiet _ (map_err _ _) => apply reads_map_err
  | |- quiet _ (attempt _) => apply reads_attempt
  | |- quiet _ (sys_or _ _) => apply reads_logged_or; intros ?; exact I
  | |- quiet _ (sys _) => apply reads_logged; intros ?; exact I
  | |- quiet _ (let _ := _ in _) => cbv zeta
  | |- quiet _ (match ?e with _ => _ end) => destruct e
  | |- quiet _ (optionally ?o _) => destruct o; unfold optionally
  | |- quiet _ _ => solve [auto with reads nocore]
  end.
Ltac reads := repeat reads_step.

(** ** The adapter's own checks only read *)

Section Reads.
Context {K : Type} `{!Files K, !Trees K, !Sha256, !MemoryFiles K, !Descriptors K, !Processes K}.

Lemma reads_path_is_file p : reads (path_is_file (K := Logged K) p).
Proof. unfold path_is_file. reads. Qed.

Lemma reads_DirectoryIdentity p : reads (DirectoryIdentity_read (K := Logged K) p).
Proof. unfold DirectoryIdentity_read. reads. Qed.

Lemma reads_ExecutableIdentity p : reads (ExecutableIdentity_read (K := Logged K) p).
Proof. unfold ExecutableIdentity_read. reads. Qed.

Lemma reads_owner_only p : reads (validate_owner_only_directory (K := Logged K) p).
Proof. unfold validate_owner_only_directory. reads. Qed.

#[local] Hint Resolve reads_path_is_file reads_DirectoryIdentity reads_ExecutableIdentity reads_owner_only : reads.

Lemma reads_require_executable p i : reads (require_executable (K := Logged K) p i).
Proof. unfold require_executable. reads. Qed.

Lemma reads_task_scratch_identity p i : reads (validate_task_scratch_identity (K := Logged K) p i).
Proof. unfold validate_task_scratch_identity. reads. Qed.

Lemma reads_canonical_task_scratch_directory p root : reads (canonical_task_scratch_directory (K := Logged K) p root).
Proof. unfold canonical_task_scratch_directory. reads. Qed.

Lemma reads_validate_scratch_root m : reads (validate_scratch_root (K := Logged K) m).
Proof. unfold validate_scratch_root. reads. Qed.

Lemma reads_SeccompFilterFile_create b : reads (SeccompFilterFile_create (K := Logged K) b).
Proof. unfold SeccompFilterFile_create. reads. Qed.

Lemma reads_descriptor_channel : reads (descriptor_channel (K := Logged K)).
Proof. unfold descriptor_channel. reads. Qed.

Lemma reads_require_files d fs : reads (require_files (K := Logged K) d fs).
Proof. unfold require_files. reads. Qed.

Lemma reads_read_cgroup_identity p : reads (read_cgroup_identity (K := Logged K) p).
Proof. unfold read_cgroup_identity. reads. Qed.

Lemma reads_read_keyed_u64 p key : reads (read_keyed_u64 (K := Logged K) p key).
Proof. unfold read_keyed_u64. reads. Qed.

#[local] Hint Resolve reads_require_files reads_read_cgroup_identity reads_read_keyed_u64 : reads.

Lemma reads_task_cgroup_identity d i : reads (validate_task_cgroup_identity (K := Logged K) d i).
Proof. unfold validate_task_cgroup_identity. reads. Qed.

Lemma reads_current_cgroup_directory : reads (current_cgroup_directory (K := Logged K)).
Proof. unfold current_cgroup_directory. reads. Qed.

#[local] Hint Resolve reads_task_cgroup_identity reads_current_cgroup_directory : reads.

Lemma reads_cgroup_validate_root m : reads (cgroup_validate_root (K := Logged K) m).
Proof. unfold cgroup_validate_root, validate_cgroup_root. reads. Qed.

Lemma reads_cleanup_target d i : reads (validate_cleanup_target (K := Logged K) d i).
Proof. unfold validate_cleanup_target. reads. Qed.

Lemma reads_limit_reached cg : reads (limit_reached (K := Logged K) cg).
Proof. unfold limit_reached, TaskCgroupState_validate. reads. Qed.

Lemma reads_mount_points root : reads (validate_sandbox_mount_points (K := Logged K) root).
Proof. unfold validate_sandbox_mount_points. reads. Qed.

Lemma reads_read_only_directory p : reads (validate_read_only_directory (K := Logged K) p).
Proof. unfold validate_read_only_directory. reads. Qed.

Lemma reads_canonical_read_only_root p : reads (canonical_read_only_root (K := Logged K) p).
Proof. unfold canonical_read_only_root. reads. apply reads_read_only_directory. Qed.

End Reads.

#[export] Hint Resolve reads_path_is_file reads_DirectoryIdentity reads_ExecutableIdentity reads_owner_only
  reads_require_executable reads_task_scratch_identity reads_canonical_task_scratch_directory
  reads_validate_scratch_root reads_SeccompFilterFile_create reads_descriptor_channel reads_require_files
  reads_read_cgroup_identity reads_read_keyed_u64 reads_task_cgroup_identity reads_current_cgroup_directory
  reads_cgroup_validate_root reads_cleanup_target reads_limit_reached reads_mount_points reads_read_only_directory
  reads_canonical_read_only_root : reads.
