(* ===== verification/ProcessFacts.v ===== *)
(** * What the process adapter does to its host

    The log of each operation, from the checks up to the waiting loop. *)

From stdpp Require Import base numbers list gmap strings sorting.
From Stdlib Require Import ZArith Lia.
From S2P Require Import Prelude RustStd RustOs TaskState TaskSpec Policy Event Approval Supervisor SupervisorInv.
From S2P Require Import Execution Facade ToolAdapter ProcessHost Seccomp Cgroup Rootfs RootfsProps Descriptor Process.
From S2P Require Import HostLog.

#[local] Open Scope Z_scope.

(** ** Measuring only reads *)

Section Measure.
Context {K : Type} `{!Files K, !Trees K, !Sha256}.

Lemma quiet_collect_entries fuel : forall d rd s ps ds,
  quiet True (collect_entries (K := Logged K) fuel d rd s ps ds).
Proof. induction fuel as [|fuel IH]; intros d rd s ps ds; cbn [collect_entries]; reads. Qed.

Lemma quiet_collect_loop fuel root : forall ps ds, quiet True (collect_loop (K := Logged K) fuel root ps ds).
Proof.
  induction fuel as [|fuel IH]; intros ps ds; cbn [collect_loop]; reads. apply quiet_collect_entries.
Qed.

Lemma quiet_read_contents fuel file expected : forall n h,
  quiet True (read_contents (K := Logged K) fuel file expected n h).
Proof. induction fuel as [|fuel IH]; intros n h; cbn [read_contents]; reads. Qed.

Lemma quiet_measure_path root relative total h : quiet True (measure_path (K := Logged K) root relative total h).
Proof. unfold measure_path. reads. apply quiet_read_contents. Qed.

Lemma quiet_measure_loop root ps : forall total h, quiet True (measure_loop (K := Logged K) root ps total h).
Proof.
  induction ps as [|p ps IH]; intros total h; cbn [measure_loop]; reads. apply quiet_measure_path.
Qed.

Lemma measure_tree_ends root (k : K) w : wp (measure_tree root) (fun r _ _ => r <> Panic) k w.
Proof.
  unfold wp. rewrite measure_tree_observes. unfold bind. pose proof (wp_observe_tree root k w) as Hwp. unfold wp in Hwp.
  by destruct (observe_tree root k w) as [[[t|e|] k'] w']; destruct Hwp.
Qed.

End Measure.

Lemma reads_measure_tree {K} `{!Files K, !Trees K, !Sha256} root : reads (measure_tree (K := Logged K) root).
Proof.
  apply quiet_ends; [|intros l w; apply measure_tree_ends]. unfold measure_tree, collect_relative_paths. reads.
  - apply quiet_collect_loop.
  - apply quiet_measure_loop.
Qed.

Lemma reads_verified_root {K} `{!Files K, !Trees K, !Sha256} d s :
  reads (validate_verified_root_filesystem (K := Logged K) d s).
Proof. unfold validate_verified_root_filesystem, validate_tree. reads. apply reads_measure_tree. Qed.

#[export] Hint Resolve reads_measure_tree reads_verified_root : reads.

(** ** Which errors there are *)

Section Errors.
Context {K : Type}.

Definition only_raises {E A} (P : E -> Prop) (m : M K E A) : Prop :=
  forall k w, wp m (fun r _ _ => forall e, r = Raise e -> P e) k w.

Lemma only_ret {E A} P (a : A) : only_raises (E := E) P (ret a).
Proof. intros k w. by apply wp_ret. Qed.

Lemma only_throw {E A} (P : E -> Prop) e : P e -> only_raises P (throw e : M K E A).
Proof. intros He k w. apply wp_throw. by intros e' [= <-]. Qed.

Lemma only_lift {E A} (P : E -> Prop) (r : Result A E) :
  (forall e, r = Err e -> P e) -> only_raises P (lift r).
Proof. intros Hr. destruct r; [apply only_ret | apply only_throw; auto]. Qed.

Lemma only_sys {E A} P (op : K -> A * K) : only_raises (E := E) P (sys op).
Proof. intros k w. by apply wp_sys. Qed.

Lemma only_sys_or {E A} (P : E -> Prop) e (op : K -> Result A IoError * K) : P e -> only_raises P (sys_or e op).
Proof. intros He k w. apply wp_sys_or; [done|]. by intros i k' _ e' [= <-]. Qed.

Lemma only_bind {E A B} P (m : M K E A) (f : A -> M K E B) :
  only_raises P m -> (forall a, only_raises P (f a)) -> only_raises P (bind m f).
Proof.
  intros Hm Hf k w. apply wp_bind. eapply wp_mono; [apply Hm|]. intros [a|e|] k' w' He; [apply Hf | | done].
  intros e' [= <-]. by apply He.
Qed.

Lemma only_map_err {E E' A} P (f : E -> E') (m : M K E A) : (forall e, P (f e)) -> only_raises P (map_err f m).
Proof.
  intros Hf k w. apply wp_map_err. unfold wp. destruct (m k w) as [[[a|e|] k'] w']; try done. by intros e' [= <-].
Qed.

Lemma only_attempt {E E' A} P (m : M K E A) : only_raises (E := E') P (attempt m).
Proof. intros k w. apply wp_attempt. unfold wp. by destruct (m k w) as [[[a|e|] k'] w']. Qed.

Lemma only_for_each {E A} P (f : A -> M K E unit) l : (forall a, only_raises P (f a)) -> only_raises P (for_each f l).
Proof. intros Hf. induction l as [|a l IH]; simpl; [apply only_ret | by apply only_bind]. Qed.

End Errors.

Ltac only_step :=
  lazymatch goal with
  | |- only_raises _ (bind _ _) => apply only_bind; [|intros ?]
  | |- only_raises _ (ret _) => apply only_ret
  | |- only_raises _ (throw _) => apply only_throw
  | |- only_raises _ (lift _) => apply only_lift; intros ? ?
  | |- only_raises _ (sys_or _ _) => apply only_sys_or
  | |- only_raises _ (sys _) => apply only_sys
  | |- only_raises _ (map_err _ _) => apply only_map_err; intros ?
  | |- only_raises _ (attempt _) => apply only_attempt
  | |- only_raises _ (for_each _ _) => apply only_for_each; intros ?
  | |- only_raises _ (let _ := _ in _) => cbv zeta
  | |- only_raises _ (match ?e with _ => _ end) => destruct e
  end.
Ltac errors := repeat only_step.

(** What the checks on a cgroup report. *)
Lemma parse_keyed_u64_error contents key e : parse_keyed_u64 contents key = Err e -> e = ProcInvalidResourceControl.
Proof.
  unfold parse_keyed_u64. destruct (find_map _ _); simpl; [|congruence]. destruct (parse_unsigned _ _); simpl; congruence.
Qed.

Lemma limit_reached_errors {K} `{!Files K} cg :
  only_raises (fun e => e = ProcInvalidResourceControl) (limit_reached (K := K) cg).
Proof.
  unfold limit_reached, TaskCgroupState_validate, validate_task_cgroup_identity, require_files, read_cgroup_identity,
    path_is_file, read_keyed_u64. errors; try done; by eapply parse_keyed_u64_error.
Qed.

Lemma terminate_errors {K} `{!Files K} cg :
  only_raises (fun e => e = ProcInvalidResourceControl) (terminate (K := K) cg).
Proof.
  unfold terminate, terminate_task_cgroup, validate_task_cgroup_identity, require_files, read_cgroup_identity, path_is_file.
  by errors.
Qed.

Definition not_timeout (e : ProcessAdapterError) : Prop := e <> ProcTimedOut.

Section NotTimeout.
Context {K : Type} `{!Files K, !Processes K}.

Lemma only_mono {E A} (P Q : E -> Prop) (m : M K E A) : only_raises P m -> (forall e, P e -> Q e) -> only_raises Q m.
Proof. intros Hm HPQ k w. eapply wp_mono; [apply Hm|]. eauto. Qed.

Lemma terminate_cgroup_child_errors cg child : only_raises not_timeout (terminate_cgroup_child (K := K) cg child).
Proof.
  intros k w. apply wp_bind, wp_attempt. eapply wp_mono; [apply terminate_errors|].
  assert (Hrest : forall res : Result unit ProcessAdapterError, (forall e, res = Err e -> not_timeout e) ->
    only_raises not_timeout (do! sys (p_kill child) in do! sys_or ProcWaitFailed (p_wait child) in lift res : M K _ _)).
  { intros res Hres. errors; [done | by apply Hres]. }
  intros [[]|e|] k' w' He; [by apply Hrest | | done]. apply Hrest. intros e' [= <-]. by rewrite (He e eq_refl).
Qed.

Lemma stop_at_limit_errors cg child : only_raises not_timeout (stop_at_limit (K := K) cg child).
Proof.
  unfold stop_at_limit. destruct cg as [cg|]; [|apply only_ret]. intros k w. apply wp_bind, wp_attempt.
  eapply wp_mono; [apply limit_reached_errors|]. intros [[]|e|] k' w' He; [| by apply wp_ret| | done].
  - apply only_bind; [apply terminate_cgroup_child_errors | intros _; by apply only_throw].
  - apply only_bind; [apply terminate_cgroup_child_errors | intros _; apply only_throw]. by rewrite (He e eq_refl).
Qed.

Lemma check_limit_errors cg : only_raises not_timeout (check_limit (K := K) cg).
Proof.
  unfold check_limit, optionally. destruct cg as [cg|]; [|apply only_ret].
  apply only_bind; [|intros b; by errors]. eapply only_mono; [apply limit_reached_errors | by intros e ->].
Qed.

Lemma stop_at_deadline_errors cg child : only_raises not_timeout (stop_at_deadline (K := K) cg child).
Proof. unfold stop_at_deadline. destruct cg; [apply terminate_cgroup_child_errors | by errors]. Qed.

Lemma abandon_child_errors cg child : only_raises (fun _ => False) (abandon_child (K := K) cg child).
Proof. unfold abandon_child. destruct cg; by errors. Qed.

End NotTimeout.

Lemma traces_only {K E A} (m : M (Logged K) E A) R P :
  traces m R -> only_raises P m ->
  traces m (fun r t w w' => R r t w w' /\ forall e, r = Raise e -> P e).
Proof.
  intros Hm Ho l w. eapply wp_mono; [exact (wp_and _ _ _ _ _ (Hm l w) (Ho l w))|].
  intros r l' w' [(t & Ht & HR) He]. by exists t.
Qed.

(** ** The clock *)

Section Sleeping.
Context `{EnvLaws} `{!Sleeps}.

(** The clock only goes on. *)
Lemma world_le_sleep d w :
  world_le w (mk_World (instants_read w + sleep_passes d w) (system_times_read w) (uuids_minted w)).
Proof. split; simpl; lia. Qed.

Lemma world_le_now w : world_le w (mk_World (S (instants_read w)) (system_times_read w) (uuids_minted w)).
Proof. split; simpl; lia. Qed.

End Sleeping.

(** ** The child *)

Section Child.
Context {K : Type} `{!Files K, !Trees K, !Sha256, !MemoryFiles K, !Descriptors K, !Processes K, !TaskIdText}.
Context `{EnvLaws} `{!Sleeps}.

Abbreviation Proc := (M (Logged K) ProcessAdapterError).

(** Calls that concern one child and the kill file of its cgroup. *)
Definition about_child (cg : option TaskCgroup) (child : Z) (c : HostCall) : Prop :=
  match c with
  | CallMetadata _ _ | CallSymlinkMetadata _ _ | CallRead => True
  | CallTryWait child' _ | CallKill child' | CallWait child' _ => child' = child
  | CallWrite p text _ => exists g, cg = Some g /\ p = path_join (cgroup_directory g) "cgroup.kill" /\ text = "1"%string
  | CallSend _ _ _ => True
  | _ => False
  end.

(** The child was waited for, or the wait for it failed. *)
Definition waited (child : Z) (t : list HostCall) : Prop :=
  (exists ok, CallWait child ok ∈ t) \/ (exists b, CallTryWait child (Ok (Some b)) ∈ t).

Lemma waited_app_l child t1 t2 : waited child t1 -> waited child (t1 ++ t2).
Proof. intros [[ok Hw]|[b Hw]]; [left; exists ok | right; exists b]; set_solver. Qed.

Lemma waited_app_r child t1 t2 : waited child t2 -> waited child (t1 ++ t2).
Proof. intros [[ok Hw]|[b Hw]]; [left; exists ok | right; exists b]; set_solver. Qed.

Lemma is_read_about cg child c : is_read c -> about_child cg child c.
Proof. by destruct c. Qed.

Lemma reads_about cg child t : Forall is_read t -> Forall (about_child cg child) t.
Proof. intros Ht. eapply Forall_impl; [exact Ht|]. intros c. apply is_read_about. Qed.

(** Calls about the child only; where [W] holds of the outcome it was waited for. *)
Definition tracks {A} (cg : option TaskCgroup) (child : Z) (W : outcome A ProcessAdapterError -> Prop) (m : Proc A)
    : Prop :=
  traces m (fun r t w w' => w' = w /\ Forall (about_child cg child) t /\ r <> Panic /\ (W r -> waited child t)).

(** Every outcome but a failed wait; every such error. *)
Definition always {A} (r : outcome A ProcessAdapterError) : Prop := r <> Raise ProcWaitFailed.
Definition on_error {A} (r : outcome A ProcessAdapterError) : Prop :=
  exists e, r = Raise e /\ e <> ProcWaitFailed.
Definition every {A} (_ : outcome A ProcessAdapterError) : Prop := True.
Definition raises {A} (r : outcome A ProcessAdapterError) : Prop := exists e, r = Raise e.
Definition never {A} (_ : outcome A ProcessAdapterError) : Prop := False.

Lemma tracks_mono {A} cg child (W W' : _ -> Prop) (m : Proc A) :
  tracks cg child W m -> (forall r, W' r -> W r) -> tracks cg child W' m.
Proof. intros Hm HW. eapply traces_mono; [exact Hm|]. intros r t w w' (-> & Ha & Hp & Hw). by repeat split; auto. Qed.

Lemma tracks_reads {A} cg child (m : Proc A) : reads m -> tracks cg child never m.
Proof. intros Hm. eapply traces_mono; [exact Hm|]. intros r t w w' (Hr & -> & Hp). by repeat split; [apply reads_about | done..]. Qed.

(** The continuation waits. *)
Lemma tracks_bind_r {A B} cg child W1 (W2 : outcome B _ -> Prop) (m : Proc A) (f : A -> Proc B) :
  tracks cg child W1 m -> (forall e, W2 (Raise e) -> W1 (Raise e)) -> (forall a, tracks cg child W2 (f a)) ->
  tracks cg child W2 (bind m f).
Proof.
  intros Hm HW Hf l w. apply wp_bind. eapply wp_traces; [exact Hm|].
  intros [a|e|] l1 w1 t1 Ht1 (-> & Ha1 & Hp1 & Hw1); [| |done].
  - eapply wp_traces; [apply Hf|]. intros r l2 w2 t2 Ht2 (-> & Ha2 & Hp2 & Hw2). exists (t1 ++ t2).
    rewrite Ht2, Ht1, app_assoc. split; [done|]. split; [done|]. split; [by apply Forall_app|]. split; [done|].
    intros Hr. by apply waited_app_r, Hw2.
  - exists t1. repeat (split; [done|]). intros Hr. by apply Hw1, HW.
Qed.

(** The first part waits. *)
Lemma tracks_bind_l {A B} cg child W1 (W2 : outcome B _ -> Prop) (m : Proc A) (f : A -> Proc B) :
  tracks cg child W1 m -> (forall a, W1 (Return a)) -> (forall e, W2 (Raise e) -> W1 (Raise e)) ->
  (forall a, tracks cg child never (f a)) -> tracks cg child W2 (bind m f).
Proof.
  intros Hm Hret HW Hf l w. apply wp_bind. eapply wp_traces; [exact Hm|].
  intros [a|e|] l1 w1 t1 Ht1 (-> & Ha1 & Hp1 & Hw1); [| |done].
  - eapply wp_traces; [apply Hf|]. intros r l2 w2 t2 Ht2 (-> & Ha2 & Hp2 & Hw2). exists (t1 ++ t2).
    rewrite Ht2, Ht1, app_assoc. split; [done|]. split; [done|]. split; [by apply Forall_app|]. split; [done|].
    intros Hr. by apply waited_app_l, Hw1.
  - exists t1. repeat (split; [done|]). intros Hr. by apply Hw1, HW.
Qed.

Lemma tracks_ret {A} cg child (a : A) : tracks cg child on_error (ret a).
Proof. intros l w. apply wp_ret. exists []. rewrite app_nil_r. repeat (split; [done|]). by intros (e & ? & _). Qed.

(** An attempt and a call whose result is examined do not fail. *)
Lemma tracks_attempt {A} cg child W (m : Proc A) : tracks cg child W m -> tracks cg child raises (attempt m).
Proof.
  intros Hm l w. apply wp_attempt. eapply wp_traces; [exact Hm|].
  intros [a|e|] l1 w1 t1 Ht1 (-> & Ha1 & Hp1 & Hw1); [| |done]; exists t1; repeat (split; [done|]); by intros [? ?].
Qed.

Lemma tracks_kill cg child : tracks cg child raises (sys (p_kill child)).
Proof.
  eapply traces_mono; [apply traces_logged|]. intros r t w w' (a & -> & -> & ->).
  split; [done|]. split; [by repeat constructor|]. split; [done|]. by intros [? ?].
Qed.

Lemma tracks_wait cg child : tracks cg child every (sys_or ProcWaitFailed (p_wait child)).
Proof.
  eapply traces_mono; [apply traces_logged_or|].
  intros r t w w' [-> [(a & -> & ->)|(i & -> & ->)]]; (split; [done|]); (split; [by repeat constructor|]); (split; [done|]);
    intros _; left; eexists; by apply list_elem_of_here.
Qed.

Lemma tracks_wait_ignored cg child : tracks cg child every (sys (p_wait child)).
Proof.
  eapply traces_mono; [apply traces_logged|]. intros r t w w' (a & -> & -> & ->).
  split; [done|]. split; [by repeat constructor|]. split; [done|]. intros _. left. eexists. by apply list_elem_of_here.
Qed.

Lemma tracks_terminate cg child : tracks (Some cg) child never (terminate cg).
Proof.
  unfold terminate, terminate_task_cgroup. eapply tracks_bind_r; [apply tracks_reads; reads | done|]. intros [].
  eapply traces_mono; [apply traces_logged_or|].
  intros r t w w' [-> [(a & -> & ->)|(i & -> & ->)]]; (split; [done|]); (split; [constructor; [|done]; by exists cg | done]).
Qed.

Lemma tracks_never {A} cg child W (m : Proc A) : tracks cg child W m -> tracks cg child never m.
Proof. intros Hm. by eapply tracks_mono; [exact Hm|]. Qed.

Lemma tracks_terminate_cgroup_child cg child : tracks (Some cg) child every (terminate_cgroup_child cg child).
Proof.
  unfold terminate_cgroup_child. eapply tracks_bind_r; [eapply tracks_attempt, tracks_terminate | by eexists|]. intros r.
  eapply tracks_bind_r; [apply tracks_kill | by eexists|]. intros _.
  eapply tracks_bind_l; [apply tracks_wait | done..|]. intros _. apply tracks_reads, reads_lift.
Qed.

Lemma tracks_attempt_every {A} cg child (m : Proc A) : tracks cg child every m -> tracks cg child every (attempt m).
Proof.
  intros Hm l w. apply wp_attempt. eapply wp_traces; [exact Hm|].
  intros [a|e|] l1 w1 t1 Ht1 (-> & Ha1 & Hp1 & Hw1); [| |done]; exists t1; repeat (split; [done|]); intros _; by apply Hw1.
Qed.

Lemma tracks_abandon cg child : tracks cg child every (abandon_child cg child).
Proof.
  unfold abandon_child. destruct cg as [cg|].
  - eapply tracks_bind_l; [apply tracks_attempt_every, tracks_terminate_cgroup_child | done..|].
    intros _. apply tracks_reads, reads_ret.
  - eapply tracks_bind_r; [apply tracks_kill | by eexists|]. intros _.
    eapply tracks_bind_l; [apply tracks_wait_ignored | done..|]. intros _. apply tracks_reads, reads_ret.
Qed.

Lemma tracks_try_wait cg child : tracks cg child raises (sys (p_try_wait child)).
Proof.
  eapply traces_mono; [apply traces_logged|]. intros r t w w' (a & -> & -> & ->).
  split; [done|]. split; [by repeat constructor|]. split; [done|]. by intros [? ?].
Qed.

Lemma tracks_throw_wait_failed {A} cg child : tracks cg child always (throw ProcWaitFailed : Proc A).
Proof. intros l w. apply wp_throw. exists []. rewrite app_nil_r. by repeat (split; [done|]). Qed.

(** Only a child that could not be killed may be left, and then the error is a
    failed wait. *)
Lemma tracks_stop_at_deadline cg child : tracks cg child always (stop_at_deadline cg child).
Proof.
  unfold stop_at_deadline. destruct cg as [cg|].
  { eapply tracks_mono; [apply tracks_terminate_cgroup_child | done]. }
  eapply tracks_bind_r; [apply tracks_kill | by eexists|]. intros killed. destruct (is_ok killed).
  { eapply tracks_mono; [apply tracks_wait | done]. }
  intros l w. apply wp_bind. eapply wp_traces; [apply traces_logged_or|].
  intros r l1 w1 t1 Ht1 [-> [(a & -> & ->)|(i & -> & ->)]].
  - destruct a as [b|]; [apply wp_ret | apply wp_throw]; eexists; (split; [exact Ht1|]); (split; [done|]);
      (split; [by repeat constructor|]); (split; [done|]); [|done]. intros _. right. exists b. by apply list_elem_of_here.
  - eexists. split; [exact Ht1|]. split; [done|]. split; [by repeat constructor|]. by split.
Qed.

Lemma tracks_stop_at_limit cg child : tracks cg child on_error (stop_at_limit cg child).
Proof.
  unfold stop_at_limit. destruct cg as [cg|]; [|apply tracks_ret].
  eapply tracks_bind_r; [eapply tracks_attempt, tracks_reads; reads | by eexists|]. intros [[]|e].
  - eapply tracks_bind_l; [apply tracks_terminate_cgroup_child | done..|]. intros _. apply tracks_reads, reads_throw.
  - apply tracks_ret.
  - eapply tracks_bind_l; [apply tracks_terminate_cgroup_child | done..|]. intros _. apply tracks_reads, reads_throw.
Qed.

(** ** The waiting loop *)

Context `{!SleepLaws}.

(** What the loop adds to the log of a child. *)
Record wait_result (cg : option TaskCgroup) (child deadline : Z) (r : outcome ToolOutput ProcessAdapterError)
    (t : list HostCall) (w w' : World) : Prop := {
  wr_time : world_le w w';
  wr_about : Forall (about_child cg child) t;
  wr_ends : r <> Panic;
  wr_waited : r <> Raise ProcWaitFailed -> waited child t;
  wr_success : forall out, r = Return out -> output_bytes out = [] /\ CallTryWait child (Ok (Some true)) ∈ t;
  wr_timeout : r = Raise ProcTimedOut ->
    exists n, (instants_read w <= n < instants_read w')%nat /\ deadline <= instant_at n;
}.

(** A tracked end of the loop. *)
Lemma wait_result_raise cg child deadline e t w w' :
  world_le w w' -> Forall (about_child cg child) t -> (e <> ProcWaitFailed -> waited child t) ->
  (e = ProcTimedOut -> exists n, (instants_read w <= n < instants_read w')%nat /\ deadline <= instant_at n) ->
  wait_result cg child deadline (Raise e) t w w'.
Proof. intros Hw Ha Hwt Ht. split; try done; [intros Hne; apply Hwt; congruence | intros [= ->]; by apply Ht]. Qed.

Lemma reads_check_limit cg : reads (check_limit (K := Logged K) cg).
Proof. unfold check_limit. reads. Qed.

Abbreviation loop_post cg child deadline l w := (fun r l' w' =>
  exists t, log l' = log l ++ t /\ wait_result cg child deadline r t w w').

(** The child has exited. *)
Lemma wait_exited cg child deadline b (l l1 : Logged K) w :
  log l1 = log l ++ [CallTryWait child (Ok (Some b))] ->
  wp (do! check_limit cg in
      if b then lift (res_map_err (fun _ => ProcOutputFailed) (ToolOutput_from_bytes [])) else throw ProcExitFailed)
     (loop_post cg child deadline l w) l1 w.
Proof.
  intros Hl1. apply wp_bind. eapply wp_traces; [apply traces_only; [apply reads_check_limit | apply check_limit_errors]|].
  intros r l2 w2 t2 Ht2 [(Hr2 & -> & Hp2) Hnt]. rewrite Hl1, <-app_assoc in Ht2.
  assert (Hab : Forall (about_child cg child) ([CallTryWait child (Ok (Some b))] ++ t2)).
  { constructor; [done | by apply reads_about]. }
  assert (Hw : waited child ([CallTryWait child (Ok (Some b))] ++ t2)).
  { apply waited_app_l. right. exists b. by apply list_elem_of_here. }
  destruct r as [[]|e|]; [| |by destruct Hp2].
  - destruct b; eexists; (split; [exact Ht2|]).
    + split; try done. intros out [= <-]. split; [done | by apply list_elem_of_here].
    + by apply wait_result_raise.
  - eexists. split; [exact Ht2|]. apply wait_result_raise; [done.. |]. intros ->. by destruct (Hnt _ eq_refl).
Qed.

(** Its status could not be asked for. *)
Lemma wait_unknown cg child deadline i (l l1 : Logged K) w :
  log l1 = log l ++ [CallTryWait child (Err i)] ->
  wp (do! abandon_child cg child in throw ProcWaitFailed) (loop_post cg child deadline l w) l1 w.
Proof.
  intros Hl1. apply wp_bind. eapply wp_traces; [apply traces_only; [apply tracks_abandon | apply abandon_child_errors]|].
  intros r l2 w2 t2 Ht2 [(-> & Ha2 & Hp2 & Hw2) Hne]. rewrite Hl1, <-app_assoc in Ht2.
  destruct r as [[]|e|]; [|by destruct (Hne e)|done]. eexists. split; [exact Ht2|].
  apply wait_result_raise; [done | by constructor | done..].
Qed.

(** It runs: the limits and the deadline are checked, then the loop goes on. *)
Lemma wait_running cg child deadline (next : Proc ToolOutput) (l l1 : Logged K) w :
  let now := instant_at (instants_read w) in
  let w1 := mk_World (S (instants_read w)) (system_times_read w) (uuids_minted w) in
  log l1 = log l ++ [CallTryWait child (Ok None)] ->
  (forall l2 w2 t, log l2 = log l ++ t -> Forall (about_child cg child) t -> world_le w1 w2 -> now < deadline ->
     now + Z.min WAIT_POLL_INTERVAL (deadline - now) <= instant_at (instants_read w2) ->
     wp next (loop_post cg child deadline l2 w2) l2 w2) ->
  wp (do! stop_at_limit cg child in
      if deadline <=? now then do! stop_at_deadline cg child in throw ProcTimedOut
      else do! thread_sleep (Z.min WAIT_POLL_INTERVAL (Duration_saturating_sub deadline now)) in next)
     (loop_post cg child deadline l w) l1 w1.
Proof.
  intros now w1 Hl1 Hnext. pose proof (world_le_now w : world_le w w1) as Hw1. apply wp_bind.
  eapply wp_traces; [apply traces_only; [apply tracks_stop_at_limit | apply stop_at_limit_errors]|].
  intros r l2 w2 t2 Ht2 [(-> & Ha2 & Hp2 & Hwt2) Hnt]. rewrite Hl1, <-app_assoc in Ht2.
  assert (Hab2 : Forall (about_child cg child) ([CallTryWait child (Ok None)] ++ t2)) by (by constructor).
  destruct r as [[]|e|]; [| |done].
  2:{ eexists. split; [exact Ht2|]. apply wait_result_raise; [done | done | |].
      - intros Hne. apply waited_app_r, Hwt2. by exists e.
      - intros ->. by destruct (Hnt _ eq_refl). }
  destruct (Z.leb_spec deadline now) as [Hpast|Hlive].
  - apply wp_bind. eapply wp_traces; [apply traces_only; [apply tracks_stop_at_deadline | apply stop_at_deadline_errors]|].
    intros r l3 w3 t3 Ht3 [(-> & Ha3 & Hp3 & Hwt3) Hnt3]. rewrite Ht2, <-app_assoc in Ht3.
    assert (Hab3 : Forall (about_child cg child) (([CallTryWait child (Ok None)] ++ t2) ++ t3)) by (by apply Forall_app).
    destruct r as [[]|e|]; [| |done]; eexists; (split; [exact Ht3|]); apply wait_result_raise; try done.
    + intros _. by apply waited_app_r, Hwt3.
    + intros _. exists (instants_read w). split; [simpl; lia | done].
    + intros Hne. apply waited_app_r, Hwt3. intros [= ->]. done.
    + intros ->. by destruct (Hnt3 _ eq_refl).
  - apply wp_bind. unfold thread_sleep at 1, wp at 1.
    set (d := Z.min WAIT_POLL_INTERVAL (Duration_saturating_sub deadline now)).
    pose proof (world_le_sleep d w1) as Hw2.
    eapply wp_mono; [eapply (Hnext l2); [exact Ht2 | done | exact Hw2 | done|]|].
    + pose proof (sleep_long_enough d w1 (instants_read w) ltac:(simpl; lia)) as Hs. simpl in Hs |- *.
      subst d. unfold Duration_saturating_sub in Hs |- *. rewrite Z.max_r in Hs |- * by lia. exact Hs.
    + intros r l3 w3 (t3 & Ht3 & [Htime Hab3 Hends Hwt3 Hsucc Hto]). exists (([CallTryWait child (Ok None)] ++ t2) ++ t3).
      rewrite Ht3, Ht2, <-app_assoc. split; [done|].
      split; [by etrans; [|etrans]| by apply Forall_app | done | intros Hne; by apply waited_app_r, Hwt3 | |].
      * intros out Hout. destruct (Hsucc out Hout). split; [done | set_solver].
      * intros Hr. destruct (Hto Hr) as (n & Hn & Hdn). exists n. split; [|done]. simpl in Hn. lia.
Qed.

Lemma wait_loop_traces fuel cg child deadline : forall (l : Logged K) w,
  deadline <= instant_at (instants_read w) + WAIT_POLL_INTERVAL * (Z.of_nat fuel - 1) -> (0 < fuel)%nat ->
  wp (wait_loop fuel cg child deadline) (loop_post cg child deadline l w) l w.
Proof.
  induction fuel as [|fuel IH]; intros l w Hd Hf; [lia|]. cbn [wait_loop]. apply wp_bind.
  eapply wp_traces; [apply traces_logged|]. intros r1 l1 w1 t1 Ht1 (status & -> & -> & ->).
  destruct status as [[[]|]|i].
  - by apply (wait_exited cg child deadline true).
  - by apply (wait_exited cg child deadline false).
  - apply wp_bind, wp_Instant_now. apply (wait_running _ _ _ (wait_loop fuel cg child deadline) l); [done|].
    intros l2 w2 t _ _ _ Hlive Hnext. apply IH; unfold WAIT_POLL_INTERVAL, Duration_from_millis in *; lia.
  - by eapply wait_unknown.
Qed.

End Child.
