(* ===== verification/RootfsBuild.v ===== *)
(** * Properties of the rootfs builder (aios-rootfs-build)

    The builder of the minimal root filesystem, on any host, against the list of
    changes it is meant to make. *)

From stdpp Require Import base numbers list gmap strings sorting.
From Stdlib Require Import ZArith Lia.
From S2P Require Import Prelude RustStd RustOs TaskState TaskSpec Policy Event Approval Supervisor SupervisorInv.
From S2P Require Import Execution Facade ToolAdapter ProcessHost Seccomp Cgroup Rootfs Descriptor Process.
From S2P Require Import RootfsProps HostLog ProcessFacts DemoHost.

#[local] Open Scope Z_scope.

(** ** Plans *)

(** The same call with the answer that it failed. *)
Definition failed_call (c : HostCall) : HostCall :=
  match c with
  | CallCreateDir p mode _ => CallCreateDir p mode false
  | CallSetPermissions p mode _ => CallSetPermissions p mode false
  | CallCreateNew p mode _ => CallCreateNew p mode false
  | CallCopy s d _ => CallCopy s d false
  | c => c
  end.

(** The plan was followed up to some point, where a call may have failed. *)
Inductive partly : list HostCall -> list HostCall -> Prop :=
| partly_stop p : partly p []
| partly_fail c p : partly (c :: p) [failed_call c]
| partly_step c p t : partly p t -> partly (c :: p) (c :: t).

Lemma partly_app p q t : partly q t -> partly (p ++ q) (p ++ t).
Proof. intros Ht. induction p as [|c p IH]; simpl; [done | by constructor]. Qed.

Lemma partly_app_l p q t : partly p t -> partly (p ++ q) t.
Proof. induction 1; simpl; by constructor. Qed.

Section Follows.
Context {K E : Type}.

(** A success makes the changes of one of the plans [S]; an error leaves one of them
    followed in part. *)
Definition follows {A} (S : list HostCall -> Prop) (m : M (Logged K) E A) : Prop :=
  traces m (fun r t w w' => w' = w /\
    match r with
    | Return _ => S (effects t)
    | Raise _ => exists p, S p /\ partly p (effects t)
    | Panic => False
    end).

Lemma follows_mono {A} (S S' : list HostCall -> Prop) (m : M (Logged K) E A) :
  follows S m -> (forall p, S p -> S' p) -> follows S' m.
Proof.
  intros Hm HS. eapply traces_mono; [exact Hm|]. intros r t w w' [-> Hr]. split; [done|].
  destruct r as [a|e|]; [by apply HS | destruct Hr as (p & Hp & ?); eauto | done].
Qed.

Lemma follows_throw {A} (S : list HostCall -> Prop) p (e : E) : S p -> follows S (throw e : M (Logged K) E A).
Proof. intros Hp l w. apply wp_throw. exists []. rewrite app_nil_r. split; [done|]. split; [done|]. exists p. by split; [|constructor]. Qed.

(** Reads are in no plan. *)
Lemma follows_reads {A} (m : M (Logged K) E A) : reads m -> follows (fun p => p = []) m.
Proof.
  intros Hm. eapply traces_mono; [exact Hm|]. intros r t w w' (Hr & -> & Hp). split; [done|].
  rewrite (effects_reads _ Hr). destruct r; [done | exists []; by split; [|constructor] | by apply Hp].
Qed.

Lemma follows_bind {A B} (S1 : list HostCall -> Prop) (S2 : A -> list HostCall -> Prop) a0 q0
    (m : M (Logged K) E A) (f : A -> M (Logged K) E B) :
  follows S1 m -> (forall a, follows (S2 a) (f a)) -> S2 a0 q0 ->
  follows (fun p => exists a p1 p2, S1 p1 /\ S2 a p2 /\ p = p1 ++ p2) (bind m f).
Proof.
  intros Hm Hf H0 l w. apply wp_bind. eapply wp_traces; [exact Hm|].
  intros [a|e|] l1 w1 t1 Ht1 [-> Hr]; [| |done].
  - eapply wp_traces; [apply Hf|]. intros r l2 w2 t2 Ht2 [-> Hr2]. exists (t1 ++ t2).
    rewrite Ht2, Ht1, app_assoc. split; [done|]. split; [done|]. rewrite effects_app.
    destruct r as [b|e|]; [eauto 10 | | done]. destruct Hr2 as (p & Hp & Hpt).
    exists (effects t1 ++ p). split; [eauto 10 | by apply partly_app].
  - destruct Hr as (p & Hp & Hpt). exists t1. split; [done|]. split; [done|].
    exists (p ++ q0). split; [eauto 10 | by apply partly_app_l].
Qed.

(** After reads, the plans of the rest. *)
Lemma follows_then {A B} (S : list HostCall -> Prop) q (m : M (Logged K) E A) (f : A -> M (Logged K) E B) :
  reads m -> S q -> (forall a, follows S (f a)) -> follows S (bind m f).
Proof.
  intros Hm Hq Hf l w. apply wp_bind. eapply wp_traces; [exact Hm|]. intros [a|e|] l1 w1 t1 Ht1 (Hr & -> & Hp).
  - eapply wp_traces; [apply Hf|]. intros r l2 w2 t2 Ht2 [-> Hr2]. exists (t1 ++ t2).
    rewrite Ht2, Ht1, app_assoc. split; [done|]. split; [done|]. by rewrite effects_app, (effects_reads _ Hr).
  - exists t1. split; [done|]. split; [done|]. rewrite (effects_reads _ Hr). exists q. split; [done | constructor].
  - by destruct Hp.
Qed.

(** One call of the plan. *)
Lemma follows_call {A} (e : E) c entry (op : K -> Result A IoError * K) :
  ~ is_read c -> ~ is_read (failed_call c) -> (forall a, entry (Ok a) = c) -> (forall i, entry (Err i) = failed_call c) ->
  follows (fun p => p = [c]) (sys_or e (logged entry op)).
Proof.
  intros Hc Hf Hok Herr. eapply traces_mono; [apply traces_logged_or|].
  intros r t w w' [-> [(a & -> & ->)|(i & -> & ->)]]; (split; [done|]); rewrite ?Hok, ?Herr; unfold effects;
    rewrite filter_cons, decide_True by done; [done|]. exists [c]. split; [done | constructor].
Qed.

Lemma follows_seq {B} p q (m : M (Logged K) E unit) (f : unit -> M (Logged K) E B) :
  follows (fun x => x = p) m -> (forall a, follows (fun x => x = q) (f a)) -> follows (fun x => x = p ++ q) (bind m f).
Proof.
  intros Hm Hf. eapply follows_mono; [apply (follows_bind (fun x => x = p) (fun _ x => x = q) tt q); done|].
  by intros x (_ & p1 & p2 & -> & -> & ->).
Qed.

Lemma follows_each {A} (f : A -> M (Logged K) E unit) (c : A -> HostCall) xs :
  (forall a, follows (fun p => p = [c a]) (f a)) -> follows (fun p => p = map c xs) (for_each f xs).
Proof.
  intros Hf. induction xs as [|a xs IH]; simpl; [apply follows_reads, reads_ret|].
  by apply (follows_seq [c a] (map c xs)).
Qed.

End Follows.

(** ** The builder *)

(** The changes of a build, in order: modes 0o700, 0o500 and 0o555; [source] and
    [destination] are the open files of the copy. *)
Definition build_plan (output : string) (source destination : Z) : list HostCall :=
  CallCreateDir output 448 true
  :: map (fun relative => CallCreateDir (path_join output relative) 448 true) MINIMAL_DIRECTORIES
  ++ [CallCreateNew (path_join output "bin/busybox") 320 true; CallCopy source destination true;
      CallSetPermissions (path_join output "bin/busybox") 365 true]
  ++ map (fun relative => CallSetPermissions (path_join output relative) 365 true) MINIMAL_DIRECTORIES
  ++ [CallSetPermissions output 365 true].

Section Build.
Context {K : Type} `{!Files K, !Trees K, !Sha256}.

Lemma create_dir_follows p mode :
  follows (fun q => q = [CallCreateDir p mode true]) (sys_or (K := Logged K) ProcInvalidSandbox (f_create_dir p mode)).
Proof. apply follows_call; (done || by intros []). Qed.

Lemma set_permissions_follows p mode :
  follows (fun q => q = [CallSetPermissions p mode true])
    (sys_or (K := Logged K) ProcInvalidSandbox (f_set_permissions p mode)).
Proof. apply follows_call; (done || by intros []). Qed.

Lemma create_new_follows p mode :
  follows (fun q => q = [CallCreateNew p mode true]) (sys_or (K := Logged K) ProcInvalidSandbox (t_create_new p mode)).
Proof. apply follows_call; (done || by intros []). Qed.

Lemma copy_follows s d :
  follows (fun q => q = [CallCopy s d true]) (sys_or (K := Logged K) ProcInvalidSandbox (t_copy s d)).
Proof. apply follows_call; (done || by intros []). Qed.

(** The last steps: the tree is sealed and measured. *)
Lemma seal_follows output destination (rest : M (Logged K) ProcessAdapterError RootFilesystemDigest) :
  reads rest ->
  follows (fun p => p = [CallSetPermissions destination 365 true]
             ++ map (fun relative => CallSetPermissions (path_join output relative) 365 true) MINIMAL_DIRECTORIES
             ++ [CallSetPermissions output 365 true])
    (do! sys_or ProcInvalidSandbox (f_set_permissions destination 365) in
     do! for_each (fun relative => sys_or ProcInvalidSandbox (f_set_permissions (path_join output relative) 365))
           MINIMAL_DIRECTORIES in
     do! sys_or ProcInvalidSandbox (f_set_permissions output 365) in rest).
Proof.
  intros Hrest. apply follows_seq; [apply set_permissions_follows | intros []].
  apply follows_seq; [apply (follows_each _ (fun relative => CallSetPermissions (path_join output relative) 365 true));
    intros a; apply set_permissions_follows | intros []].
  rewrite <-(app_nil_r [CallSetPermissions output 365 true]).
  apply follows_seq; [apply set_permissions_follows | intros []; by apply follows_reads].
Qed.

Lemma reads_measure output : reads (RootFilesystemDigest_measure (K := Logged K) output).
Proof. unfold RootFilesystemDigest_measure. reads. Qed.

Lemma reads_verify output d : reads (VerifiedRootFilesystem_open (K := Logged K) output d).
Proof. unfold VerifiedRootFilesystem_open, validate_tree. reads. Qed.

#[local] Hint Resolve reads_measure reads_verify : reads.

(** The copy, between the directories and the seal. *)
Lemma copy_steps_follow output source source_metadata :
  follows (fun p => exists sf df, CallCreateDir output 448 true
      :: map (fun relative => CallCreateDir (path_join output relative) 448 true) MINIMAL_DIRECTORIES ++ p
      = build_plan output sf df)
    (let! source_file := sys_or ProcInvalidSandbox (t_open source) in
     let! opened := sys_or ProcInvalidSandbox (t_file_metadata source_file) in
     if negb (md_dev opened =? md_dev source_metadata) || negb (md_ino opened =? md_ino source_metadata)
        || negb (md_len opened =? md_len source_metadata)
     then throw ProcInvalidSandbox
     else
       let destination := path_join output "bin/busybox" in
       let! destination_file := sys_or ProcInvalidSandbox (t_create_new destination 320) in
       let! copied := sys_or ProcInvalidSandbox (t_copy source_file destination_file) in
       if negb (copied =? md_len source_metadata) then throw ProcInvalidSandbox
       else
         do! sys_or ProcInvalidSandbox (f_set_permissions destination 365) in
         do! for_each (fun relative =>
               sys_or ProcInvalidSandbox (f_set_permissions (path_join output relative) 365))
               MINIMAL_DIRECTORIES in
         do! sys_or ProcInvalidSandbox (f_set_permissions output 365) in
         let! digest := RootFilesystemDigest_measure output in
         do! VerifiedRootFilesystem_open output digest in
         ret digest : M (Logged K) ProcessAdapterError RootFilesystemDigest).
Proof.
  assert (Hin : exists sf df, CallCreateDir output 448 true
      :: map (fun relative => CallCreateDir (path_join output relative) 448 true) MINIMAL_DIRECTORIES
         ++ drop 6 (build_plan output 0 0) = build_plan output sf df) by (by exists 0, 0).
  eapply follows_then; [reads | exact Hin | intros sf]. eapply follows_then; [reads | exact Hin | intros opened].
  destruct (_ || _); [by eapply follows_throw|]. cbv zeta.
  eapply follows_mono; [eapply (follows_bind _ (fun df p => p = drop 7 (build_plan output sf df)) 0);
    [apply create_new_follows | intros df | reflexivity]|].
  2:{ intros p (df & p1 & p2 & -> & -> & ->). by exists sf, df. }
  eapply follows_mono; [eapply (follows_bind _ (fun _ p => p = drop 8 (build_plan output sf df)) 0);
    [apply copy_follows | intros copied | reflexivity]|].
  2:{ by intros p (_ & p1 & p2 & -> & -> & ->). }
  destruct (negb _); [by eapply follows_throw|]. apply seal_follows. reads.
Qed.

Lemma build_follows busybox output :
  follows (fun p => exists sf df, p = build_plan output sf df)
    (build_minimal_root_filesystem (K := Logged K) busybox output).
Proof.
  assert (Hin : exists sf df, build_plan output 0 0 = build_plan output sf df) by (by exists 0, 0).
  unfold build_minimal_root_filesystem. destruct (_ || _); [by eapply follows_throw|].
  eapply follows_then; [reads | exact Hin | intros []]. eapply follows_then; [reads | exact Hin | intros link].
  destruct (_ || _); [by eapply follows_throw|].
  eapply follows_then; [reads | exact Hin | intros source]. eapply follows_then; [reads | exact Hin | intros sm].
  destruct (_ || _); [by eapply follows_throw|].
  eapply follows_mono; [eapply (follows_bind _ (fun _ p => exists sf df, CallCreateDir output 448 true :: p = build_plan output sf df) tt);
    [apply create_dir_follows | intros [] | by exists 0, 0]|].
  2:{ intros p (_ & p1 & p2 & -> & Hp & ->). exact Hp. }
  eapply follows_mono; [eapply (follows_bind _ (fun _ => _) tt);
    [apply (follows_each _ (fun relative => CallCreateDir (path_join output relative) 448 true)); intros a;
       apply create_dir_follows | intros []; apply copy_steps_follow | by exists 0, 0]|].
  intros p (_ & p1 & p2 & -> & Hp & ->). exact Hp.
Qed.

End Build.

(** ** The digest *)

Section Measured.
Context {K : Type} `{!Files K, !Trees K, !Sha256}.
Implicit Types l : Logged K.

(** From [sealed] on the host was only read, and the digest is that of the tree it
    then showed at the canonical path of [output], twice: when it was measured and,
    afterwards, when it was verified. *)
Definition measured_and_verified (output : string) (d : RootFilesystemDigest) (sealed finished : Logged K) : Prop :=
  (exists t, log finished = log sealed ++ t /\ Forall is_read t)
  /\ exists l1 directory l2 tree l3 l4 directory' l5 l6 tree' l7,
       f_canonicalize output l1 = (Ok directory, l2) /\ tree_shown directory l2 tree l3
       /\ d = mk_RootFilesystemDigest (sha256 (encode_tree tree))
       /\ log sealed `prefix_of` log l1 /\ log l3 `prefix_of` log l4
       /\ f_canonicalize output l4 = (Ok directory', l5) /\ tree_shown directory' l6 tree' l7
       /\ d = mk_RootFilesystemDigest (sha256 (encode_tree tree'))
       /\ log l5 `prefix_of` log l6 /\ log l7 `prefix_of` log finished.

(** A success of a step of the builder, whatever came before it. *)
Definition reports {A} (Q : A -> Logged K -> Logged K -> Prop) (m : M (Logged K) ProcessAdapterError A) : Prop :=
  forall l w a l' w', m l w = (Return a, l', w') -> Q a l l'.

Lemma reports_then {A B} (Q : B -> Logged K -> Prop) (m : M (Logged K) ProcessAdapterError A) f :
  (forall a, reports (fun b _ => Q b) (f a)) -> reports (fun b _ => Q b) (bind m f).
Proof.
  intros Hf l w b l' w'. unfold bind. destruct (m l w) as [[[a|e|] l1] w1]; [|done..]. apply Hf.
Qed.

Lemma reads_grow {A E} (m : M (Logged K) E A) l w r l' w' :
  reads m -> m l w = (r, l', w') -> exists t, log l' = log l ++ t /\ Forall is_read t.
Proof.
  intros Hm Hrun. specialize (Hm l w). unfold wp in Hm. rewrite Hrun in Hm. destruct Hm as (t & Ht & Hr & _). by exists t.
Qed.

(** The canonical path is found, after reads. *)
Lemma canonical_read_only_root_path output l w directory l' w' :
  canonical_read_only_root output l w = (Return directory, l', w') ->
  exists l1, log l `prefix_of` log l1 /\ f_canonicalize output l1 = (Ok directory, l').
Proof.
  unfold canonical_read_only_root. destruct (_ || _); [done|].
  unfold bind at 1. destruct (sys_or _ (f_symlink_metadata output) l w) as [[[m|e|] l1] w1] eqn:H1; [|done..].
  destruct (_ || _); [done|].
  unfold bind at 1. destruct (validate_read_only_directory output l1 w1) as [[[[]|e|] l2] w2] eqn:H2; [|done..].
  unfold sys_or, bind, sys, lift. destruct (f_canonicalize output l2) as [[c|i] l3] eqn:H3; [|done]. cbn.
  destruct (path_is_root_dir c); [done|]. intros [= -> -> _]. exists l2. split; [|done].
  apply reads_grow in H1 as (t1 & H1 & _); [|reads]. apply reads_grow in H2 as (t2 & H2 & _); [|reads].
  rewrite H2, H1, <-app_assoc. by eexists.
Qed.

Lemma measure_shown output l w d l' w' :
  RootFilesystemDigest_measure output l w = (Return d, l', w') ->
  exists l1 directory l2 tree, log l `prefix_of` log l1 /\ f_canonicalize output l1 = (Ok directory, l2)
    /\ tree_shown directory l2 tree l' /\ d = mk_RootFilesystemDigest (sha256 (encode_tree tree)).
Proof.
  unfold RootFilesystemDigest_measure, bind.
  destruct (canonical_read_only_root output l w) as [[[directory|e|] l1] w1] eqn:Hc; [|done..].
  apply canonical_read_only_root_path in Hc as (l0 & Hp & Hc). intros (_ & t & Hs & _ & Hd)%measure_tree_shown.
  by exists l0, directory, l1, t.
Qed.

Lemma verify_shown output d l w v l' w' :
  VerifiedRootFilesystem_open output d l w = (Return v, l', w') ->
  exists l1 directory l2 l3 tree l4, log l `prefix_of` log l1 /\ f_canonicalize output l1 = (Ok directory, l2)
    /\ log l2 `prefix_of` log l3 /\ tree_shown directory l3 tree l4
    /\ d = mk_RootFilesystemDigest (sha256 (encode_tree tree)) /\ log l4 `prefix_of` log l'.
Proof.
  unfold VerifiedRootFilesystem_open. unfold bind at 1.
  destruct (canonical_read_only_root output l w) as [[[directory|e|] l1] w1] eqn:Hc; [|done..].
  apply canonical_read_only_root_path in Hc as (l0 & Hp & Hc).
  unfold bind at 1. destruct (validate_sandbox_mount_points directory l1 w1) as [[[[]|e|] l2] w2] eqn:H2; [|done..].
  unfold bind at 1. destruct (DirectoryIdentity_read directory l2 w2) as [[[i|e|] l3] w3] eqn:H3; [|done..].
  unfold bind at 1, validate_tree.
  unfold bind at 1. destruct (validate_read_only_directory directory l3 w3) as [[[[]|e|] l4] w4] eqn:H4; [|done..].
  unfold bind at 1. destruct (DirectoryIdentity_read directory l4 w4) as [[[j|e|] l5] w5] eqn:H5; [|done..].
  destruct (negb _); [done|].
  unfold bind at 1. destruct (measure_tree directory l5 w5) as [[[d'|e|] l6] w6] eqn:H6; [|done..].
  case_bool_decide as Hd; [|done]. cbn [negb]. unfold ret. intros [= _ <- _]. subst d'.
  apply measure_tree_shown in H6 as (_ & tree & Hs & _ & Hd).
  exists l0, directory, l1, l5, tree, l6. split_and!; try done.
  apply reads_grow in H2 as (t2 & H2 & _); [|reads]. apply reads_grow in H3 as (t3 & H3 & _); [|reads].
  apply reads_grow in H4 as (t4 & H4 & _); [|reads]. apply reads_grow in H5 as (t5 & H5 & _); [|reads].
  rewrite H5, H4, H3, H2, <-!app_assoc. by eexists.
Qed.

(** The last two steps of a build. *)
Lemma measured_steps output :
  reports (fun d l l' => measured_and_verified output d l l')
    (let! digest := RootFilesystemDigest_measure output in
     do! VerifiedRootFilesystem_open output digest in
     ret digest).
Proof.
  intros l w d l' w'. unfold bind.
  destruct (RootFilesystemDigest_measure output l w) as [[[d1|e|] l1] w1] eqn:H1; [|done..].
  destruct (VerifiedRootFilesystem_open output d1 l1 w1) as [[[v|e|] l2] w2] eqn:H2; [|done..].
  unfold ret. intros [= <- <- _].
  destruct (reads_grow _ _ _ _ _ _ (reads_measure output) H1) as (t1 & Ht1 & Hr1).
  destruct (reads_grow _ _ _ _ _ _ (reads_verify output d1) H2) as (t2 & Ht2 & Hr2).
  apply measure_shown in H1 as (la & dir & lb & tree & ? & ? & ? & ?).
  apply verify_shown in H2 as (lc & dir' & ld & le & tree' & lf & ? & ? & ? & ? & ? & ?).
  split.
  - exists (t1 ++ t2). rewrite Ht2, Ht1, app_assoc. split; [done | by apply Forall_app].
  - exists la, dir, lb, tree, l1, lc, dir', ld, le, tree', lf. by split_and!.
Qed.

Lemma build_reports busybox output :
  reports (fun d _ l' => exists sealed, measured_and_verified output d sealed l')
    (build_minimal_root_filesystem (K := Logged K) busybox output).
Proof.
  unfold build_minimal_root_filesystem. destruct (_ || _); [by intros l w|].
  do 2 (apply reports_then; intros ?). destruct (_ || _); [by intros l w|].
  do 2 (apply reports_then; intros ?). destruct (_ || _); [by intros l w|].
  do 4 (apply reports_then; intros ?). destruct (_ || _); [by intros l w|]. cbv zeta.
  do 2 (apply reports_then; intros ?). destruct (negb _); [by intros l w|].
  do 3 (apply reports_then; intros ?). intros l w d l' w' Hrun. exists l. by apply measured_steps in Hrun.
Qed.

End Measured.


(** The builder on the concrete host. *)
Example demo_rootfs_builds :
  match rootfs_build_main ["aios-rootfs-build"; "/bin/true"; "/out"]%string (mk_Logged demo_host []) world0 with
  | (Return (code, _, _), l, _) => code = ExitSuccess /\ effects (log l) = build_plan "/out" 10 11
  | _ => False
  end.
Proof. vm_compute. split; reflexivity. Qed.
