(* ===== verification/ProcessProps.v ===== *)
(** * Properties of the process handler *)

From stdpp Require Import base numbers list gmap strings sorting.
From Stdlib Require Import ZArith Lia Ascii.
From S2P Require Import Prelude RustStd RustOs TaskState TaskSpec Policy Event Approval Supervisor SupervisorInv.
From S2P Require Import Execution Facade ToolAdapter ProcessHost Seccomp Cgroup Rootfs RootfsProps Descriptor Process.
From S2P Require Import HostLog ProcessFacts DemoHost.

#[local] Open Scope Z_scope.

(** ** The command *)

Section Command.
Open Scope string_scope.

(** The arguments in front of Bubblewrap's own. *)
Definition launch_prefix (b : BubblewrapLauncher) (cl : CgroupLaunch) : list string :=
  let '(process_file, device, inode) := launch_identity (cl_task_cgroup cl) in
  (if bool_decide (bl_mounts b = []) then [process_file; u64_to_string device; u64_to_string inode; bl_bubblewrap b]
   else ["--descriptor-broker"; process_file; u64_to_string device; u64_to_string inode; bl_bubblewrap b;
         u64_to_string (len (bl_mounts b))]
        ++ concat (map (fun m => ["read"; path (mount_capability m)]) (bl_mounts b)))%list.

Definition launch_program (b : BubblewrapLauncher) : string :=
  match bl_cgroup_launch b with Some cl => cl_launcher cl | None => bl_bubblewrap b end.

(** The options of every sandbox, written out: namespaces, session and capabilities;
    the read-only root, fresh [/proc], [/dev] and [/tmp], and the scratch directory. *)
Definition isolation_options : list string :=
  ["--unshare-all"; "--unshare-user"; "--disable-userns"; "--die-with-parent"; "--new-session"].

Definition filesystem_options (root scratch : string) : list string :=
  ["--cap-drop"; "ALL"; "--ro-bind"; root; "/"; "--proc"; "/proc"; "--dev"; "/dev"; "--tmpfs"; "/tmp";
   "--bind"; scratch; "/workspace"; "--chdir"; "/workspace"].

(** The command of a run, with the descriptor of the filter and the standard input. *)
Definition expected_command (h : ProcessToolHandler) (arguments : list string) (filter_fd : Z) (stdin : ChildStdin)
    : Command :=
  match ph_launcher h with
  | Direct => mk_Command (ph_executable h) (ph_fixed_arguments h ++ arguments)%list (ph_environment h)
                (ph_working_directory h) StdinNull
  | Bubblewrap b =>
      mk_Command (launch_program b)
        (match bl_cgroup_launch b with Some cl => launch_prefix b cl | None => [] end
         ++ isolation_options
         ++ (if bool_decide (bl_mounts b = []) then ["--seccomp"; u64_to_string filter_fd] else [])
         ++ filesystem_options (bl_root_filesystem b) (ph_working_directory h)
         ++ ["--"; bl_sandbox_executable b] ++ ph_fixed_arguments h ++ arguments)%list
        (ph_environment h) "/" (if bool_decide (bl_mounts b = []) then StdinNull else stdin)
  end.

End Command.

(** The file was looked at and is the pinned executable. *)
Definition pinned_in (t : list HostCall) (p : string) (i : ExecutableIdentity) : Prop :=
  exists m, CallMetadata p (Ok m) ∈ t /\ is_file m = true /\ Z.land (md_mode m) 73 <> 0
    /\ i = mk_ExecutableIdentity (md_dev m) (md_ino m).

Lemma pinned_in_app_l t1 t2 p i : pinned_in t1 p i -> pinned_in (t1 ++ t2) p i.
Proof. intros (m & Hm & ?). exists m. set_solver. Qed.

Lemma pinned_in_app_r t1 t2 p i : pinned_in t2 p i -> pinned_in (t1 ++ t2) p i.
Proof. intros (m & Hm & ?). exists m. set_solver. Qed.

#[export] Hint Resolve pinned_in_app_l pinned_in_app_r : reads.

(** Every executable of the launcher. *)
Definition launcher_pinned (t : list HostCall) (h : ProcessToolHandler) : Prop :=
  match ph_launcher h with
  | Direct => True
  | Bubblewrap b => pinned_in t (bl_bubblewrap b) (bl_bubblewrap_identity b)
      /\ match bl_cgroup_launch b with
         | Some cl => pinned_in t (cl_launcher cl) (cl_launcher_identity cl)
         | None => True
         end
  end.

Lemma launcher_pinned_app_l t1 t2 h : launcher_pinned t1 h -> launcher_pinned (t1 ++ t2) h.
Proof.
  unfold launcher_pinned. destruct (ph_launcher h) as [|b]; [done|]. intros [H1 H2].
  split; [by apply pinned_in_app_l|]. destruct (bl_cgroup_launch b); [by apply pinned_in_app_l | done].
Qed.

Lemma launcher_pinned_app_r t1 t2 h : launcher_pinned t2 h -> launcher_pinned (t1 ++ t2) h.
Proof.
  unfold launcher_pinned. destruct (ph_launcher h) as [|b]; [done|]. intros [H1 H2].
  split; [by apply pinned_in_app_r|]. destruct (bl_cgroup_launch b); [by apply pinned_in_app_r | done].
Qed.

(** What a request must satisfy before anything is started. *)
Record request_accepted (h : ProcessToolHandler) (arguments : list string) (timeout : Z) (authorized : bool) : Prop := {
  ra_timeout : timeout <> 0 /\ timeout <= MAX_TIMEOUT;
  ra_arguments : process_validate_arguments (ph_fixed_arguments h) arguments = Ok tt;
  ra_policy : ph_argument_policy h arguments = true;
  ra_mounts : handler_mounts h = [] \/ authorized = true;
}.

Section Runs.
Context {K : Type} `{!Files K, !Trees K, !Sha256, !MemoryFiles K, !Descriptors K, !Processes K, !TaskIdText}.
Context `{EnvLaws} `{!Sleeps, !SleepLaws}.
Implicit Types (l : Logged K) (h : ProcessToolHandler).

(** Reads with a fact about what was read. *)
Definition reads_to {A E} (Q : A -> list HostCall -> Prop) (m : M (Logged K) E A) : Prop :=
  traces m (fun r t w w' => Forall is_read t /\ w' = w /\ r <> Panic /\ forall a, r = Return a -> Q a t).

Lemma reads_to_bind {A B E} (Q1 : A -> list HostCall -> Prop) (Q2 : B -> list HostCall -> Prop)
    (m : M (Logged K) E A) (f : A -> M (Logged K) E B) :
  reads_to Q1 m -> (forall a, reads_to (fun b t2 => forall t1, Q1 a t1 -> Q2 b (t1 ++ t2)) (f a)) -> reads_to Q2 (bind m f).
Proof.
  intros Hm Hf l w. apply wp_bind. eapply wp_traces; [exact Hm|].
  intros [a|e|] l1 w1 t1 Ht1 (Hr1 & -> & Hp & HQ); [| |done].
  - eapply wp_traces; [apply Hf|]. intros r l2 w2 t2 Ht2 (Hr2 & -> & Hp2 & HQ2). exists (t1 ++ t2).
    rewrite Ht2, Ht1, app_assoc. split; [done|]. split; [by apply Forall_app|]. split; [done|]. split; [done|].
    intros b Hb. by apply HQ2, HQ.
  - by exists t1.
Qed.

Lemma reads_to_reads {A E} (m : M (Logged K) E A) (Q : A -> list HostCall -> Prop) :
  reads m -> (forall a t, Q a t) -> reads_to Q m.
Proof. intros Hm HQ. eapply traces_mono; [exact Hm|]. intros r t w w' (? & -> & Hp). repeat split; auto. Qed.

Lemma reads_to_ret {A E} (Q : A -> list HostCall -> Prop) (a : A) : Q a [] -> reads_to (E := E) Q (ret a).
Proof. intros HQ l w. apply wp_ret. exists []. rewrite app_nil_r. repeat (split; [done|]). by intros a' [= <-]. Qed.

Lemma reads_to_throw {A E} (Q : A -> list HostCall -> Prop) (e : E) : reads_to Q (throw e).
Proof. intros l w. apply wp_throw. exists []. rewrite app_nil_r. by repeat (split; [done|]). Qed.

Lemma reads_to_mono {A E} (Q Q' : A -> list HostCall -> Prop) (m : M (Logged K) E A) :
  reads_to Q m -> (forall a t, Q a t -> Q' a t) -> reads_to Q' m.
Proof.
  intros Hm HQ. eapply traces_mono; [exact Hm|]. intros r t w w' (? & -> & Hp & Hq). repeat split; auto.
Qed.

Lemma require_executable_pins p i :
  reads_to (fun _ t => pinned_in t p i) (require_executable (K := Logged K) p i).
Proof.
  unfold require_executable, ExecutableIdentity_read. intros l w. apply wp_bind, wp_bind.
  eapply wp_traces; [apply traces_logged_or|]. intros r l1 w1 t1 Ht1 [-> [(m & -> & ->)|(e & -> & ->)]].
  - destruct (_ || _) eqn:Hg; [exists [CallMetadata p (Ok m)]; by repeat constructor|].
    apply wp_ret. case_bool_decide as Hi; [apply wp_ret | apply wp_throw]; exists [CallMetadata p (Ok m)];
      (split; [done|]); (split; [by repeat constructor|]); (split; [done|]); (split; [done|]); [|done].
    intros _ _. exists m. bool_prop. split; [by apply list_elem_of_here|]. destruct Hg. by subst.
  - eexists. split; [exact Ht1|]. by repeat constructor.
Qed.

Lemma check_run_accepts h arguments timeout authorized :
  reads_to (fun _ t => request_accepted h arguments timeout authorized
                       /\ pinned_in t (ph_executable h) (ph_executable_identity h))
    (check_run (K := Logged K) h arguments timeout authorized).
Proof.
  unfold check_run. destruct (timeout_invalid timeout) eqn:Ht; [apply reads_to_throw|].
  destruct (process_validate_arguments _ _) as [[]|e] eqn:Ha; [|apply (reads_to_throw (A := unit))].
  change (bind (lift (Ok tt)) ?f) with (f tt). cbv beta.
  destruct (ph_argument_policy h arguments) eqn:Hpol; [|apply reads_to_throw]. cbn [negb].
  eapply reads_to_bind; [apply require_executable_pins|]. intros [].
  eapply reads_to_bind; [apply (reads_to_reads _ (fun _ _ => True)); [reads | done]|]. intros [].
  destruct (_ && _) eqn:Hm; [apply reads_to_throw|]. apply reads_to_ret. intros t2 _ t1 Hpin.
  split; [|rewrite app_nil_r; by apply pinned_in_app_l]. split; [|done..|].
  - unfold timeout_invalid, Duration_is_zero in Ht. bool_prop. lia.
  - apply andb_false_iff in Hm as [Hm|Hm]; apply negb_false_iff in Hm; [left | by right]. by apply bool_decide_eq_true in Hm.
Qed.

(** The rest of a computation after reads without a fact. *)
Lemma reads_then {A B E} (m : M (Logged K) E A) (f : A -> M (Logged K) E B) (Q : B -> list HostCall -> Prop) :
  reads m -> (forall a, reads_to Q (f a)) -> (forall b t1 t2, Q b t2 -> Q b (t1 ++ t2)) -> reads_to Q (bind m f).
Proof.
  intros Hm Hf HQ. eapply reads_to_bind; [apply (reads_to_reads _ (fun _ _ => True)); [exact Hm | done]|].
  intros a. eapply reads_to_mono; [apply Hf|]. intros b t Hb t1 _. by apply HQ.
Qed.

Lemma filter_number inherit :
  reads_to (fun f _ => 2 < raw_fd f) (SeccompFilterFile_create (K := Logged K) inherit).
Proof.
  unfold SeccompFilterFile_create. do 6 (apply reads_then; [reads | intros ? | done]).
  destruct (Z.leb_spec a0 2); [apply reads_to_throw | by apply reads_to_ret].
Qed.

(** The filter of a sandboxed run has a number above the standard streams. *)
Definition filter_for h (f : option SeccompFilterFile) : Prop :=
  match ph_launcher h with
  | Direct => True
  | Bubblewrap _ => exists fd, f = Some (mk_SeccompFilterFile fd) /\ 2 < fd
  end.

Lemma create_filter_number h : reads_to (fun f _ => filter_for h f) (create_filter (K := Logged K) h).
Proof.
  unfold create_filter, filter_for. destruct (ph_launcher h) as [|b]; [by apply reads_to_ret|].
  eapply reads_to_bind; [apply filter_number|]. intros [fd]. apply reads_to_ret. intros t Hfd. by exists fd.
Qed.

Definition command_ok h arguments (cs : Command * option DescriptorSender) (t : list HostCall) : Prop :=
  launcher_pinned t h /\ (cs.2 = None <-> handler_mounts h = [])
  /\ exists fd stdin, 2 < fd /\ cs.1 = expected_command h arguments fd stdin.

Lemma launcher_command_expected b :
  reads_to (fun r _ => let '(program, prefix, stdin, sender) := r in
      program = launch_program b /\ prefix = match bl_cgroup_launch b with Some cl => launch_prefix b cl | None => [] end
      /\ (sender = None <-> bl_mounts b = []) /\ (bl_mounts b = [] -> stdin = StdinNull))
    (launcher_command (K := Logged K) b).
Proof.
  unfold launcher_command, launch_program, launch_prefix. destruct (bl_cgroup_launch b) as [cl|].
  - destruct (launch_identity (cl_task_cgroup cl)) as [[process_file device] inode].
    case_bool_decide as Hm; [by apply reads_to_ret|].
    apply reads_then; [reads | | done]. intros channel. by apply reads_to_ret.
  - case_bool_decide as Hm; [by apply reads_to_ret | apply reads_to_throw].
Qed.

Lemma build_command_expected h f arguments :
  filter_for h f -> reads_to (command_ok h arguments) (build_command (K := Logged K) h f arguments).
Proof.
  unfold build_command, command_ok, filter_for, launcher_pinned, expected_command, handler_mounts.
  destruct (ph_launcher h) as [|b].
  { intros _. apply reads_to_ret. split; [done|]. split; [done|]. by exists 3, StdinNull. }
  intros (fd & -> & Hfd). unfold bubblewrap_command.
  eapply reads_to_bind; [apply require_executable_pins|]. intros [].
  eapply reads_to_bind; [apply (reads_to_reads _ (fun _ _ => True)); [reads | done]|]. intros [].
  eapply reads_to_bind with (Q1 := fun _ t => match bl_cgroup_launch b with
    Some cl => pinned_in t (cl_launcher cl) (cl_launcher_identity cl) | None => True end).
  { destruct (bl_cgroup_launch b) as [cl|]; [apply require_executable_pins | by apply reads_to_ret]. }
  intros []. eapply reads_to_bind; [apply launcher_command_expected|]. intros [[[program prefix] stdin] sender].
  eapply reads_to_bind with (Q1 := fun o _ => o = if bool_decide (bl_mounts b = []) then Some fd else None).
  { case_bool_decide; by apply reads_to_ret. }
  intros o. apply reads_to_ret. intros t5 -> t4 (-> & -> & Hs & Hstdin) t3 Hp3 t2 _ t1 Hp1. rewrite !app_nil_r.
  split; [split|].
  - by apply pinned_in_app_l.
  - destruct (bl_cgroup_launch b); [|done]. apply pinned_in_app_r, pinned_in_app_r. by apply pinned_in_app_l.
  - split; [done|]. exists fd, stdin. split; [done|]. case_bool_decide as Hm; [by rewrite (Hstdin Hm) | done].
Qed.

(** ** Runs *)

(** The calls of a run from the start of the process on. *)
Definition started h arguments (r : outcome ToolOutput ProcessAdapterError) (c : Command) (child : option Z)
    (rest : list HostCall) : Prop :=
  (exists fd stdin, 2 < fd /\ c = expected_command h arguments fd stdin)
  /\ match child with
     | None => rest = [] /\ r = Raise ProcSpawnFailed
     | Some pid => Forall (about_child (handler_cgroup h) pid) rest
         /\ (r <> Raise ProcWaitFailed -> waited pid rest)
         /\ (forall out, r = Return out -> output_bytes out = [] /\ CallTryWait pid (Ok (Some true)) ∈ rest)
     end.

Definition run_calls h arguments timeout authorized (r : outcome ToolOutput ProcessAdapterError) (t : list HostCall)
    : Prop :=
  (Forall is_read t /\ exists e, r = Raise e)
  \/ exists before c child rest, t = before ++ CallSpawn c child :: rest /\ Forall is_read before
       /\ request_accepted h arguments timeout authorized
       /\ pinned_in before (ph_executable h) (ph_executable_identity h) /\ launcher_pinned before h
       /\ started h arguments r c child rest.

Lemma wp_transfer h f sender child l w :
  wp (let! transfer := attempt (transfer_descriptors h f sender) in
      match transfer with
      | Ok _ => ret tt
      | Err error => do! abandon_child (handler_cgroup h) child in throw error
      end)
     (fun r l' w' => exists t, log l' = log l ++ t /\ w' = w /\ Forall (about_child (handler_cgroup h) child) t
        /\ r <> Panic /\ (raises r -> waited child t)) l w.
Proof.
  apply wp_bind, wp_attempt.
  assert (Hsend : traces (transfer_descriptors (K := Logged K) h f sender)
    (fun r t w w' => w' = w /\ Forall (about_child (handler_cgroup h) child) t /\ r <> Panic)).
  { unfold transfer_descriptors. destruct (ph_launcher h) as [|b]; [|destruct f as [f|]];
      try (intros l0 w0; apply wp_throw; exists []; by rewrite app_nil_r).
    unfold sender_send. intros l0 w0. cbv zeta. apply wp_bind. eapply wp_traces; [apply traces_logged_or|].
    intros r l1 w1 t1 Ht1 [-> [(a & -> & ->)|(i & -> & ->)]]; [destruct (negb _); [apply wp_throw | apply wp_ret]|];
      eexists; (split; [exact Ht1|]); (split; [done|]); (split; [by repeat constructor | done]). }
  eapply wp_traces; [exact Hsend|]. intros [[]|e|] l1 w1 t1 Ht1 (-> & Ha1 & Hp1); [| |done].
  - apply wp_ret. exists t1. repeat (split; [done|]). by intros [? ?].
  - apply wp_bind. eapply wp_traces; [apply tracks_abandon|]. intros r l2 w2 t2 Ht2 (-> & Ha2 & Hp2 & Hw2).
    destruct r as [[]|e'|]; [| |done]; exists (t1 ++ t2); rewrite Ht2, Ht1, app_assoc; (split; [done|]); (split; [done|]);
      (split; [by apply Forall_app|]); (split; [done|]); intros _; by apply waited_app_r, Hw2.
Qed.

Lemma wait_turns_enough timeout deadline now n :
  Instant_checked_add now timeout = Some deadline -> now <= instant_at n ->
  deadline <= instant_at n + WAIT_POLL_INTERVAL * (Z.of_nat (WAIT_TURNS timeout) - 1).
Proof.
  unfold Instant_checked_add, WAIT_TURNS, WAIT_POLL_INTERVAL, Duration_from_millis.
  destruct (_ <? _); [|done]. intros [= <-] Hn.
  pose proof (Z.div_mod timeout (5 * 1000000) ltac:(lia)). pose proof (Z.mod_pos_bound timeout (5 * 1000000) eq_refl). lia.
Qed.

Lemma wp_started h f sender child timeout deadline now l w :
  Instant_checked_add now timeout = Some deadline -> now <= instant_at (instants_read w) ->
  wp (do! optionally sender (fun sender =>
        let! transfer := attempt (transfer_descriptors h f sender) in
        match transfer with
        | Ok _ => ret tt
        | Err error => do! abandon_child (handler_cgroup h) child in throw error
        end) in
      wait_loop (WAIT_TURNS timeout) (handler_cgroup h) child deadline)
     (fun r l' w' => r <> Panic /\ world_le w w' /\ exists t, log l' = log l ++ t
        /\ Forall (about_child (handler_cgroup h) child) t /\ (r <> Raise ProcWaitFailed -> waited child t)
        /\ (forall out, r = Return out -> output_bytes out = [] /\ CallTryWait child (Ok (Some true)) ∈ t)) l w.
Proof.
  intros Hd Hnow. apply wp_bind.
  assert (Hopt : wp (optionally sender (fun sender =>
        let! transfer := attempt (transfer_descriptors h f sender) in
        match transfer with
        | Ok _ => ret tt
        | Err error => do! abandon_child (handler_cgroup h) child in throw error
        end))
     (fun r l' w' => exists t, log l' = log l ++ t /\ w' = w /\ Forall (about_child (handler_cgroup h) child) t
        /\ r <> Panic /\ (raises r -> waited child t)) l w).
  { destruct sender as [sender|]; [apply wp_transfer|]. apply wp_ret. exists []. rewrite app_nil_r.
    repeat (split; [done|]). by intros [? ?]. }
  eapply wp_mono; [exact Hopt|]. clear Hopt. intros [[]|e|] l1 w1 (t1 & Ht1 & -> & Ha1 & Hp1 & Hw1); [| |done].
  - eapply wp_mono; [apply wait_loop_traces; [by eapply wait_turns_enough | unfold WAIT_TURNS; lia]|].
    intros r l2 w2 (t2 & Ht2 & [Htime Hab Hends Hwt Hsucc _]). split; [done|]. split; [done|]. exists (t1 ++ t2).
    rewrite Ht2, Ht1, app_assoc. split; [done|]. split; [by apply Forall_app|].
    split; [intros Hne; by apply waited_app_r, Hwt|]. intros out Hout. destruct (Hsucc out Hout). split; [done | set_solver].
  - split; [done|]. split; [done|]. exists t1. split; [done|]. split; [done|]. split; [|done]. intros _. apply Hw1. by exists e.
Qed.

(** What was read before the start. *)
Definition ready h arguments timeout authorized (t : list HostCall) (c : Command) : Prop :=
  request_accepted h arguments timeout authorized
  /\ pinned_in t (ph_executable h) (ph_executable_identity h) /\ launcher_pinned t h
  /\ exists fd stdin, 2 < fd /\ c = expected_command h arguments fd stdin.

Lemma wp_spawn h arguments timeout authorized f c sender before l0 l w :
  log l = log l0 ++ before -> Forall is_read before -> ready h arguments timeout authorized before c ->
  wp (let! now := Instant_now in
      let! deadline := lift (ok_or (Instant_checked_add now timeout) ProcInvalidConfig) in
      let! child := sys_or ProcSpawnFailed (p_spawn c) in
      do! optionally sender (fun sender =>
        let! transfer := attempt (transfer_descriptors h f sender) in
        match transfer with
        | Ok _ => ret tt
        | Err error => do! abandon_child (handler_cgroup h) child in throw error
        end) in
      wait_loop (WAIT_TURNS timeout) (handler_cgroup h) child deadline)
     (fun r l' w' => r <> Panic /\ world_le w w'
        /\ exists t, log l' = log l0 ++ t /\ run_calls h arguments timeout authorized r t) l w.
Proof.
  intros Hl Hrb (Hacc & Hpin & Hlp & Hcmd). apply wp_bind, wp_Instant_now. apply wp_bind, wp_lift.
  pose proof (world_le_now w) as Hw1. destruct (Instant_checked_add _ timeout) as [deadline|] eqn:Hd; cbn [ok_or].
  2:{ split; [done|]. split; [done|]. exists before. split; [done|]. left. eauto. }
  apply wp_bind. eapply wp_traces; [apply traces_logged_or|]. intros r l1 w1 t1 Ht1 [-> Hr1]. rewrite Hl, <-app_assoc in Ht1.
  destruct Hr1 as [(child & -> & ->)|(i & -> & ->)].
  - eapply wp_mono; [eapply wp_started; [exact Hd | apply instant_monotone; simpl; lia]|].
    intros r l2 w2 (Hp2 & Hw2 & t2 & Ht2 & Hab & Hwt & Hsucc). split; [done|]. split; [by etrans|].
    exists (before ++ CallSpawn c (Some child) :: t2). rewrite Ht2, Ht1, <-!app_assoc. split; [done|].
    right. exists before, c, (Some child), t2. by repeat (split; [done|]).
  - split; [done|]. split; [done|]. eexists. split; [exact Ht1|]. right. exists before, c, None, [].
    by repeat (split; [done|]).
Qed.

Lemma run_traces h arguments timeout authorized l w :
  wp (run_checked_with_timeout h arguments timeout authorized)
     (fun r l' w' => r <> Panic /\ world_le w w'
        /\ exists t, log l' = log l ++ t /\ run_calls h arguments timeout authorized r t) l w.
Proof.
  unfold run_checked_with_timeout. apply wp_bind. eapply wp_traces; [apply check_run_accepts|].
  intros [[]|e|] l1 w1 t1 Ht1 (Hr1 & -> & Hp1 & Hq1); [| |done].
  2:{ split; [done|]. split; [done|]. exists t1. split; [done|]. left. eauto. }
  destruct (Hq1 tt eq_refl) as [Hacc Hpin]. apply wp_bind. eapply wp_traces; [apply create_filter_number|].
  intros [f|e|] l2 w2 t2 Ht2 (Hr2 & -> & Hp2 & Hq2); [| |done]; rewrite Ht1, <-app_assoc in Ht2.
  2:{ split; [done|]. split; [done|]. eexists. split; [exact Ht2|]. left. split; [by apply Forall_app | eauto]. }
  apply wp_bind. eapply wp_traces; [apply build_command_expected, Hq2; done|].
  intros [[c sender]|e|] l3 w3 t3 Ht3 (Hr3 & -> & Hp3 & Hq3); [| |done]; rewrite Ht2, <-app_assoc in Ht3.
  2:{ split; [done|]. split; [done|]. eexists. split; [exact Ht3|]. left. split; [by rewrite !Forall_app | eauto]. }
  destruct (Hq3 _ eq_refl) as (Hlp & _ & Hcmd). apply wp_bind. eapply wp_traces; [apply reads_check_limit|].
  intros [[]|e|] l4 w4 t4 Ht4 (Hr4 & -> & Hp4); [| |by destruct Hp4]; rewrite Ht3, <-app_assoc in Ht4.
  2:{ split; [done|]. split; [done|]. eexists. split; [exact Ht4|]. left. split; [by rewrite !Forall_app | eauto]. }
  eapply wp_spawn; [exact Ht4 | by rewrite !Forall_app|]. split; [done|].
  split; [by rewrite <-!app_assoc; apply pinned_in_app_l|]. split; [|done]. apply launcher_pinned_app_l.
  by apply launcher_pinned_app_r.
Qed.

(** C17: A run of the process handler, on any host: it always ends, and before it
    starts anything it only reads.  It starts at most one process, and only after the
    timeout, the arguments and the argument policy were accepted and the executable,
    Bubblewrap and the launcher were found to be the pinned files; the command is the
    one the configuration prescribes, with the cleared environment.  From then on it
    touches only that child and the kill file of its own cgroup, and it returns with
    the child waited for unless it reports a failed wait.  A success has empty output
    and means that the child exited successfully. *)
Theorem process_runs_are_guarded h arguments timeout authorized l w :
  match run_checked_with_timeout h arguments timeout authorized l w with
  | (r, l', w') => r <> Panic /\ world_le w w' /\ exists t, log l' = log l ++ t
      /\ ((Forall is_read t /\ exists e, r = Raise e)
          \/ exists before c child rest, t = before ++ CallSpawn c child :: rest /\ Forall is_read before
             /\ request_accepted h arguments timeout authorized
             /\ pinned_in before (ph_executable h) (ph_executable_identity h) /\ launcher_pinned before h
             /\ (exists fd stdin, 2 < fd /\ c = expected_command h arguments fd stdin)
             /\ match child with
                | None => rest = [] /\ r = Raise ProcSpawnFailed
                | Some pid => Forall (about_child (handler_cgroup h) pid) rest
                    /\ (r <> Raise ProcWaitFailed -> waited pid rest)
                    /\ (forall out, r = Return out ->
                          output_bytes out = [] /\ CallTryWait pid (Ok (Some true)) ∈ rest)
                end)
  end.
Proof.
  pose proof (run_traces h arguments timeout authorized l w) as Hwp. unfold wp in Hwp.
  destruct (run_checked_with_timeout _ _ _ _ l w) as [[r l'] w']. exact Hwp.
Qed.

(** *** Timeouts *)

(** A step that neither times out nor takes time. *)
Lemma wp_timeless {A B E} (P : E -> Prop) (m : M (Logged K) E A) (f : A -> M (Logged K) E B) Q R l w :
  only_raises P m -> reads_to R m -> (forall e l1, P e -> Q (Raise e) l1 w) -> (forall a l1, wp (f a) Q l1 w) ->
  wp (bind m f) Q l w.
Proof.
  intros He Hm HQ Hf. apply wp_bind. eapply wp_mono; [exact (wp_and _ _ _ _ _ (He l w) (Hm l w))|].
  intros [a|e|] l1 w1 [Hn (t & _ & _ & -> & Hp & _)]; [apply Hf | by apply HQ, Hn | done].
Qed.

Lemma process_validate_arguments_error fixed dynamic e :
  process_validate_arguments fixed dynamic = Err e -> e = ProcInvalidArguments.
Proof.
  unfold process_validate_arguments. destruct (checked_add _ _ _); simpl; [|congruence].
  destruct (_ <? _); [congruence|]. generalize 0. induction (fixed ++ dynamic)%list as [|x l IH]; intros n; simpl; [done|].
  destruct (_ || _); [congruence|]. destruct (checked_add _ n _); simpl; [|congruence]. destruct (_ <? _); [congruence | apply IH].
Qed.

Lemma check_run_errors h arguments timeout authorized :
  only_raises not_timeout (check_run (K := Logged K) h arguments timeout authorized).
Proof.
  unfold check_run, require_executable, ExecutableIdentity_read, optionally, validate_task_scratch_identity,
    validate_owner_only_directory, DirectoryIdentity_read.
  errors; try done. by match goal with H : process_validate_arguments _ _ = Err _ |- _ => rewrite (process_validate_arguments_error _ _ _ H) end.
Qed.

Lemma create_filter_errors h : only_raises not_timeout (create_filter (K := Logged K) h).
Proof. unfold create_filter, SeccompFilterFile_create. errors; done. Qed.

Lemma validate_tree_errors directory identity digest :
  only_raises not_timeout (validate_tree (K := Logged K) directory identity digest).
Proof.
  unfold validate_tree. apply only_bind; [unfold validate_read_only_directory; errors; done | intros []].
  apply only_bind; [unfold DirectoryIdentity_read; errors; done | intros found].
  destruct (negb _); [by apply only_throw|]. apply only_bind; [|intros measured; errors; done].
  intros l w. unfold wp. rewrite measure_tree_observes. unfold bind. pose proof (wp_observe_tree directory l w) as Hwp.
  unfold wp in Hwp. destruct (observe_tree directory l w) as [[[tr|e|] l'] w']; destruct Hwp as [-> He]; try done.
  intros e' [= <-]. by rewrite He.
Qed.

Lemma build_command_errors h f arguments : only_raises not_timeout (build_command (K := Logged K) h f arguments).
Proof.
  unfold build_command, bubblewrap_command, launcher_command, descriptor_channel, require_executable, ExecutableIdentity_read,
    optionally, validate_verified_root_filesystem.
  errors; try done; [apply validate_tree_errors|].
  match goal with H : ok_or _ _ = Err _ |- _ => revert H end. unfold ok_or. destruct f; congruence.
Qed.

Lemma transfer_errors h f sender child :
  only_raises not_timeout (let! transfer := attempt (transfer_descriptors (K := Logged K) h f sender) in
      match transfer with
      | Ok _ => ret tt
      | Err error => do! abandon_child (handler_cgroup h) child in throw error
      end).
Proof.
  assert (Ht : only_raises not_timeout (transfer_descriptors (K := Logged K) h f sender))
    by (unfold transfer_descriptors, sender_send; errors; done).
  intros l w. apply wp_bind, wp_attempt. eapply wp_mono; [apply Ht|].
  intros [[]|e|] l1 w1 He; [by apply wp_ret | | done].
  apply wp_bind. eapply wp_mono; [apply abandon_child_errors|]. intros [[]|e'|] l2 w2 Hn; [| |done].
  - apply wp_throw. intros e0 [= <-]. by apply He.
  - by destruct (Hn e' eq_refl).
Qed.

Lemma wait_times_out h f sender child timeout deadline now l w :
  Instant_checked_add now timeout = Some deadline -> now <= instant_at (instants_read w) ->
  wp (do! optionally sender (fun sender =>
        let! transfer := attempt (transfer_descriptors h f sender) in
        match transfer with
        | Ok _ => ret tt
        | Err error => do! abandon_child (handler_cgroup h) child in throw error
        end) in
      wait_loop (WAIT_TURNS timeout) (handler_cgroup h) child deadline)
     (fun r _ w' => r = Raise ProcTimedOut ->
        exists n, (instants_read w <= n < instants_read w')%nat /\ deadline <= instant_at n) l w.
Proof.
  intros Hd Hnow. apply wp_bind.
  assert (Hopt : wp (optionally sender (fun sender =>
        let! transfer := attempt (transfer_descriptors h f sender) in
        match transfer with
        | Ok _ => ret tt
        | Err error => do! abandon_child (handler_cgroup h) child in throw error
        end)) (fun r _ w' => w' = w /\ r <> Panic /\ forall e, r = Raise e -> not_timeout e) l w).
  { destruct sender as [sender|]; [|by apply wp_ret].
    eapply wp_mono; [exact (wp_and _ _ _ _ _ (wp_transfer h f sender child l w) (transfer_errors h f sender child l w))|].
    intros r l1 w1 [(t & _ & -> & _ & Hp & _) He]. done. }
  eapply wp_mono; [exact Hopt|]. intros [[]|e|] l1 w1 (-> & Hp & He); [| |done].
  - eapply wp_mono; [apply wait_loop_traces; [by eapply wait_turns_enough | unfold WAIT_TURNS; lia]|].
    intros r l2 w2 (t2 & _ & Hres). apply (wr_timeout _ _ _ _ _ _ _ Hres).
  - intros [= ->]. by destruct (He _ eq_refl).
Qed.

Lemma reads_world {A E} (m : M (Logged K) E A) : reads m -> traces m (fun _ _ w w' => world_le w w').
Proof. intros Hm. eapply traces_mono; [exact Hm|]. by intros r t w w' (_ & -> & _). Qed.

(** A run that reports a timeout has lasted it. *)
Lemma run_times_out h arguments timeout authorized l w :
  wp (run_checked_with_timeout h arguments timeout authorized)
     (fun r _ w' => r = Raise ProcTimedOut -> exists n, (instants_read w <= n < instants_read w')%nat
        /\ instant_at (instants_read w) + timeout <= instant_at n) l w.
Proof.
  unfold run_checked_with_timeout.
  eapply wp_timeless; [apply check_run_errors | apply check_run_accepts | by intros e l1 Hn [= ->]; destruct Hn |].
  intros [] l1. eapply wp_timeless; [apply create_filter_errors | apply create_filter_number | by intros e l2 Hn [= ->]; destruct Hn |].
  intros f l2. eapply wp_timeless; [apply build_command_errors | apply (reads_to_reads _ (fun _ _ => True)); [|done] |
    by intros e l3 Hn [= ->]; destruct Hn |].
  { unfold build_command, bubblewrap_command, launcher_command. reads. }
  intros [c sender] l3. eapply wp_timeless; [apply check_limit_errors | apply (reads_to_reads _ (fun _ _ => True)); [|done] |
    by intros e l4 Hn [= ->]; destruct Hn |].
  { apply reads_check_limit. }
  intros [] l4. apply wp_bind, wp_Instant_now. apply wp_bind, wp_lift.
  destruct (Instant_checked_add _ timeout) as [deadline|] eqn:Hd; cbn [ok_or]; [|done].
  apply wp_bind, wp_sys_or; [intros child l5 _ | done].
  eapply wp_mono; [eapply wait_times_out; [exact Hd | apply instant_monotone; simpl; lia]|].
  intros r l6 w6 Hto Hr. destruct (Hto Hr) as (n & Hn & Hle). exists n. simpl in Hn. split; [lia|].
  unfold Instant_checked_add in Hd. destruct (_ <? _); [|done]. injection Hd as <-. exact Hle.
Qed.

(** ** Runs for a Task *)

(** The outcome of a run as the Tool adapter sees it. *)
Definition tool_outcome (timeout_is_task_budget : bool) (r : outcome ToolOutput ProcessAdapterError)
    : outcome ToolOutput ToolFailure :=
  match r with
  | Return out => Return out
  | Raise e => Raise (process_failure timeout_is_task_budget e)
  | Panic => Panic
  end.

(** No time is left, the run is refused, or it is a run under the chosen timeout. *)
Definition task_calls h (context : TaskExecutionContext) arguments (remaining : Z)
    (r : outcome ToolOutput ToolFailure) (t : list HostCall) : Prop :=
  (remaining = 0 /\ r = Raise ToolFailure_budget_exceeded /\ t = [])
  \/ (exists e, task_timeout_for h context remaining = Err e /\ r = Raise e /\ t = [])
  \/ (remaining <> 0 /\ exists chosen r0, task_timeout_for h context remaining = Ok chosen
       /\ run_calls h arguments chosen.1 true r0 t /\ r0 <> Panic /\ r = tool_outcome chosen.2 r0).

Lemma process_execute_for_task_traces h context arguments l w :
  wp (process_execute_for_task h context arguments)
     (fun r l' w' => world_le w w' /\ exists t, log l' = log l ++ t
        /\ task_calls h context arguments (remaining_wall_time context (instant_at (instants_read w))) r t) l w.
Proof.
  unfold process_execute_for_task. apply wp_bind, wp_Instant_now. pose proof (world_le_now w) as Hw1.
  unfold Duration_is_zero. destruct (Z.eqb_spec (remaining_wall_time context (instant_at (instants_read w))) 0) as [Hz|Hz].
  { apply wp_throw. split; [done|]. exists []. rewrite app_nil_r. split; [done|]. by left. }
  apply wp_bind, wp_lift. destruct (task_timeout_for _ _ _) as [chosen|e] eqn:Hc.
  2:{ split; [done|]. exists []. rewrite app_nil_r. split; [done|]. right. left. by exists e. }
  apply wp_map_err. eapply wp_mono; [apply run_traces|]. intros r0 l' w' (Hp & Hw & t & Ht & Hcalls).
  assert (Hw2 : world_le w w') by (by etrans).
  destruct r0 as [out|e|]; [| |done]; (split; [done|]); exists t; (split; [done|]); right; right; (split; [done|]);
    exists chosen; eexists; by repeat (split; [eassumption|]).
Qed.

Lemma run_calls_output h arguments timeout authorized out t :
  run_calls h arguments timeout authorized (Return out) t -> out = mk_ToolOutput [].
Proof.
  intros [[_ [e [=]]]|(b & c & child & rest & _ & _ & _ & _ & _ & _ & Hch)].
  destruct child as [pid|]; [|by destruct Hch]. destruct Hch as (_ & _ & Hs). destruct (Hs out eq_refl) as [Ho _].
  destruct out. simpl in Ho. by subst.
Qed.

#[export] Instance Process_ToolHandlerLaws : ToolHandlerLaws (ProcessToolHandler * Logged K).
Proof.
  split.
  - intros c args [h l] w. cbn [handler_execute_for_task Process_ToolHandler fst snd]. pose proof (process_execute_for_task_traces h c args l w) as Hwp. unfold wp in Hwp.
    destruct (process_execute_for_task h c args l w) as [[r l'] w']. apply Hwp.
  - intros c args [h l] w out [h' l'] w'. cbn [handler_execute_for_task Process_ToolHandler fst snd].
    pose proof (process_execute_for_task_traces h c args l w) as Hwp. unfold wp in Hwp.
    destruct (process_execute_for_task h c args l w) as [[r l1] w1]. intros [= -> <- -> ->].
    destruct Hwp as (_ & t & _ & [(_ & [=] & _)|[(e & _ & [=] & _)|(_ & chosen & r0 & _ & Hcalls & _ & Hr)]]).
    exists []. destruct r0 as [out0|e|]; try done. injection Hr as ->. by rewrite (run_calls_output _ _ _ _ _ _ Hcalls).
Qed.

End Runs.

(** *** The mounted Capabilities *)

(** The order of Capabilities is total, so equal sorted lists are permutations. *)
Lemma string_compare_trans_lt a : forall b c,
  String.compare a b = Lt -> String.compare b c = Lt -> String.compare a c = Lt.
Proof.
  induction a as [|x a IH]; intros [|y b] [|z c]; simpl; try done.
  unfold Ascii.compare. intros H1 H2.
  destruct (N.compare_spec (N_of_ascii x) (N_of_ascii y)) as [Exy|Hxy|Hxy]; [| |done];
    destruct (N.compare_spec (N_of_ascii y) (N_of_ascii z)) as [Eyz|Hyz|Hyz]; try done;
    destruct (N.compare_spec (N_of_ascii x) (N_of_ascii z)); try lia; eauto.
Qed.
Lemma string_compare_refl a : String.compare a a = Eq.
Proof. induction a as [|x a IH]; simpl; [done|]. unfold Ascii.compare. by rewrite N.compare_refl. Qed.

#[local] Instance capability_le_trans : Transitive capability_le.
Proof.
  intros l m r. unfold capability_le.
  destruct (String.compare (path l) (path m)) eqn:E1; try done;
  destruct (String.compare (path m) (path r)) eqn:E2; try done.
  - apply String.compare_eq_iff in E1, E2. rewrite E1, E2, string_compare_refl. destruct (access l), (access m), (access r); simpl; done.
  - apply String.compare_eq_iff in E1. by rewrite E1, E2.
  - apply String.compare_eq_iff in E2. by rewrite <-E2, E1.
  - by rewrite (string_compare_trans_lt _ _ _ E1 E2).
Qed.

#[local] Instance capability_le_antisymm : AntiSymm (=) capability_le.
Proof.
  intros [p a] [q b]. unfold capability_le. simpl. rewrite (String.compare_antisym q p).
  destruct (String.compare p q) eqn:E; simpl; try done. apply String.compare_eq_iff in E as ->.
  destruct a, b; done.
Qed.

#[local] Instance capability_le_total : Total capability_le.
Proof.
  intros [p a] [q b]. unfold capability_le. simpl. rewrite (String.compare_antisym q p).
  destruct (String.compare p q) eqn:E; simpl; auto. destruct a, b; simpl; auto.
Qed.

Lemma capabilities_match_perm expected mounted :
  filesystem_capabilities_match expected mounted = true -> expected ≡ₚ map mount_capability mounted.
Proof.
  unfold filesystem_capabilities_match. destruct (negb _); [done|]. intros E%bool_decide_eq_true.
  by rewrite <-(merge_sort_Permutation capability_le expected), E, merge_sort_Permutation.
Qed.

Lemma capabilities_match_iff expected mounted :
  filesystem_capabilities_match expected mounted = true <-> expected ≡ₚ map mount_capability mounted.
Proof.
  split; [apply capabilities_match_perm|]. intros Hp. unfold filesystem_capabilities_match.
  assert (len expected = len mounted) as -> by (unfold len; by rewrite Hp, length_map).
  rewrite Z.eqb_refl. cbn [negb]. apply bool_decide_eq_true.
  apply (Sorted_unique capability_le); [apply Sorted_merge_sort, _ | apply Sorted_merge_sort, _ |].
  by rewrite !merge_sort_Permutation.
Qed.

(** The handler belongs to the Task: its cgroup, with the limits of the Task's
    budget, and exactly the Task's Capabilities mounted. *)
Definition bound_to_task (h : ProcessToolHandler) (context : TaskExecutionContext) : Prop :=
  match ph_launcher h with
  | Direct => True
  | Bubblewrap b => exists cl, bl_cgroup_launch b = Some cl
      /\ cgroup_task_id (cl_task_cgroup cl) = context_task_id context
      /\ from_task_budget (context_budget context) = Ok (cgroup_budget (cl_task_cgroup cl))
      /\ filesystem_capabilities context ≡ₚ map mount_capability (bl_mounts b)
  end.

(** How long a run for a Task may last: a sandbox as long as the Task, a handler
    without one no longer than its own timeout. *)
Definition allotted (h : ProcessToolHandler) (remaining : Z) : Z :=
  match ph_launcher h with Direct => Z.min (ph_timeout h) remaining | Bubblewrap _ => remaining end.

(** A handler is refused exactly when it does not belong to the Task. *)
Lemma task_timeout_for_spec h context remaining :
  match task_timeout_for h context remaining with
  | Ok (timeout, budget) => bound_to_task h context /\ timeout = allotted h remaining
      /\ (budget = true <-> timeout = remaining)
  | Err e => ~ bound_to_task h context /\ e = ToolFailure_new
  end.
Proof.
  unfold task_timeout_for, bound_to_task, allotted. destruct (ph_launcher h) as [|b].
  - split; [done|]. split; [done|]. rewrite Z.leb_le. lia.
  - destruct (bl_cgroup_launch b) as [cl|]; [|by split; [intros (? & [=] & _)|]].
    destruct (from_task_budget _) as [derived|]; cbn; [|split; [by intros (cl' & _ & _ & Hx & _) | done]].
    destruct (_ || _) eqn:Hg.
    + split; [|done]. intros (cl' & [= <-] & Hid & [= Hb] & Hm).
      apply capabilities_match_iff in Hm. rewrite Hm, !bool_decide_eq_true_2 in Hg by done. done.
    + rewrite !orb_false_iff, !negb_false_iff, !bool_decide_eq_true, capabilities_match_iff in Hg.
      destruct Hg as [[Hid Hb] Hm]. split; [|done]. exists cl. by rewrite Hb.
Qed.

Section Tasks.
Context {K : Type} `{!Files K, !Trees K, !Sha256, !MemoryFiles K, !Descriptors K, !Processes K, !TaskIdText}.
Context `{EnvLaws} `{!Sleeps, !SleepLaws}.

Lemma process_execute_for_task_run h context arguments (l : Logged K) w :
  let remaining := remaining_wall_time context (instant_at (instants_read w)) in
  let w1 := mk_World (S (instants_read w)) (system_times_read w) (uuids_minted w) in
  process_execute_for_task h context arguments l w
  = if remaining =? 0 then (Raise ToolFailure_budget_exceeded, l, w1)
    else match task_timeout_for h context remaining with
         | Ok chosen => let '(r0, l', w') := run_checked_with_timeout h arguments chosen.1 true l w1 in
             (tool_outcome chosen.2 r0, l', w')
         | Err e => (Raise e, l, w1)
         end.
Proof.
  intros remaining w1. unfold process_execute_for_task, bind, Instant_now, Duration_is_zero. fold remaining w1.
  destruct (remaining =? 0) eqn:Hz; [done|]. unfold lift, map_err. fold remaining.
  destruct (task_timeout_for h context remaining) as [chosen|e]; [|done]. unfold ret.
  by destruct (run_checked_with_timeout h arguments chosen.1 true l w1) as [[[out|e|] l'] w'].
Qed.

(** C30: A process Tool stays within the contract of the Task it runs for.  With no
    wall time remaining it fails for the budget, and a handler that does not belong to
    the Task (a sandbox without the Task's cgroup, with limits other than the Task's
    budget, or with other than exactly the Task's filesystem Capabilities mounted; a
    handler without a sandbox serves every Task) is refused, in both cases without a
    call on the host.  Otherwise the run is that of
    the handler with the remaining wall time as its timeout, or with the handler's own
    where that is shorter and there is no sandbox.  It fails for the budget exactly
    when the cgroup reached its limit or that timeout, being the remaining time, ran
    out; and a timeout is reported only after the clock was read that much later. *)
Theorem process_tools_stay_within_the_task h context arguments (l : Logged K) w :
  let remaining := remaining_wall_time context (instant_at (instants_read w)) in
  let w1 := mk_World (S (instants_read w)) (system_times_read w) (uuids_minted w) in
  let run := process_execute_for_task h context arguments l w in
  (remaining = 0 /\ run = (Raise ToolFailure_budget_exceeded, l, w1))
  \/ (remaining <> 0 /\ ~ bound_to_task h context /\ run = (Raise ToolFailure_new, l, w1))
  \/ (remaining <> 0 /\ bound_to_task h context
      /\ exists r0 r l' w', run_checked_with_timeout h arguments (allotted h remaining) true l w1 = (r0, l', w')
           /\ run = (r, l', w') /\ r <> Panic
           /\ (effects (log l') <> effects (log l) -> request_accepted h arguments (allotted h remaining) true)
           /\ (forall out, r = Return out <-> r0 = Return out)
           /\ (r = Raise ToolFailure_budget_exceeded <->
                 r0 = Raise ProcResourceLimitExceeded \/ r0 = Raise ProcTimedOut /\ allotted h remaining = remaining)
           /\ (r0 = Raise ProcTimedOut -> exists n, (instants_read w1 <= n < instants_read w')%nat
                 /\ instant_at (instants_read w1) + allotted h remaining <= instant_at n)).
Proof.
  intros remaining w1 run. subst run. rewrite process_execute_for_task_run. fold remaining w1.
  destruct (Z.eqb_spec remaining 0) as [Hz|Hz]; [by left|]. right.
  pose proof (task_timeout_for_spec h context remaining) as Hspec.
  destruct (task_timeout_for h context remaining) as [[timeout budget]|e]; [|left; by destruct Hspec as [? ->]].
  right. destruct Hspec as (Hb & -> & Hbudget). split; [done|]. split; [done|]. cbn [fst snd].
  pose proof (run_traces h arguments (allotted h remaining) true l w1) as Hrt.
  pose proof (run_times_out h arguments (allotted h remaining) true l w1) as Hto. unfold wp in Hrt, Hto.
  destruct (run_checked_with_timeout h arguments (allotted h remaining) true l w1) as [[r0 l'] w'].
  destruct Hrt as (Hp & _ & t & Ht & Hcalls).
  exists r0, (tool_outcome budget r0), l', w'. split; [done|]. split; [by destruct r0|].
  split; [by destruct r0|]. split.
  { intros Heff. destruct Hcalls as [[Hr _]|(before & c & child & rest & _ & _ & Hacc & _)]; [|done].
    destruct Heff. by rewrite Ht, effects_app, (effects_reads _ Hr), app_nil_r. }
  split; [destruct r0; naive_solver|]. split; [|done].
  destruct r0 as [out|e|]; [by split; [|intros [[=]|[[=] _]]] | | done]. cbn. unfold process_failure. split.
  - destruct (_ || _) eqn:Hor; [|done]. intros _.
    rewrite orb_true_iff, andb_true_iff, !bool_decide_eq_true in Hor. destruct Hor as [->|[-> Hbt]]; [by left | right].
    split; [done | by apply Hbudget].
  - intros [[= ->]|[[= ->] Heq]]; [done|]. apply Hbudget in Heq as ->. done.
Qed.

End Tasks.

(** ** On the concrete host *)

Definition demo_logged : Logged DemoHost := mk_Logged demo_host [].

Definition demo_handler : ProcessToolHandler :=
  mk_ProcessToolHandler "/bin/true" (mk_ExecutableIdentity 1 22) "/work" None [] ∅ (Duration_from_millis 20)
    (fun _ => true) Direct.

Lemma process_runs_are_guarded_witness :
  ProcessToolBuilder_build demo_builder demo_host world0 = (Return demo_handler, demo_host, world0)
  /\ match run_checked_with_timeout demo_handler ["--version"%string] (Duration_from_millis 20) false demo_logged world0 with
     | (r, l', w') => r = Return (mk_ToolOutput [])
         /\ effects (log l') = [CallSpawn (mk_Command "/bin/true" ["--version"%string] ∅ "/work" StdinNull) (Some 10);
                                CallTryWait 10 (Ok None); CallTryWait 10 (Ok (Some true))]
         /\ world_le world0 w'
     end.
Proof.
  split; [reflexivity|].
  pose proof (process_runs_are_guarded demo_handler ["--version"%string] (Duration_from_millis 20) false demo_logged world0) as H.
  assert (Hrun : match run_checked_with_timeout demo_handler ["--version"%string] (Duration_from_millis 20) false demo_logged world0 with
     | (r, l', w') => r = Return (mk_ToolOutput [])
         /\ effects (log l') = [CallSpawn (mk_Command "/bin/true" ["--version"%string] ∅ "/work" StdinNull) (Some 10);
                                CallTryWait 10 (Ok None); CallTryWait 10 (Ok (Some true))] end)
    by (vm_compute; split; reflexivity).
  destruct (run_checked_with_timeout _ _ _ _ demo_logged world0) as [[r l'] w'].
  destruct Hrun as [Hr He]. destruct H as (_ & Hw & _). split; [exact Hr|]. split; [exact He | exact Hw].
Defined.

Definition demo_context : TaskExecutionContext :=
  mk_TaskExecutionContext demo_task7 (mk_Budget 1 4096 1) [] 0.

(** A sandbox of the Task 7, on the host its construction left, and its context; the
    context of another Task. *)
Definition demo_sandbox : ProcessToolHandler * DemoHost :=
  match BubblewrapProcessToolBuilder_build demo_sandbox_builder demo_host world0 with
  | (Return h, k, _) => (h, k)
  | (_, k, _) => (demo_handler, k)
  end.

Definition sandbox_context (t : TaskId) : TaskExecutionContext :=
  mk_TaskExecutionContext t (mk_Budget 1 4096 1) [mk_FileCapability "/data" Read] 0.

(** The sandbox runs with the remaining wall time as its timeout and is refused for
    another Task; the handler without sandbox runs with its own, shorter one. *)
Lemma process_tools_stay_within_the_task_witness :
  let h := demo_sandbox.1 in
  let l := mk_Logged demo_sandbox.2 [] in
  let w := mk_World 5 0 0 in
  let other := sandbox_context (mk_TaskId 8) in
  (exists b, ph_launcher h = Bubblewrap b)
  /\ bound_to_task h (sandbox_context demo_task7)
  /\ allotted h (remaining_wall_time (sandbox_context demo_task7) (instant_at 5)) = 995000000
  /\ process_execute_for_task h other ["--check"%string] l w = (Raise ToolFailure_new, l, mk_World 6 0 0)
  /\ allotted demo_handler (remaining_wall_time demo_context (instant_at 5)) = Duration_from_millis 20
  /\ (exists r0 l' w', run_checked_with_timeout demo_handler [] (Duration_from_millis 20) true demo_logged (mk_World 6 0 0)
        = (r0, l', w') /\ process_execute_for_task demo_handler demo_context [] demo_logged w = (Return (mk_ToolOutput []), l', w')).
Proof.
  intros h l w other.
  assert (Hb : exists b, ph_launcher h = Bubblewrap b) by (vm_compute; eexists; reflexivity).
  split; [exact Hb|]. split; [|split; [vm_compute; reflexivity|]; split; [|split; [vm_compute; reflexivity|]]].
  - destruct (process_tools_stay_within_the_task h (sandbox_context demo_task7) ["--check"%string] l w)
      as [[Hz _]|[(_ & _ & Hrun)|(_ & Hbound & _)]].
    + vm_compute in Hz. discriminate.
    + exfalso. apply (f_equal (fun x => x.1.1)) in Hrun. vm_compute in Hrun. discriminate.
    + exact Hbound.
  - destruct (process_tools_stay_within_the_task h other ["--check"%string] l w)
      as [[Hz _]|[(_ & _ & Hrun)|(_ & Hbound & _)]].
    + vm_compute in Hz. discriminate.
    + exact Hrun.
    + exfalso. destruct Hb as [b Hb]. unfold bound_to_task in Hbound. rewrite Hb in Hbound.
      destruct Hbound as (cl & Hcl & Hid & _). vm_compute in Hb. injection Hb as <-. injection Hcl as <-.
      discriminate.
  - destruct (process_tools_stay_within_the_task demo_handler demo_context [] demo_logged w)
      as [[Hz _]|[(_ & Hno & _)|(_ & _ & r0 & r & l' & w' & Hr0 & Hr & _)]].
    + vm_compute in Hz. discriminate.
    + exfalso. apply Hno. exact I.
    + exists r0, l', w'. split; [exact Hr0|]. rewrite Hr. f_equal. f_equal.
      apply (f_equal (fun x => x.1.1)) in Hr. vm_compute in Hr. symmetry. exact Hr.
Defined.
