(* ===== verification/ProcessAudit.v ===== *)
(** * Processes on the record

    An agent, its Tool gate, the process handlers behind the Tool adapter and the
    supervisor's audit log, put together: what the handlers start on their host is
    counted against what the log permits.

    The handlers keep the log of the calls they made ([HostLog]); the audit log is the
    supervisor's event store. *)

From stdpp Require Import base numbers list gmap strings sorting.
From Stdlib Require Import ZArith Lia.
From S2P Require Import Prelude RustStd RustOs TaskState TaskSpec Policy Event Approval Supervisor Recovery.
From S2P Require Import SupervisorInv SupervisorFacts SupervisorOps SupervisorRun SupervisorProps.
From S2P Require Import Execution ExecutionProps Facade Accounting ToolAdapter ToolProps NetworkAdapter Agent AgentFacts AgentRun AgentProps.
From S2P Require Import ProcessHost Seccomp Cgroup Rootfs Descriptor Process HostLog ProcessFacts ProcessProps DemoHost.

#[local] Open Scope nat_scope.

(** ** Counting *)

Definition is_start (c : HostCall) : bool := match c with CallSpawn _ _ => true | _ => false end.

(** The processes a log has asked the host for. *)
Definition starts (t : list HostCall) : nat := length (filter is_start t).

Lemma starts_app t1 t2 : starts (t1 ++ t2) = starts t1 + starts t2.
Proof. unfold starts. by rewrite filter_app, length_app. Qed.

Lemma starts_none (P : HostCall -> Prop) t :
  (forall c, P c -> is_start c = false) -> Forall P t -> starts t = 0.
Proof.
  intros HP. induction 1 as [|c t Hc _ IH]; [done|]. unfold starts in *. rewrite filter_cons.
  case_decide as Hs; [|done]. rewrite (HP c Hc) in Hs. done.
Qed.

Lemma starts_reads t : Forall is_read t -> starts t = 0.
Proof. apply starts_none. by intros []. Qed.

Lemma starts_about_child cg pid t : Forall (about_child cg pid) t -> starts t = 0.
Proof. apply starts_none. by intros []. Qed.

(** The command is the handler's, for arguments the handler accepts. *)
Definition prescribed (h : ProcessToolHandler) (c : Command) : Prop := exists arguments fd stdin,
  (2 < fd)%Z /\ c = expected_command h arguments fd stdin
  /\ process_validate_arguments (ph_fixed_arguments h) arguments = Ok tt
  /\ ph_argument_policy h arguments = true.

Definition starts_prescribed (h : ProcessToolHandler) (t : list HostCall) : Prop :=
  forall c child, CallSpawn c child ∈ t -> prescribed h c.

(** The handler runs in the cgroup of the task. *)
Definition sandbox_of (h : ProcessToolHandler) (t : TaskId) : bool :=
  match ph_launcher h with
  | Direct => false
  | Bubblewrap b => match bl_cgroup_launch b with
                    | Some cl => bool_decide (cgroup_task_id (cl_task_cgroup cl) = t)
                    | None => false
                    end
  end.

Lemma bound_sandbox h c t : bound_to_task h c -> sandbox_of h t = true -> t = context_task_id c.
Proof.
  unfold bound_to_task, sandbox_of. destruct (ph_launcher h) as [|b]; [done|].
  intros (cl & -> & Hid & _) Ht%bool_decide_eq_true. congruence.
Qed.

Section Counts.
Context {K : Type} `{!Files K, !Trees K, !Sha256, !MemoryFiles K, !Descriptors K, !Processes K, !TaskIdText}.
Context `{EnvLaws} `{!Sleeps, !SleepLaws}.
Implicit Types (h : ProcessToolHandler) (l : Logged K) (a : ToolAdapter (ProcessToolHandler * Logged K)).

(** The calls of one run for a task: at most one start, and the handler's own. *)
Lemma run_calls_starts h arguments timeout authorized r t :
  run_calls h arguments timeout authorized r t -> starts t <= 1 /\ starts_prescribed h t.
Proof.
  intros [[Hr _]|(before & c & child & rest & -> & Hb & Hacc & _ & _ & (fd & stdin & Hfd & Hc) & Hch)].
  { rewrite starts_reads by done. split; [lia|]. intros c child Hin. by rewrite Forall_forall in Hr; apply Hr in Hin. }
  assert (Hrest : starts rest = 0 /\ forall c' child', CallSpawn c' child' ∉ rest).
  { destruct child as [pid|]; [|destruct Hch as [-> _]; split; [done | intros ? ?; apply not_elem_of_nil]].
    destruct Hch as [Hab _]. split; [by eapply starts_about_child|]. intros c' child' Hin.
    by rewrite Forall_forall in Hab; apply Hab in Hin. }
  destruct Hrest as [Hn Hno]. split.
  - rewrite starts_app, starts_reads by done. change (CallSpawn c child :: rest) with ([CallSpawn c child] ++ rest).
    rewrite starts_app, Hn. by vm_compute.
  - intros c' child' [Hin|Hin]%elem_of_app; [by rewrite Forall_forall in Hb; apply Hb in Hin|].
    apply elem_of_cons in Hin as [[= -> ->]|Hin]; [|by apply Hno in Hin].
    exists arguments, fd, stdin. split; [done|]. split; [done|]. split; apply Hacc.
Qed.

Lemma task_calls_starts h context arguments remaining r t :
  task_calls h context arguments remaining r t ->
  starts t <= 1 /\ starts_prescribed h t /\ (starts t <> 0 -> bound_to_task h context).
Proof.
  assert (Hnil : starts [] <= 1 /\ starts_prescribed h [] /\ (starts [] <> 0 -> bound_to_task h context)).
  { split; [by vm_compute; lia|]. split; [intros c child Hin; by apply not_elem_of_nil in Hin | done]. }
  intros [(_ & _ & ->)|[(e & _ & _ & ->)|(_ & [timeout budget] & r0 & Hch & Hcalls & _ & _)]]; [done | done|].
  destruct (run_calls_starts _ _ _ _ _ _ Hcalls) as [Hle Hp]. split; [done|]. split; [done|]. intros _.
  pose proof (task_timeout_for_spec h context remaining) as Hspec. rewrite Hch in Hspec. apply Hspec.
Qed.

(** ** The Tool adapter over process handlers *)

Definition handler_starts (x : ProcessToolHandler * Logged K) : nat := starts (log x.2).

(** All processes the adapter has started, and those in the cgroup of a task. *)
Definition process_starts a : nat :=
  sum_list_with (fun p => handler_starts p.2) (map_to_list (adapter_handlers a)).

Definition sandbox_starts a (t : TaskId) : nat :=
  sum_list_with (fun p => if sandbox_of p.2.1 t then handler_starts p.2 else 0) (map_to_list (adapter_handlers a)).

Lemma sum_set_handler (f : ProcessToolHandler * Logged K -> nat) route x x' n a :
  adapter_handlers a !! route = Some x -> f x' <= f x + n ->
  sum_list_with (fun p => f p.2) (map_to_list (adapter_handlers (set_handler route x' a)))
  <= sum_list_with (fun p => f p.2) (map_to_list (adapter_handlers a)) + n.
Proof.
  intros Hx Hf. simpl. rewrite <-insert_delete_eq, (map_to_list_insert (delete route _)) by apply lookup_delete_eq.
  rewrite <-(map_to_list_delete (adapter_handlers a) route x) by done. simpl. lia.
Qed.

(** One execution of the adapter is nothing, or one run of a handler. *)
Lemma tool_execute_process op c a w rx a' w' :
  op_execution_context op = Some c -> execute op a w = (rx, a', w') ->
  a' = a \/ exists h l l' t r w1, adapter_handlers a !! op_route op = Some (h, l)
    /\ log l' = log l ++ t
    /\ task_calls h c (op_arguments op) (remaining_wall_time c (instant_at (instants_read w1))) r t
    /\ a' = set_handler (op_route op) (h, l') a.
Proof.
  intros Hc. change (execute op a w) with (tool_execute op a w). unfold tool_execute, bind, lift.
  destruct (validate_arguments _) as [[]|]; [|by intros [= _ <- _]; left]. rewrite Hc. simpl.
  destruct (Duration_is_zero _); [by intros [= _ <- _]; left|]. simpl.
  destruct (adapter_definitions a !! op_route op) as [d|]; [|by intros [= _ <- _]; left]. simpl.
  destruct (_ || _); [by intros [= _ <- _]; left|]. unfold run_handler.
  destruct (adapter_handlers a !! op_route op) as [[h l]|] eqn:Hh; [|by intros [= _ <- _]; left].
  set (w1 := mk_World _ _ _). unfold map_err. cbn [handler_execute_for_task Process_ToolHandler fst snd].
  pose proof (process_execute_for_task_traces h c (op_arguments op) l w1) as Hwp. unfold wp in Hwp.
  destruct (process_execute_for_task h c (op_arguments op) l w1) as [[r l'] w2].
  destruct Hwp as (_ & t & Ht & Hcalls). intros Hrun. right. exists h, l, l', t, r, w1.
  split; [done|]. split; [done|]. split; [done|]. destruct r; by injection Hrun as _ <- _.
Qed.

Lemma tool_execute_starts op c a w rx a' w' :
  op_execution_context op = Some c -> execute op a w = (rx, a', w') ->
  process_starts a' <= S (process_starts a)
  /\ forall t, sandbox_starts a' t <= sandbox_starts a t + (if decide (t = context_task_id c) then 1 else 0).
Proof.
  intros Hc He. destruct (tool_execute_process op c a w rx a' w' Hc He)
    as [->|(h & l & l' & t & r & w1 & Hh & Hl & Hcalls & ->)]; [split; [lia | intros t; lia]|].
  apply task_calls_starts in Hcalls as (Hle & _ & Hb). split.
  - rewrite <-Nat.add_1_r. apply (sum_set_handler handler_starts _ _ _ _ _ Hh).
    unfold handler_starts. simpl. rewrite Hl, starts_app. lia.
  - intros u. apply (sum_set_handler (fun x => if sandbox_of x.1 u then handler_starts x else 0) _ _ _ _ _ Hh).
    simpl. destruct (sandbox_of h u) eqn:Hs; [|lia]. unfold handler_starts. simpl. rewrite Hl, starts_app.
    case_decide as Hu; [lia|]. destruct (decide (starts t = 0)) as [->|Hn]; [lia|].
    by destruct Hu; eapply bound_sandbox; [apply Hb|].
Qed.

(** Every start in the handlers' logs is the handler's own command. *)
Definition adapter_prescribed a : Prop := forall route h l,
  adapter_handlers a !! route = Some (h, l) -> starts_prescribed h (log l).

Lemma tool_execute_prescribed op a w : adapter_prescribed a -> adapter_prescribed (execute op a w).1.2.
Proof.
  intros Ha. destruct (execute op a w) as [[rx a'] w'] eqn:He. simpl.
  destruct (op_execution_context op) as [c|] eqn:Hc.
  - destruct (tool_execute_process op c a w rx a' w' Hc He)
      as [->|(h & l & l' & t & r & w1 & Hh & Hl & Hcalls & ->)]; [done|].
    intros route h' l1. simpl. rewrite lookup_insert. case_decide; [|by apply Ha].
    intros [= <- <-]. rewrite Hl. apply task_calls_starts in Hcalls as (_ & Hp & _).
    intros cmd child [Hin|Hin]%elem_of_app; [by eapply Ha | by eapply Hp].
  - change (execute op a w) with (tool_execute op a w) in He. unfold tool_execute, bind, lift in He.
    rewrite Hc in He. destruct (validate_arguments _) as [[]|]; by injection He as _ <- _.
Qed.

(** Handlers that have not started anything. *)
Definition unstarted (b : ToolAdapterBuilder (ProcessToolHandler * Logged K)) : Prop :=
  forall route h l, builder_handlers b !! route = Some (h, l) -> forall c child, CallSpawn c child ∉ log l.

Lemma unstarted_handlers b f :
  unstarted b -> (forall x, handler_starts x = 0 -> f x = 0) ->
  sum_list_with (fun p => f p.2) (map_to_list (adapter_handlers (adapter (build b).2))) = 0.
Proof.
  intros Hb Hf. simpl. assert (Hall : Forall (fun p => f p.2 = 0) (map_to_list (builder_handlers b))).
  { apply Forall_forall. intros [route [h l]] Hin%elem_of_map_to_list. apply Hf. unfold handler_starts. simpl.
    apply (starts_none (fun c => is_start c = false)); [done|]. apply Forall_forall. intros c Hc.
    destruct c; try done. by apply (Hb _ _ _ Hin) in Hc. }
  induction Hall as [|p m Hp _ IH]; simpl; [done|]. by rewrite Hp, IH.
Qed.

End Counts.

(** ** Gates and agents over process handlers *)

Section Agents.
Context {K : Type} `{!Files K, !Trees K, !Sha256, !MemoryFiles K, !Descriptors K, !Processes K, !TaskIdText}.
Context `{EnvLaws} `{!Sleeps, !SleepLaws} {St : Type} `{EventStoreLaws St}.

Lemma gate_starts_permitted strict (b : ToolAdapterBuilder (ProcessToolHandler * Logged K)) g (s : TaskSupervisor St) w :
  unstarted b -> reachable_facade (prepared b) strict (adapter (build b).2) g s w ->
  process_starts (adapter g) <= all_permits s
  /\ forall t, sandbox_starts (adapter g) t <= permits (event_store s) t.
Proof.
  intros Hb Hf.
  destruct (facade_work_permitted (prepared b) (prepared_context b) sandbox_starts process_starts
    ltac:(intros op c x w0 rx x' w' _ Hc He; by eapply tool_execute_starts) strict _ g s w Hf) as [Hall Hfor].
  assert (Hz : process_starts (adapter (build b).2) = 0) by (by apply (unstarted_handlers b handler_starts)).
  rewrite Hz in Hall. split; [done|]. intros t. specialize (Hfor t).
  assert (Hzt : sandbox_starts (adapter (build b).2) t = 0).
  { apply (unstarted_handlers b (fun x => if sandbox_of x.1 t then handler_starts x else 0)); [done|].
    intros x Hx. by destruct (sandbox_of x.1 t). }
  by rewrite Hzt in Hfor.
Qed.

Lemma gate_starts_prescribed strict (b : ToolAdapterBuilder (ProcessToolHandler * Logged K)) g (s : TaskSupervisor St) w :
  unstarted b -> reachable_facade (prepared b) strict (adapter (build b).2) g s w -> adapter_prescribed (adapter g).
Proof.
  intros Hb. apply (facade_adapter (prepared b) (prepared_context b) adapter_prescribed).
  - intros route h l Hh c child Hin. by apply (Hb _ _ _ Hh) in Hin.
  - intros op x w0 _. apply tool_execute_prescribed.
Qed.

End Agents.

(** C3: Agents start no process off the record.  Whatever the model proposes and
    whatever else uses the supervisor, along every run of an agent whose Tools are
    process handlers: the processes started in the cgroup of a task are at most as many
    as the permits in that task's audit log (operations allowed, and approvals
    consumed); all processes ever started are at most as many as the permits of all
    tasks; and every process was started with the command its handler prescribes, for
    arguments the handler's bounds and argument policy accept. *)
Theorem agents_start_only_permitted_processes {K : Type}
    `{!Files K, !Trees K, !Sha256, !MemoryFiles K, !Descriptors K, !Processes K, !TaskIdText}
    `{EnvLaws} `{!Sleeps, !SleepLaws} {Mo Ses MErr N Sk St} `{ModelLaws Mo Ses MErr} `{SocketsLaws N Sk}
    `{EventStoreLaws St} strict (b : ToolAdapterBuilder (ProcessToolHandler * Logged K)) (na : NetworkAdapter N) cf
    (x : AgentRuntime Mo Ses (ProcessToolHandler * Logged K) N) (s : TaskSupervisor St) w :
  unstarted b -> reachable_agent strict b na cf x s w ->
  (forall t, sandbox_starts (adapter (tool_gate x)) t <= permits (event_store s) t)
  /\ process_starts (adapter (tool_gate x)) <= all_permits s
  /\ forall route h l c child, adapter_handlers (adapter (tool_gate x)) !! route = Some (h, l) ->
       CallSpawn c child ∈ log l -> prescribed h c.
Proof.
  intros Hb Hr. destruct (reachable_resting _ _ _ _ _ _ _ Hr) as [[Ht _ _ _] _].
  destruct (gate_starts_permitted strict b _ s w Hb Ht) as [Hall Hfor]. split; [done|]. split; [done|].
  intros route h l c child Hh. by eapply (gate_starts_prescribed strict b _ s w Hb Ht).
Qed.

(** ** A sandboxed Tool under an agent *)

#[local] Open Scope Z_scope.

Definition audit_task : TaskSpec :=
  mk_TaskSpec "audited" "Run the sandboxed tool" (mk_CapabilitySet [] DenyNetwork ["sandbox"])
    (mk_Budget 60 67108864 4) (mk_ApprovalPolicy []).
Definition audit_cgroup : TaskCgroup :=
  mk_TaskCgroup demo_task "/sys/fs/cgroup/aios/task-0" (mk_DirectoryIdentity 1 50) (mk_CgroupResourceBudget 60000000 67108864).
Definition audit_host : DemoHost :=
  mk_DemoHost (demo_rootfs ++ demo_cgroup ++ demo_programs ++
   [demo_dir "/scratch/0" 60 448 [];
   demo_dir "/sys/fs/cgroup/aios/task-0" 50 493 [];
   demo_file "/sys/fs/cgroup/aios/task-0/cgroup.procs" 51 420 "";
   demo_file "/sys/fs/cgroup/aios/task-0/cgroup.kill" 52 420 "";
   demo_file "/sys/fs/cgroup/aios/task-0/cgroup.events" 53 420 (line "populated 0");
   demo_file "/sys/fs/cgroup/aios/task-0/cpu.stat" 54 420 (line "usage_usec 10");
   demo_file "/sys/fs/cgroup/aios/task-0/memory.current" 55 420 (line "0");
   demo_file "/sys/fs/cgroup/aios/task-0/memory.events" 56 420 (line "max 0" ++ line "oom_kill 0");
   demo_file "/sys/fs/cgroup/aios/task-0/memory.max" 57 420 (line "67108864");
   demo_file "/sys/fs/cgroup/aios/task-0/memory.swap.max" 58 420 (line "0");
   demo_file "/sys/fs/cgroup/aios/task-0/memory.oom.group" 59 420 (line "1")])%list ∅ ∅ (mk_DemoMemory 3 ∅) 10 [None; Some true].
Definition audit_sandbox : BubblewrapProcessToolBuilder :=
  bb_with_task_cgroup audit_cgroup "/usr/bin/launch"
          (new_for_task "/usr/bin/bwrap" "/rootfs" "/bin/tool"
             (mk_TaskScratch demo_task "/scratch/0" (mk_DirectoryIdentity 1 60)) (fun _ => true)).

Definition audit_handler : ProcessToolHandler :=
  match BubblewrapProcessToolBuilder_build audit_sandbox audit_host world0 with
  | (Return h, _, _) => h
  | _ => demo_handler
  end.

Definition audit_builder : ToolAdapterBuilder (ProcessToolHandler * Logged DemoHost) :=
  match register "tool" "sandbox" "run" (audit_handler, mk_Logged audit_host []) ToolAdapterBuilder_default with
  | Ok b => b
  | Err _ => ToolAdapterBuilder_default
  end.

Lemma audit_builder_unstarted : unstarted audit_builder.
Proof.
  intros route h l Hl. assert (E : builder_handlers audit_builder = {["tool"%string := (audit_handler, mk_Logged audit_host [])]})
    by reflexivity. rewrite E in Hl. apply lookup_singleton_Some in Hl as [_ [= _ <-]]. intros c child. apply not_elem_of_nil.
Qed.

Definition audit_agent
  : AgentRuntime ScriptedModelAdapter ScriptedModelSession (ProcessToolHandler * Logged DemoHost) DemoNet
    * TaskSupervisor InMemoryEventStore :=
  (AgentRuntime_new (mk_ScriptedModelAdapter (Some [CallTool "tool" ["--once"%string]; Finish (mk_AgentOutput "done")]))
     (build audit_builder).1 (build audit_builder).2 AgentConfig_default, demo_supervisor).

Definition audit_submitted := run_agent_call (AgentOther (CallSubmit audit_task)) audit_agent world0.
Definition audit_finished := run_agent_call (AgentStart demo_task) audit_submitted.1.2 audit_submitted.2.

Lemma audit_agent_reachable :
  reachable_agent false audit_builder demo_network AgentConfig_default
    audit_finished.1.2.1 audit_finished.1.2.2 audit_finished.2.
Proof.
  eapply (agent_called false audit_builder demo_network AgentConfig_default audit_submitted.1.2.1 audit_submitted.1.2.2
    audit_submitted.2 (AgentStart demo_task) (Return tt)); [|done | vm_compute; reflexivity | done].
  eapply (agent_called false audit_builder demo_network AgentConfig_default audit_agent.1 audit_agent.2 world0
    (AgentOther (CallSubmit audit_task)) (Return tt)); [|done | vm_compute; reflexivity | done].
  apply agent_init; [by left | apply demo_reachable].
Qed.

Lemma agents_start_only_permitted_processes_witness :
  sandbox_starts (adapter (tool_gate audit_finished.1.2.1)) demo_task = 1%nat
  /\ permits (event_store audit_finished.1.2.2) demo_task = 1%nat
  /\ (sandbox_starts (adapter (tool_gate audit_finished.1.2.1)) demo_task
      <= permits (event_store audit_finished.1.2.2) demo_task)%nat.
Proof.
  split; [vm_compute; reflexivity|]. split; [vm_compute; reflexivity|].
  exact (proj1 (agents_start_only_permitted_processes false audit_builder demo_network AgentConfig_default
    audit_finished.1.2.1 audit_finished.1.2.2 audit_finished.2 audit_builder_unstarted audit_agent_reachable) demo_task).
Defined.
