(* ===== verification/CgroupProps.v ===== *)
(** * Properties of Task directories and cgroups *)

From stdpp Require Import base numbers list gmap strings sorting.
From Stdlib Require Import ZArith Lia Ascii.
From Stdlib Require Import String.
From stdpp Require Import list.
From S2P Require Import Prelude RustStd RustOs TaskState TaskSpec Policy Event Approval Supervisor SupervisorInv.
From S2P Require Import Execution Facade ToolAdapter ProcessHost Seccomp Cgroup Rootfs Descriptor Process.
From S2P Require Import HostLog ProcessFacts DemoHost.

#[local] Open Scope string_scope.
#[local] Open Scope list_scope.
#[local] Open Scope Z_scope.

(** ** Keyed control files *)

(** A flat keyed file: one line for each key. *)
Fixpoint flat_keyed (entries : list (string * Z)) : string :=
  match entries with
  | [] => ""
  | (key, value) :: rest =>
      String.append (String.append key (String " " (u64_to_string value))) (String NEWLINE (flat_keyed rest))
  end.

Fixpoint all_chars (P : ascii -> bool) (s : string) : bool :=
  match s with EmptyString => true | String c s' => P c && all_chars P s' end.

(** A word: not empty and without white space. *)
Definition is_word (s : string) : bool :=
  negb (is_empty_str s) && all_chars (fun c => negb (is_ascii_whitespace c)) s.

Lemma all_chars_append P a b : all_chars P (String.append a b) = all_chars P a && all_chars P b.
Proof. induction a as [|c a IH]; [done|]. simpl. by rewrite IH, andb_assoc. Qed.

Lemma decimal_digits_word fuel : forall n acc, 0 <= n ->
  all_chars (fun c => negb (is_ascii_whitespace c)) acc = true ->
  all_chars (fun c => negb (is_ascii_whitespace c)) (decimal_digits fuel n acc) = true.
Proof.
  induction fuel as [|fuel IH]; intros n acc Hn Hacc; [done|]. cbn [decimal_digits].
  assert (Hc : all_chars (fun c => negb (is_ascii_whitespace c)) (String (digit_char (n mod 10)) acc) = true).
  { cbn [all_chars]. rewrite Hacc, andb_true_r. pose proof (Z.mod_pos_bound n 10 eq_refl).
    unfold is_ascii_whitespace. rewrite digit_char_byte by lia. apply negb_true_iff.
    rewrite !orb_false_iff. repeat split; apply Z.eqb_neq; lia. }
  destruct (n <? 10); [done|]. apply IH; [apply Z.div_pos; lia | done].
Qed.

Lemma u64_to_string_word n : 0 <= n -> is_word (u64_to_string n) = true.
Proof.
  intros Hn. unfold is_word, u64_to_string. rewrite decimal_digits_word by done.
  destruct (decimal_digits_shape 19 n "" Hn) as (d & s & _ & ->). done.
Qed.

Definition no_break (c : ascii) : bool := negb (Ascii.eqb NEWLINE c) && negb (Ascii.eqb CARRIAGE_RETURN c).

Lemma all_chars_impl (P Q : ascii -> bool) s :
  (forall c, P c = true -> Q c = true) -> all_chars P s = true -> all_chars Q s = true.
Proof.
  intros HPQ. induction s as [|c s IH]; [done|]. simpl. intros [Hc Hs]%andb_true_iff. by rewrite (HPQ c Hc), IH.
Qed.

Lemma word_no_break c : negb (is_ascii_whitespace c) = true -> no_break c = true.
Proof.
  unfold no_break. destruct (Ascii.eqb_spec NEWLINE c) as [<-|]; [done|].
  by destruct (Ascii.eqb_spec CARRIAGE_RETURN c) as [<-|].
Qed.

Lemma split_no_break s : all_chars no_break s = true -> split NEWLINE s = [s].
Proof.
  induction s as [|c s IH]; [done|]. cbn [split all_chars]. intros [Hc Hs]%andb_true_iff. apply andb_true_iff in Hc as [Hn _].
  apply negb_true_iff in Hn. by rewrite Hn, (IH Hs).
Qed.

Lemma strip_cr_no_break s : all_chars no_break s = true -> strip_cr s = s.
Proof.
  induction s as [|c s IH]; [done|]. cbn [strip_cr all_chars]. intros [Hc Hs]%andb_true_iff. apply andb_true_iff in Hc as [_ Hr].
  apply negb_true_iff in Hr. destruct s as [|d s].
  - rewrite Ascii.eqb_sym, Hr. done.
  - by rewrite IH.
Qed.

Lemma line_no_break key value :
  is_word key = true -> is_word value = true -> all_chars no_break (String.append key (String " " value)) = true.
Proof.
  unfold is_word. rewrite !andb_true_iff. intros [_ Hk] [_ Hv]. rewrite all_chars_append. simpl.
  by rewrite (all_chars_impl _ no_break key word_no_break Hk), (all_chars_impl _ no_break value word_no_break Hv).
Qed.

Definition keyed_lines (entries : list (string * Z)) : list string :=
  map (fun e => String.append e.1 (String " " (u64_to_string e.2))) entries.

Definition keyed_wf (entries : list (string * Z)) : Prop :=
  Forall (fun e => is_word e.1 = true /\ 0 <= e.2 <= u64_max) entries.

Lemma lines_flat_keyed entries : keyed_wf entries -> lines (flat_keyed entries) = keyed_lines entries.
Proof.
  unfold lines. induction 1 as [|[key value] entries [Hk Hv] _ IH]; [done|]. cbn [flat_keyed keyed_lines map fst snd].
  simpl in Hk, Hv. pose proof (line_no_break key (u64_to_string value) Hk (u64_to_string_word value ltac:(lia))) as Hb.
  rewrite split_app_sep, (split_no_break _ Hb). cbn [app].
  destruct (split_cons_shape NEWLINE (flat_keyed entries)) as (x & xs & E). rewrite E in IH |- *.
  change (strip_cr (String.append key (String " " (u64_to_string value))) :: lines_of (x :: xs)
          = String.append key (String " " (u64_to_string value)) :: keyed_lines entries).
  by rewrite (strip_cr_no_break _ Hb), IH.
Qed.

Lemma words_from_word s : forall word rest, all_chars (fun c => negb (is_ascii_whitespace c)) s = true ->
  words_from word (String.append s rest) = words_from (String.append word s) rest.
Proof.
  induction s as [|c s IH]; intros word rest Hs; simpl; [by rewrite append_nil_r_str|].
  simpl in Hs. apply andb_true_iff in Hs as [Hc Hs]. apply negb_true_iff in Hc. rewrite Hc, (IH _ _ Hs).
  by rewrite <-append_assoc_str.
Qed.

Lemma split_line key value :
  is_word key = true -> is_word value = true ->
  split_ascii_whitespace (String.append key (String " " value)) = [key; value].
Proof.
  unfold is_word. rewrite !andb_true_iff, !negb_true_iff. intros [Hkn Hk] [Hvn Hv].
  unfold split_ascii_whitespace. rewrite (words_from_word key "" _ Hk). cbn [String.append words_from].
  change (is_ascii_whitespace " ") with true. cbn iota.
  change (String.append "" key) with key. rewrite Hkn. f_equal.
  rewrite <-(append_nil_r_str value) at 1. rewrite (words_from_word value "" "" Hv). cbn [words_from].
  change (String.append "" value) with value. by rewrite Hvn.
Qed.

Fixpoint lookup_key (key : string) (entries : list (string * Z)) : option Z :=
  match entries with
  | [] => None
  | (name, value) :: rest => if String.eqb name key then Some value else lookup_key key rest
  end.

Lemma find_keyed key entries :
  keyed_wf entries -> find_map (keyed_value key) (keyed_lines entries) = option_map u64_to_string (lookup_key key entries).
Proof.
  induction 1 as [|[name value] entries [Hk Hv] _ IH]; [done|]. cbn [keyed_lines map find_map lookup_key fst snd].
  simpl in Hk, Hv. unfold keyed_value at 1. rewrite split_line by (done || apply u64_to_string_word; lia).
  destruct (String.eqb name key); [done | exact IH].
Qed.

(** Reading a keyed control file gives back what the kernel wrote: for every file
    of lines "key value" with keys that are words and 64-bit values, the number read
    for a key is the value of its first line, whatever it is, and a missing key is
    an error. *)
Theorem keyed_files_read_back (entries : list (string * Z)) (key : string) :
  Forall (fun e => is_word e.1 = true /\ 0 <= e.2 <= u64_max) entries ->
  parse_keyed_u64 (flat_keyed entries) key = ok_or (lookup_key key entries) ProcInvalidResourceControl.
Proof.
  intros Hwf. unfold parse_keyed_u64. rewrite lines_flat_keyed, find_keyed by done.
  destruct (lookup_key key entries) as [v|] eqn:Hl; [|done]. cbn [option_map ok_or res_bind].
  assert (Hv : 0 <= v <= u64_max).
  { clear -Hwf Hl. induction Hwf as [|[name value] entries [_ Hr] _ IH]; [done|]. simpl in Hl.
    destruct (String.eqb name key); [by injection Hl as <- | by apply IH]. }
  by rewrite parse_u64_to_string.
Qed.

Lemma keyed_files_read_back_witness :
  let entries := [("usage_usec", 1500); ("user_usec", 1000); ("nr_periods", 0)] in
  parse_keyed_u64 (flat_keyed entries) "user_usec" = Ok 1000
  /\ parse_keyed_u64 (flat_keyed entries) "absent" = Err ProcInvalidResourceControl.
Proof.
  cbv zeta. split; (rewrite keyed_files_read_back; [reflexivity|]);
    repeat (constructor; [split; [reflexivity | split; vm_compute; discriminate]|]); constructor.
Defined.

(** ** Creation *)

Section Creation.
Context {K : Type} `{!Files K, !TaskIdText}.
Implicit Types l : Logged K.

(** Whatever the calls in the directory were, they end with its removal. *)
Definition removed_last (d : string) (es : list HostCall) : Prop := exists es' ok, es = es' ++ [CallRemoveDir d ok].

Lemma create_owner_only_traces d :
  traces (create_owner_only_directory (K := Logged K) d) (fun r t w w' => w' = w /\ r <> Panic /\
    match r with
    | Return _ => effects t = [CallCreateDir d 448 true; CallSetPermissions d 448 true]
    | _ => effects t = [CallCreateDir d 448 false] \/ removed_last d (effects t)
    end).
Proof.
  intros l w. unfold create_owner_only_directory. apply wp_bind. eapply wp_traces; [apply traces_logged_or|].
  intros r l1 w1 t1 Ht1 [-> [([] & -> & ->)|(i & -> & ->)]].
  2:{ eexists. split; [exact Ht1|]. split; [done|]. split; [done|]. by left. }
  apply wp_bind. eapply wp_traces; [apply traces_logged|]. intros r l2 w2 t2 Ht2 (a & -> & -> & ->).
  rewrite Ht1, <-app_assoc in Ht2. destruct a as [[]|i].
  { apply wp_ret. eexists. split; [exact Ht2|]. by repeat (split; [done|]). }
  apply wp_bind. eapply wp_traces; [apply traces_logged|]. intros r l3 w3 t3 Ht3 (b & -> & -> & ->).
  rewrite Ht2, <-app_assoc in Ht3. apply wp_throw. eexists. split; [exact Ht3|]. split; [done|]. split; [done|]. right.
  eexists [_; _], _. done.
Qed.

(** A validation that fails removes the directory it was about. *)
Lemma traces_or_remove {A E} (m : M (Logged K) E A) d R :
  traces m R ->
  traces (let! r := attempt m in
          match r with Ok a => ret a | Err error => do! sys (f_remove_dir d) in throw error end)
    (fun r t w w' => match r with
       | Return a => R (Return a) t w w'
       | Raise e => exists t0 ok, t = t0 ++ [CallRemoveDir d ok] /\ R (Raise e) t0 w w'
       | Panic => R Panic t w w'
       end).
Proof.
  intros Hm l w. apply wp_bind, wp_attempt. eapply wp_traces; [exact Hm|]. intros [a|e|] l1 w1 t1 Ht1 HR.
  - apply wp_ret. by exists t1.
  - apply wp_bind. eapply wp_traces; [apply traces_logged|]. intros r l2 w2 t2 Ht2 (a & -> & -> & ->).
    apply wp_throw. exists (t1 ++ [CallRemoveDir d (is_ok a)]). rewrite Ht2, Ht1, app_assoc. split; [done|]. eauto.
  - by exists t1.
Qed.

Lemma scratch_create_traces m task_id :
  let d := path_join (scratch_root_directory m) (task_id_to_string task_id) in
  traces (TaskScratchManager_create (K := Logged K) m task_id) (fun r t w w' => w' = w /\ r <> Panic /\
    match r with
    | Return s => scratch_task_id s = task_id
        /\ effects t = [CallCreateDir d 448 true; CallSetPermissions d 448 true]
    | _ => effects t = [] \/ effects t = [CallCreateDir d 448 false] \/ removed_last d (effects t)
    end).
Proof.
  intros d l w. unfold TaskScratchManager_create. fold d. apply wp_bind. eapply wp_traces; [apply reads_validate_scratch_root|].
  intros [[]|e|] l1 w1 t1 Ht1 (Hr1 & -> & Hp1); [| |by destruct Hp1].
  2:{ exists t1. split; [done|]. split; [done|]. split; [done|]. left. by apply effects_reads. }
  cbv zeta. destruct (_ <? _).
  { apply wp_throw. exists t1. split; [done|]. split; [done|]. split; [done|]. left. by apply effects_reads. }
  apply wp_bind. eapply wp_traces; [apply create_owner_only_traces|]. intros [[]|e|] l2 w2 t2 Ht2 (-> & Hp2 & He2); [| |done];
    rewrite Ht1, <-app_assoc in Ht2.
  2:{ eexists. split; [exact Ht2|]. split; [done|]. split; [done|]. rewrite effects_app, (effects_reads t1 Hr1). by right. }
  apply wp_bind, wp_attempt.
  assert (Hreads : reads (do! validate_scratch_root m in
      let! canonical := canonical_task_scratch_directory d (scratch_root_directory m) in
      let! identity := DirectoryIdentity_read canonical in ret (canonical, identity) : M (Logged K) ProcessAdapterError _)).
  { reads. }
  eapply wp_traces; [exact Hreads|]. intros [[canonical identity]|e|] l3 w3 t3 Ht3 (Hr3 & -> & Hp3); [| |by destruct Hp3];
    rewrite Ht2, <-app_assoc in Ht3.
  - apply wp_ret. eexists. split; [exact Ht3|]. split; [done|]. split; [done|]. split; [done|].
    by rewrite !effects_app, (effects_reads t1 Hr1), (effects_reads t3 Hr3), app_nil_r.
  - apply wp_bind. eapply wp_traces; [apply traces_logged|]. intros r l4 w4 t4 Ht4 (a & -> & -> & ->).
    apply wp_throw. rewrite Ht3, <-app_assoc in Ht4. eexists. split; [exact Ht4|]. split; [done|]. split; [done|]. right. right.
    exists (effects t1 ++ effects t2 ++ effects t3), (is_ok a). by rewrite !effects_app, <-!app_assoc.
Qed.

(** The files of a new cgroup, in the order they are written. *)
Definition cgroup_configuration (d : string) (budget : CgroupResourceBudget) : list HostCall :=
  [CallCreateDir d 511 true;
   CallWrite (path_join d "memory.max") (u64_to_string (cgroup_memory_bytes budget)) true;
   CallWrite (path_join d "memory.swap.max") "0" true; CallWrite (path_join d "memory.oom.group") "1" true].

Lemma configure_traces d budget :
  traces (configure_task_cgroup (K := Logged K) d budget) (fun r t w w' => w' = w /\ r <> Panic /\
    forall u, r = Return u -> CallCreateDir d 511 true :: effects t = cgroup_configuration d budget).
Proof.
  intros l w. unfold configure_task_cgroup. apply wp_bind. eapply wp_traces; [apply reads_require_files|].
  intros [[]|e|] l1 w1 t1 Ht1 (Hr1 & -> & Hp1); [| |by destruct Hp1]; [|by exists t1].
  apply wp_bind. eapply wp_traces; [apply traces_logged_or|]. intros r l2 w2 t2 Ht2 [-> [([] & -> & ->)|(i & -> & ->)]];
    rewrite Ht1, <-app_assoc in Ht2; [|by eexists; split; [exact Ht2|]].
  apply wp_bind. eapply wp_traces; [apply traces_logged_or|]. intros r l3 w3 t3 Ht3 [-> [([] & -> & ->)|(i & -> & ->)]];
    rewrite Ht2, <-app_assoc in Ht3; [|by eexists; split; [exact Ht3|]].
  eapply wp_traces; [apply traces_logged_or|]. intros r l4 w4 t4 Ht4 [-> [([] & -> & ->)|(i & -> & ->)]];
    rewrite Ht3, <-app_assoc in Ht4; [|by eexists; split; [exact Ht4|]].
  eexists. split; [exact Ht4|]. split; [done|]. split; [done|]. intros u _.
  by rewrite !effects_app, (effects_reads t1 Hr1).
Qed.

Lemma cgroup_create_traces m task_id budget :
  let d := task_cgroup_directory m task_id in
  traces (CgroupV2Manager_create (K := Logged K) m task_id budget) (fun r t w w' => w' = w /\ r <> Panic /\
    match r with
    | Return cg => cgroup_task_id cg = task_id /\ cgroup_directory cg = d /\ cgroup_budget cg = budget
        /\ effects t = cgroup_configuration d budget
    | _ => effects t = [] \/ effects t = [CallCreateDir d 511 false] \/ removed_last d (effects t)
    end).
Proof.
  intros d l w. unfold CgroupV2Manager_create. fold d. apply wp_bind. eapply wp_traces; [apply reads_cgroup_validate_root|].
  intros [[]|e|] l1 w1 t1 Ht1 (Hr1 & -> & Hp1); [| |by destruct Hp1].
  2:{ exists t1. split; [done|]. split; [done|]. split; [done|]. left. by apply effects_reads. }
  cbv zeta. destruct (_ <? _).
  { apply wp_throw. exists t1. split; [done|]. split; [done|]. split; [done|]. left. by apply effects_reads. }
  apply wp_bind. eapply wp_traces; [apply traces_logged_or|]. intros r l2 w2 t2 Ht2 [-> [([] & -> & ->)|(i & -> & ->)]];
    rewrite Ht1, <-app_assoc in Ht2.
  2:{ eexists. split; [exact Ht2|]. split; [done|]. split; [done|]. rewrite effects_app, (effects_reads t1 Hr1). by right; left. }
  assert (Hbody : traces (do! configure_task_cgroup d budget in let! identity := read_cgroup_identity d in
      ret (mk_TaskCgroup task_id d identity budget) : M (Logged K) ProcessAdapterError _) (fun r t w w' => w' = w /\ r <> Panic /\
    forall cg, r = Return cg -> cgroup_task_id cg = task_id /\ cgroup_directory cg = d /\ cgroup_budget cg = budget
      /\ CallCreateDir d 511 true :: effects t = cgroup_configuration d budget)).
  { intros l0 w0. apply wp_bind. eapply wp_traces; [apply configure_traces|]. intros [[]|e|] l3 w3 t3 Ht3 (-> & Hp3 & He3); [| |done]; [|by exists t3].
    apply wp_bind. eapply wp_traces; [apply reads_read_cgroup_identity|].
    intros [i|e|] l4 w4 t4 Ht4 (Hr4 & -> & Hp4); [| |by destruct Hp4]; rewrite Ht3, <-app_assoc in Ht4; [|by eexists; split; [exact Ht4|]].
    apply wp_ret. eexists. split; [exact Ht4|]. split; [done|]. split; [done|]. intros cg [= <-].
    rewrite effects_app, (effects_reads t4 Hr4), app_nil_r. do 3 (split; [done|]). by apply (He3 tt). }
  eapply wp_traces; [exact (traces_or_remove _ d _ Hbody)|]. intros [cg|e|] l3 w3 t3 Ht3 HR; rewrite Ht2, <-app_assoc in Ht3.
  - destruct HR as (-> & _ & Hcg). eexists. split; [exact Ht3|]. split; [done|]. split; [done|].
    destruct (Hcg cg eq_refl) as (? & ? & ? & He). do 3 (split; [done|]). by rewrite !effects_app, (effects_reads t1 Hr1).
  - destruct HR as (t0 & ok & -> & -> & _). eexists. split; [exact Ht3|]. split; [done|]. split; [done|]. right. right.
    exists (effects t1 ++ [CallCreateDir d 511 true] ++ effects t0), ok. by rewrite !effects_app, <-!app_assoc.
  - by destruct HR as (_ & ? & _).
Qed.

(** The directory of a Task is made whole or not at all.  Creating the scratch
    directory or the cgroup of a Task, on any host, never panics; a success has
    made exactly that one directory, named after the Task below the managed root,
    with mode 0700 or with its memory limit, no swap and group kill written in
    order, and touched nothing else; a failure has changed nothing, failed to
    create it, or removed it last. *)
Theorem task_directories_are_whole_or_gone (sm : TaskScratchManager) (cm : CgroupV2Manager) (task_id : TaskId)
    (budget : CgroupResourceBudget) (l : Logged K) (w : World) :
  let sd := path_join (scratch_root_directory sm) (task_id_to_string task_id) in
  let cd := path_join (cgroup_root_directory cm) (String.append "task-" (task_id_to_string task_id)) in
  match TaskScratchManager_create sm task_id l w with
  | (r, l', w') => w' = w /\ r <> Panic /\ exists t, log l' = log l ++ t /\
      match r with
      | Return s => scratch_task_id s = task_id
          /\ effects t = [CallCreateDir sd 448 true; CallSetPermissions sd 448 true]
      | _ => effects t = [] \/ effects t = [CallCreateDir sd 448 false] \/ removed_last sd (effects t)
      end
  end
  /\ match CgroupV2Manager_create cm task_id budget l w with
     | (r, l', w') => w' = w /\ r <> Panic /\ exists t, log l' = log l ++ t /\
         match r with
         | Return cg => cgroup_task_id cg = task_id /\ cgroup_directory cg = cd /\ cgroup_budget cg = budget
             /\ effects t = cgroup_configuration cd budget
         | _ => effects t = [] \/ effects t = [CallCreateDir cd 511 false] \/ removed_last cd (effects t)
         end
     end.
Proof.
  intros sd cd. split.
  - pose proof (scratch_create_traces sm task_id l w) as Hwp. unfold wp in Hwp.
    destruct (TaskScratchManager_create sm task_id l w) as [[r l'] w']. destruct Hwp as (t & Ht & Hw & Hp & Hr). eauto.
  - pose proof (cgroup_create_traces cm task_id budget l w) as Hwp. unfold wp in Hwp.
    destruct (CgroupV2Manager_create cm task_id budget l w) as [[r l'] w']. destruct Hwp as (t & Ht & Hw & Hp & Hr). eauto.
Qed.

End Creation.

(** ** Clean-up *)

Section Cleanup.
Context {K : Type} `{!Files K, !TaskIdText} `{EnvLaws} `{!Sleeps, !SleepLaws}.
Implicit Types l : Logged K.

(** A deadline the clean-up may have, seen from [w]. *)
Definition near (deadline : Z) (w : World) : Prop := deadline <= instant_at (instants_read w) + CLEANUP_TIMEOUT.

Lemma near_later deadline w w' : near deadline w -> world_le w w' -> near deadline w'.
Proof. unfold near. intros Hn [Hi _]. pose proof (instant_monotone _ _ Hi). lia. Qed.

(** Reads that may also watch the clock. *)
Definition watches {A} (m : M (Logged K) ProcessAdapterError A) (w : World) : Prop :=
  forall l, wp m (fun r l' w' => exists t, log l' = log l ++ t /\ Forall is_read t /\ world_le w w'
                    /\ r <> Panic /\ (forall e, r = Raise e -> e = ProcInvalidResourceControl)) l w.

Definition refuses {A} (m : M (Logged K) ProcessAdapterError A) : Prop :=
  only_raises (fun e => e = ProcInvalidResourceControl) m.

Lemma identity_refuses d i : refuses (validate_task_cgroup_identity d i).
Proof. unfold refuses, validate_task_cgroup_identity, require_files, read_cgroup_identity, path_is_file. by errors. Qed.

Lemma current_refuses : refuses current_cgroup_directory.
Proof.
  unfold refuses, current_cgroup_directory. errors; try done;
    (destruct (find_map _ _) || destruct (strip_prefix _ _)); simpl in *; congruence.
Qed.

Lemma cleanup_target_refuses d i : refuses (validate_cleanup_target d i).
Proof.
  unfold refuses, validate_cleanup_target. apply only_bind; [apply identity_refuses | intros _].
  apply only_bind; [apply current_refuses | intros c; by errors].
Qed.

Lemma root_refuses m : refuses (cgroup_validate_root m).
Proof.
  unfold refuses, cgroup_validate_root, validate_cgroup_root, require_files, path_is_file, read_cgroup_identity.
  errors; try done; apply current_refuses.
Qed.

Lemma keyed_refuses p key : refuses (read_keyed_u64 p key).
Proof. unfold refuses, read_keyed_u64. errors; [done|]. by eapply parse_keyed_u64_error. Qed.

(** A read that is refused in the one way. *)
Lemma wp_checked {A} (m : M (Logged K) ProcessAdapterError A) Q l w :
  reads m -> refuses m ->
  (forall a l' t, log l' = log l ++ t -> Forall is_read t -> Q (Return a) l' w) ->
  (forall l' t, log l' = log l ++ t -> Forall is_read t -> Q (Raise ProcInvalidResourceControl) l' w) -> wp m Q l w.
Proof.
  intros Hm Ho Hret Hraise. eapply wp_traces; [apply traces_only; [exact Hm | exact Ho]|].
  intros [a|e|] l' w' t Ht [(Hr & -> & Hp) He]; [eauto | | by destruct Hp]. rewrite (He e eq_refl). eauto.
Qed.

Lemma watches_wait_loop fuel d i deadline : forall w,
  deadline <= instant_at (instants_read w) + CLEANUP_POLL_INTERVAL * (Z.of_nat fuel - 1) -> (0 < fuel)%nat ->
  watches (wait_until_empty_loop fuel d i deadline) w.
Proof.
  induction fuel as [|fuel IH]; intros w Hd Hf l; [lia|]. cbn [wait_until_empty_loop]. apply wp_bind, wp_Instant_now.
  set (w1 := mk_World (S (instants_read w)) (system_times_read w) (uuids_minted w)). pose proof (world_le_now w : world_le w w1) as Hw1.
  assert (Hstop : forall (r : outcome unit ProcessAdapterError) l' t, log l' = log l ++ t -> Forall is_read t -> r <> Panic ->
    (forall e, r = Raise e -> e = ProcInvalidResourceControl) ->
    exists t, log l' = log l ++ t /\ Forall is_read t /\ world_le w w1 /\ r <> Panic
      /\ (forall e, r = Raise e -> e = ProcInvalidResourceControl)) by (intros; eauto 10).
  destruct (Z.leb_spec deadline (instant_at (instants_read w))) as [|Hlive].
  { apply wp_throw, (Hstop _ l []); [by rewrite app_nil_r | done | done | congruence]. }
  apply wp_bind, wp_checked; [reads | apply identity_refuses | | intros l2 t2 Ht2 Hr2; eapply Hstop; (done || congruence)].
  intros [] l2 t2 Ht2 Hr2. apply wp_bind, wp_checked; [reads | apply keyed_refuses | |].
  2:{ intros l3 t3 Ht3 Hr3. rewrite Ht2, <-app_assoc in Ht3. eapply Hstop; [exact Ht3 | by apply Forall_app | done | congruence]. }
  intros n l3 t3 Ht3 Hr3. rewrite Ht2, <-app_assoc in Ht3. destruct (n =? 0).
  { apply wp_ret. eapply Hstop; [exact Ht3 | by apply Forall_app | done | congruence]. }
  apply wp_bind. unfold thread_sleep at 1, wp at 1. pose proof (world_le_sleep CLEANUP_POLL_INTERVAL w1) as Hw2.
  pose proof (sleep_long_enough CLEANUP_POLL_INTERVAL w1 (instants_read w) ltac:(simpl; lia)) as Hs. simpl in Hs.
  eapply wp_mono; [apply IH|].
  - simpl. unfold CLEANUP_POLL_INTERVAL, Duration_from_millis in *. lia.
  - unfold CLEANUP_POLL_INTERVAL, Duration_from_millis in *. lia.
  - intros r l4 w4 (t4 & Ht4 & Hr4 & Hw4 & Hp4 & He4). exists ((t2 ++ t3) ++ t4).
    rewrite Ht4, Ht3, <-app_assoc. split; [done|]. split; [by rewrite !Forall_app|]. split; [by etrans; [|etrans]|]. done.
Qed.

Lemma watches_wait d i deadline w : near deadline w -> watches (wait_until_empty_until d i deadline) w.
Proof.
  intros Hn. apply watches_wait_loop; [|unfold CLEANUP_TURNS; lia]. unfold near in Hn.
  change (CLEANUP_POLL_INTERVAL * (Z.of_nat CLEANUP_TURNS - 1)) with CLEANUP_TIMEOUT. done.
Qed.

(** What removing the cgroup of one Task does. *)
Definition cleanup_calls (m : CgroupV2Manager) (task_id : TaskId) : list HostCall :=
  [CallWrite (path_join (task_cgroup_directory m task_id) "cgroup.kill") "1" true;
   CallRemoveDir (task_cgroup_directory m task_id) true].

(** An unfinished removal. *)
Definition cleanup_partial (m : CgroupV2Manager) (task_id : TaskId) (es : list HostCall) : Prop :=
  es = [] \/ (exists ok, es = [CallWrite (path_join (task_cgroup_directory m task_id) "cgroup.kill") "1" ok])
  \/ es = [CallWrite (path_join (task_cgroup_directory m task_id) "cgroup.kill") "1" true;
           CallRemoveDir (task_cgroup_directory m task_id) false].

Lemma terminate_task_traces d i :
  traces (terminate_task_cgroup (K := Logged K) d i) (fun r t w w' => w' = w /\
    match r with
    | Return _ => effects t = [CallWrite (path_join d "cgroup.kill") "1" true]
    | Raise e => e = ProcInvalidResourceControl
        /\ (effects t = [] \/ effects t = [CallWrite (path_join d "cgroup.kill") "1" false])
    | Panic => False
    end).
Proof.
  intros l w. unfold terminate_task_cgroup. apply wp_bind, wp_checked; [reads | apply identity_refuses | |].
  - intros [] l1 t1 Ht1 Hr1. eapply wp_traces; [apply traces_logged_or|]. intros r l2 w2 t2 Ht2 [-> Hr].
    rewrite Ht1, <-app_assoc in Ht2. eexists. split; [exact Ht2|]. split; [done|]. rewrite effects_app, (effects_reads t1 Hr1).
    destruct Hr as [([] & -> & ->)|(i' & -> & ->)]; [done|]. split; [done|]. by right.
  - intros l1 t1 Ht1 Hr1. exists t1. split; [done|]. split; [done|]. split; [done|]. left. by apply effects_reads.
Qed.

(** Since [l0] the effects were [es]. *)
Definition has_done l0 (es : list HostCall) l : Prop := exists t, log l = log l0 ++ t /\ effects t = es.

Lemma has_done_start l : has_done l [] l.
Proof. exists []. by rewrite app_nil_r. Qed.

Lemma has_done_app l0 es l t l' : has_done l0 es l -> log l' = log l ++ t -> has_done l0 (es ++ effects t) l'.
Proof. intros (t0 & Ht0 & <-) Ht. exists (t0 ++ t). by rewrite Ht, Ht0, app_assoc, effects_app. Qed.

Lemma has_done_reads l0 es l t l' : has_done l0 es l -> log l' = log l ++ t -> Forall is_read t -> has_done l0 es l'.
Proof. intros Hd Ht Hr. pose proof (has_done_app _ _ _ _ _ Hd Ht) as Hd'. by rewrite (effects_reads t Hr), app_nil_r in Hd'. Qed.

Lemma wp_check {A} (m : M (Logged K) ProcessAdapterError A) Q l0 es l w :
  reads m -> refuses m -> has_done l0 es l ->
  (forall a l', has_done l0 es l' -> Q (Return a) l' w) ->
  (forall l', has_done l0 es l' -> Q (Raise ProcInvalidResourceControl) l' w) -> wp m Q l w.
Proof. intros Hm Ho Hd Hret Hraise. apply wp_checked; [done | done | intros; eapply Hret | intros; eapply Hraise]; by eapply has_done_reads. Qed.

(** The result of one identifier, from the effects. *)
Definition one_post m task_id l0 w (r : outcome bool ProcessAdapterError) l' w' : Prop :=
  exists es, has_done l0 es l' /\ world_le w w' /\
  match r with
  | Return true => es = cleanup_calls m task_id
  | Return false => es = []
  | Raise e => e = ProcInvalidResourceControl /\ cleanup_partial m task_id es
  | Panic => False
  end.

Lemma one_raise m task_id l0 es l w w' :
  has_done l0 es l -> world_le w w' -> cleanup_partial m task_id es ->
  one_post m task_id l0 w (Raise ProcInvalidResourceControl) l w'.
Proof. intros Hd Hw Hp. by exists es. Qed.

(** After the kill. *)
Lemma wp_remove m task_id deadline i l0 l w0 w :
  let d := task_cgroup_directory m task_id in
  let es := [CallWrite (path_join d "cgroup.kill") "1" true] in
  has_done l0 es l -> world_le w0 w -> near deadline w ->
  wp (do! wait_until_empty_until d i deadline in
      let! now := Instant_now in
      if deadline <=? now then throw ProcInvalidResourceControl
      else
        do! cgroup_validate_root m in
        do! validate_cleanup_target d i in
        do! sys_or ProcInvalidResourceControl (f_remove_dir d) in
        ret true) (one_post m task_id l0 w0) l w.
Proof.
  intros d es Hd Hw Hn.
  assert (Hpart : cleanup_partial m task_id es) by (right; left; by exists true).
  apply wp_bind. eapply wp_mono; [apply watches_wait, Hn|]. intros r l1 w1 (t1 & Ht1 & Hr1 & Hw1 & Hp1 & He1).
  pose proof (has_done_reads _ _ _ _ _ Hd Ht1 Hr1) as Hd1. assert (Hw01 : world_le w0 w1) by (by etrans).
  destruct r as [[]|e|]; [| |done]; [|rewrite (He1 e eq_refl); by eapply one_raise].
  apply wp_bind, wp_Instant_now. pose proof (world_le_now w1) as Hw2. assert (Hw02 := transitivity Hw01 Hw2).
  destruct (_ <=? _); [by eapply wp_throw, one_raise|].
  apply wp_bind. eapply wp_check; [reads | apply root_refuses | exact Hd1 | | intros; by eapply one_raise]. intros [] l2 Hd2.
  apply wp_bind. eapply wp_check; [reads | apply cleanup_target_refuses | exact Hd2 | | intros; by eapply one_raise].
  intros [] l3 Hd3. apply wp_bind. eapply wp_traces; [apply traces_logged_or|]. intros r l4 w4 t4 Ht4 [-> Hr4].
  pose proof (has_done_app _ _ _ _ _ Hd3 Ht4) as Hd4. destruct Hr4 as [([] & -> & ->)|(i' & -> & ->)].
  - apply wp_ret. by eexists.
  - eapply one_raise; [exact Hd4 | done|]. by right; right.
Qed.

Lemma wp_reconcile_one m deadline task_id l w :
  near deadline w -> wp (reconcile_one m deadline task_id) (one_post m task_id l w) l w.
Proof.
  intros Hn. unfold reconcile_one. apply wp_bind, wp_Instant_now. pose proof (world_le_now w) as Hw1.
  pose proof (has_done_start l) as Hd0. assert (Hpart : cleanup_partial m task_id []) by (by left).
  destruct (_ <=? _); [by eapply wp_throw, one_raise|].
  apply wp_bind. eapply wp_check; [reads | apply root_refuses | exact Hd0 | | intros; by eapply one_raise]. intros [] l1 Hd1.
  cbv zeta. destruct (_ <? _); [by eapply wp_throw, one_raise|].
  apply wp_bind. eapply wp_traces; [apply traces_logged|]. intros r l2 w2 t2 Ht2 (found & -> & -> & ->).
  assert (Hd2 : has_done l [] l2) by (eapply has_done_reads; [exact Hd1 | exact Ht2 | by repeat constructor]).
  destruct found as [md|[]]; [| apply wp_ret; by exists [] | by eapply wp_throw, one_raise].
  destruct (_ || _); [by eapply wp_throw, one_raise|].
  apply wp_bind. eapply wp_check; [reads | unfold refuses, read_cgroup_identity; by errors | exact Hd2 | | intros; by eapply one_raise].
  intros i l3 Hd3. apply wp_bind. eapply wp_check; [reads | apply cleanup_target_refuses | exact Hd3 | | intros; by eapply one_raise].
  intros [] l4 Hd4. apply wp_bind. eapply wp_traces; [apply terminate_task_traces|]. intros r l5 w5 t5 Ht5 [-> Hr5].
  pose proof (has_done_app _ _ _ _ _ Hd4 Ht5) as Hd5. destruct r as [[]|e|]; [| |done].
  - rewrite Hr5 in Hd5. apply wp_remove; [exact Hd5 | done|]. by eapply near_later.
  - destruct Hr5 as [-> He5]. eapply one_raise; [exact Hd5 | done|]. destruct He5 as [-> | ->]; [done|]. right. left. by eexists.
Qed.

(** What a pass over the identifiers leaves behind. *)
Definition reconciled m (task_ids : list TaskId) (n0 : Z) (r : outcome Z ProcessAdapterError) (es : list HostCall) : Prop :=
  match r with
  | Return n => exists gone, sublist gone task_ids /\ n = n0 + len gone /\ es = concat (map (cleanup_calls m) gone)
  | Raise e => e = ProcInvalidResourceControl /\ exists gone part, sublist gone task_ids
      /\ es = concat (map (cleanup_calls m) gone) ++ part
      /\ (part = [] \/ exists task_id, task_id ∈ task_ids /\ cleanup_partial m task_id part)
  | Panic => False
  end.

Lemma reconciled_skip m task_id ids n r es : reconciled m ids n r es -> reconciled m (task_id :: ids) n r es.
Proof.
  destruct r as [k|e|]; [intros (g & Hs & -> & ->) | intros (-> & g & p & Hs & -> & Hp) | done].
  - exists g. by repeat (split; [by constructor|]).
  - split; [done|]. exists g, p. split; [by constructor|]. split; [done|]. destruct Hp as [->|(i & Hi & Hp)]; [by left | right].
    exists i. split; [by right | done].
Qed.

Lemma reconciled_gone m task_id ids n r es :
  reconciled m ids (n + 1) r es -> reconciled m (task_id :: ids) n r (cleanup_calls m task_id ++ es).
Proof.
  destruct r as [k|e|]; [intros (g & Hs & -> & ->) | intros (-> & g & p & Hs & -> & Hp) | done].
  - exists (task_id :: g). split; [by constructor|]. split; [unfold len; simpl; lia | done].
  - split; [done|]. exists (task_id :: g), p. split; [by constructor|]. split; [done|].
    destruct Hp as [->|(i & Hi & Hp)]; [by left | right]. exists i. split; [by right | done].
Qed.

Lemma wp_reconcile_loop m deadline ids : forall n l0 es0 l w, near deadline w -> has_done l0 es0 l ->
  wp (reconcile_loop m deadline ids n) (fun r l' w' => world_le w w' /\ exists es, has_done l0 (es0 ++ es) l'
     /\ reconciled m ids n r es) l w.
Proof.
  induction ids as [|task_id ids IH]; intros n l0 es0 l w Hn Hd; cbn [reconcile_loop].
  { apply wp_ret. split; [done|]. exists []. rewrite app_nil_r. split; [done|]. exists []. split; [done|]. by rewrite Z.add_0_r. }
  apply wp_bind. eapply wp_mono; [by apply wp_reconcile_one|]. intros r l1 w1 (es1 & Hd1 & Hw1 & Hr1).
  assert (Hd01 : has_done l0 (es0 ++ es1) l1).
  { destruct Hd1 as (t1 & Ht1 & <-). by eapply has_done_app. }
  pose proof (near_later _ _ _ Hn Hw1) as Hn1. destruct r as [[]|e|]; [| | |done].
  - subst es1. apply wp_bind, wp_lift. destruct (checked_add _ _ _) as [n'|] eqn:Hc; cbn [ok_or].
    + apply checked_add_Some in Hc as [-> _]. eapply wp_mono; [by apply IH|]. intros r l2 w2 [Hw2 (es & Hd2 & Hr)].
      split; [by etrans|]. exists (cleanup_calls m task_id ++ es). rewrite app_assoc. split; [done|]. by apply reconciled_gone.
    + split; [done|]. exists (cleanup_calls m task_id). split; [done|]. split; [done|]. exists [task_id], [].
      split; [constructor; apply sublist_nil_l|]. split; [by rewrite app_nil_r | by left].
  - subst es1. rewrite app_nil_r in Hd01. eapply wp_mono; [by apply IH|]. intros r l2 w2 [Hw2 (es & Hd2 & Hr)].
    split; [by etrans|]. exists es. split; [done|]. by apply reconciled_skip.
  - destruct Hr1 as [-> Hp]. split; [done|]. exists es1. split; [done|]. split; [done|]. exists [], es1.
    split; [apply sublist_nil_l|]. split; [done|]. right. exists task_id. split; [by left | done].
Qed.

(** The deadline may be beyond the clock's range; otherwise clean-up ends. *)
Definition reconcile_post m task_ids w (r : outcome Z ProcessAdapterError) (es : list HostCall) : Prop :=
  (r = Panic /\ es = [] /\ Instant_checked_add (instant_at (instants_read w)) CLEANUP_TIMEOUT = None)
  \/ reconciled m task_ids 0 r es.

Lemma wp_reconcile m task_ids l w :
  wp (reconcile_stale_task_cgroups m task_ids) (fun r l' w' => world_le w w' /\
    exists es, has_done l es l' /\ reconcile_post m task_ids w r es) l w.
Proof.
  assert (Hnone : forall l' w', has_done l [] l' -> world_le w w' ->
    world_le w w' /\ exists es, has_done l es l' /\ reconcile_post m task_ids w (Raise ProcInvalidResourceControl) es).
  { intros l' w' Hd Hw. split; [done|]. exists []. split; [done|]. right. split; [done|]. exists [], []. split; [apply sublist_nil_l|]. by split; [|left]. }
  unfold reconcile_stale_task_cgroups. pose proof (has_done_start l) as Hd0.
  apply wp_bind. eapply wp_check; [reads | apply root_refuses | exact Hd0 | | intros l' Hd; by apply Hnone]. intros [] l1 Hd1.
  apply wp_bind, wp_Instant_now. pose proof (world_le_now w) as Hw1. unfold Instant_add. apply wp_bind.
  destruct (Instant_checked_add _ CLEANUP_TIMEOUT) as [deadline|] eqn:Hdl.
  2:{ apply wp_panic. split; [done|]. exists []. split; [done|]. by left. }
  apply wp_ret. apply wp_bind. eapply wp_mono; [apply (wp_reconcile_loop m deadline task_ids 0 l []); [|done]|].
  { unfold near, Instant_checked_add in *. destruct (_ <? _); [|done]. injection Hdl as <-. simpl.
    pose proof (instant_monotone (instants_read w) (S (instants_read w)) ltac:(lia)). lia. }
  intros r l2 w2 [Hw2 (es & Hd2 & Hr)]. assert (Hw02 := transitivity Hw1 Hw2). cbn [app] in Hd2.
  destruct r as [n|e|]; [| |done]; [|by split; [|exists es; split; [|right]]].
  apply wp_bind. eapply wp_check; [reads | apply root_refuses | exact Hd2 | |].
  - intros [] l3 Hd3. apply wp_ret. split; [done|]. exists es. split; [done | by right].
  - intros l3 Hd3. split; [done|]. exists es. split; [done|]. right. destruct Hr as (gone & Hs & _ & ->). split; [done|].
    exists gone, []. split; [done|]. split; [by rewrite app_nil_r | by left].
Qed.

(** C34: Clean-up of stale cgroups at start-up, on any host: it ends within its time
    limit without a panic (as long as the deadline can be computed), and all it ever
    changes is, for identifiers it was given and in their order, to write "1" to the
    kill file of exactly the cgroup named after that Task below the managed root and
    then to remove that directory.  A success counts the directories it removed; a
    failure is the one error, after at most one unfinished removal. *)
Theorem stale_cgroup_cleanup_is_confined m (task_ids : list TaskId) l w deadline :
  Instant_checked_add (instant_at (instants_read w)) CLEANUP_TIMEOUT = Some deadline ->
  match reconcile_stale_task_cgroups m task_ids l w with
  | (r, l', w') => world_le w w' /\ exists t, log l' = log l ++ t /\
      match r with
      | Return n => exists gone, sublist gone task_ids /\ n = len gone
          /\ effects t = concat (map (cleanup_calls m) gone)
      | Raise e => e = ProcInvalidResourceControl /\ exists gone part, sublist gone task_ids
          /\ effects t = concat (map (cleanup_calls m) gone) ++ part
          /\ (part = [] \/ exists task_id, task_id ∈ task_ids /\ cleanup_partial m task_id part)
      | Panic => False
      end
  end.
Proof.
  intros Hdl. pose proof (wp_reconcile m task_ids l w) as Hwp. unfold wp in Hwp.
  destruct (reconcile_stale_task_cgroups m task_ids l w) as [[r l'] w'].
  destruct Hwp as (Hw & es & (t & Ht & <-) & [(_ & _ & Hn)|Hr]); [congruence|].
  split; [done|]. exists t. split; [done|]. by destruct r.
Qed.

End Cleanup.

Lemma stale_cgroup_cleanup_is_confined_witness :
  match reconcile_stale_task_cgroups demo_cgroup_manager [demo_task7; mk_TaskId 8] (mk_Logged demo_host []) world0 with
  | (r, l', w') => r = Return 1 /\ effects (log l') = cleanup_calls demo_cgroup_manager demo_task7
      /\ world_le world0 w'
  end.
Proof.
  pose proof (stale_cgroup_cleanup_is_confined demo_cgroup_manager [demo_task7; mk_TaskId 8] (mk_Logged demo_host []) world0
    (Duration_from_secs 5) eq_refl) as H.
  assert (Hrun : match reconcile_stale_task_cgroups demo_cgroup_manager [demo_task7; mk_TaskId 8] (mk_Logged demo_host []) world0 with
    | (r, l', w') => r = Return 1 /\ effects (log l') = cleanup_calls demo_cgroup_manager demo_task7 end)
    by (vm_compute; split; reflexivity).
  destruct (reconcile_stale_task_cgroups _ _ _ _) as [[r l'] w']. destruct Hrun as [Hr He]. destruct H as [Hw _].
  split; [exact Hr|]. split; [exact He | exact Hw].
Defined.
