(* ===== verification/LaunchProps.v ===== *)
(** * From the builder to Bubblewrap

    The composition of the builder, the command of the handler and the launcher. *)

From stdpp Require Import base numbers list gmap strings sorting.
From Stdlib Require Import ZArith Lia Ascii.
From Stdlib Require Import String.
From stdpp Require Import list.
From S2P Require Import Prelude RustStd RustOs TaskState TaskSpec Policy Event Approval Supervisor SupervisorInv.
From S2P Require Import Execution Facade ToolAdapter ProcessHost Seccomp Cgroup Rootfs Descriptor Process.
From S2P Require Import HostLog ProcessFacts DemoHost ProcessProps CgroupLaunch.

#[local] Open Scope string_scope.
#[local] Open Scope list_scope.
#[local] Open Scope Z_scope.

(** ** What a built handler is *)

(** A launcher that its command line can describe. *)
Record launchable (h : ProcessToolHandler) (b : BubblewrapLauncher) : Prop := {
  la_launcher : ph_launcher h = Bubblewrap b;
  la_root : is_absolute (bl_root_filesystem b) = true;
  la_scratch : is_absolute (ph_working_directory h) = true;
  la_mounts : Forall (fun m => validate_sandbox_absolute_path (path (mount_capability m)) = Ok tt
                               /\ access (mount_capability m) = Read) (bl_mounts b);
  la_count : len (bl_mounts b) <= MAX_FILESYSTEM_CAPABILITY_MOUNTS;
  la_cgroup : bl_mounts b <> [] -> is_Some (bl_cgroup_launch b);
  la_identity : forall cl, bl_cgroup_launch b = Some cl ->
    0 <= dir_device (cgroup_identity (cl_task_cgroup cl)) <= u64_max
    /\ 0 <= dir_inode (cgroup_identity (cl_task_cgroup cl)) <= u64_max;
}.

(** ** The command line *)

(** The arguments of Bubblewrap without mounts: the filter follows the isolation
    options. *)
Definition plain_image (root scratch executable : string) (filter : Z) (arguments : list string) : list string :=
  isolation_options ++ ["--seccomp"; u64_to_string filter] ++ filesystem_options root scratch
  ++ ["--"; executable] ++ arguments.

(** With mounts: filter and mounts come by descriptor, in front of the delimiter. *)
Definition mounted_image (root scratch executable : string) (filter : Z) (mounts : list (string * Z))
    (arguments : list string) : list string :=
  isolation_options ++ filesystem_options root scratch ++ ["--seccomp"; u64_to_string filter]
  ++ concat (map (fun m => ["--ro-bind-fd"; u64_to_string m.2; m.1]) mounts)
  ++ ["--"; executable] ++ arguments.

Definition sandbox_options (root scratch : string) : list string := isolation_options ++ filesystem_options root scratch.

Lemma mount_arguments_zip mounts : forall descriptors,
  mount_arguments mounts descriptors
  = concat (map (fun m => ["--ro-bind-fd"; u64_to_string m.2; m.1]) (zip mounts descriptors)).
Proof. induction mounts as [|m mounts IH]; intros [|d descriptors]; [done..|]. cbn. by rewrite IH. Qed.

Lemma absolute_not_dashes p : is_absolute p = true -> String.eqb p "--" = false.
Proof. intros Hp. destruct (String.eqb_spec p "--") as [->|]; done. Qed.

Lemma position_delimiter root scratch rest :
  is_absolute root = true -> is_absolute scratch = true ->
  position "--" (sandbox_options root scratch ++ "--" :: rest) = Some (length (sandbox_options root scratch)).
Proof.
  intros Hr Hs. unfold sandbox_options, isolation_options, filesystem_options. cbn -[String.eqb]. rewrite (absolute_not_dashes root Hr), (absolute_not_dashes scratch Hs).
  done.
Qed.

Lemma splice_app l k x : splice (length l) x (l ++ k) = l ++ x ++ k.
Proof. unfold splice. by rewrite take_app_length, drop_app_length. Qed.

Lemma launch_path_ok p : validate_sandbox_absolute_path p = Ok tt -> launch_validate_sandbox_path p = Ok tt.
Proof.
  unfold validate_sandbox_absolute_path, launch_validate_sandbox_path, LAUNCH_MAX_PATH_BYTES, MAX_SANDBOX_PATH_BYTES.
  destruct (negb (is_absolute p)); [done|]. destruct (_ <? _); [done|]. destruct (contains_char NUL p); [done|]. cbn [orb].
  destruct (RustOs.components p) as [|c rest]; [done|]. destruct c; try done. by destruct (forallb is_normal rest).
Qed.

Definition mount_words (mounts : list FilesystemCapabilityMount) : list string :=
  concat (map (fun m => ["read"; path (mount_capability m)]) mounts).

Lemma parse_mount_words mounts rest :
  Forall (fun m => validate_sandbox_absolute_path (path (mount_capability m)) = Ok tt
                   /\ access (mount_capability m) = Read) mounts ->
  parse_mounts (length mounts) (mount_words mounts ++ rest)
  = Ok (map (fun m => path (mount_capability m)) mounts, rest).
Proof.
  induction 1 as [|m mounts [Hp _] _ IH]; [done|]. cbn [length parse_mounts mount_words map concat app].
  change (String.eqb "read" "read") with true. cbn [negb]. rewrite (launch_path_ok _ Hp). cbn [res_bind].
  unfold mount_words in IH. by rewrite IH.
Qed.

Lemma launch_parse_u64 n : 0 <= n <= u64_max -> launch_parse (u64_to_string n) = Ok n.
Proof. intros Hn. unfold launch_parse. by rewrite parse_u64_to_string. Qed.

(** The first word of a command line tells the two forms apart. *)
Fixpoint last_char (s : string) : option ascii :=
  match s with
  | EmptyString => None
  | String c EmptyString => Some c
  | String _ s' => last_char s'
  end.

Lemma last_char_append a c s : last_char (String.append a (String c s)) = last_char (String c s).
Proof. induction a as [|d a IH]; [done|]. cbn [String.append]. rewrite <-IH. by destruct a. Qed.

Lemma procs_is_not_broker d : path_join d "cgroup.procs" <> "--descriptor-broker".
Proof.
  intros E. assert (last_char (path_join d "cgroup.procs") = Some "s"%char) as Hl; [|by rewrite E in Hl].
  unfold path_join. cbn [is_absolute starts_with_char]. change (Ascii.eqb SLASH "c") with false. cbn iota.
  destruct (_ || _); apply last_char_append.
Qed.

(** Arguments that were accepted fit the launcher's limit. *)
Lemma accepted_count fixed dynamic :
  process_validate_arguments fixed dynamic = Ok tt -> len (fixed ++ dynamic) <= PROCESS_MAX_ARGUMENTS.
Proof.
  unfold process_validate_arguments. destruct (checked_add _ _ _) as [n|] eqn:Hn; [|done]. cbn [ok_or res_bind].
  apply checked_add_Some in Hn as [-> _]. destruct (Z.ltb_spec PROCESS_MAX_ARGUMENTS (len fixed + len dynamic)); [done|].
  intros _. rewrite len_app. lia.
Qed.

(** ** The image *)

Section Launch.
Context {L : Type} `{!Files L, !LaunchHost L}.

(** What the launcher does with a command line of the handler: check the cgroup and
    the executable, join the cgroup, become Bubblewrap. *)
Definition become (b : BubblewrapLauncher) (cl : CgroupLaunch) (arguments : list string) : M L unit ExecImage :=
  let cg := cl_task_cgroup cl in
  let! file := open_cgroup_procs (path_join (cgroup_directory cg) "cgroup.procs")
                 (dir_device (cgroup_identity cg)) (dir_inode (cgroup_identity cg)) in
  do! validate_executable (bl_bubblewrap b) in
  do! enter_cgroup file in
  ret (mk_ExecImage (bl_bubblewrap b) arguments ∅ false).

(** The same with the descriptors it receives, one for the filter and one for each
    mount. *)
Definition become_with_descriptors (h : ProcessToolHandler) (b : BubblewrapLauncher) (cl : CgroupLaunch)
    (arguments : list string) : M L unit ExecImage :=
  let cg := cl_task_cgroup cl in
  let! file := open_cgroup_procs (path_join (cgroup_directory cg) "cgroup.procs")
                 (dir_device (cgroup_identity cg)) (dir_inode (cgroup_identity cg)) in
  do! validate_executable (bl_bubblewrap b) in
  let! descriptors := receive_descriptors (len (bl_mounts b) + 1) in
  if existsb (fun descriptor => descriptor <=? 2) descriptors then throw tt
  else
    do! enter_cgroup file in
    do! for_each (fun descriptor => sys_or tt (l_inherit descriptor)) descriptors in
    ret (mk_ExecImage (bl_bubblewrap b)
           (mounted_image (bl_root_filesystem b) (ph_working_directory h) (bl_sandbox_executable b)
              (default 0 (head descriptors))
              (zip (map (fun m => path (mount_capability m)) (bl_mounts b)) (tail descriptors))
              (ph_fixed_arguments h ++ arguments)) ∅ true).

(** Without mounts, the launcher runs Bubblewrap with the handler's arguments. *)
Lemma legacy_becomes h b cl arguments fd stdin k w :
  launchable h b -> bl_cgroup_launch b = Some cl -> bl_mounts b = [] ->
  process_validate_arguments (ph_fixed_arguments h) arguments = Ok tt ->
  let c := expected_command h arguments fd stdin in
  launch_run (command_program c :: command_args c) k w
  = become b cl (plain_image (bl_root_filesystem b) (ph_working_directory h) (bl_sandbox_executable b) fd
                   (ph_fixed_arguments h ++ arguments)) k w.
Proof.
  intros Hla Hcl Hm Hargs. cbv zeta. unfold expected_command. rewrite (la_launcher _ _ Hla), Hcl.
  unfold launch_prefix, launch_program, launch_identity. rewrite Hcl, Hm. cbn [command_program command_args].
  rewrite bool_decide_eq_true_2 by done. cbn [app launch_run].
  destruct (String.eqb_spec (path_join (cgroup_directory (cl_task_cgroup cl)) "cgroup.procs") "--descriptor-broker")
    as [Hpath|_]; [by apply procs_is_not_broker in Hpath|].
  unfold run_legacy. destruct (la_identity _ _ Hla cl Hcl) as [Hdev Hino]. rewrite (launch_parse_u64 _ Hdev), (launch_parse_u64 _ Hino).
  unfold become, bind at 1, lift at 1, ret at 1. unfold bind at 1, lift at 1, ret at 1.
  rewrite (proj2 (Z.ltb_ge _ _)); [done|]. pose proof (accepted_count _ _ Hargs) as Hc. unfold PROCESS_MAX_ARGUMENTS in Hc.
  unfold MAX_LAUNCH_ARGUMENTS, len, isolation_options, filesystem_options in *. cbn [length app].
  rewrite length_app in *. lia.
Qed.

Lemma receive_some n k w descriptors k' w' :
  0 < n -> receive_descriptors n k w = (Return descriptors, k', w') -> descriptors <> [].
Proof.
  intros Hn. unfold receive_descriptors, sys_or, bind, sys, lift. destruct (l_recvmsg n k) as [[received|] k1]; [|done]. simpl.
  destruct (_ || _); [done|]. destruct (Z.eqb_spec (len (received_rights received)) n) as [Hr|]; [|done].
  intros [= <- _ _] E. rewrite E in Hr. unfold len in Hr. simpl in Hr. lia.
Qed.

(** With mounts, it inserts the descriptors it received in front of the delimiter. *)
Lemma broker_becomes h b cl arguments fd stdin k w :
  launchable h b -> bl_cgroup_launch b = Some cl -> bl_mounts b <> [] ->
  process_validate_arguments (ph_fixed_arguments h) arguments = Ok tt ->
  let c := expected_command h arguments fd stdin in
  launch_run (command_program c :: command_args c) k w = become_with_descriptors h b cl arguments k w.
Proof.
  intros Hla Hcl Hm Hargs. cbv zeta. unfold expected_command. rewrite (la_launcher _ _ Hla), Hcl.
  unfold launch_prefix, launch_program, launch_identity. rewrite Hcl. cbn [command_program command_args].
  rewrite !bool_decide_eq_false_2 by done. cbn [app launch_run].
  change (String.eqb "--descriptor-broker" "--descriptor-broker") with true. cbn iota.
  unfold run_descriptor_broker. destruct (la_identity _ _ Hla cl Hcl) as [Hdev Hino]. pose proof (la_count _ _ Hla) as Hcount.
  pose proof (len_nonneg (bl_mounts b)) as Hlen. unfold MAX_FILESYSTEM_CAPABILITY_MOUNTS in Hcount.
  rewrite (launch_parse_u64 _ Hdev), (launch_parse_u64 _ Hino), (launch_parse_u64 (len (bl_mounts b))) by (unfold u64_max; lia).
  do 3 (unfold bind at 1, lift at 1, ret at 1). 
  rewrite (proj2 (Z.ltb_ge MAX_DESCRIPTOR_MOUNTS (len (bl_mounts b)))) by (unfold MAX_DESCRIPTOR_MOUNTS; lia).
  change (concat (map _ (bl_mounts b))) with (mount_words (bl_mounts b)).
  replace (Z.to_nat (len (bl_mounts b))) with (length (bl_mounts b)) by (unfold len; lia).
  rewrite parse_mount_words by apply Hla. unfold bind at 1, lift at 1, ret at 1. cbv beta zeta iota.
  cbn [app]. change (isolation_options ++ filesystem_options ?r ?s ++ ?x) with (sandbox_options r s ++ x).
  rewrite (proj2 (Z.ltb_ge _ _)).
  2:{ pose proof (accepted_count _ _ Hargs) as Hc. unfold PROCESS_MAX_ARGUMENTS in Hc. unfold MAX_LAUNCH_ARGUMENTS.
      unfold len, sandbox_options, isolation_options, filesystem_options in *. cbn [length app].
      rewrite length_app in *. lia. }
  unfold become_with_descriptors. cbv zeta.
  unfold bind at 1. symmetry. unfold bind at 1. destruct (open_cgroup_procs _ _ _ k w) as [[[file|e|] k1] w1]; [|done|done].
  unfold bind at 1. symmetry. unfold bind at 1. destruct (validate_executable _ k1 w1) as [[[[]|e|] k2] w2]; [|done|done].
  unfold bind at 1. symmetry. unfold bind at 1.
  destruct (receive_descriptors _ k2 w2) as [[[descriptors|e|] k3] w3] eqn:Hrecv; [|done|done].
  destruct (existsb _ descriptors); [done|].
  unfold bind at 1. symmetry. unfold bind at 1. destruct (enter_cgroup file k3 w3) as [[[[]|e|] k4] w4]; [|done|done].
  cbn [app]. rewrite position_delimiter by apply Hla. unfold bind at 1, ok_or, lift at 1, ret at 1.
  destruct descriptors as [|seccomp mounted]; [apply receive_some in Hrecv; [done | lia]|].
  rewrite splice_app. cbn [head default tail]. unfold bind. destruct (for_each _ _ k4 w4) as [[[[]|e|] k5] w5]; [|done..].
  unfold mounted_image, sandbox_options. by rewrite mount_arguments_zip, <-!app_assoc.
Qed.

(** *** What a successful launch did *)

(** Up to the executable: the process file of the Task's cgroup is a regular file, its
    directory the cgroup with the recorded identity, and Bubblewrap a file; [file] is
    the process file opened for writing. *)
Definition launch_checked (b : BubblewrapLauncher) (cl : CgroupLaunch) (k : L) (file : Z) (k' : L) : Prop :=
  let cg := cl_task_cgroup cl in
  let procs := path_join (cgroup_directory cg) "cgroup.procs" in
  exists m k1 k2 parent pm k3 bm,
    f_symlink_metadata procs k = (Ok m, k1) /\ is_symlink m = false /\ is_file m = true
    /\ l_open_write procs k1 = (Ok file, k2)
    /\ path_parent procs = Some parent /\ f_metadata parent k2 = (Ok pm, k3) /\ is_dir pm = true
    /\ md_dev pm = dir_device (cgroup_identity cg) /\ md_ino pm = dir_inode (cgroup_identity cg)
    /\ f_metadata (bl_bubblewrap b) k3 = (Ok bm, k') /\ is_file bm = true.

(** The image and how it came about: checked, with the descriptors received where there
    are mounts (one for the filter, one for each mount, none of them a standard stream),
    and in the cgroup. *)
Definition launched (h : ProcessToolHandler) (b : BubblewrapLauncher) (cl : CgroupLaunch) (filter : Z)
    (arguments : list string) (k : L) (image : ExecImage) : Prop :=
  image_program image = bl_bubblewrap b /\ image_env image = ∅
  /\ exists file k1, launch_checked b cl k file k1
       /\ ((bl_mounts b = []
            /\ (exists k2, l_write_all file (u64_to_string (l_process_id k1)) k1 = (Ok tt, k2))
            /\ image_args image = plain_image (bl_root_filesystem b) (ph_working_directory h) (bl_sandbox_executable b)
                 filter (ph_fixed_arguments h ++ arguments))
           \/ (bl_mounts b <> [] /\ exists received k2 descriptor descriptors,
                l_recvmsg (len (bl_mounts b) + 1) k1 = (Ok received, k2)
                /\ received_truncated received = false /\ received_payload received = [1]
                /\ received_rights received = descriptor :: descriptors
                /\ length descriptors = length (bl_mounts b) /\ Forall (fun d => 2 < d) (descriptor :: descriptors)
                /\ (exists k3, l_write_all file (u64_to_string (l_process_id k2)) k2 = (Ok tt, k3))
                /\ image_args image = mounted_image (bl_root_filesystem b) (ph_working_directory h)
                     (bl_sandbox_executable b) descriptor
                     (zip (map (fun m => path (mount_capability m)) (bl_mounts b)) descriptors)
                     (ph_fixed_arguments h ++ arguments))).

Lemma open_cgroup_procs_Return p device inode k w file k' w' :
  open_cgroup_procs p device inode k w = (Return file, k', w') ->
  exists m k1 k2 parent pm, f_symlink_metadata p k = (Ok m, k1) /\ is_symlink m = false /\ is_file m = true
    /\ l_open_write p k1 = (Ok file, k2) /\ path_parent p = Some parent /\ f_metadata parent k2 = (Ok pm, k')
    /\ is_dir pm = true /\ md_dev pm = device /\ md_ino pm = inode.
Proof.
  unfold open_cgroup_procs. destruct (_ || _); [done|]. unfold sys_or, bind, sys, lift.
  destruct (f_symlink_metadata p k) as [[m|] k1]; [|done]. simpl. destruct (_ || _) eqn:H1; [done|].
  rewrite orb_false_iff, negb_false_iff in H1. destruct H1 as [Hl Hf].
  destruct (l_open_write p k1) as [[f|] k2] eqn:H2; [|done]. simpl. destruct (path_parent p) as [parent|]; [|done]. simpl.
  destruct (f_metadata parent k2) as [[pm|] k3] eqn:H3; [|done]. simpl. destruct (_ || _) eqn:H4; [done|].
  rewrite !orb_false_iff, !negb_false_iff, !Z.eqb_eq in H4. destruct H4 as [[Hd Hdev] Hino].
  unfold ret. intros [= <- <- _]. exists m, k1, k2, parent, pm. by split_and!.
Qed.

Lemma validate_executable_Return p k w k' w' :
  validate_executable p k w = (Return tt, k', w') -> exists m, f_metadata p k = (Ok m, k') /\ is_file m = true.
Proof.
  unfold validate_executable. destruct (_ || _); [done|]. unfold sys_or, bind, sys, lift.
  destruct (f_metadata p k) as [[m|] k1]; [|done]. simpl. destruct (is_file m) eqn:Hf; [|done].
  unfold ret. intros [= <- _]. by exists m.
Qed.

Lemma enter_cgroup_Return file k w k' w' :
  enter_cgroup file k w = (Return tt, k', w') -> l_write_all file (u64_to_string (l_process_id k)) k = (Ok tt, k').
Proof.
  unfold enter_cgroup, sys_or, bind, gets, sys, lift.
  destruct (l_write_all file _ k) as [[[]|] k1]; [|done]. cbn. by intros [= <- _].
Qed.

Lemma receive_descriptors_Return n k w descriptors k' w' :
  receive_descriptors n k w = (Return descriptors, k', w') ->
  exists received, l_recvmsg n k = (Ok received, k') /\ received_truncated received = false
    /\ received_payload received = [1] /\ received_rights received = descriptors /\ len descriptors = n.
Proof.
  unfold receive_descriptors, sys_or, bind, sys, lift. destruct (l_recvmsg n k) as [[received|] k1]; [|done]. simpl.
  destruct (_ || _) eqn:H1; [done|]. rewrite !orb_false_iff, !negb_false_iff, bool_decide_eq_true in H1.
  destruct H1 as [[_ Ht] Hp]. destruct (Z.eqb_spec (len (received_rights received)) n) as [Hn|]; [|done].
  intros [= <- <- _]. by exists received.
Qed.

Lemma launch_checked_intro b cl k w file k1 w1 k2 w2 :
  open_cgroup_procs (path_join (cgroup_directory (cl_task_cgroup cl)) "cgroup.procs")
    (dir_device (cgroup_identity (cl_task_cgroup cl))) (dir_inode (cgroup_identity (cl_task_cgroup cl))) k w
    = (Return file, k1, w1) ->
  validate_executable (bl_bubblewrap b) k1 w1 = (Return tt, k2, w2) -> launch_checked b cl k file k2.
Proof.
  intros (m & ka & kb & parent & pm & ?)%open_cgroup_procs_Return (bm & ? & ?)%validate_executable_Return.
  exists m, ka, kb, parent, pm, k1, bm. naive_solver.
Qed.

Lemma become_launched h b cl filter arguments k w image k' w' :
  bl_mounts b = [] ->
  become b cl (plain_image (bl_root_filesystem b) (ph_working_directory h) (bl_sandbox_executable b) filter
                 (ph_fixed_arguments h ++ arguments)) k w = (Return image, k', w') ->
  launched h b cl filter arguments k image.
Proof.
  intros Hm. unfold become. cbv zeta. unfold bind at 1.
  destruct (open_cgroup_procs _ _ _ k w) as [[[file|e|] k1] w1] eqn:H1; [|done..].
  unfold bind at 1. destruct (validate_executable _ k1 w1) as [[[[]|e|] k2] w2] eqn:H2; [|done..].
  unfold bind at 1. destruct (enter_cgroup file k2 w2) as [[[[]|e|] k3] w3] eqn:H3; [|done..].
  unfold ret. intros [= <- <- _]. split; [done|]. split; [done|]. exists file, k2.
  split; [by eapply launch_checked_intro|]. left. apply enter_cgroup_Return in H3. by eauto.
Qed.

Lemma become_with_descriptors_launched h b cl filter arguments k w image k' w' :
  bl_mounts b <> [] -> become_with_descriptors h b cl arguments k w = (Return image, k', w') ->
  launched h b cl filter arguments k image.
Proof.
  intros Hm. unfold become_with_descriptors. cbv zeta. unfold bind at 1.
  destruct (open_cgroup_procs _ _ _ k w) as [[[file|e|] k1] w1] eqn:H1; [|done..].
  unfold bind at 1. destruct (validate_executable _ k1 w1) as [[[[]|e|] k2] w2] eqn:H2; [|done..].
  unfold bind at 1. destruct (receive_descriptors _ k2 w2) as [[[descriptors|e|] k3] w3] eqn:H3; [|done..].
  destruct (existsb _ descriptors) eqn:Hstd; [done|].
  unfold bind at 1. destruct (enter_cgroup file k3 w3) as [[[[]|e|] k4] w4] eqn:H4; [|done..].
  unfold bind. destruct (for_each _ descriptors k4 w4) as [[[[]|e|] k5] w5]; [|done..].
  unfold ret. intros [= <- <- _]. split; [done|]. split; [done|]. exists file, k2.
  split; [by eapply launch_checked_intro|]. right. split; [done|].
  apply receive_descriptors_Return in H3 as (received & Hr & Ht & Hp & Hrights & Hn). apply enter_cgroup_Return in H4.
  destruct descriptors as [|d ds]; [unfold len in Hn; simpl in Hn; lia|].
  exists received, k3, d, ds. split_and!; try done; [unfold len in Hn; simpl in Hn; lia | | by eauto].
  apply Forall_forall. intros x Hx. apply Z.nle_gt. intros Hle. apply not_true_iff_false in Hstd. apply Hstd.
  apply existsb_exists. exists x. split; [by apply list_elem_of_In | by apply Z.leb_le].
Qed.

End Launch.

(** ** The builder *)

Section Build.
Context {K : Type} `{!Files K, !Trees K, !Sha256, !MemoryFiles K, !Descriptors K, !Processes K} `{!FilesLaws K}.

(** A fact of every returned value. *)
Definition yields {E A} (Q : A -> Prop) (m : M K E A) : Prop :=
  forall k w, wp m (fun r _ _ => forall a, r = Return a -> Q a) k w.

Lemma yields_bind {E A B} (Q1 : A -> Prop) (Q2 : B -> Prop) (m : M K E A) (f : A -> M K E B) :
  yields Q1 m -> (forall a, Q1 a -> yields Q2 (f a)) -> yields Q2 (bind m f).
Proof.
  intros Hm Hf k w. apply wp_bind. eapply wp_mono; [apply Hm|]. intros [a|e|] k' w' Ha; [|done|done]. by apply Hf, Ha.
Qed.

Lemma yields_ret {E A} (Q : A -> Prop) (a : A) : Q a -> yields (E := E) Q (ret a).
Proof. intros Ha k w. apply wp_ret. by intros a' [= <-]. Qed.

Lemma yields_throw {E A} (Q : A -> Prop) (e : E) : yields Q (throw e).
Proof. intros k w. by apply wp_throw. Qed.

Lemma yields_lift {E A} (Q : A -> Prop) (r : Result A E) : (forall a, r = Ok a -> Q a) -> yields Q (lift r).
Proof. intros Hr. destruct r; [apply yields_ret; auto | apply yields_throw]. Qed.

Lemma yields_true {E A} (m : M K E A) : yields (fun _ => True) m.
Proof. intros k w. unfold wp. by destruct (m k w) as [[? ?] ?]. Qed.

Lemma yields_sys_or {E A} (Q : A -> Prop) (e : E) (op : K -> Result A IoError * K) :
  (forall k a k', op k = (Ok a, k') -> Q a) -> yields Q (sys_or e op).
Proof. intros HQ k w. apply wp_sys_or; [intros a k' Ha a' [= <-]; eauto | done]. Qed.

Lemma yields_map_err {E E' A} (Q : A -> Prop) (f : E -> E') (m : M K E A) : yields Q m -> yields Q (map_err f m).
Proof.
  intros Hm k w. apply wp_map_err. eapply wp_mono; [apply Hm|]. intros [a|e|] k' w' Ha; [|done|done].
  intros a' [= <-]. by apply Ha.
Qed.

(** The next step of a computation about whose value nothing is needed. *)
Ltac yields_skip := eapply yields_bind; [apply yields_true | intros ? _].

Definition identity_range (i : DirectoryIdentity) : Prop :=
  0 <= dir_device i <= u64_max /\ 0 <= dir_inode i <= u64_max.

Lemma directory_identity_range p : yields identity_range (DirectoryIdentity_read p).
Proof.
  unfold DirectoryIdentity_read. eapply yields_bind; [apply yields_sys_or; intros k m k'; apply metadata_range|].
  intros m Hm. destruct (negb _); [apply yields_throw | by apply yields_ret].
Qed.

Lemma canonical_directory_absolute p : yields (fun q => is_absolute q = true) (canonical_directory p).
Proof.
  unfold canonical_directory. destruct (negb _); [apply yields_throw|].
  eapply yields_bind; [apply yields_sys_or; intros k q k'; apply canonicalize_absolute|]. intros q Hq.
  yields_skip. destruct (negb _); [apply yields_throw | by apply yields_ret].
Qed.

Lemma canonical_sandbox_root_absolute p : yields (fun q => is_absolute q = true) (canonical_sandbox_root p).
Proof.
  unfold canonical_sandbox_root. eapply yields_bind; [apply yields_map_err, canonical_directory_absolute|]. intros q Hq.
  destruct (path_is_root_dir q); [apply yields_throw | by apply yields_ret].
Qed.

Lemma canonical_scratch_absolute p root : yields (fun q => is_absolute q = true) (canonical_scratch_directory p root).
Proof.
  unfold canonical_scratch_directory. eapply yields_bind; [apply yields_map_err, canonical_directory_absolute|]. intros q Hq.
  destruct (_ || _); [apply yields_throw | by apply yields_ret].
Qed.

(** *** Capabilities *)

Definition readable_mount (c : FileCapability) : Prop :=
  validate_sandbox_absolute_path (path c) = Ok tt /\ access c = Read.

Lemma validate_capability_loop_ok l : forall previous,
  validate_capability_loop l previous = Ok tt -> Forall readable_mount l.
Proof.
  induction l as [|c l IH]; intros previous; [constructor|]. cbn [validate_capability_loop].
  destruct (validate_sandbox_absolute_path (path c)) as [[]|] eqn:Hp; [|done]. cbn [res_bind].
  destruct (String.eqb _ _); [done|]. case_bool_decide as Ha; [|done]. cbn [negb].
  case_bool_decide; [done|]. intros Hl. constructor; [done|]. by eapply IH.
Qed.

Lemma validate_capabilities_ok l :
  validate_capabilities l = Ok tt -> Forall readable_mount l /\ len l <= MAX_FILESYSTEM_CAPABILITY_MOUNTS.
Proof.
  unfold validate_capabilities. destruct (Z.ltb_spec MAX_FILESYSTEM_CAPABILITY_MOUNTS (len l)); [done|].
  intros Hl%validate_capability_loop_ok. by rewrite merge_sort_Permutation in Hl.
Qed.

Lemma open_each_capabilities root l :
  yields (fun mounts => map mount_capability mounts = l) (open_each (K := K) root l).
Proof.
  induction l as [|c l IH]; cbn [open_each]; [by apply yields_ret|]. yields_skip. yields_skip.
  eapply yields_bind; [exact IH|]. intros mounts Hm. apply yields_ret. simpl. by rewrite Hm.
Qed.

(** What the builder mounts. *)
Definition mounts_for (capabilities : list FileCapability) (mounts : list FilesystemCapabilityMount) : Prop :=
  map mount_capability mounts ≡ₚ capabilities /\ Forall readable_mount capabilities
  /\ len capabilities <= MAX_FILESYSTEM_CAPABILITY_MOUNTS.

Lemma open_filesystem_capabilities_mounts root l :
  yields (mounts_for l) (open_filesystem_capabilities (K := K) root l).
Proof.
  unfold open_filesystem_capabilities. case_bool_decide as Hl; [subst l; by apply yields_ret|]. yields_skip.
  eapply yields_bind; [apply (yields_lift (fun _ => Forall readable_mount l /\ len l <= MAX_FILESYSTEM_CAPABILITY_MOUNTS));
    intros [] Hv; by apply validate_capabilities_ok|]. intros ? [Hr Hc].
  unfold open_capabilities. yields_skip. intros k w. eapply wp_mono; [apply open_each_capabilities|].
  intros r k' w' Hm mounts Hret. split; [|done]. rewrite (Hm mounts Hret). apply merge_sort_Permutation.
Qed.

(** *** The cgroup *)

Lemma task_cgroup_identity_range directory i : yields (fun _ => identity_range i) (validate_task_cgroup_identity directory i).
Proof.
  unfold validate_task_cgroup_identity. yields_skip. destruct (_ || _); [apply yields_throw|].
  eapply yields_bind; [apply yields_map_err, directory_identity_range|]. intros j Hj.
  case_bool_decide as Hij; cbn [negb]; [|apply yields_throw]. subst j.
  intros k w. eapply wp_mono; [apply yields_true|]. done.
Qed.

Definition config_ok (b : BubblewrapProcessToolBuilder) : Prop :=
  (forall cg, bb_task_cgroup_state b = Some cg -> identity_range (cgroup_identity cg) /\ bb_task_id b = Some (cgroup_task_id cg))
  /\ (bb_filesystem_capabilities b <> [] -> is_Some (bb_task_cgroup_state b))
  /\ (bb_source_root b = None -> bb_filesystem_capabilities b = []).

Lemma bubblewrap_config_ok b : yields (fun _ => config_ok b) (bubblewrap_config (K := K) b).
Proof.
  unfold bubblewrap_config, config_ok. yields_skip. destruct (timeout_invalid _); [apply yields_throw|].
  eapply yields_bind with (Q1 := fun _ => forall cg, bb_task_cgroup_state b = Some cg ->
    identity_range (cgroup_identity cg) /\ bb_task_id b = Some (cgroup_task_id cg)).
  { destruct (bb_task_cgroup_state b) as [cg|]; cbn [optionally]; [|by apply yields_ret].
    case_bool_decide as Hid; cbn [negb]; [|apply yields_throw]. unfold TaskCgroupState_validate.
    eapply yields_bind; [apply task_cgroup_identity_range|]. intros ? Hr. do 3 yields_skip.
    destruct (_ || _); [apply yields_throw|]. apply yields_ret. by intros cg' [= <-]. }
  intros ? Hcg. destruct (negb (Bool.eqb _ _)); [apply yields_throw|]. cbv zeta.
  destruct (_ && _) eqn:Hmounts; [apply yields_throw|]. destruct (negb (Bool.eqb _ _)) eqn:Hroot; [apply yields_throw|].
  apply yields_lift. intros _ _. split; [done|]. split.
  - intros Hne. rewrite bool_decide_eq_false_2 in Hmounts by done. cbn [negb andb] in Hmounts.
    apply orb_false_iff in Hmounts as [_ Hc]. apply bool_decide_eq_false in Hc. by destruct (bb_task_cgroup_state b).
  - intros Hnone. rewrite Hnone in Hroot. rewrite bool_decide_eq_false_2 in Hroot by (by intros [? ?]).
    apply negb_false_iff, Bool.eqb_prop in Hroot. symmetry in Hroot. apply negb_false_iff, bool_decide_eq_true in Hroot. done.
Qed.

(** The host resolved [p] to [q] at some point. *)
Definition resolved (p q : string) : Prop := exists k k' : K, f_canonicalize p k = (Ok q, k').

(** A handler of the builder: every part of it is that of the configuration, the paths
    as the host resolved them, the sandbox executable the configured one found inside
    the root, and exactly the configured Capabilities mounted, all of them readable
    ones. *)
Record configured (c : BubblewrapProcessToolBuilder) (h : ProcessToolHandler) (b : BubblewrapLauncher) : Prop := {
  cf_launcher : ph_launcher h = Bubblewrap b;
  cf_bubblewrap : resolved (bb_bubblewrap c) (bl_bubblewrap b);
  cf_root : resolved (bb_root_filesystem c) (bl_root_filesystem b) /\ path_is_root_dir (bl_root_filesystem b) = false;
  cf_scratch : resolved (bb_scratch_directory c) (ph_working_directory h)
    /\ path_starts_with (ph_working_directory h) (bl_root_filesystem b) = false
    /\ path_starts_with (bl_root_filesystem b) (ph_working_directory h) = false;
  cf_executable : exists relative inside, path_strip_prefix (bb_sandbox_executable c) "/" = Some relative
    /\ resolved (path_join (bl_root_filesystem b) relative) (ph_executable h)
    /\ path_strip_prefix (ph_executable h) (bl_root_filesystem b) = Some inside
    /\ bl_sandbox_executable b = path_join "/" inside;
  cf_fixed : ph_fixed_arguments h = bb_fixed_arguments c;
  cf_environment : validate_environment (bb_environment c) = Ok (ph_environment h);
  cf_policy : ph_argument_policy h = bb_argument_policy c /\ ph_timeout h = bb_timeout c;
  cf_pins : ph_working_directory_identity h = bb_task_scratch_identity c
    /\ bl_verified_root_state b = bb_verified_root_state c;
  cf_mounts : map mount_capability (bl_mounts b) ≡ₚ bb_filesystem_capabilities c
    /\ Forall (fun m => access (mount_capability m) = Read) (bl_mounts b);
  cf_cgroup : option_map cl_task_cgroup (bl_cgroup_launch b) = bb_task_cgroup_state c
    /\ forall cl, bl_cgroup_launch b = Some cl ->
         exists launcher, bb_cgroup_launcher c = Some launcher /\ resolved launcher (cl_launcher cl);
}.

Definition built (c : BubblewrapProcessToolBuilder) (h : ProcessToolHandler) : Prop :=
  exists b, launchable h b /\ configured c h b.

Lemma yields_and {E A} (Q1 Q2 : A -> Prop) (m : M K E A) :
  yields Q1 m -> yields Q2 m -> yields (fun a => Q1 a /\ Q2 a) m.
Proof. intros H1 H2 k w. eapply wp_mono; [exact (wp_and _ _ _ _ _ (H1 k w) (H2 k w))|]. intros r k' w' [? ?]. auto. Qed.

Lemma resolves {E} (e : E) p : yields (resolved p) (sys_or e (f_canonicalize p)).
Proof. apply yields_sys_or. intros k q k' Hq. by exists k, k'. Qed.

Lemma canonical_executable_resolved p : yields (resolved p) (canonical_executable (K := K) p).
Proof.
  unfold canonical_executable. destruct (negb _); [apply yields_throw|]. eapply yields_bind; [apply resolves|].
  intros q Hq. yields_skip. by apply yields_ret.
Qed.

Lemma canonical_directory_resolved p : yields (resolved p) (canonical_directory (K := K) p).
Proof.
  unfold canonical_directory. destruct (negb _); [apply yields_throw|]. eapply yields_bind; [apply resolves|].
  intros q Hq. yields_skip. destruct (negb _); [apply yields_throw | by apply yields_ret].
Qed.

Lemma canonical_sandbox_root_resolved p :
  yields (fun q => resolved p q /\ path_is_root_dir q = false) (canonical_sandbox_root (K := K) p).
Proof.
  unfold canonical_sandbox_root. eapply yields_bind; [apply yields_map_err, canonical_directory_resolved|]. intros q Hq.
  destruct (path_is_root_dir q) eqn:Hr; [apply yields_throw | by apply yields_ret].
Qed.

Lemma canonical_scratch_resolved p root :
  yields (fun q => resolved p q /\ path_starts_with q root = false /\ path_starts_with root q = false)
    (canonical_scratch_directory (K := K) p root).
Proof.
  unfold canonical_scratch_directory. eapply yields_bind; [apply yields_map_err, canonical_directory_resolved|]. intros q Hq.
  destruct (_ || _) eqn:Hg; [apply yields_throw|]. rewrite !orb_false_iff in Hg. apply yields_ret. naive_solver.
Qed.

Lemma canonical_sandbox_executable_resolved root p :
  yields (fun r => exists relative inside, path_strip_prefix p "/" = Some relative
      /\ resolved (path_join root relative) r.1.1 /\ path_strip_prefix r.1.1 root = Some inside
      /\ r.2 = path_join "/" inside) (canonical_sandbox_executable (K := K) root p).
Proof.
  unfold canonical_sandbox_executable. yields_skip. destruct (path_strip_prefix p "/") as [relative|]; [|apply (yields_bind (fun _ => False)); [apply (yields_lift (fun _ => False)); done | done]].
  eapply (yields_bind (fun q => q = relative)); [apply yields_lift; by intros q [= <-]|]. intros ? ->.
  eapply yields_bind; [apply resolves|]. intros q Hq. destruct (negb _); [apply yields_throw|]. yields_skip.
  destruct (path_strip_prefix q root) as [inside|] eqn:Hi; [|apply (yields_bind (fun _ => False)); [apply (yields_lift (fun _ => False)); done | done]].
  eapply (yields_bind (fun i => i = inside)); [apply yields_lift; by intros i [= <-]|]. intros ? ->.
  apply yields_ret. by exists relative, inside.
Qed.

Lemma bubblewrap_cgroup_launch_state cg launcher :
  yields (fun o => option_map cl_task_cgroup o = cg
      /\ forall cl, o = Some cl -> exists p, launcher = Some p /\ resolved p (cl_launcher cl))
    (bubblewrap_cgroup_launch (K := K) cg launcher).
Proof.
  unfold bubblewrap_cgroup_launch. destruct cg as [cg|], launcher as [launcher|];
    try apply yields_throw; try by apply yields_ret.
  eapply yields_bind; [apply yields_map_err, canonical_executable_resolved|]. intros q Hq. yields_skip.
  apply yields_ret. split; [done|]. intros cl [= <-]. by exists launcher.
Qed.

Lemma build_yields b : yields (built b) (BubblewrapProcessToolBuilder_build (K := K) b).
Proof.
  unfold BubblewrapProcessToolBuilder_build.
  eapply yields_bind; [apply bubblewrap_config_ok|]. intros ? (Hcg & Hne & Hnone).
  eapply yields_bind; [apply canonical_executable_resolved|]. intros bubblewrap Hbw. yields_skip.
  eapply yields_bind; [apply yields_and; [apply canonical_sandbox_root_absolute | apply canonical_sandbox_root_resolved]|].
  intros root [Hroot Hroot']. do 2 yields_skip.
  eapply yields_bind; [apply yields_and; [apply canonical_scratch_absolute | apply canonical_scratch_resolved]|].
  intros scratch [Hscratch Hscratch']. yields_skip.
  eapply yields_bind; [apply canonical_sandbox_executable_resolved|].
  intros [[executable identity] sandbox_executable] Hexe.
  eapply yields_bind; [apply (yields_lift (fun e => validate_environment (bb_environment b) = Ok e)); done|].
  intros environment Henv.
  eapply yields_bind with (Q1 := mounts_for (bb_filesystem_capabilities b)).
  { destruct (bb_source_root b); [apply open_filesystem_capabilities_mounts|]. apply yields_ret. by rewrite Hnone. }
  intros mounts (Hperm & Hread & Hcount). eapply yields_bind; [apply bubblewrap_cgroup_launch_state|]. intros o [Ho Hl].
  cbv beta in *. apply yields_ret.
  assert (Hlen : length mounts = length (bb_filesystem_capabilities b)) by (by rewrite <-Hperm, length_map).
  assert (Hmounts : Forall (fun m => readable_mount (mount_capability m)) mounts)
    by (rewrite <-Hperm in Hread; exact (proj1 (Forall_map _ _ _) Hread)).
  eexists. split; [split; [reflexivity|..]|].
  - done.
  - done.
  - exact Hmounts.
  - unfold len in *. simpl. lia.
  - intros Hm. destruct Hne as [cg Hcg']; [intros E; rewrite E in Hlen; by destruct mounts|].
    rewrite <-Ho in Hcg'. simpl. by destruct o.
  - simpl. intros cl ->. by destruct (Hcg _ (eq_sym Ho)).
  - split; simpl; try done. split; [exact Hperm|]. eapply Forall_impl; [exact Hmounts|]. by intros m [].
Qed.

(** The command of a handler with a sandbox, whose filter has the descriptor of [f]. *)
Lemma build_command_yields h b f arguments :
  ph_launcher h = Bubblewrap b ->
  yields (fun cs => exists stdin, cs.1 = expected_command h arguments (raw_fd f) stdin)
    (build_command (K := K) h (Some f) arguments).
Proof.
  intros Hb. unfold build_command, expected_command. rewrite Hb. unfold bubblewrap_command. do 3 yields_skip.
  eapply yields_bind with (Q1 := fun r => let '(program, prefix, stdin, _) := r in program = launch_program b
    /\ prefix = match bl_cgroup_launch b with Some cl => launch_prefix b cl | None => [] end
    /\ (bl_mounts b = [] -> stdin = StdinNull)).
  { unfold launcher_command, launch_program, launch_prefix. destruct (bl_cgroup_launch b) as [cl|].
    - destruct (launch_identity (cl_task_cgroup cl)) as [[process_file device] inode].
      case_bool_decide as Hm; [by apply yields_ret|]. yields_skip. by apply yields_ret.
    - case_bool_decide as Hm; [by apply yields_ret | apply yields_throw]. }
  intros [[[program prefix] stdin] sender] (-> & -> & Hstdin).
  eapply yields_bind with (Q1 := fun o => o = if bool_decide (bl_mounts b = []) then Some (raw_fd f) else None).
  { case_bool_decide; by apply yields_ret. }
  intros ? ->. apply yields_ret. exists stdin. simpl.
  case_bool_decide as Hm; [by rewrite (Hstdin Hm) | done].
Qed.

End Build.


(** The command line of the concrete sandbox, and what the launcher makes of it. *)
Definition demo_sandbox_image : list string :=
  sandbox_options "/rootfs" "/scratch/7"
  ++ ["--seccomp"; "5"; "--ro-bind-fd"; "6"; "/data"; "--"; "/bin/tool"; "--check"].

Definition demo_filter : SeccompFilterFile := mk_SeccompFilterFile 3.

