(* ===== verification/ServerProps.v ===== *)
(** * Properties of the local server *)

From stdpp Require Import base numbers list gmap strings.
From Stdlib Require Import ZArith Lia.
From S2P Require Import Prelude RustStd RustOs TaskState TaskSpec Event Approval Supervisor Recovery.
From S2P Require Import SupervisorInv SupervisorFacts SupervisorOps RecoveryFacts SupervisorRun SupervisorProps.
From S2P Require Import LocalApi LocalApiProps ProcessHost LocalServer HostLog DemoServer.

#[local] Open Scope Z_scope.

(** Binding, accepting and removing are kept in the log with what was accepted. *)
#[export] Instance logged_sockets {K} `{!UnixSockets K} : UnixSockets (Logged K) := {|
  u_bind p := logged (fun r => CallBind p (is_ok r)) (u_bind p);
  u_accept l := logged (fun r => CallAccept l (match r with Ok c => Some c.2 | Err _ => None end)) (u_accept l);
  u_connect p := logged (fun _ => CallRead) (u_connect p);
  u_set_read_timeout c d := logged (fun _ => CallRead) (u_set_read_timeout c d);
  u_set_write_timeout c d := logged (fun _ => CallRead) (u_set_write_timeout c d);
  u_reply c s := logged (fun _ => CallRead) (u_reply c s);
  u_close c s := logged (fun _ => CallRead) (u_close c s);
  u_remove_file p := logged (fun r => CallRemoveFile p (is_ok r)) (u_remove_file p);
|}.

(** One more call on the log of a computation. *)
Ltac host_call l' w' t' Ht :=
  (eapply wp_traces; [apply traces_logged_or | intros ? l' w' t' Ht [-> [(? & -> & ->)|(? & -> & ->)]]])
  || (eapply wp_traces; [apply traces_logged | intros ? l' w' t' Ht (? & -> & -> & ->)]).

(** ** The socket *)

Section Socket.
Context {K : Type} `{!Files K, !UnixSockets K}.

(** A directory that only its owner can use. *)
Definition owner_only (m : Metadata) : Prop :=
  md_type m = TypeDirectory /\ Z.land (md_mode m) 63 = 0.

Lemma owner_only_checked m :
  is_symlink m || negb (is_dir m) || negb (Z.land (md_mode m) 63 =? 0) = false -> owner_only m.
Proof.
  unfold is_symlink, is_dir. bool_prop. rewrite bool_decide_eq_true. by intros [[_ ?] ?].
Qed.

(** The calls that secure the parent directory of a socket. *)
Definition parent_calls (path : string) (t : list HostCall) : Prop :=
  exists parent, path_parent path = Some parent /\ is_empty_str parent = false /\
    ((exists m, owner_only m /\ t = [CallSymlinkMetadata parent (Ok m)])
     \/ t = [CallSymlinkMetadata parent (Err IoNotFound); CallCreateDir parent 448 true]).

(** A new parent that could not be made. *)
Definition parent_failed (path : string) (t : list HostCall) : Prop :=
  effects t = [] \/ exists parent, path_parent path = Some parent /\ effects t = [CallCreateDir parent 448 false].

Lemma traces_prepare_socket_parent path :
  traces (prepare_socket_parent (K := Logged K) path) (fun r t w w' => w' = w /\
    match r with
    | Return _ => parent_calls path t
    | Raise _ => parent_failed path t
    | Panic => False
    end).
Proof.
  intros l w. unfold prepare_socket_parent.
  assert (Hnone : forall e, wp (throw e : M (Logged K) LocalApiError unit) (fun r l' w' => exists t, log l' = log l ++ t /\ w' = w /\
    match r with Return _ => parent_calls path t | Raise _ => parent_failed path t | Panic => False end) l w).
  { intros e. wp_step. exists []. rewrite app_nil_r. split_and!; [done | done | by left]. }
  destruct (path_parent path) as [parent|] eqn:Hp; [|apply Hnone].
  destruct (is_empty_str parent) eqn:He; [apply Hnone|]. clear Hnone.
  wp_step. eapply wp_traces; [apply traces_logged|]. intros r l1 w1 t1 Ht1 (a & -> & -> & ->).
  destruct a as [m|[]].
  - destruct (_ || _) eqn:Hm; wp_step; (eexists; split; [exact Ht1 | split; [done|]]); [by left|].
    exists parent. split_and!; [done | done |]. left. exists m. by split; [apply owner_only_checked|].
  - eapply wp_traces; [apply traces_logged_or|]. intros r l2 w2 t2 Ht2 [-> [([] & -> & ->)|(i & -> & ->)]];
      (eexists; split; [rewrite Ht2, Ht1, <-app_assoc; reflexivity | split; [done|]]).
    + exists parent. split_and!; [done | done |]. by right.
    + right. exists parent. by split.
  - wp_step. eexists. split; [exact Ht1 | split; [done|]]. by left.
Qed.

(** The calls of a successful [bind], and the server it makes. *)
Definition bound (path : string) (config : ServerConfig) (server : LocalServer) (t : list HostCall) : Prop :=
  exists t0 m, parent_calls path t0
    /\ t = t0 ++ [CallSymlinkMetadata path (Err IoNotFound); CallBind path true;
                  CallSetPermissions path 384 true; CallSymlinkMetadata path (Ok m)]
    /\ ServerConfig_validate config = Ok (server_config server) /\ socket_path server = path
    /\ socket_device server = md_dev m /\ socket_inode server = md_ino m.

(** The calls of a [bind] refused after its parent directory was secured: an
    existing path is left alone, and a socket that could not be restricted or
    identified stays behind. *)
Inductive refused (path : string) : LocalApiError -> list HostCall -> Prop :=
| refused_existing m : refused path SocketAlreadyExists [CallSymlinkMetadata path (Ok m)]
| refused_unknown : refused path Io [CallSymlinkMetadata path (Err IoOther)]
| refused_bind : refused path Io [CallSymlinkMetadata path (Err IoNotFound); CallBind path false]
| refused_mode :
    refused path Io [CallSymlinkMetadata path (Err IoNotFound); CallBind path true; CallSetPermissions path 384 false]
| refused_identity i :
    refused path Io [CallSymlinkMetadata path (Err IoNotFound); CallBind path true; CallSetPermissions path 384 true;
                     CallSymlinkMetadata path (Err i)].

Definition unbound (path : string) (e : LocalApiError) (t : list HostCall) : Prop :=
  parent_failed path t \/ exists t0 t1, parent_calls path t0 /\ t = t0 ++ t1 /\ refused path e t1.

Lemma traces_bind path config :
  traces (LocalServer_bind (K := Logged K) path config) (fun r t w w' => w' = w /\
    match r with
    | Return server => bound path config server t
    | Raise e => unbound path e t
    | Panic => False
    end).
Proof.
  intros l w. unfold LocalServer_bind. wp_step. wp_step.
  destruct (ServerConfig_validate config) as [config'|e] eqn:Hc.
  2:{ exists []. rewrite app_nil_r. split_and!; [done | done |]. left. by left. }
  wp_step. eapply wp_traces; [apply traces_prepare_socket_parent|]. intros [[]|e|] l0 w0 t0 Ht0 [-> Hp]; [| |done].
  2:{ exists t0. split_and!; [done | done | by left]. }
  assert (Hre : forall (l' : Logged K) t1 e, log l' = log l0 ++ t1 -> refused path e t1 ->
    exists t, log l' = log l ++ t /\ w = w /\ unbound path e t).
  { intros l' t1 e Hl Hr. exists (t0 ++ t1). rewrite Hl, Ht0, app_assoc. split_and!; [done | done|]. right.
    by exists t0, t1. }
  wp_step. host_call l1 w1 t1 Ht1. destruct x as [m|[]]; [wp_step| |wp_step].
  1,3: eapply Hre; [exact Ht1 | constructor].
  wp_step. host_call l2 w2 t2 Ht2; rewrite Ht1, <-app_assoc in Ht2; cbn [is_ok app] in Ht2.
  2:{ eapply Hre; [exact Ht2 | constructor]. }
  wp_step. host_call l3 w3 t3 Ht3; rewrite Ht2, <-app_assoc in Ht3; cbn [is_ok app] in Ht3.
  2:{ eapply Hre; [exact Ht3 | constructor]. }
  wp_step. host_call l4 w4 t4 Ht4; rewrite Ht3, <-app_assoc in Ht4; cbn [is_ok app] in Ht4.
  2:{ eapply Hre; [exact Ht4 | constructor]. }
  wp_step. eexists. split; [rewrite Ht4, Ht0, <-app_assoc; reflexivity|]. split; [done|].
  eexists t0, _. split_and!; try done.
Qed.


(** The socket a server bound. *)
Definition still_bound (server : LocalServer) (m : Metadata) : Prop :=
  md_type m = TypeSocket /\ md_dev m = socket_device server /\ md_ino m = socket_inode server.

(** The calls of dropping a server: it looks, and removes exactly its own socket. *)
Definition dropped (server : LocalServer) (t : list HostCall) : Prop :=
  (exists r, t = [CallSymlinkMetadata (socket_path server) r] /\ forall m, r = Ok m -> ~ still_bound server m)
  \/ exists m ok, still_bound server m
       /\ t = [CallSymlinkMetadata (socket_path server) (Ok m); CallRemoveFile (socket_path server) ok].

Lemma traces_drop {E} server :
  traces (LocalServer_drop (K := Logged K) (E := E) server)
    (fun r t w w' => w' = w /\ r = Return tt /\ dropped server t).
Proof.
  intros l w. unfold LocalServer_drop. wp_step. host_call l1 w1 t1 Ht1. destruct x as [m|i].
  - destruct (is_socket m && _ && _) eqn:Hm; unfold is_socket in Hm; bool_prop;
      rewrite ?bool_decide_eq_true, ?bool_decide_eq_false in Hm.
    + wp_step. host_call l2 w2 t2 Ht2. wp_step. eexists. split; [rewrite Ht2, Ht1, <-app_assoc; reflexivity|].
      split_and!; [done | done |]. right. exists m, (is_ok x). split; [|done]. unfold still_bound. tauto.
    + wp_step. eexists. split; [exact Ht1|]. split_and!; [done | done |]. left. exists (Ok m). split; [done|].
      intros ? [= <-]. unfold still_bound. tauto.
  - wp_step. eexists. split; [exact Ht1|]. split_and!; [done | done |]. left. exists (Err i). by split.
Qed.

End Socket.

(** C22: The control socket is private and never replaces anything: a successful
    [bind] found the parent an owner-only directory, or made it with mode 0700,
    found nothing at the path, and then bound the socket and set its mode to 0600; a
    path that exists is refused and left alone; and dropping the server removes the
    socket exactly if the path still names the file that was bound. *)
Theorem sockets_are_owner_only {K} `{!Files K, !UnixSockets K} path config (l : Logged K) w :
  match LocalServer_bind path config l w with
  | (r, l', w') => w' = w /\ exists t, log l' = log l ++ t /\
      match r with
      | Return server => bound path config server t
          /\ forall l1 w1, match LocalServer_drop (E := LocalApiError) server l1 w1 with
                           | (r1, l2, w2) => r1 = Return tt /\ w2 = w1
                               /\ exists t1, log l2 = log l1 ++ t1 /\ dropped server t1
                           end
      | Raise e => unbound path e t
      | Panic => False
      end
  end.
Proof.
  pose proof (traces_bind path config l w) as Hb. unfold wp in Hb.
  destruct (LocalServer_bind path config l w) as [[r l'] w']. destruct Hb as (t & Ht & -> & Hr).
  split; [done|]. exists t. split; [done|]. destruct r as [server|e|]; [|done..]. split; [done|].
  intros l1 w1. pose proof (traces_drop (E := LocalApiError) server l1 w1) as Hd. unfold wp in Hd.
  destruct (LocalServer_drop server l1 w1) as [[r1 l2] w2]. destruct Hd as (t1 & Ht1 & -> & -> & Hd).
  split_and!; [done | done|]. by exists t1.
Qed.

(** ** Serving *)

Section Serving.
Context `{EnvLaws} {St : Type} `{EventStoreLaws St}.
Context (parse_probe : list Z -> option Z) (parse_request : list Z -> option ApiRequest)
  (encode_response : ApiResponse -> option (list Z)).
Implicit Types s : TaskSupervisor St.

(** The service on its own: requests one after the other. *)
Fixpoint handle_all (requests : list ApiRequest) : M (TaskSupervisor St) Empty_set (list ApiResponse) :=
  match requests with
  | [] => ret []
  | request :: rest =>
      let! response := handle request in
      let! responses := handle_all rest in
      ret (response :: responses)
  end.

Lemma handle_all_app rs1 rs2 s w out1 s1 w1 out2 s2 w2 :
  handle_all rs1 s w = (Return out1, s1, w1) -> handle_all rs2 s1 w1 = (Return out2, s2, w2) ->
  handle_all (rs1 ++ rs2) s w = (Return (out1 ++ out2), s2, w2).
Proof.
  revert s w out1. induction rs1 as [|request rs1 IH]; intros s w out1.
  { intros [= <- -> ->] Hb. exact Hb. }
  cbn [handle_all app]. unfold bind. destruct (handle request s w) as [[[resp|e|] s0] w0]; [|done..].
  destruct (handle_all rs1 s0 w0) as [[[resps|e|] s3] w3] eqn:E1; [|done..]. intros [= <- -> ->] Hb.
  by rewrite (IH _ _ _ E1 Hb).
Qed.

(** The request in the payload of a frame, and that of a connection. *)
Definition request_in (payload : list Z) : option ApiRequest :=
  match parse_probe payload with
  | Some version => if is_supported_protocol_version version then parse_request payload else None
  | None => None
  end.

Definition request_of (max : Z) (stream : Stream) : option ApiRequest :=
  match (read_frame max stream).1 with
  | Ok (Some payload) => request_in payload
  | _ => None
  end.

(** The supervisor after a run that handled some of the requests offered. *)
Definition relayed (offered : list ApiRequest) s w s' w' : Prop :=
  exists rs responses, sublist rs offered /\ handle_all rs s w = (Return responses, s', w').

Lemma relayed_none offered s w : relayed offered s w s w.
Proof. exists [], []. split; [apply sublist_nil_l | done]. Qed.

Lemma relayed_trans o1 o2 s w s1 w1 s2 w2 :
  relayed o1 s w s1 w1 -> relayed o2 s1 w1 s2 w2 -> relayed (o1 ++ o2) s w s2 w2.
Proof.
  intros (rs1 & out1 & Hs1 & Ha) (rs2 & out2 & Hs2 & Hb). exists (rs1 ++ rs2), (out1 ++ out2).
  split; [by apply sublist_app | by eapply handle_all_app].
Qed.

(** A good step of the service. *)
Definition relays (offered : list ApiRequest) s w s' w' : Prop :=
  sup_inv false s' w' /\ world_le w w' /\ relayed offered s w s' w'.

Lemma relays_none offered s w : sup_inv false s w -> relays offered s w s w.
Proof. intros Hi. split_and!; [done | done | apply relayed_none]. Qed.

Lemma relays_trans o1 o2 s w s1 w1 s2 w2 :
  relays o1 s w s1 w1 -> relays o2 s1 w1 s2 w2 -> relays (o1 ++ o2) s w s2 w2.
Proof. intros (_ & Hw1 & Hr1) (Hi & Hw2 & Hr2). split_and!; [done | by etrans | by eapply relayed_trans]. Qed.

Lemma wp_answer payload s w :
  sup_inv false s w ->
  wp (answer parse_probe parse_request payload)
    (fun r s' w' => r <> Panic /\ relays (option_list (request_in payload)) s w s' w') s w.
Proof.
  intros Hi. unfold answer, request_in.
  destruct (parse_probe payload) as [version|]; [|cbn [negb]; wp_step; split; [done | by apply relays_none]].
  destruct (is_supported_protocol_version version); [|cbn [negb]; wp_step; split; [done | by apply relays_none]]. cbn [negb].
  destruct (parse_request payload) as [request|]; [|cbn [negb]; wp_step; split; [done | by apply relays_none]].
  pose proof (wp_handle request s w Hi) as Hh. unfold wp in *.
  destruct (handle request s w) as [[r1 s1] w1] eqn:Hrun. destruct Hh as (Hi1 & Hw1 & resp & -> & _).
  split_and!; [done|]. split_and!; [done | done|]. exists [request], [resp]. split; [done|].
  cbn [handle_all]. unfold bind. by rewrite Hrun.
Qed.

Lemma wp_serve_stream max stream s w :
  sup_inv false s w ->
  wp (serve_stream parse_probe parse_request encode_response max)
    (fun r x' w' => r <> Panic /\ relays (option_list (request_of max stream)) s w x'.2 w') (stream, s) w.
Proof.
  intros Hi. unfold wp, serve_stream, request_of.
  destruct (read_frame max stream) as [[[payload|]|e] st1]; cbn [fst].
  - pose proof (wp_answer payload s w Hi) as Ha. unfold wp in Ha.
    destruct (answer parse_probe parse_request payload s w) as [[[resp|[]|] s1] w1]; [|exact (False_ind _ (proj1 Ha eq_refl))].
    destruct Ha as [_ Ha]. by destruct (write_response _ _ _ _) as [[[]|e] st2].
  - split; [done | by apply relays_none].
  - destruct e; try (split; [done | by apply relays_none]).
    destruct (write_response _ _ _ _) as [[[]|e] st2]; (split; [done | by apply relays_none]).
Qed.

(** ** The loop *)

Context {K : Type} `{!Files K, !UnixSockets K}.
Abbreviation Serving := (M (Logged K * TaskSupervisor St) LocalApiError).

(** What was accepted. *)
Definition accepted (t : list HostCall) : list Stream :=
  omap (fun c => match c with CallAccept _ stream => stream | _ => None end) t.

Lemma accepted_app t1 t2 : accepted (t1 ++ t2) = accepted t1 ++ accepted t2.
Proof. apply omap_app. Qed.

Lemma accepted_reads t : Forall is_read t -> accepted t = [].
Proof. induction 1 as [|c t Hc _ IH]; [done|]. by destruct c. Qed.

Lemma wp_on_host {E A} (m : M (Logged K) E A) Q l s w :
  wp m (fun r l' w' => Q r (l', s) w') l w -> wp (on_host m) Q (l, s) w.
Proof. intros Hm. unfold on_host. apply wp_zoom. exact Hm. Qed.

Lemma reads_configure_stream c d : reads (configure_stream (K := Logged K) c d).
Proof. unfold configure_stream. reads. Qed.

(** One turn: a connection was accepted and at most its request was handled, or
    accepting failed and nothing happened. *)
Definition turn_done (server : LocalServer) (r : outcome unit LocalApiError) (t : list HostCall) s w s' w' : Prop :=
  (exists stream t1, r = Return tt /\ t = CallAccept (listener server) (Some stream) :: t1 /\ Forall is_read t1
     /\ relays (option_list (request_of (max_frame_bytes (server_config server)) stream)) s w s' w')
  \/ (r = Raise Io /\ t = [CallAccept (listener server) None] /\ s' = s /\ w' = w).

Lemma wp_serve_turn server l s w :
  sup_inv false s w ->
  wp (serve_turn parse_probe parse_request encode_response server)
    (fun r x' w' => exists t, log x'.1 = log l ++ t /\ turn_done server r t s w x'.2 w') (l, s) w.
Proof.
  intros Hi. unfold serve_turn. wp_step. apply wp_on_host. host_call l1 w1 t1 Ht1.
  2:{ eexists. split; [exact Ht1|]. by right. }
  destruct x as [c stream]. wp_step. apply wp_on_host.
  wp_step. eapply wp_traces; [apply reads_configure_stream|]. intros [[]|e|] l2 w2 t2 Ht2 (Hr2 & -> & Hp);
    cbn beta iota; [| |by destruct Hp].
  - wp_step. wp_step. unfold wp at 1, serve_connection. cbn [fst snd].
    pose proof (wp_serve_stream (max_frame_bytes (server_config server)) stream s w Hi) as Hs. unfold wp in Hs.
    destruct (serve_stream _ _ _ _ _ _) as [[r3 [st3 s3]] w3]. destruct Hs as [Hne Hrel].
    cbn [u_close logged_sockets]. unfold logged. destruct (u_close c st3 (logged_host l2)) as [[] k3]. cbn [snd].
    assert (Hdone : exists t, log l2 ++ [CallRead] = log l ++ t /\ turn_done server (Return tt) t s w s3 w3).
    { eexists. rewrite Ht2, Ht1, <-!app_assoc. split; [reflexivity|]. left. eexists stream, _.
      split_and!; [done | done | | done]. apply Forall_app. by repeat constructor. }
    destruct r3 as [[]|e|]; [exact Hdone.. | done].
  - apply wp_on_host. host_call l3 w3 t3 Ht3. cbn [fst snd]. eexists. rewrite Ht3, Ht2, Ht1, <-!app_assoc. split; [reflexivity|].
    left. eexists stream, _. destruct x. split_and!; [done | done | | by apply relays_none].
    apply Forall_app. by repeat constructor.
Qed.

Definition offered (server : LocalServer) (t : list HostCall) : list ApiRequest :=
  omap (request_of (max_frame_bytes (server_config server))) (accepted t).

(** The loop goes on until accepting fails. *)
Definition loop_done (turns : nat) (server : LocalServer) (r : outcome unit LocalApiError) (t : list HostCall) : Prop :=
  (r = Return tt /\ length (accepted t) = turns)
  \/ (r = Raise Io /\ (length (accepted t) < turns)%nat
      /\ exists t0, t = t0 ++ [CallAccept (listener server) None]).

Lemma wp_serve_forever turns server l s w :
  sup_inv false s w ->
  wp (serve_forever parse_probe parse_request encode_response turns server)
    (fun r x' w' => exists t, log x'.1 = log l ++ t /\ relays (offered server t) s w x'.2 w'
       /\ Forall (fun c => is_read c \/ exists stream, c = CallAccept (listener server) stream) t
       /\ loop_done turns server r t) (l, s) w.
Proof.
  revert l s w. induction turns as [|turns IH]; intros l s w Hi; cbn [serve_forever].
  { wp_step. exists []. rewrite app_nil_r. split_and!; [done | by apply relays_none | done | by left]. }
  wp_step. eapply wp_mono; [by apply (wp_serve_turn server l)|].
  intros r [l1 s1] w1 (t1 & Ht1 & [(stream & t2 & -> & -> & Hr2 & Hrel)|(-> & -> & -> & ->)]); cbn [fst snd] in *.
  - eapply wp_mono; [apply IH, Hrel|]. intros r [l3 s3] w3 (t3 & Ht3 & Hrel3 & Hc3 & Hd3). cbn [fst snd] in *.
    assert (Ha : accepted (CallAccept (listener server) (Some stream) :: t2 ++ t3) = stream :: accepted t3).
    { cbn. f_equal. change (accepted (t2 ++ t3) = accepted t3). by rewrite accepted_app, (accepted_reads t2). }
    exists (CallAccept (listener server) (Some stream) :: t2 ++ t3). split_and!.
    + by rewrite Ht3, Ht1, <-app_assoc.
    + unfold offered. rewrite Ha. cbn [omap list_omap].
      pose proof (relays_trans _ _ _ _ _ _ _ _ Hrel Hrel3) as Hall. unfold offered in Hall.
      by destruct (request_of _ stream).
    + constructor; [right; by eexists|]. apply Forall_app. split; [|done].
      eapply Forall_impl; [exact Hr2|]. auto.
    + destruct Hd3 as [[-> Hn]|(-> & Hn & t0 & ->)]; [left | right].
      * split; [done|]. rewrite Ha. cbn. lia.
      * split; [done|]. split; [rewrite Ha; cbn; lia|].
        exists (CallAccept (listener server) (Some stream) :: t2 ++ t0). cbn. by rewrite <-app_assoc.
  - exists [CallAccept (listener server) None]. split_and!; [done | by apply relays_none | |].
    + constructor; [right; by eexists | done].
    + right. split_and!; [done | cbn; lia|]. by exists [].
Qed.

End Serving.

(** C20: The accept loop only relays: whatever peers connect and send, in any number
    of turns of [serve_forever] the supervisor changes exactly as if the requests of
    some of the accepted connections, at most one each and in their order, had been
    handled directly; the loop panics never, and ends only when accepting itself
    fails, so no client can stop the daemon. *)
Theorem server_only_relays_requests `{EnvLaws} {St} `{EventStoreLaws St} {K} `{!Files K, !UnixSockets K}
    parse_probe parse_request encode_response turns server (l : Logged K) (s : TaskSupervisor St) w :
  reachable false s w ->
  match serve_forever parse_probe parse_request encode_response turns server (l, s) w with
  | (r, (l', s'), w') => exists t rs responses, log l' = log l ++ t
      /\ sublist rs (omap (request_of parse_probe parse_request (max_frame_bytes (server_config server))) (accepted t))
      /\ handle_all rs s w = (Return responses, s', w')
      /\ loop_done turns server r t
  end.
Proof.
  intros Hi%reachable_inv.
  pose proof (wp_serve_forever parse_probe parse_request encode_response turns server l s w Hi) as Hwp.
  unfold wp in Hwp. destruct (serve_forever _ _ _ _ _ _ _) as [[r [l' s']] w'].
  destruct Hwp as (t & Ht & (_ & _ & rs & responses & Hsub & Hall) & _ & Hd). by exists t, rs, responses.
Qed.

(** Three peers; the second one's task is all that reaches the supervisor. *)
Lemma server_only_relays_requests_witness :
  let server := mk_LocalServer 3 "/work/aiosd.sock" 1 70 ServerConfig_default in
  let run := serve_forever (fun _ => Some 4) demo_parse_request demo_encode_response 3 server
               (mk_Logged demo_server [], demo_supervisor) world0 in
  exists rs responses, handle_all rs demo_supervisor world0 = (Return responses, run.1.2.2, run.2)
    /\ sublist rs [ApiRequest_new (Submit example_task)] /\ run.1.1 = Return tt.
Proof.
  intros server run.
  pose proof (server_only_relays_requests (fun _ => Some 4) demo_parse_request demo_encode_response 3 server
    (mk_Logged demo_server []) demo_supervisor world0 (demo_reachable false world0)) as Hrun. fold run in Hrun.
  assert (Hlog : omap (request_of (fun _ => Some 4) demo_parse_request 65536) (accepted (log run.1.2.1))
                 = [ApiRequest_new (Submit example_task)]) by (vm_compute; reflexivity).
  assert (Hr : run.1.1 = Return tt) by (vm_compute; reflexivity).
  clearbody run. destruct run as [[r [l' s']] w']. destruct Hrun as (t & rs & responses & Ht & Hsub & Hall & _).
  cbn in *. exists rs, responses. split; [exact Hall|]. split; [|exact Hr]. rewrite <-Hlog, Ht. exact Hsub.
Defined.
