(* ===== verification/Confidential.v ===== *)
(** * Contracts stay confidential

    A disguise replaces task specifications everywhere: in the supervisor's table and
    in the calls made on it.  Every operation commutes with a disguise that keeps keys,
    validation results and policy decisions, so neither the answers nor the audit log
    depend on anything else of a specification: not on goals, paths, destinations or
    budgets. *)

From stdpp Require Import base numbers list gmap strings.
From Stdlib Require Import ZArith Lia.
From S2P Require Import Prelude RustStd TaskState TaskSpec Policy Event Approval Supervisor Recovery.
From S2P Require Import SupervisorRun SupervisorProps LocalApi ServerProps.

(** ** Methods that commute with a map of the receiver *)

Section Commuting.
Context {X : Type} (f : X -> X).

(** [m'] does on [f x] what [m] does on [x]. *)
Definition commutes {E A} (m m' : M X E A) : Prop :=
  forall x w, m' (f x) w = (let '(r, x', w') := m x w in (r, f x', w')).

Lemma commutes_ret {E A} (a : A) : commutes (ret a : M X E A) (ret a).
Proof. by intros x w. Qed.

Lemma commutes_throw {E A} (e : E) : commutes (throw e : M X E A) (throw e).
Proof. by intros x w. Qed.

Lemma commutes_panic {E A} : commutes (panic : M X E A) panic.
Proof. by intros x w. Qed.

Lemma commutes_lift {E A} (r : Result A E) : commutes (lift r : M X E A) (lift r).
Proof. by destruct r; intros x w. Qed.

Lemma commutes_gets {E A} (p p' : X -> A) :
  (forall x, p' (f x) = p x) -> commutes (gets p : M X E A) (gets p').
Proof. intros Hp x w. unfold gets. by rewrite Hp. Qed.

Lemma commutes_modify {E} (q q' : X -> X) :
  (forall x, q' (f x) = f (q x)) -> commutes (modify q : M X E unit) (modify q').
Proof. intros Hq x w. unfold modify. by rewrite Hq. Qed.

Lemma commutes_bind {E A B} (m m' : M X E A) (g g' : A -> M X E B) :
  commutes m m' -> (forall a, commutes (g a) (g' a)) -> commutes (bind m g) (bind m' g').
Proof.
  intros Hm Hg x w. unfold bind. rewrite Hm. destruct (m x w) as [[[a|e|] x'] w']; [apply Hg | done | done].
Qed.

Lemma commutes_attempt {E E' A} (m m' : M X E A) :
  commutes m m' -> commutes (attempt m : M X E' _) (attempt m').
Proof. intros Hm x w. unfold attempt. rewrite Hm. by destruct (m x w) as [[[a|e|] x'] w']. Qed.

Lemma commutes_map_err {E E' A} (k : E -> E') (m m' : M X E A) :
  commutes m m' -> commutes (map_err k m) (map_err k m').
Proof. intros Hm x w. unfold map_err. rewrite Hm. by destruct (m x w) as [[[a|e|] x'] w']. Qed.

(** A method on a field the map does not touch. *)
Lemma commutes_zoom {Y E A} (get : X -> Y) (set : Y -> X -> X) (m : M Y E A) :
  (forall x, get (f x) = get x) -> (forall y x, set y (f x) = f (set y x)) ->
  commutes (zoom get set m) (zoom get set m).
Proof.
  intros Hget Hset x w. unfold zoom. rewrite Hget. destruct (m (get x) w) as [[r y] w']. by rewrite Hset.
Qed.

Lemma commutes_for_each {E A} (g g' : A -> M X E unit) l :
  (forall a, commutes (g a) (g' a)) -> commutes (for_each g l) (for_each g' l).
Proof. intros Hg. induction l as [|a l IH]; [apply commutes_ret | by apply commutes_bind]. Qed.

Lemma commutes_effects `{Env} {E} :
  commutes (Instant_now : M X E Z) Instant_now /\ commutes (Uuid_now_v7 : M X E Uuid) Uuid_now_v7.
Proof. by split; intros x w. Qed.

End Commuting.

Create HintDb commute.

#[export] Hint Resolve commutes_ret commutes_throw commutes_panic commutes_lift : commute.
#[export] Hint Resolve commutes_attempt commutes_map_err commutes_for_each : commute.
#[export] Hint Extern 1 (commutes _ Instant_now _) => apply commutes_effects : commute.
#[export] Hint Extern 1 (commutes _ Uuid_now_v7 _) => apply commutes_effects : commute.

(** Goes through a method; what is left are the reads and updates of the map. *)
Ltac commute :=
  repeat first
    [ match goal with |- forall _, _ => intro end
    | solve [eauto with commute]
    | apply commutes_zoom; [done | done]
    | apply commutes_gets; done
    | apply commutes_modify; done
    | apply commutes_attempt
    | apply commutes_map_err
    | apply commutes_for_each
    | apply commutes_bind
    | match goal with
      | |- commutes _ (match ?x with _ => _ end) _ => destruct x
      end ].

(** ** Disguises *)

Section Disguise.
Context `{Env} {S : Type} `{!EventStore S}.
Variable rho : TaskSpec -> TaskSpec.

Definition disguise_record (r : TaskRecord) : TaskRecord :=
  mk_TaskRecord (rho (spec r)) (state r) (started_at r).

Definition disguise (s : TaskSupervisor S) : TaskSupervisor S :=
  set_tasks (disguise_record <$> tasks s) s.

(** What a disguise leaves as it is: the key, the verdict of validation, and which
    specifications are equal. *)
Record conceals : Prop := {
  co_inj : Inj (=) (=) rho;
  co_key : forall sp, idempotency_key (rho sp) = idempotency_key sp;
  co_validate : forall sp, validate (rho sp) = validate sp;
}.

Context (Hrho : conceals).
Abbreviation comm := (commutes disguise).

Lemma disguise_tasks s : tasks (disguise s) = disguise_record <$> tasks s.
Proof. done. Qed.

Lemma disguise_insert s t r :
  set_tasks (<[t := disguise_record r]> (tasks (disguise s))) (disguise s)
  = disguise (set_tasks (<[t := r]> (tasks s)) s).
Proof. unfold disguise, set_tasks. simpl. by rewrite fmap_insert. Qed.

Lemma task_state_disguise s t : task_state (disguise s) t = task_state s t.
Proof. unfold task_state. rewrite disguise_tasks, lookup_fmap. by destruct (tasks s !! t). Qed.

Lemma disguise_queries s t after :
  get (disguise s) t = get s t /\ Supervisor.events (disguise s) t after = Supervisor.events s t after.
Proof. unfold get, Supervisor.events. by rewrite task_state_disguise. Qed.

Lemma commutes_task_state {E} t : comm (gets (fun s => task_state s t) : M _ E _) (gets (fun s => task_state s t)).
Proof. apply commutes_gets. intros s. apply task_state_disguise. Qed.

Lemma commutes_store_append t ks : comm (store_append t ks) (store_append t ks).
Proof. by apply commutes_zoom. Qed.

Lemma commutes_authority {A} (m : M ApprovalAuthority ApprovalError A) : comm (authority m) (authority m).
Proof. by apply commutes_zoom. Qed.

Lemma commutes_propose c n : comm (propose c n) (propose c n).
Proof. unfold propose. commute. Qed.

(** Reading a record hands its disguise on. *)
Lemma commutes_get_task {B} t (g g' : TaskRecord -> M (TaskSupervisor S) SupervisorError B) :
  (forall r, comm (g r) (g' (disguise_record r))) -> comm (bind (get_task t) g) (bind (get_task t) g').
Proof.
  intros Hg s w. unfold get_task, bind, gets, lift. rewrite disguise_tasks, lookup_fmap.
  destruct (tasks s !! t) as [r|]; [apply Hg | done].
Qed.

Lemma commutes_update_task t q :
  (forall r, q (disguise_record r) = disguise_record (q r)) -> comm (update_task t q) (update_task t q).
Proof.
  intros Hq. apply commutes_get_task. intros r. apply commutes_modify. intros s.
  by rewrite Hq, disguise_insert.
Qed.

#[local] Hint Resolve commutes_task_state commutes_store_append commutes_authority commutes_propose : commute.

#[local] Hint Extern 1 (commutes _ (update_task _ _) _) => by apply commutes_update_task : commute.

Lemma commutes_submit sp : comm (submit sp) (submit (rho sp)).
Proof.
  unfold submit. rewrite (co_key Hrho), (co_validate Hrho).
  apply commutes_bind; [by apply commutes_gets|]. intros [t|].
  - apply commutes_get_task. intros r. simpl.
    rewrite (bool_decide_ext (rho (spec r) = rho sp) (spec r = sp));
      [commute | split; [apply (co_inj Hrho) | by intros ->]].
  - apply commutes_bind.
    { apply commutes_gets. intros s. unfold btree_len. by rewrite disguise_tasks, map_size_fmap. }
    intros []; [commute|]. apply commutes_bind; [commute|]. intros uuid. cbv zeta.
    destruct (submission_events (validate sp)) as [q ks]. apply commutes_bind; [commute|]. intros _.
    apply commutes_bind; [|intros _; commute].
    apply commutes_modify. intros s. apply (disguise_insert s _ (mk_TaskRecord sp q None)).
Qed.

Lemma commutes_invalidate t : comm (invalidate_approvals t) (invalidate_approvals t).
Proof. unfold invalidate_approvals. commute. Qed.

#[local] Hint Resolve commutes_invalidate : commute.

Lemma commutes_apply_transition t cur next failure :
  comm (apply_transition_with_failure t cur next failure) (apply_transition_with_failure t cur next failure).
Proof.
  unfold apply_transition_with_failure. apply commutes_bind; [commute|]. intros revoked. cbv zeta.
  apply commutes_bind; [commute|]. intros _. apply commutes_bind; [commute|]. intros _.
  intros s w. unfold bind at 1 3. unfold gets at 1 3. rewrite disguise_tasks, lookup_fmap.
  destruct (tasks s !! t) as [r|]; cbn [fmap option_fmap option_map].
  - unfold modify. by rewrite <-(disguise_insert s t (with_state next r)).
  - revert s w. change (comm
      (let! recovered := gets (fun s => recovered_tasks s !! t) in
       match recovered with
       | Some _ => modify (fun s => set_recovered (<[t := next]> (recovered_tasks s)) s)
       | None => throw TaskNotFound
       end)
      (let! recovered := gets (fun s => recovered_tasks s !! t) in
       match recovered with
       | Some _ => modify (fun s => set_recovered (<[t := next]> (recovered_tasks s)) s)
       | None => throw TaskNotFound
       end)).
    commute.
Qed.

#[local] Hint Resolve commutes_apply_transition : commute.

Lemma commutes_transition t next : comm (transition t next) (transition t next).
Proof. unfold transition, apply_transition. commute. Qed.

Lemma commutes_start t : comm (start t) (start t).
Proof.
  unfold start. apply commutes_bind; [apply commutes_transition|]. intros _.
  apply commutes_bind; [commute|]. intros now. by apply commutes_update_task.
Qed.

Lemma commutes_finish t :
  comm (succeed t) (succeed t) /\ comm (fail t) (fail t) /\ comm (cancel t) (cancel t)
  /\ comm (fail_budget_exceeded t) (fail_budget_exceeded t).
Proof.
  unfold succeed, fail, cancel, fail_budget_exceeded, apply_transition.
  split_and!; try apply commutes_transition; commute.
Qed.

#[local] Hint Resolve commutes_submit commutes_start : commute.

(** *** The service *)

Definition disguise_request (request : ApiRequest) : ApiRequest :=
  mk_ApiRequest (protocol_version request)
    match api_method request with
    | Submit task => Submit (rho task)
    | method => method
    end.

Lemma commutes_task_response t result : comm (task_response t result) (task_response t result).
Proof.
  unfold task_response. apply commutes_bind; [apply commutes_gets; intros s; apply (disguise_queries s t 0) | commute].
Qed.

Lemma commutes_transition_response t m :
  comm (m t) (m t) -> comm (transition_response t m) (transition_response t m).
Proof.
  intros Hm. unfold transition_response. apply commutes_bind; [by apply commutes_attempt|].
  intros []; [apply commutes_task_response | commute].
Qed.

Lemma commutes_handle request : comm (handle request) (handle (disguise_request request)).
Proof.
  destruct request as [version method]. unfold handle. simpl.
  destruct (is_supported_protocol_version version); simpl; [|commute].
  destruct method as [|task|t|t after limit|t|t|t|t]; simpl.
  - commute.
  - commute.
  - apply commutes_task_response.
  - destruct (_ || _); [commute|]. apply commutes_bind; [|commute].
    apply commutes_gets. intros s. apply (disguise_queries s t after).
  - apply commutes_transition_response, commutes_start.
  - apply commutes_transition_response, commutes_finish.
  - apply commutes_transition_response, commutes_finish.
  - apply commutes_bind; [apply commutes_attempt, commutes_finish|].
    intros []; [apply commutes_task_response | commute].
Qed.

Lemma commutes_handle_all requests :
  comm (handle_all requests) (handle_all (disguise_request <$> requests)).
Proof.
  induction requests as [|request rest IH]; simpl; [commute|].
  apply commutes_bind; [apply commutes_handle|]. intros response. apply commutes_bind; [done | commute].
Qed.

(** *** Operations

    A disguise that also keeps the decisions of the policy. *)

Context (Hpolicy : forall sp request,
  evaluate (mk_CapabilityPolicy (rho sp)) request = evaluate (mk_CapabilityPolicy sp) request).

Lemma commutes_evaluate_stored t request : comm (evaluate_stored t request) (evaluate_stored t request).
Proof.
  unfold evaluate_stored. apply commutes_get_task. intros r. unfold from_task. simpl.
  rewrite (co_validate Hrho). destruct (validate (spec r)); simpl; [rewrite Hpolicy|]; commute.
Qed.

Lemma commutes_expire_one id : comm (expire_one id) (expire_one id).
Proof.
  unfold expire_one. apply commutes_bind; [commute|]. intros [po|]; [|commute]. cbv zeta.
  apply commutes_get_task. intros r. simpl. commute.
Qed.

Lemma commutes_expire_approvals : comm expire_approvals expire_approvals.
Proof.
  unfold expire_approvals. apply commutes_bind; [commute|]. intros ids. generalize 0 as n.
  induction ids as [|id ids IH]; intros n; simpl; [commute|].
  apply commutes_bind; [apply commutes_expire_one | by intros counted].
Qed.

#[local] Hint Resolve commutes_evaluate_stored commutes_expire_approvals : commute.

Lemma commutes_request_operation t request ttl :
  comm (request_operation t request ttl) (request_operation t request ttl).
Proof.
  unfold request_operation. apply commutes_bind; [commute|]. intros _.
  apply commutes_get_task. intros r. cbv zeta. simpl. commute.
Qed.

Lemma commutes_approve_operation id : comm (approve_operation id) (approve_operation id).
Proof.
  unfold approve_operation. do 3 (apply commutes_bind; [commute|intros]). cbv zeta.
  apply commutes_get_task. intros r. simpl. commute.
Qed.

Lemma commutes_deny_operation id : comm (deny_operation id) (deny_operation id).
Proof.
  unfold deny_operation. do 4 (apply commutes_bind; [commute|intros]). cbv zeta.
  destruct (negb _); [commute|].
  apply commutes_get_task. intros r. simpl. commute.
Qed.

Lemma commutes_authorize_operation t o request :
  comm (authorize_operation t o request) (authorize_operation t o request).
Proof.
  unfold authorize_operation, grant_authorize. apply commutes_get_task. intros r. simpl. commute.
Qed.

End Disguise.

(** C12: Contracts stay confidential.  Take any disguise of task specifications that keeps
    idempotency keys, validation results and which specifications are equal, and replace
    every specification by its disguise, in the supervisor and in the requests sent to
    it: every sequence of Local API requests gets the same responses and leaves the same
    event store.  So no response, error or persisted event depends on a goal, on a
    capability or on a budget.  A disguise that also keeps the decisions of the policy
    is invisible to every operation request, approval, denial, consumption and expiry:
    same results, identifiers and events. *)
Theorem contracts_stay_confidential `{Env} {St} `{!EventStore St} rho
    (s : TaskSupervisor St) w :
  conceals rho ->
  (forall requests responses s' w',
     handle_all requests s w = (responses, s', w') ->
     handle_all (disguise_request rho <$> requests) (disguise rho s) w
       = (responses, disguise rho s', w')
     /\ event_store (disguise rho s') = event_store s')
  /\ ((forall sp request,
         evaluate (mk_CapabilityPolicy (rho sp)) request = evaluate (mk_CapabilityPolicy sp) request) ->
      (forall t request ttl r s' w', request_operation t request ttl s w = (r, s', w') ->
         request_operation t request ttl (disguise rho s) w = (r, disguise rho s', w'))
      /\ (forall id r s' w', approve_operation id s w = (r, s', w') ->
         approve_operation id (disguise rho s) w = (r, disguise rho s', w'))
      /\ (forall id r s' w', deny_operation id s w = (r, s', w') ->
         deny_operation id (disguise rho s) w = (r, disguise rho s', w'))
      /\ (forall t o request r s' w', authorize_operation t o request s w = (r, s', w') ->
         authorize_operation t o request (disguise rho s) w = (r, disguise rho s', w'))
      /\ (forall r s' w', expire_approvals s w = (r, s', w') ->
         expire_approvals (disguise rho s) w = (r, disguise rho s', w'))).
Proof.
  intros Hrho. split.
  - intros requests responses s' w' Hrun. split; [|done].
    by rewrite (commutes_handle_all rho Hrho), Hrun.
  - intros Hpolicy. split_and!.
    + intros t request ttl r s' w' Hrun. by rewrite (commutes_request_operation rho Hrho Hpolicy), Hrun.
    + intros id r s' w' Hrun. by rewrite (commutes_approve_operation rho), Hrun.
    + intros id r s' w' Hrun. by rewrite (commutes_deny_operation rho), Hrun.
    + intros t o request r s' w' Hrun. by rewrite (commutes_authorize_operation rho Hrho Hpolicy), Hrun.
    + intros r s' w' Hrun. by rewrite (commutes_expire_approvals rho), Hrun.
Qed.

(** Exchanging two specifications. *)
Definition swap_tasks (a b sp : TaskSpec) : TaskSpec :=
  if bool_decide (sp = a) then b else if bool_decide (sp = b) then a else sp.

Lemma swap_tasks_conceals a b :
  idempotency_key a = idempotency_key b -> validate a = validate b -> conceals (swap_tasks a b).
Proof.
  intros Hk Hv. unfold swap_tasks. split.
  - intros x y. repeat case_bool_decide; congruence.
  - intros sp. repeat case_bool_decide; congruence.
  - intros sp. repeat case_bool_decide; congruence.
Qed.

(** A contract under the same key with another goal, other grants and another budget. *)
Definition secret_task : TaskSpec :=
  mk_TaskSpec (idempotency_key example_task) "Read the payroll"
    (mk_CapabilitySet [mk_FileCapability "/payroll" Write] DenyNetwork []) (mk_Budget 60 1073741824 1)
    (mk_ApprovalPolicy []).

(** The same contract with another goal. *)
Definition secret_goal : TaskSpec :=
  mk_TaskSpec (idempotency_key example_task) "Read the payroll" (capabilities example_task)
    (budget example_task) (approval example_task).

Definition session (task : TaskSpec) : list ApiRequest :=
  ApiRequest_new <$> [Submit task; Start demo_task; GetTask demo_task; Cancel demo_task; Events demo_task 0 100].

Lemma contracts_stay_confidential_witness :
  (exists responses s' w',
     handle_all (session example_task) demo_supervisor world0 = (Return responses, s', w')
     /\ length responses = 5%nat
     /\ (handle_all (session secret_task) demo_supervisor world0).1.1 = Return responses)
  /\ let '(s, w) := demo_run (take 2 demo_calls) in
     request_operation demo_task commit_request (Duration_from_secs 60)
       (disguise (swap_tasks example_task secret_goal) s) w
     = (let '(r, s', w') := request_operation demo_task commit_request (Duration_from_secs 60) s w in
        (r, disguise (swap_tasks example_task secret_goal) s', w')).
Proof.
  split.
  - destruct (handle_all (session example_task) demo_supervisor world0) as [[r s'] w'] eqn:E.
    assert (Hr : exists responses, r = Return responses /\ length responses = 5%nat).
    { change r with (r, s', w').1.1. rewrite <-E. eexists. split; [vm_compute; reflexivity | reflexivity]. }
    destruct Hr as (responses & -> & Hlen). exists responses, s', w'. split; [reflexivity|].
    split; [exact Hlen|].
    assert (Hc : conceals (swap_tasks example_task secret_task)) by by apply swap_tasks_conceals; vm_compute.
    assert (Hd : handle_all (session secret_task) demo_supervisor world0
      = handle_all (disguise_request (swap_tasks example_task secret_task) <$> session example_task)
          (disguise (swap_tasks example_task secret_task) demo_supervisor) world0) by by vm_compute.
    rewrite Hd.
    destruct (proj1 (contracts_stay_confidential (swap_tasks example_task secret_task)
      demo_supervisor world0 Hc) (session example_task) _ _ _ E) as [-> _].
    reflexivity.
  - destruct (demo_run (take 2 demo_calls)) as [s w].
    assert (Hc : conceals (swap_tasks example_task secret_goal)) by by apply swap_tasks_conceals; vm_compute.
    destruct (request_operation demo_task commit_request (Duration_from_secs 60) s w) as [[r s'] w'] eqn:E.
    refine (proj1 (proj2 (contracts_stay_confidential (swap_tasks example_task secret_goal) s w Hc) _)
      _ _ _ _ _ _ E).
    intros sp request. unfold swap_tasks. by repeat case_bool_decide; subst.
Defined.
