(* ===== verification/DaemonProps.v ===== *)
(** * Properties of the daemon *)

From stdpp Require Import base numbers list gmap strings.
From Stdlib Require Import ZArith Lia.
From S2P Require Import Prelude RustStd RustOs TaskState TaskSpec Policy Event Approval Supervisor Recovery.
From S2P Require Import SupervisorInv SupervisorFacts SupervisorOps RecoveryFacts SupervisorRun SupervisorProps.
From S2P Require Import SqliteStore SqliteProps LocalApi LocalApiProps ProcessHost Cgroup LocalServer Daemon.
From S2P Require Import HostLog ProcessFacts CgroupProps DemoHost DemoServer ServerProps.
Import MemDb.

#[local] Open Scope Z_scope.

(** ** The service never makes a task wait *)

Section Calm.
Context `{EnvLaws} {St : Type} `{EventStoreLaws St}.
Implicit Types s : TaskSupervisor St.

(** The supervisor's calls behind the Local API. *)
Definition service_call (c : Call) : Prop :=
  match c with
  | CallSubmit _ | CallStart _ | CallSucceed _ | CallFail _ | CallCancel _ => True
  | _ => False
  end.

Definition no_waiting s : Prop := forall t, task_state s t <> Some WaitingApproval.

(** What the daemon keeps: the invariant of disciplined runs, and no task waits. *)
Definition calm s w : Prop := sup_inv true s w /\ no_waiting s.

Lemma unchanged_no_waiting s s' : no_waiting s -> unchanged s s' -> no_waiting s'.
Proof. intros Hn [E _] t. rewrite E. exact (Hn t). Qed.

Lemma finished_no_waiting s t cur next f s' :
  finished s t cur next f s' -> is_terminal next = true -> no_waiting s -> no_waiting s'.
Proof.
  intros [Hs _ _ _] Ht Hn u. rewrite Hs. case_decide; [|apply Hn]. intros [= ->]. done.
Qed.

Lemma no_waiting_insert s s' t r :
  no_waiting s -> tasks s' = <[t := r]> (tasks s) -> recovered_tasks s' = recovered_tasks s ->
  state r <> WaitingApproval -> no_waiting s'.
Proof.
  intros Hn Ht Hr Hs u. unfold task_state. rewrite Ht, Hr, lookup_insert. case_decide; [congruence | apply Hn].
Qed.

Lemma submitted_no_waiting s t sp st s' : no_waiting s -> submitted s t sp st s' -> no_waiting s'.
Proof.
  intros Hn (_ & _ & E & _ & ->). eapply no_waiting_insert; [exact Hn | by rewrite E | by rewrite E |].
  by destruct (validate sp).
Qed.

Lemma started_no_waiting s t r now s' : no_waiting s -> started s t r now s' -> no_waiting s'.
Proof. intros Hn [E _]. eapply no_waiting_insert; [exact Hn | by rewrite E | by rewrite E | done]. Qed.

Lemma wp_finish_no_waiting t next s w :
  sup_inv true s w -> is_terminal next = true -> no_waiting s ->
  wp (transition t next) (fun _ s' _ => no_waiting s') s w.
Proof.
  intros Hi Ht Hn. eapply wp_mono; [by apply (wp_transition_terminal true)|].
  intros [u|e|] s' w' (_ & _ & Hr); [destruct Hr as (cur & _ & _ & Hf); by eapply finished_no_waiting| |done].
  eapply unchanged_no_waiting; [done | apply Hr].
Qed.

Lemma wp_service_call c s w :
  service_call c -> calm s w ->
  wp (run_call c) (fun r s' w' => calm s' w' /\ world_le w w') s w.
Proof.
  intros Hc [Hi Hn].
  assert (Hd : disciplined s c) by (destruct c; simpl; auto).
  pose proof (wp_run_call true c s w Hi (fun _ => Hd)) as Hgood.
  assert (Hw : wp (run_call c) (fun _ s' _ => no_waiting s') s w).
  { clear Hgood. destruct c as [sp|t| | | | | | |t|t| |t]; try done; cbn [run_call].
    - unfold discard. wp_step. eapply wp_mono; [by apply (wp_submit true)|].
      intros [[q|q|q errs]|e|] s' w' (_ & _ & Hr); cbn beta iota; try wp_step.
      + destruct Hr as (_ & _ & Hs). by eapply submitted_no_waiting.
      + by destruct Hr as [-> _].
      + destruct Hr as (_ & _ & Hs). by eapply submitted_no_waiting.
      + eapply unchanged_no_waiting; [done | apply Hr].
      + done.
    - eapply wp_mono; [apply (wp_start true); [done | exact (fun _ => Hn t)]|].
      intros [u|e|] s' w' (_ & _ & Hr); [| |done].
      + destruct Hr as (r & k & _ & _ & _ & Hst). by eapply started_no_waiting.
      + by eapply unchanged_no_waiting.
    - by apply wp_finish_no_waiting.
    - by apply wp_finish_no_waiting.
    - unfold discard. wp_step. eapply wp_mono; [by apply (wp_cancel true)|].
      intros [[]|e|] s' w' (_ & _ & Hr); cbn beta iota; [wp_step.. | | done].
      + destruct Hr as (cur & _ & _ & Hf). by eapply finished_no_waiting.
      + by destruct Hr as [-> _].
      + by eapply unchanged_no_waiting. }
  eapply wp_mono; [apply (wp_and _ _ _ _ _ Hgood Hw)|].
  intros r s' w' [(_ & Hi' & Hle & _) Hn']. by split.
Qed.

(** Handling a request is at most one such call, and answering changes nothing. *)
Lemma wp_call_then {A} (m : M (TaskSupervisor St) SupervisorError A)
    (f : Result A SupervisorError -> M (TaskSupervisor St) Empty_set ApiResponse) (P : TaskSupervisor St -> World -> Prop) s w :
  wp (discard m) (fun _ s' w' => P s' w') s w ->
  (forall r s' w', P s' w' -> wp (f r) (fun _ s2 w2 => P s2 w2) s' w') ->
  wp (bind (attempt m) f) (fun _ s' w' => P s' w') s w.
Proof.
  unfold wp, discard, attempt, bind. intros Hm Hf.
  destruct (m s w) as [[[a|e|] s'] w']; [exact (Hf (Ok a) s' w' Hm) | exact (Hf (Err e) s' w' Hm) | done].
Qed.

Lemma wp_response_keeps t f (P : TaskSupervisor St -> World -> Prop) s w :
  P s w -> wp (task_response t f) (fun _ s' w' => P s' w') s w.
Proof. intros HP. unfold task_response. wp_step. wp_step. by destruct (get s t); wp_step. Qed.

Lemma wp_transition_keeps t m (P : TaskSupervisor St -> World -> Prop) s w :
  wp (m t) (fun _ s' w' => P s' w') s w -> wp (transition_response t m) (fun _ s' w' => P s' w') s w.
Proof.
  intros Hm. unfold transition_response. apply wp_call_then.
  - unfold discard. wp_step. eapply wp_mono; [exact Hm|]. intros [u|e|] s' w' HP; [by wp_step | done..].
  - intros [u|e] s' w' HP; [by apply wp_response_keeps | by wp_step].
Qed.

Lemma wp_handle_calm request s w :
  calm s w -> wp (handle request) (fun _ s' w' => calm s' w' /\ world_le w w') s w.
Proof.
  intros Hs. unfold handle. destruct (negb _); [by wp_step|].
  pose proof (fun c Hc => wp_service_call c s w Hc Hs) as Hcall.
  destruct (api_method request) as [|task|t|t after limit|t|t|t|t].
  - by wp_step.
  - apply wp_call_then; [exact (Hcall (CallSubmit task) I)|]. intros [u|e] s' w' HP; by wp_step.
  - by apply wp_response_keeps.
  - destruct (_ || _); [by wp_step|]. wp_step. wp_step. by destruct (Supervisor.events s t after); wp_step.
  - apply wp_transition_keeps. exact (Hcall (CallStart t) I).
  - apply wp_transition_keeps. exact (Hcall (CallSucceed t) I).
  - apply wp_transition_keeps. exact (Hcall (CallFail t) I).
  - apply wp_call_then; [exact (Hcall (CallCancel t) I)|].
    intros [u|e] s' w' HP; [by apply wp_response_keeps | by wp_step].
Qed.

Lemma handle_all_calm rs s w responses s' w' :
  calm s w -> handle_all rs s w = (Return responses, s', w') -> calm s' w' /\ world_le w w'.
Proof.
  revert s w responses. induction rs as [|request rs IH]; intros s w responses Hs; cbn [handle_all].
  { by intros [= <- <- <-]. }
  pose proof (wp_handle_calm request s w Hs) as Hh. unfold wp in Hh. unfold bind.
  destruct (handle request s w) as [[[resp|e|] s1] w1]; [|done..]. destruct Hh as [Hs1 Hw1].
  destruct (handle_all rs s1 w1) as [[[resps|e|] s2] w2] eqn:E; [|done..]. intros [= <- <- <-].
  destruct (IH _ _ _ Hs1 E) as [Hs2 Hw2]. split; [done | by etrans].
Qed.

End Calm.

(** ** Starting *)

#[export] Instance logged_database_files {K C} `{!DatabaseFiles K C} : DatabaseFiles (Logged K) C := {|
  symlink_metadata l p := symlink_metadata (logged_host l) p;
  create_new_file p mode := logged (fun r => CallCreateNew p mode (bool_decide (is_Some r))) (create_new_file p mode);
  connection_open l p := connection_open (logged_host l) p;
  connection_open_in_memory l := connection_open_in_memory (logged_host l);
|}.

Section Starting.
Context `{EnvLaws, EventTextLaws} {C : Type} `{SqliteLaws C}.
Context {K : Type} `{!Files K, !UnixSockets K, !DatabaseFiles K C, !TaskIdText, !Sleeps, !SleepLaws}.
Implicit Types (l : Logged K) (s : TaskSupervisor (SqliteEventStore C)).

(** Whatever database is opened holds logs that the store wrote, of identifiers not
    handed out again. *)
Definition sound_history (path : string) (w : World) : Prop :=
  forall (l : Logged K) store l' w',
    Sqlite_open path DAEMON_MAX_EVENTS_PER_TASK l w = (Return store, l', w') ->
    store_wf store /\ forall t, store_log store t <> [] -> unminted w' (task_uuid t).

Definition not_accept (c : HostCall) : Prop := match c with CallAccept _ _ => False | _ => True end.

Lemma reads_not_accept t : Forall is_read t -> Forall not_accept t.
Proof. intros Ht. eapply Forall_impl; [exact Ht|]. by intros []. Qed.

Lemma effects_not_accept t : Forall not_accept (effects t) -> Forall not_accept t.
Proof.
  intros He. apply Forall_forall. intros c Hc. destruct (decide (is_read c)) as [Hr|Hr]; [by destruct c|].
  rewrite Forall_forall in He. apply He. by apply list_elem_of_filter.
Qed.

(** Opening creates at most the database file. *)
Definition opened (path : string) (t : list HostCall) : Prop :=
  t = [] \/ exists ok, t = [CallCreateNew path 384 ok].

Lemma traces_Sqlite_open path limit :
  traces (Sqlite_open path limit : M (Logged K) _ _) (fun r t _ _ => r <> Panic /\ opened path t).
Proof.
  intros l w. unfold Sqlite_open. destruct (limit =? 0).
  { wp_step. exists []. rewrite app_nil_r. split_and!; [done | done | by left]. }
  wp_step.
  assert (Hp : wp (prepare_database_file path) (fun r l' _ => r <> Panic /\ exists t, log l' = log l ++ t /\ opened path t) l w).
  { assert (Hkeep : exists t, log l = log l ++ t /\ opened path t) by (exists []; rewrite app_nil_r; split; [done | by left]).
    unfold prepare_database_file. wp_step. wp_step. destruct (symlink_metadata l path) as [m|[]].
    - destruct (_ || _); [by wp_step|]. destruct (negb _); by wp_step.
    - unfold wp. cbn [create_new_file logged_database_files]. unfold logged.
      destruct (create_new_file path 384 (logged_host l)) as [[u|] k]; (split; [done|]);
        (eexists; split; [reflexivity|]); right; by eexists.
    - by wp_step. }
  eapply wp_mono; [exact Hp|]. intros [[]|e|] l1 w1 (Hne & t & Ht & Ho); [|by exists t | done].
  wp_step. wp_step. wp_step. wp_step. destruct (connection_open l1 path) as [c|]; cbn [ok_or].
  2:{ by exists t. }
  unfold wp, initialized. pose proof (wp_initialize limit true c w1) as Hi. unfold wp in Hi.
  destruct (initialize limit true c w1) as [[[n|e|] c'] w2]; [by exists t | by exists t | done].
Qed.

(** The supervisor [s] is what recovery makes of the logs in [store]: every task with
    a log is known in the state its log replays to or, if that was not terminal, as
    failed with the restart on record; nothing else is known, and no task input,
    idempotency key or operation is held. *)
Definition recovered_from (store : SqliteEventStore C) s : Prop :=
  (forall t q, replays (kind <$> store_log store t) q ->
     task_state s t = Some (settle q) /\ recovered_log store (event_store s) t q)
  /\ (forall t, task_state s t = None <-> store_log store t = [])
  /\ tasks s = ∅ /\ idempotency_index s = ∅ /\ pending_operations s = ∅ /\ approved_operations s = ∅.

(** The calls between binding and serving, and what came of them: the configured
    database was opened and recovered, then only cgroups of recovered tasks were removed,
    below the configured root as the host resolved it. *)
Definition recovery_calls (options : DaemonOptions) s (t : list HostCall) : Prop :=
  exists t1 t2, t = t1 ++ t2 /\ opened (daemon_database options) t1
    /\ (exists l0 w0 store l1 w1,
          Sqlite_open (daemon_database options) DAEMON_MAX_EVENTS_PER_TASK l0 w0 = (Return store, l1, w1)
          /\ log l1 = log l0 ++ t1 /\ recovered_from store s)
    /\ match daemon_cgroup_root options with
       | None => t2 = []
       | Some root => exists m gone l2 l3, f_canonicalize root l2 = (Ok (cgroup_root_directory m), l3)
           /\ NoDup gone /\ (forall i, i ∈ gone -> is_Some (recovered_tasks s !! i))
           /\ effects t2 = concat (map (cleanup_calls m) gone)
       end.

Definition recovered_daemon s w : Prop :=
  sup_inv true s w /\ sup_inv false s w /\ forall t q, task_state s t = Some q -> is_terminal q = true.

Lemma cleanup_not_accept m ids : Forall not_accept (concat (map (cleanup_calls m) ids)).
Proof. induction ids as [|i ids IH]; [constructor|]. cbn. by repeat constructor. Qed.

Lemma cleanup_partial_not_accept m i es : cleanup_partial m i es -> Forall not_accept es.
Proof. intros [->|[(ok & ->)| ->]]; by repeat constructor. Qed.

Lemma reconcile_not_accept m ids w r es : reconcile_post m ids w r es -> Forall not_accept es.
Proof.
  intros [(_ & -> & _)|Hr]; [constructor|]. destruct r as [n|e|]; [| |done].
  - destruct Hr as (gone & _ & _ & ->). apply cleanup_not_accept.
  - destruct Hr as (_ & gone & part & _ & -> & Hp). apply Forall_app. split; [apply cleanup_not_accept|].
    destruct Hp as [->|(i & _ & Hp)]; [constructor | by eapply cleanup_partial_not_accept].
Qed.

Lemma opened_not_accept path t : opened path t -> Forall not_accept t.
Proof. intros [->|(ok & ->)]; by repeat constructor. Qed.

Lemma reads_manager_new root : reads (CgroupV2Manager_new (K := Logged K) root).
Proof. unfold CgroupV2Manager_new, canonical_cgroup_root, validate_cgroup_root. reads. Qed.

Lemma manager_new_root root l w m l' w' :
  CgroupV2Manager_new (K := Logged K) root l w = (Return m, l', w') ->
  exists l2 l3 : Logged K, f_canonicalize root l2 = (Ok (cgroup_root_directory m), l3).
Proof.
  unfold CgroupV2Manager_new, canonical_cgroup_root. unfold bind at 1. destruct (_ || _); [done|].
  unfold bind at 1. destruct (sys_or _ (f_symlink_metadata root) l w) as [[[sm|e|] l1] w1]; [|done..].
  destruct (_ || _); [done|]. unfold bind at 1, sys_or at 1, bind at 1, sys, lift at 1.
  destruct (f_canonicalize root l1) as [[c|i] l2] eqn:Hc; [|done]. cbn [res_map_err]. unfold ret at 1.
  destruct (_ || _); [done|]. unfold ret at 1.
  unfold bind at 1. destruct (validate_cgroup_root c l2 w1) as [[[[]|e|] l3] w3]; [|done..].
  unfold bind. destruct (read_cgroup_identity c l3 w3) as [[[j|e|] l4] w4]; [|done..].
  unfold ret. intros [= <- _ _]. by exists l1, l2.
Qed.

Lemma wp_consuming {X Y E A} (y : Y) (m : M Y E A) Q (x : X) w :
  wp m (fun r _ w' => Q r x w') y w -> wp (consuming y m) Q x w.
Proof. unfold wp, consuming. by destruct (m y w) as [[r y'] w']. Qed.

Lemma recovered_daemon_world s w w' : recovered_daemon s w -> world_le w w' -> recovered_daemon s w'.
Proof. intros (Ht & Hf & Hs) Hw. split_and!; [by eapply sup_inv_world.. | done]. Qed.

Lemma wp_recovered_daemon max (es : SqliteEventStore C) w :
  store_wf es -> 0 < max <= usize_max -> (forall t, store_log es t <> [] -> unminted w (task_uuid t)) ->
  wp (recover max) (fun r _ w' => match r with
    | Return s => recovered_from es s /\ recovered_daemon s w' | Raise _ => True | Panic => False end) es w.
Proof.
  intros Hwf Hmax Hk.
  eapply wp_mono; [apply (wp_and _ _ _ _ _ (wp_recover true max es w Hwf Hmax Hk) (wp_recover false max es w Hwf Hmax Hk))|].
  intros [s|e|] es' w' [(_ & _ & Ht) (_ & _ & Hf)]; [|done..].
  destruct Ht as (Ht & Hes & Htasks & Hp & Ha & Hix & Heach & Hnone & _), Hf as (Hf & _).
  split; [subst es'; by split_and!|]. split_and!; [done | done|].
  intros t q Hq. unfold task_state in Hq. rewrite Htasks, lookup_empty in Hq.
  by apply (ti_recovered _ _ (si_table _ _ _ Ht)) in Hq as [Hterm _].
Qed.

Lemma wp_aiosd_recover options l w :
  sound_history (daemon_database options) w ->
  wp (aiosd_recover options) (fun r l' w' => exists t, log l' = log l ++ t /\ Forall not_accept t /\
    match r with Return s => recovery_calls options s t /\ recovered_daemon s w' | _ => True end) l w.
Proof.
  intros Hh. unfold aiosd_recover. wp_step. wp_step.
  pose proof (traces_Sqlite_open (daemon_database options) DAEMON_MAX_EVENTS_PER_TASK l w) as Ho. unfold wp in Ho |- * at 1.
  destruct (Sqlite_open _ _ l w) as [[r1 l1] w1] eqn:Eo. destruct Ho as (t1 & Ht1 & Hne & Ho).
  pose proof (opened_not_accept _ _ Ho) as Ha1.
  destruct r1 as [store|e|]; [|by exists t1 | by destruct Hne]. destruct (Hh _ _ _ _ Eo) as [Hwf Hk].
  wp_step. wp_step. apply wp_consuming. eapply wp_mono; [apply wp_recovered_daemon; [done | done | done]|].
  intros [s|e|] es' w2 Hs; [|by exists t1 | done]. destruct Hs as [Hfrom Hs].
  assert (Hstore : exists l0 w0 store l1 w1,
    Sqlite_open (daemon_database options) DAEMON_MAX_EVENTS_PER_TASK l0 w0 = (Return store, l1, w1)
    /\ log l1 = log l0 ++ t1 /\ recovered_from store s) by (by exists l, w, store, l1, w1).
  destruct (daemon_cgroup_root options) as [root|] eqn:Hroot.
  2:{ wp_step. exists t1. split_and!; [done | done | | done]. exists t1, []. rewrite Hroot, app_nil_r. by split_and!. }
  wp_step. wp_step. pose proof (reads_manager_new root l1 w2) as Hmn. unfold wp in Hmn |- * at 1.
  destruct (CgroupV2Manager_new root l1 w2) as [[r3 l3] w3] eqn:Hm. destruct Hmn as (t3 & Ht3 & Hr3 & -> & Hp).
  destruct r3 as [m|e|];
    rewrite Ht1, <-app_assoc in Ht3; assert (Ha3 : Forall not_accept (t1 ++ t3)) by (apply Forall_app; split; [done | by apply reads_not_accept]);
    [|by eexists | by destruct Hp].
  wp_step. wp_step. eapply wp_mono; [apply wp_reconcile|]. intros r4 l4 w4 (Hw4 & es & (t4 & Ht4 & He) & Hpost).
  rewrite Ht3, <-app_assoc in Ht4.
  assert (Ha4 : Forall not_accept ((t1 ++ t3) ++ t4)).
  { apply Forall_app. split; [done|]. apply effects_not_accept. rewrite He. by eapply reconcile_not_accept. }
  destruct r4 as [n|e|]; [|by eexists | by eexists].
  wp_step. eexists. split; [exact Ht4|]. split; [done|]. split; [|by eapply recovered_daemon_world].
  destruct Hpost as [(Hf & _)|(gone & Hsub & _ & Hes)]; [done|]. exists t1, (t3 ++ t4). rewrite Hroot.
  split_and!; [by rewrite <-app_assoc | done | done|]. apply manager_new_root in Hm as (la & lb & Hm).
  exists m, gone, la, lb. split; [done|].
  assert (Hnd : NoDup (recovered_task_ids s)) by apply btree_keys_NoDup.
  split; [by eapply sublist_NoDup|]. split.
  { intros i Hi. apply elem_of_btree_keys. by eapply elem_of_sublist. }
  by rewrite effects_app, (effects_reads t3), <-Hes, <-He by done.
Qed.

(** *** The whole start *)

(** What [main] did before it gave up, by the error or a panic. *)
Inductive aborted (arguments : list string) : option DaemonError -> list HostCall -> Prop :=
| aborted_options e : DaemonOptions_parse arguments = Err e -> aborted arguments (Some e) []
| aborted_bind options e t :
    DaemonOptions_parse arguments = Ok options -> unbound (daemon_socket options) e t ->
    aborted arguments (Some (DaemonLocalApi e)) t
| aborted_later options server e t0 t1 t2 :
    DaemonOptions_parse arguments = Ok options -> bound (daemon_socket options) ServerConfig_default server t0 ->
    dropped server t2 -> aborted arguments e (t0 ++ t1 ++ t2).

Definition started_as (arguments : list string) server s (t : list HostCall) : Prop :=
  exists options t0 t1, DaemonOptions_parse arguments = Ok options /\ t = t0 ++ t1
    /\ bound (daemon_socket options) ServerConfig_default server t0 /\ recovery_calls options s t1.

(** Dropping the server makes its calls after those of the failed rest. *)
Lemma wp_dropping_server {A} server (m : M (Logged K) DaemonError A) (R : outcome A DaemonError -> list HostCall -> World -> Prop) Q l w :
  wp m (fun r l' w' => exists t, log l' = log l ++ t /\ R r t w') l w ->
  (forall a l' w' t, log l' = log l ++ t -> R (Return a) t w' -> Q (Return a) l' w') ->
  (forall r l' w' t t2, log l' = log l ++ t ++ t2 -> R r t w' -> dropped server t2 -> (forall a, r <> Return a) -> Q r l' w') ->
  wp (dropping_server server m) Q l w.
Proof.
  intros Hm Hok Hfail. unfold wp, dropping_server in *.
  assert (Hdrop : forall e l1 w1 t, log l1 = log l ++ t -> R e t w1 -> (forall a, e <> Return a) ->
    wp (do! LocalServer_drop server in match e with Return _ => panic | Raise e => throw e | Panic => panic end) Q l1 w1).
  { intros e l1 w1 t Ht HR He. wp_step. eapply wp_traces; [apply traces_drop|]. intros r l2 w2 t2 Ht2 (-> & -> & Hd).
    rewrite Ht, <-app_assoc in Ht2. destruct e as [a|e|]; [by destruct (He a)|wp_step; by eapply Hfail..]. }
  destruct (m l w) as [[r l1] w1]. destruct Hm as (t & Ht & HR). destruct r as [a|e|].
  - by eapply Hok.
  - exact (Hdrop (Raise e) l1 w1 t Ht HR ltac:(done)).
  - exact (Hdrop Panic l1 w1 t Ht HR ltac:(done)).
Qed.

Lemma bound_not_accept path config server t : bound path config server t -> Forall not_accept t.
Proof.
  intros (t0 & m & (parent & _ & _ & Hp) & -> & _). apply Forall_app. split; [|by repeat constructor].
  destruct Hp as [(m0 & _ & ->)| ->]; by repeat constructor.
Qed.

Lemma parent_failed_not_accept path t : parent_failed path t -> Forall not_accept t.
Proof.
  intros Hp. apply effects_not_accept. destruct Hp as [->|(parent & _ & ->)]; by repeat constructor.
Qed.

Lemma unbound_not_accept path e t : unbound path e t -> Forall not_accept t.
Proof.
  intros [Hp|(t0 & t1 & (parent & _ & _ & Hp) & -> & Hr)]; [by eapply parent_failed_not_accept|].
  apply Forall_app. split; [destruct Hp as [(m0 & _ & ->)| ->]; by repeat constructor|].
  destruct Hr; by repeat constructor.
Qed.

Lemma dropped_not_accept server t : dropped server t -> Forall not_accept t.
Proof. intros [(r & -> & _)|(m & ok & _ & ->)]; by repeat constructor. Qed.

Definition start_done (arguments : list string) (r : outcome (LocalServer * TaskSupervisor (SqliteEventStore C)) DaemonError)
    (t : list HostCall) (w' : World) : Prop :=
  match r with
  | Return (server, s) => started_as arguments server s t /\ recovered_daemon s w'
  | Raise e => aborted arguments (Some e) t
  | Panic => aborted arguments None t
  end.

Lemma wp_aiosd_start arguments l w :
  (forall options, DaemonOptions_parse arguments = Ok options -> sound_history (daemon_database options) w) ->
  wp (aiosd_start arguments) (fun r l' w' => exists t, log l' = log l ++ t /\ Forall not_accept t
    /\ start_done arguments r t w') l w.
Proof.
  intros Hh. unfold aiosd_start. wp_step. wp_step. destruct (DaemonOptions_parse arguments) as [options|e] eqn:Ho.
  2:{ exists []. rewrite app_nil_r. split_and!; [done | constructor | by constructor]. }
  specialize (Hh options eq_refl). wp_step. wp_step. eapply wp_traces; [apply traces_bind|].
  intros [server|e|] l1 w1 t1 Ht1 [-> Hb]; [| |done].
  2:{ exists t1. split_and!; [done | by eapply unbound_not_accept|]. by eapply aborted_bind. }
  pose proof (bound_not_accept _ _ _ _ Hb) as Ha1.
  wp_step. eapply (wp_dropping_server server _ (fun r t w' => Forall not_accept t /\
    match r with Return s => recovery_calls options s t /\ recovered_daemon s w' | _ => True end)); [by apply wp_aiosd_recover| |].
  - intros s l2 w2 t2 Ht2 (Ha2 & Hc & Hs). wp_step. exists (t1 ++ t2). rewrite Ht2, Ht1, app_assoc.
    split_and!; [done | by apply Forall_app|]. split; [|done]. exists options, t1, t2. by split_and!.
  - intros r l2 w2 t2 t3 Ht2 [Ha2 _] Hd Hr.
    assert (Hout : exists t, log l2 = log l ++ t /\ Forall not_accept t /\ forall e, aborted arguments e t).
    { exists (t1 ++ t2 ++ t3). rewrite Ht2, Ht1, <-app_assoc. split_and!; [done| |intros e; by eapply aborted_later].
      rewrite !Forall_app. split_and!; [done | done | by eapply dropped_not_accept]. }
    destruct Hout as (t & Ht & Ha & Hab). destruct r as [s|e|]; [by destruct (Hr s)| |];
      (exists t; split_and!; [done | done | exact (Hab _)]).
Qed.

(** *** Serving *)

Context (parse_probe : list Z -> option Z) (parse_request : list Z -> option ApiRequest)
  (encode_response : ApiResponse -> option (list Z)).

Lemma recovered_calm s w : recovered_daemon s w -> calm s w.
Proof. intros (Ht & _ & Hs). split; [done|]. intros t Hw. by apply Hs in Hw. Qed.

Lemma wp_serving turns server s l w :
  recovered_daemon s w ->
  wp (serving parse_probe parse_request encode_response turns server s)
    (fun r l' w' => exists t, log l' = log l ++ t /\
       match r with Return s' => calm s' w' | Raise e => e = DaemonLocalApi Io | Panic => False end) l w.
Proof.
  intros Hs. pose proof (recovered_calm s w Hs) as Hc. destruct Hs as (_ & Hf & _).
  pose proof (wp_serve_forever parse_probe parse_request encode_response turns server l s w Hf) as Hwp.
  unfold wp, serving in *. destruct (serve_forever _ _ _ _ _ _ _) as [[r [l' s']] w'].
  destruct Hwp as (t & Ht & (_ & _ & rs & responses & _ & Hall) & _ & Hd). cbn [fst snd] in *.
  destruct Hd as [[-> _]|(-> & _)]; exists t; (split; [done|]); [|done].
  by destruct (handle_all_calm _ _ _ _ _ _ Hc Hall).
Qed.

Lemma wp_aiosd_main turns arguments l w :
  (forall options, DaemonOptions_parse arguments = Ok options -> sound_history (daemon_database options) w) ->
  wp (aiosd_main parse_probe parse_request encode_response turns arguments)
    (fun r l' w' => exists t, log l' = log l ++ t /\
       match r with
       | Return s => calm s w'
       | Raise e => aborted arguments (Some e) t /\ (Forall not_accept t \/ e = DaemonLocalApi Io)
       | Panic => aborted arguments None t /\ Forall not_accept t
       end) l w.
Proof.
  intros Hh. unfold aiosd_main. wp_step. eapply wp_mono; [by apply wp_aiosd_start|].
  intros [[server s]|e|] l1 w1 (t1 & Ht1 & Ha & Hr); cbn [start_done] in Hr;
    [|exists t1; by split_and!; [..|left] | by exists t1].
  destruct Hr as [(options & t0 & t2 & Ho & -> & Hb & _) Hs]. cbn [fst snd].
  eapply (wp_dropping_server server _ (fun r t w' => match r with Return s' => calm s' w' | Raise e => e = DaemonLocalApi Io | Panic => False end));
    [by apply wp_serving | |].
  - intros s' l2 w2 t Ht Hc. eexists. split; [|exact Hc]. rewrite Ht, Ht1, <-app_assoc. reflexivity.
  - intros r l2 w2 t t3 Ht HR Hd Hne. destruct r as [s'|e|]; [by destruct (Hne s')| |done].
    exists (t0 ++ (t2 ++ t) ++ t3). split; [by rewrite Ht, Ht1, <-!app_assoc|].
    split; [by eapply aborted_later | by right].
Qed.

End Starting.

(** The database of the demonstration. *)
Lemma demo_opens path (l : Logged DemoServer) :
  Sqlite_open path DAEMON_MAX_EVENTS_PER_TASK l MemDb.run.2
  = (Return (mk_SqliteEventStore crashed_db DAEMON_MAX_EVENTS_PER_TASK), l, MemDb.run.2).
Proof. vm_compute. reflexivity. Qed.

Lemma crashed_db_sound :
  store_wf (mk_SqliteEventStore crashed_db DAEMON_MAX_EVENTS_PER_TASK)
  /\ forall t, store_log (mk_SqliteEventStore crashed_db DAEMON_MAX_EVENTS_PER_TASK) t <> [] ->
       unminted MemDb.run.2 (task_uuid t).
Proof.
  pose proof (reachable_inv true _ _ MemDb.run_reachable) as [[[Hrows Hc] Hk _ _] _ _ _].
  split; [split; [exact Hrows | exact Hc] | exact Hk].
Qed.

Lemma demo_history path : sound_history (C := Db) (K := DemoServer) path MemDb.run.2.
Proof.
  intros l store l' w' Hopen. pose proof (eq_trans (eq_sym Hopen) (demo_opens path l)) as E. clear Hopen.
  pose proof crashed_db_sound as Hdb. revert E Hdb. generalize (mk_SqliteEventStore crashed_db DAEMON_MAX_EVENTS_PER_TASK).
  generalize MemDb.run.2. intros w s E Hdb. injection E as -> _ ->. exact Hdb.
Qed.

(** C21: The daemon accepts nothing before it has recovered.  On any host: start-up
    makes no [accept] call; when it succeeds the socket was bound first, then the
    configured database was opened, creating at most its file with mode 0600, and the
    supervisor that serves is the one recovered from it: it knows exactly the tasks with
    a log there, each in the state its log replays to or else failed with the restart on
    record, all of them terminal; and if a cgroup root was given, only cgroups of
    recovered tasks were removed, below that root as the host resolved it.  When start-up
    fails after binding, by an error or a panic, the last thing it does is to remove
    exactly the socket it had bound. *)
Theorem daemon_recovers_before_serving `{EnvLaws, EventTextLaws} {C} `{SqliteLaws C}
    {K} `{!Files K, !UnixSockets K, !DatabaseFiles K C, !TaskIdText, !Sleeps, !SleepLaws} arguments (l : Logged K) w :
  (forall options, DaemonOptions_parse arguments = Ok options -> sound_history (C := C) (K := K) (daemon_database options) w) ->
  match aiosd_start (C := C) arguments l w with
  | (r, l', w') => exists t, log l' = log l ++ t /\ Forall not_accept t /\
      match r with
      | Return (server, s) => started_as arguments server s t
          /\ forall task_id q, task_state s task_id = Some q -> is_terminal q = true
      | Raise e => aborted arguments (Some e) t
      | Panic => aborted arguments None t
      end
  end.
Proof.
  intros Hh. pose proof (wp_aiosd_start arguments l w Hh) as Hwp. unfold wp in Hwp.
  destruct (aiosd_start arguments l w) as [[r l'] w']. destruct Hwp as (t & Ht & Ha & Hd).
  exists t. split_and!; [done | done|]. destruct r as [[server s]|e|]; [|done..].
  destruct Hd as (Hst & _ & _ & Hterm). by split.
Qed.

Lemma daemon_recovers_before_serving_witness :
  let run := aiosd_start (C := Db) demo_arguments (mk_Logged demo_server []) MemDb.run.2 in
  exists server s, run.1.1 = Return (server, s) /\ started_as demo_arguments server s (log run.1.2)
    /\ task_state s demo_task = Some Failed /\ is_terminal Failed = true.
Proof.
  intros run.
  pose proof (daemon_recovers_before_serving (C := Db) demo_arguments (mk_Logged demo_server []) MemDb.run.2
    (fun options _ => demo_history (daemon_database options))) as Hrun. fold run in Hrun.
  assert (Hs : match run.1.1 with Return (_, s) => task_state s demo_task | _ => None end = Some Failed)
    by (vm_compute; reflexivity).
  clearbody run. destruct run as [[r l'] w']. destruct Hrun as (t & Ht & _ & Hr). cbn in *. subst t.
  destruct r as [[server s]|e|]; [|discriminate Hs..]. destruct Hr as [Hst Hterm].
  exists server, s. split; [reflexivity|]. split; [exact Hst|]. split; [exact Hs | exact (Hterm _ _ Hs)].
Defined.

(** C19: Nothing a client sends can cost the daemon its tasks: however long it has
    served whatever connections, no task waits for an approval, its logs are never
    found corrupt, and a restart that reads them finds exactly the same tasks, the
    terminal ones in their state and every other one failed.  A daemon that ends after
    binding has removed exactly its socket; once it accepts connections it ends only
    by the I/O error of [accept], never by a panic. *)
Theorem daemon_state_survives_restarts `{EnvLaws, EventTextLaws} {C} `{SqliteLaws C}
    {K} `{!Files K, !UnixSockets K, !DatabaseFiles K C, !TaskIdText, !Sleeps, !SleepLaws}
    parse_probe parse_request encode_response turns arguments (l : Logged K) w :
  (forall options, DaemonOptions_parse arguments = Ok options -> sound_history (C := C) (K := K) (daemon_database options) w) ->
  match aiosd_main (C := C) parse_probe parse_request encode_response turns arguments l w with
  | (r, l', w') => exists t, log l' = log l ++ t /\
      match r with
      | Return s => (forall task_id, task_state s task_id <> Some WaitingApproval)
          /\ (forall e, Sqlite_recover_task_snapshots (event_store s) = Err e -> e = Unavailable)
          /\ forall max s2 es2 w2, 0 < max <= usize_max ->
               recover max (event_store s) w' = (Return s2, es2, w2) ->
               forall task_id, task_state s2 task_id = settle <$> task_state s task_id
      | Raise e => aborted arguments (Some e) t /\ (Forall not_accept t \/ e = DaemonLocalApi Io)
      | Panic => aborted arguments None t /\ Forall not_accept t
      end
  end.
Proof.
  intros Hh. pose proof (wp_aiosd_main parse_probe parse_request encode_response turns arguments l w Hh) as Hwp.
  unfold wp in Hwp. destruct (aiosd_main _ _ _ turns arguments l w) as [[r l'] w'].
  destruct Hwp as (t & Ht & Hr). exists t. split; [done|]. destruct r as [s|e|]; [|done..].
  destruct Hr as [Hi Hn]. split; [done|]. by apply restart_finds_tasks.
Qed.

Lemma daemon_state_survives_restarts_witness :
  let run := aiosd_main (C := Db) (fun _ => Some 4) demo_parse_request demo_encode_response 3 demo_arguments
               (mk_Logged demo_server []) MemDb.run.2 in
  exists s, run.1.1 = Return s /\ btree_keys (tasks s) = [mk_TaskId 3]
    /\ (forall e, Sqlite_recover_task_snapshots (event_store s) = Err e -> e = Unavailable).
Proof.
  intros run.
  pose proof (daemon_state_survives_restarts (C := Db) (fun _ => Some 4) demo_parse_request demo_encode_response 3
    demo_arguments (mk_Logged demo_server []) MemDb.run.2 (fun options _ => demo_history (daemon_database options)))
    as Hrun. fold run in Hrun.
  assert (Hs : match run.1.1 with Return s => btree_keys (tasks s) | _ => [] end = [mk_TaskId 3])
    by (vm_compute; reflexivity).
  clearbody run. destruct run as [[r l'] w']. destruct Hrun as (t & _ & Hr). cbn in *.
  destruct r as [s|e|]; [|discriminate Hs..]. destruct Hr as (_ & Hcorrupt & _).
  exists s. split; [reflexivity|]. split; [exact Hs | exact Hcorrupt].
Defined.
