(* ===== verification/AiosctlProps.v ===== *)
(** * Properties of the command line

    From the words of a command to the response of the service and the exit code. *)

From stdpp Require Import base numbers list gmap strings.
From Stdlib Require Import ZArith Lia.
From S2P Require Import Prelude RustStd RustOs TaskState TaskSpec Policy Event Approval Supervisor Recovery.
From S2P Require Import SupervisorInv SupervisorRun SupervisorProps SqliteStore SqliteProps LocalApi LocalApiProps.
From S2P Require Import ProcessHost LocalServer Aiosctl.

#[local] Open Scope Z_scope.

(** ** Words *)

Section Words.
Context {K : Type} `{!TaskFiles K}.
Context (task_id_from_str : string -> option TaskId) (parse_task : list Z -> option TaskSpec).

(** Which request the words after the socket ask for: the command table of the usage
    text, with the defaults of the short forms of [events]; submission reads the named
    file, of at most 65,536 bytes. *)
Inductive asks : list string -> K -> ApiMethod -> K -> Prop :=
| asks_health k : asks ["health"%string] k Health k
| asks_submit path task file bytes k k1 k2 :
    tf_open path k = (Ok file, k1) -> tf_read_to_end file 65537 k1 = (Ok bytes, k2) ->
    len bytes <= 65536 -> parse_task bytes = Some task ->
    asks ["submit"%string; path] k (Submit task) k2
| asks_get id t k : task_id_from_str id = Some t -> asks ["get"%string; id] k (GetTask t) k
| asks_events id t k : task_id_from_str id = Some t -> asks ["events"%string; id] k (Events t 0 100) k
| asks_events_after id t after k : task_id_from_str id = Some t -> 0 <= after <= u64_max ->
    asks ["events"%string; id; u64_to_string after] k (Events t after 100) k
| asks_events_limit id t after limit k :
    task_id_from_str id = Some t -> 0 <= after <= u64_max -> 0 <= limit <= u16_max ->
    asks ["events"%string; id; u64_to_string after; u64_to_string limit] k (Events t after limit) k
| asks_start id t k : task_id_from_str id = Some t -> asks ["start"%string; id] k (Start t) k
| asks_succeed id t k : task_id_from_str id = Some t -> asks ["succeed"%string; id] k (Succeed t) k
| asks_fail id t k : task_id_from_str id = Some t -> asks ["fail"%string; id] k (Fail t) k
| asks_cancel id t k : task_id_from_str id = Some t -> asks ["cancel"%string; id] k (Cancel t) k.

Lemma parse_number_of max n : 0 <= n <= max -> max <= u64_max -> parse_number max (u64_to_string n) = Ok n.
Proof. intros Hn Hmax. unfold parse_number. by rewrite parse_u64_to_string. Qed.

Lemma load_task_returns path task file bytes (k k1 k2 : K) w :
  tf_open path k = (Ok file, k1) -> tf_read_to_end file 65537 k1 = (Ok bytes, k2) ->
  len bytes <= 65536 -> parse_task bytes = Some task ->
  load_task parse_task path k w = (Return task, k2, w).
Proof.
  intros Ho Hr Hle Hp. unfold load_task, sys_or, bind, sys, lift. rewrite Ho. cbn [res_map_err].
  change (try_into u64_max DEFAULT_MAX_FRAME_BYTES) with (Some 65536). cbn [ok_or]. unfold ret at 1 2. change (65536 + 1) with 65537.
  rewrite Hr. cbn [res_map_err]. unfold ret at 1. rewrite (proj2 (Z.ltb_ge _ _)) by done. by rewrite Hp.
Qed.

(** The words are parsed and the request is made of them. *)
Lemma asks_parses socket words k method k1 w :
  socket <> ""%string -> asks words k method k1 ->
  exists c, CliOptions_parse task_id_from_str ("--socket"%string :: socket :: words) = Ok (mk_CliOptions socket c)
    /\ into_method parse_task c k w = (Return method, k1, w).
Proof.
  intros Hs Ha. unfold CliOptions_parse. replace (is_empty_str socket) with false by (by destruct socket).
  destruct Ha; unfold CliCommand_parse, cli_parse_task_id; cbn -[parse_number u64_to_string load_task];
    try (match goal with H : task_id_from_str _ = _ |- _ => rewrite H end);
    rewrite ?parse_number_of by (done || unfold u16_max, u64_max in *; lia);
    cbn -[parse_number u64_to_string load_task]; (eexists; split; [reflexivity|]); try reflexivity.
  cbn [into_method]. unfold bind. by erewrite load_task_returns.
Qed.

End Words.

(** ** The exchange *)

Lemma bind_returns {X E A B} (m : M X E A) (f : A -> M X E B) x w a x' w' :
  m x w = (Return a, x', w') -> bind m f x w = f a x' w'.
Proof. unfold bind. by intros ->. Qed.

Lemma sys_or_returns {K E A} (e : E) (op : K -> Result A IoError * K) k w a k' :
  op k = (Ok a, k') -> sys_or e op k w = (Return a, k', w).
Proof. unfold sys_or, bind, sys. by intros ->. Qed.

Section Exchange.
Context `{EnvLaws} {St : Type} `{EventStoreLaws St}.
Context {K : Type} `{!Files K, !UnixSockets K, !TaskFiles K}.
Context (parse_probe : list Z -> option Z) (parse_request : list Z -> option ApiRequest)
  (encode_response : ApiResponse -> option (list Z)) (encode_request : ApiRequest -> option (list Z))
  (parse_response : list Z -> option ApiResponse).

(** The daemon with supervisor [s] is at the other end of the socket: a connection
    is fresh, takes its timeouts, and its answer is what [serve_stream] writes to
    the bytes the client sent. *)
Record daemon_behind (path : string) (s : TaskSupervisor St) (w : World) (k : K) : Prop := {
  db_connects : exists c k1 k2 k3, u_connect path k = (Ok (c, empty_stream), k1)
    /\ u_set_read_timeout c (Duration_from_secs 5) k1 = (Ok tt, k2)
    /\ u_set_write_timeout c (Duration_from_secs 5) k2 = (Ok tt, k3)
    /\ forall stream, (u_reply c stream k3).1
         = mk_Stream (outgoing (serve_stream parse_probe parse_request encode_response DEFAULT_MAX_FRAME_BYTES
                                  (mk_Stream (outgoing stream) false [] None, s) w).1.2.1) false [] None;
}.

(** The codec carries this exchange, and the error for large responses is small. *)
Record codec_carries (request : ApiRequest) (response : ApiResponse) : Prop := {
  cc_response : codec_round_trips parse_probe parse_request encode_response encode_request parse_response request response;
  cc_too_large :
    codec_round_trips parse_probe parse_request encode_response encode_request parse_response request too_large_response;
  cc_small : forall q, encode_response too_large_response = Some q -> len q <= MIN_MAX_FRAME_BYTES;
  cc_request : exists p, encode_request request = Some p /\ p <> [] /\ len p <= DEFAULT_MAX_FRAME_BYTES;
}.

Lemma write_frame_sends p :
  p <> [] -> len p <= DEFAULT_MAX_FRAME_BYTES ->
  exists c1, write_frame p DEFAULT_MAX_FRAME_BYTES empty_stream = (Ok tt, c1).
Proof.
  intros Hne Hle. unfold write_frame, try_into. rewrite bool_decide_eq_false_2 by done. cbn [orb].
  rewrite (proj2 (Z.ltb_ge _ _)) by done. pose proof (len_nonneg p).
  rewrite !(proj2 (Z.leb_le _ _)) by (done || unfold DEFAULT_MAX_FRAME_BYTES, u32_max in *; lia). by eexists.
Qed.

Lemma send_request_delivers path request response s w s' w' k w0 :
  sup_inv false s w -> daemon_behind path s w k -> codec_carries request response ->
  handle request s w = (Return response, s', w') ->
  exists sent k', send_request encode_request parse_response path request ServerConfig_default k w0 = (Return sent, k', w0)
    /\ delivered encode_response DEFAULT_MAX_FRAME_BYTES response sent.
Proof.
  intros Hi [(c & k1 & k2 & k3 & Hconn & Hrt & Hwt & Hrep)] [Hc Hcl Hsmall (p & Hp & Hne & Hle)] Hrun.
  destruct (write_frame_sends p Hne Hle) as [c1 Hw].
  destruct (exchange_round_trips parse_probe parse_request encode_response encode_request parse_response
    request ServerConfig_default s w response s' w' c1 false) as (stream & sent & Hserve & Hs & Hrecv); try done.
  { unfold client_send. cbn [ServerConfig_validate ServerConfig_default max_frame_bytes].
    change (ServerConfig_validate ServerConfig_default) with (Ok (E := LocalApiError) ServerConfig_default). by rewrite Hp. }
  pose proof (Hrep c1) as Hreply. cbn [max_frame_bytes ServerConfig_default] in Hserve. rewrite Hserve in Hreply.
  cbn [fst snd] in Hreply.
  destruct (u_reply c c1 k3) as [reply k4] eqn:Er. cbn [fst] in Hreply. subst reply.
  exists sent. eexists. unfold send_request.
  change (ServerConfig_validate ServerConfig_default) with (Ok (E := LocalApiError) ServerConfig_default).
  rewrite (bind_returns _ _ _ _ ServerConfig_default k w0) by done.
  rewrite (bind_returns _ _ _ _ (c, empty_stream) k1 w0) by (by apply sys_or_returns). cbn [fst snd]. unfold exchange.
  rewrite (bind_returns _ _ _ _ tt k3 w0), Hp.
  - cbn [lift ok_or ret max_frame_bytes ServerConfig_default]. unfold ret. rewrite Hw, Er, Hrecv. done.
  - unfold configure_stream. rewrite (bind_returns _ _ _ _ tt k2 w0) by (by apply sys_or_returns).
    by apply sys_or_returns.
Qed.

End Exchange.

(** A task file is refused if it has more than 65,536 bytes, before it is parsed; no
    more than one byte beyond that is ever read. *)
Theorem task_files_are_bounded {K} `{TaskFiles K} parse_task path (k : K) w task k' w' :
  load_task parse_task path k w = (Return task, k', w') ->
  exists file k1 bytes, tf_open path k = (Ok file, k1) /\ tf_read_to_end file 65537 k1 = (Ok bytes, k')
    /\ len bytes <= 65536 /\ parse_task bytes = Some task.
Proof.
  intros Hrun. enough (Hwp : wp (load_task parse_task path) (fun r k' _ => forall task, r = Return task ->
    exists file k1 bytes, tf_open path k = (Ok file, k1) /\ tf_read_to_end file 65537 k1 = (Ok bytes, k')
      /\ len bytes <= 65536 /\ parse_task bytes = Some task) k w).
  { unfold wp in Hwp. rewrite Hrun in Hwp. by apply Hwp. }
  unfold load_task. wp_step. apply wp_sys_or; [|done]. intros file k1 Eo. wp_step.
  change (try_into u64_max DEFAULT_MAX_FRAME_BYTES) with (Some 65536). wp_step. cbn [ok_or]. wp_step.
  apply wp_sys_or; [|done]. intros bytes k2 Er.
  destruct (Z.ltb_spec DEFAULT_MAX_FRAME_BYTES (len bytes)) as [|Hle]; [by wp_step|]. wp_step.
  destruct (parse_task bytes) as [task'|] eqn:Ep; cbn [ok_or]; [|done]. intros ? [= <-]. by exists file, k1, bytes.
Qed.

(** C39: A command reaches the service and its answer comes back: when [aiosctl] is
    given a socket and words that ask for a request (the eight commands, [events] in its
    three forms), and the daemon is behind the socket, the service handles exactly that
    request, and [aiosctl] prints the response of the service, or the fixed error in place
    of one that does not fit the frame, and exits with 0 for a result and 2 for an API
    error.  The encodings are parameters: they are assumed to read back this request,
    which fits the frame, its response and the fixed error, as what was written. *)
Theorem aiosctl_delivers_commands `{EnvLaws} {St} `{EventStoreLaws St} {K} `{!UnixSockets K, !TaskFiles K}
    task_id_from_str parse_task parse_probe parse_request encode_response encode_request parse_response
    pretty_response words socket method response (s : TaskSupervisor St) w s' w' (k k1 : K) w0 :
  (forall r, is_Some (pretty_response r)) ->
  socket <> ""%string -> asks task_id_from_str parse_task words k method k1 -> reachable false s w ->
  daemon_behind parse_probe parse_request encode_response socket s w k1 ->
  codec_carries parse_probe parse_request encode_response encode_request parse_response (ApiRequest_new method) response ->
  handle (ApiRequest_new method) s w = (Return response, s', w') ->
  exists sent json k', delivered encode_response DEFAULT_MAX_FRAME_BYTES response sent /\ pretty_response sent = Some json
    /\ cli_main task_id_from_str parse_task encode_request parse_response pretty_response
         ("--socket"%string :: socket :: words) k w0
       = (Return (mk_CliExit (match api_outcome sent with OutcomeOk _ => 0 | OutcomeError _ => 2 end) (Some json) None),
          k', w0).
Proof.
  intros Hpretty Hs Hc Hi%reachable_inv Hd Hcc Hrun.
  destruct (asks_parses _ _ socket words k method k1 w0 Hs Hc) as (c & Hparse & Hm).
  destruct (send_request_delivers _ _ _ _ _ _ _ _ s w s' w' k1 w0 Hi Hd Hcc Hrun) as (sent & k' & Hsend & Hdel).
  destruct (Hpretty sent) as [json Hj]. exists sent, json, k'. split_and!; [done | done|].
  unfold cli_main, attempt, bind at 1. unfold cli_run.
  rewrite (bind_returns _ _ _ _ (mk_CliOptions socket c) k w0) by (by rewrite Hparse). cbn [cli_command cli_socket].
  rewrite (bind_returns _ _ _ _ method k1 w0) by done. unfold map_err. rewrite Hsend, Hj. unfold ret.
  by destruct (api_outcome sent).
Qed.

(** A client whose socket leads to a fresh supervisor. *)
Inductive DemoClient := demo_client.

Definition toy_parse_request (payload : list Z) : option ApiRequest :=
  match payload with [9] => Some (ApiRequest_new Health) | _ => None end.

#[local] Instance demo_client_sockets : UnixSockets DemoClient := {|
  u_bind _ k := (Err IoOther, k);
  u_accept _ k := (Err IoOther, k);
  u_connect _ k := (Ok (5, empty_stream), k);
  u_set_read_timeout _ _ k := (Ok tt, k);
  u_set_write_timeout _ _ k := (Ok tt, k);
  u_reply _ stream k :=
    (mk_Stream (outgoing (serve_stream (fun _ => Some 4) toy_parse_request toy_encode_response DEFAULT_MAX_FRAME_BYTES
                            (mk_Stream (outgoing stream) false [] None, demo_supervisor) world0).1.2.1) false [] None, k);
  u_close _ _ k := (tt, k);
  u_remove_file _ k := (Err IoOther, k);
|}.

#[local] Instance demo_client_files : TaskFiles DemoClient := {|
  tf_open _ k := (Err IoNotFound, k);
  tf_read_to_end _ _ k := (Err IoOther, k);
|}.

Definition toy_pretty (r : ApiResponse) : option string :=
  Some match api_outcome r with OutcomeOk _ => "ok"%string | OutcomeError _ => "error"%string end.

Lemma aiosctl_delivers_commands_witness :
  exists json, (cli_main MemDb.demo_text.(parse_task_id) (fun _ => None) (fun _ => Some [9]) toy_parse_response toy_pretty
    ["--socket"; "/run/aiosd.sock"; "health"]%string demo_client world0).1.1 = Return (mk_CliExit 0 (Some json) None).
Proof.
  destruct (aiosctl_delivers_commands MemDb.demo_text.(parse_task_id) (fun _ => None)
    (fun _ => Some 4) toy_parse_request toy_encode_response (fun _ => Some [9]) toy_parse_response toy_pretty
    ["health"%string] "/run/aiosd.sock" Health (ok (ResultHealthy ProtocolVersionRange_supported)) demo_supervisor world0
    demo_supervisor world0 demo_client demo_client world0) as (sent & json & k' & Hsent & _ & Hrun).
  - intros r. eexists. reflexivity.
  - discriminate.
  - apply asks_health.
  - exact (demo_reachable false world0).
  - split. exists 5, demo_client, demo_client, demo_client. split_and!; reflexivity.
  - split.
    + split; [intros p [= <-]; split; reflexivity | exists [1]; split_and!; [reflexivity | discriminate | reflexivity]].
    + split; [intros p [= <-]; split; reflexivity | exists [2]; split_and!; [reflexivity | discriminate | reflexivity]].
    + intros q [= <-]. vm_compute. discriminate.
    + exists [9]. split_and!; [reflexivity | discriminate | vm_compute; discriminate].
  - vm_compute. reflexivity.
  - exists json. rewrite Hrun. destruct Hsent as (q & [= <-] & [[_ ->] | [Hbig _]]); [reflexivity | done].
Defined.
