(* ===== verification/Sha256Fips.v ===== *)
(** * SHA-256 (FIPS 180-4)

    The hash of the sha2 crate is a parameter of the root filesystem model; this is the
    standard it implements, on which the tests of root filesystems run.  The constants
    are computed from their definition: the first 32 bits of the fractional parts of
    the square and cube roots of the first primes. *)

From stdpp Require Import base numbers list strings.
From Stdlib Require Import ZArith Lia Ascii.
From S2P Require Import Prelude RustStd RustOs ProcessHost Rootfs RootfsProps.

#[local] Open Scope Z_scope.
#[local] Open Scope list_scope.

Definition word (x : Z) : Z := Z.land x (Z.ones 32).

(** ** Constants *)

Definition is_prime (n : Z) : bool := forallb (fun d => negb (n mod d =? 0)) (seqZ 2 (Z.sqrt n - 1)).

(** There are 64 primes up to 311. *)
Definition primes : list Z := filter (fun n => is_prime n = true) (seqZ 2 310).

(** The largest [r] whose cube is at most [n], bit by bit from the highest one. *)
Fixpoint cube_root_bits (bits : nat) (n r : Z) : Z :=
  match bits with
  | O => r
  | S bits' =>
      let candidate := r + 2 ^ Z.of_nat bits' in
      cube_root_bits bits' n (if candidate * candidate * candidate <=? n then candidate else r)
  end.

Definition cube_root (n : Z) : Z := cube_root_bits 40 n 0.

Lemma cube_root_bits_correct bits n r :
  0 <= r -> r * r * r <= n < (r + 2 ^ Z.of_nat bits) * (r + 2 ^ Z.of_nat bits) * (r + 2 ^ Z.of_nat bits) ->
  let c := cube_root_bits bits n r in 0 <= c /\ c * c * c <= n < (c + 1) * (c + 1) * (c + 1).
Proof.
  revert r. induction bits as [|bits IH]; intros r Hr Hn; [by simpl in *; lia|].
  cbn [cube_root_bits]. cbv zeta. rewrite Nat2Z.inj_succ, Z.pow_succ_r in Hn by lia.
  assert (Hp : 0 < 2 ^ Z.of_nat bits) by (apply Z.pow_pos_nonneg; lia).
  destruct (Z.leb_spec ((r + 2 ^ Z.of_nat bits) * (r + 2 ^ Z.of_nat bits) * (r + 2 ^ Z.of_nat bits)) n).
  - apply IH; [lia|]. split; [done|]. eapply Z.lt_le_trans; [apply Hn|]. apply Z.eq_le_incl. f_equal; [f_equal|]; lia.
  - apply IH; [done | lia].
Qed.

Definition round_constants : list Z :=
  Eval vm_compute in map (fun p => word (cube_root (p * 2 ^ 96))) primes.

Definition initial_hash : list Z :=
  Eval vm_compute in map (fun p => word (Z.sqrt (p * 2 ^ 64))) (take 8 primes).

(** What was computed: 64 constants, each from the cube root of its prime. *)
Lemma round_constants_defined :
  length primes = 64%nat /\ round_constants = map (fun p => word (cube_root (p * 2 ^ 96))) primes
  /\ initial_hash = map (fun p => word (Z.sqrt (p * 2 ^ 64))) (take 8 primes).
Proof. vm_compute. auto. Qed.

(** ** Functions on words *)

Definition rotate_right (n x : Z) : Z := word (Z.lor (Z.shiftr x n) (Z.shiftl x (32 - n))).

Definition choose (x y z : Z) : Z := Z.lxor (Z.land x y) (Z.land (Z.lxor x (Z.ones 32)) z).
Definition majority (x y z : Z) : Z := Z.lxor (Z.land x y) (Z.lxor (Z.land x z) (Z.land y z)).
Definition sum_a (x : Z) : Z := Z.lxor (rotate_right 2 x) (Z.lxor (rotate_right 13 x) (rotate_right 22 x)).
Definition sum_e (x : Z) : Z := Z.lxor (rotate_right 6 x) (Z.lxor (rotate_right 11 x) (rotate_right 25 x)).
Definition mix_early (x : Z) : Z := Z.lxor (rotate_right 7 x) (Z.lxor (rotate_right 18 x) (Z.shiftr x 3)).
Definition mix_late (x : Z) : Z := Z.lxor (rotate_right 17 x) (Z.lxor (rotate_right 19 x) (Z.shiftr x 10)).

(** ** The message *)

(** A one bit, zeros up to a multiple of 64 bytes less eight, and the length in bits. *)
Definition pad (message : list Z) : list Z :=
  message ++ [128] ++ repeat 0 (Z.to_nat ((55 - len message) mod 64)) ++ u64_to_be_bytes (8 * len message).

Fixpoint words (bytes : list Z) : list Z :=
  match bytes with
  | a :: b :: c :: d :: bytes' => (((a * 256 + b) * 256 + c) * 256 + d) :: words bytes'
  | _ => []
  end.

(** The schedule, as a window of sixteen words that moves on. *)
Fixpoint schedule (n : nat) (window : list Z) : list Z :=
  match n, window with
  | S n', w0 :: rest =>
      let next := word (mix_late (nth 14 window 0) + nth 9 window 0 + mix_early (nth 1 window 0) + w0) in
      w0 :: schedule n' (rest ++ [next])
  | _, _ => []
  end.

(** ** Compression *)

Definition round (h : list Z) (constant scheduled : Z) : list Z :=
  match h with
  | [a; b; c; d; e; f; g; i] =>
      let t1 := i + sum_e e + choose e f g + constant + scheduled in
      let t2 := sum_a a + majority a b c in
      [word (t1 + t2); a; b; c; word (d + t1); e; f; g]
  | _ => h
  end.

Fixpoint rounds (h constants scheduled : list Z) : list Z :=
  match constants, scheduled with
  | k :: constants', w :: scheduled' => rounds (round h k w) constants' scheduled'
  | _, _ => h
  end.

Definition compress (h block : list Z) : list Z :=
  zip_with (fun x y => word (x + y)) h (rounds h round_constants (schedule 64 block)).

(** As many blocks as there are, each of sixteen words. *)
Fixpoint compress_all (blocks : nat) (h message : list Z) : list Z :=
  match blocks with
  | O => h
  | S blocks' => compress_all blocks' (compress h (take 16 message)) (drop 16 message)
  end.

Definition fips_sha256 : Sha256 := fun message =>
  let padded := words (pad message) in
  let h := compress_all (Nat.div (length padded) 16) initial_hash padded in
  concat (map u32_to_be_bytes h).

(** ** The digest is 32 bytes *)

Lemma round_length h k w : length (round h k w) = length h.
Proof. by do 9 (destruct h as [|? h]; try done). Qed.

Lemma rounds_length constants : forall h scheduled, length (rounds h constants scheduled) = length h.
Proof.
  induction constants as [|k constants IH]; intros h [|w scheduled]; simpl; try done.
  by rewrite IH, round_length.
Qed.

Lemma compress_all_length blocks : forall h message, length (compress_all blocks h message) = length h.
Proof.
  induction blocks as [|blocks IH]; intros h message; simpl; [done|]. rewrite IH. unfold compress.
  rewrite length_zip_with, rounds_length. lia.
Qed.

Lemma word_bytes h : length (concat (map u32_to_be_bytes h)) = (4 * length h)%nat
  /\ Forall is_byte (concat (map u32_to_be_bytes h)).
Proof.
  induction h as [|x h [IH1 IH2]]; [done|]. cbn [map concat]. rewrite length_app, IH1. split; [simpl; lia|].
  apply Forall_app. split; [|done].
  repeat constructor; unfold is_byte; apply Z.mod_pos_bound; lia.
Qed.

(** A digest measured with this hash has a text of 64 hexadecimal digits, which parses
    back to the digest. *)
Theorem measured_digests_have_a_text (message : list Z) :
  let d := mk_RootFilesystemDigest (fips_sha256 message) in
  str_len (display_digest d) = DIGEST_HEX_BYTES /\ digest_from_str (display_digest d) = Ok d.
Proof.
  intros d. destruct (word_bytes (compress_all (Nat.div (length (words (pad message))) 16) initial_hash
                        (words (pad message)))) as [Hn Hb].
  rewrite compress_all_length in Hn. split.
  - unfold str_len, display_digest. rewrite display_hex_length. cbn [d digest_bytes]. unfold fips_sha256.
    by rewrite Hn.
  - apply digest_text_is_canonical. split; [|by split]. cbn [d digest_bytes]. unfold len, fips_sha256. by rewrite Hn.
Qed.

(** The examples of the standard. *)
Example sha256_of_nothing :
  display_hex (fips_sha256 []) = "e3b0c44298fc1c149afbf4c8996fb92427ae41e4649b934ca495991b7852b855".
Proof. vm_compute. reflexivity. Qed.

Example sha256_of_abc :
  display_hex (fips_sha256 (bytes_of "abc")) = "ba7816bf8f01cfea414140de5dae2223b00361a396177a9cb410ff61f20015ad".
Proof. vm_compute. reflexivity. Qed.

Example sha256_of_two_blocks :
  display_hex (fips_sha256 (bytes_of "abcdbcdecdefdefgefghfghighijhijkijkljklmklmnlmnomnopnopq"))
  = "248d6a61d20638b8e5c026930c3e6039a33ce45964ff2167f6ecedd419db06c1".
Proof. vm_compute. reflexivity. Qed.
