(* ===== verification/ErrorText.v ===== *)
(** * The texts of errors

    What [Display], [Debug] and [source] show of the errors of the core, the runtime,
    the agent and the programs.  An error may carry another error, never an input. *)

From stdpp Require Import base numbers list gmap strings pretty.
From Stdlib Require Import ZArith Lia.
From S2P Require Import Prelude RustStd RustOs RustNet TaskState TaskSpec Policy Event Approval Supervisor.
From S2P Require Import Execution Facade ToolAdapter NetworkAdapter Agent LocalApi ProcessHost Rootfs CgroupLaunch Daemon Aiosctl.

#[local] Open Scope string_scope.

(** ** aios-core *)

(** Derived [Debug] prints the name of the variant. *)
Definition debug_TaskState (s : TaskState) : string :=
  match s with
  | Submitted => "Submitted"
  | Validating => "Validating"
  | Rejected => "Rejected"
  | Queued => "Queued"
  | Running => "Running"
  | WaitingApproval => "WaitingApproval"
  | Succeeded => "Succeeded"
  | Failed => "Failed"
  | Cancelled => "Cancelled"
  end.

Definition display_StateTransitionError (e : StateTransitionError) : string :=
  "invalid task state transition: " ++ debug_TaskState (transition_from e) ++ " -> "
    ++ debug_TaskState (transition_into e).

Definition display_ValidationError (e : ValidationError) : string := field e ++ ": " ++ message e.

Definition display_ValidationErrors (errors : list ValidationError) : string :=
  "task validation failed with " ++ pretty (len errors) ++ " error(s)".

(** ** aios-runtime *)

Definition display_SupervisorError (e : SupervisorError) : string :=
  match e with
  | TaskNotFound => "task not found"
  | TaskNotRunning => "task is not running"
  | IdempotencyConflict => "idempotency key conflict"
  | CapacityExceeded => "task capacity exceeded"
  | InvalidStateTransition error => display_StateTransitionError error
  | EventStoreFailure error => display_EventStoreError error
  | ApprovalFailure error => display_ApprovalError error
  end.

Definition debug_ExecutionError {E} (e : ExecutionError E) : string := display_ExecutionError e.

(** The error behind an error. *)
Inductive ErrorSource :=
| SourceTransition (error : StateTransitionError)
| SourceEventStore (error : EventStoreError)
| SourceApproval (error : ApprovalError)
| SourceLocalApi (error : LocalApiError)
| SourceIo.

Definition SupervisorError_source (e : SupervisorError) : option ErrorSource :=
  match e with
  | InvalidStateTransition error => Some (SourceTransition error)
  | EventStoreFailure error => Some (SourceEventStore error)
  | ApprovalFailure error => Some (SourceApproval error)
  | TaskNotFound | TaskNotRunning | IdempotencyConflict | CapacityExceeded => None
  end.

(** ** aios-agent, aios-local-api and the programs *)

Definition debug_AgentError (e : AgentError) : string := display_AgentError e.

Definition LocalApiError_source (e : LocalApiError) : option ErrorSource :=
  match e with
  | Io => Some SourceIo
  | ApiInvalidConfig | UnsafeSocketDirectory | SocketAlreadyExists | FrameTooLarge | Protocol => None
  end.

Definition CliError_source (e : CliError) : option ErrorSource :=
  match e with
  | CliTaskFileIo => Some SourceIo
  | CliTransport error => Some (SourceLocalApi error)
  | CliUsage | CliInvalidTaskId | CliInvalidNumber | CliTaskFileTooLarge | CliInvalidTaskFile => None
  end.

Definition display_OptionsError : string :=
  "usage: aiosd --socket PATH --database PATH [--cgroup-root CGROUP_V2_PATH]".

Section LaunchMain.
Context {K : Type} `{!Files K, !LaunchHost K}.

(** [main] of aios-cgroup-launch: a run that succeeds has replaced the process. *)
Definition launch_main (arguments : list string) : M K Empty_set (ExecImage + ExitCode) :=
  let! ran := attempt (launch_run arguments) in
  match ran with
  | Ok image => ret (inl image)
  | Err _ => ret (inr (ExitFrom FAILURE_EXIT_CODE))
  end.

End LaunchMain.

(** ** Properties *)

Definition all_states : list TaskState :=
  [Submitted; Validating; Rejected; Queued; Running; WaitingApproval; Succeeded; Failed; Cancelled].

Definition all_supervisor_errors : list SupervisorError :=
  ([TaskNotFound; TaskNotRunning; IdempotencyConflict; CapacityExceeded]
   ++ (from ← all_states; to ← all_states; [InvalidStateTransition (mk_StateTransitionError from to)])
   ++ map EventStoreFailure [StoreCapacityExceeded; SequenceExhausted; Corrupt; InsecurePermissions; Event.Unavailable]
   ++ map ApprovalFailure [InvalidConfig; InvalidApprovalRequest; DuplicateOperation; PendingCapacityExceeded;
                           NotFound; Expired; ScopeMismatch])%list.

Lemma supervisor_errors_listed e : e ∈ all_supervisor_errors.
Proof.
  unfold all_supervisor_errors. rewrite !elem_of_app.
  destruct e as [| | | |[from to]|e|e]; [left; set_solver..| | |].
  - right. left. apply list_elem_of_bind. exists from. split; [|destruct from; set_solver].
    apply list_elem_of_bind. exists to. split; [set_solver | destruct to; set_solver].
  - right. right. left. destruct e; set_solver.
  - right. right. right. destruct e; set_solver.
Qed.

Lemma texts_NoDup : NoDup (map display_SupervisorError all_supervisor_errors).
Proof. apply (bool_decide_unpack _). vm_compute. exact I. Qed.

Lemma NoDup_map_inj {A B} (f : A -> B) l x y : NoDup (map f l) -> x ∈ l -> y ∈ l -> f x = f y -> x = y.
Proof.
  induction l as [|z l IH]; simpl; [by intros _ ?%not_elem_of_nil|]. intros [Hz Hl]%NoDup_cons Hx Hy E.
  assert (Hin : forall u, u ∈ l -> f u ∈ map f l) by (intros u Hu; apply list_elem_of_fmap; by exists u).
  apply elem_of_cons in Hx as [->|Hx], Hy as [->|Hy]; [done | | |by apply IH].
  - destruct Hz. rewrite E. by apply Hin.
  - destruct Hz. rewrite <-E. by apply Hin.
Qed.

(** Error texts tell errors apart and carry no input: two supervisor errors with the
    same text are the same error, of a fixed list; a rejected task is reported by the
    number of its errors, and each of them reads as one of a fixed list of lines. *)
Theorem error_texts_tell_errors_apart :
  (forall e1 e2, display_SupervisorError e1 = display_SupervisorError e2 -> e1 = e2)
  /\ (forall t errors, validate t = Err errors ->
        errors <> [] /\ display_ValidationErrors errors = "task validation failed with " ++ pretty (len errors) ++ " error(s)"
        /\ forall e, e ∈ errors -> display_ValidationError e ∈ map display_ValidationError validation_error_pool).
Proof.
  split.
  - intros e1 e2. apply (NoDup_map_inj display_SupervisorError all_supervisor_errors); [apply texts_NoDup | apply supervisor_errors_listed..].
  - intros t errors Hv. destruct (validate_cases t) as [[E _]|(es & E & Hne & _ & Hpool)]; rewrite E in Hv; [done|].
    injection Hv as <-. split; [done|]. split; [done|]. intros e He. rewrite Forall_forall in Hpool.
    apply list_elem_of_fmap. exists e. split; [done | by apply Hpool].
Qed.
