(* ===== verification/TestKit.v ===== *)
(** * Running the repository's own tests

    The unit tests of the crates, translated call by call, run against the model: a
    test is a computation that panics where an assertion of the source fails.  What a
    test captures in a shared cell ([Rc<RefCell<_>>], [Rc<Cell<_>>]) is read from the
    state of the component that owns the cell's other end. *)

From stdpp Require Import base numbers list gmap strings.
From Stdlib Require Import ZArith Lia Ascii String.
From S2P Require Import Prelude RustStd TaskSpec Event.

(** A test works on its variables [X]; it returns or panics. *)
Abbreviation Test X := (M X Empty_set).

Section Assertions.
Context {X : Type}.

(** [assert!] *)
Definition assert_that (b : bool) : Test X unit := if b then ret tt else panic.

(** [assert_eq!] *)
Definition assert_eq {A} `{EqDecision A} (a b : A) : Test X unit := assert_that (bool_decide (a = b)).

(** [result.expect(..)] *)
Definition expect {E A} (r : Result A E) : Test X A :=
  match r with Ok a => ret a | Err _ => panic end.

(** [option.expect(..)], and the refutable pattern of a [let .. else { panic!(..) }]. *)
Definition expect_some {A} (o : option A) : Test X A :=
  match o with Some a => ret a | None => panic end.

(** [result.expect_err(..)] *)
Definition expect_err {E A} (r : Result A E) : Test X E :=
  match r with Ok _ => panic | Err e => ret e end.

(** [x.method(..).expect(..)] *)
Definition call {E A} (m : M X E A) : Test X A := let! r := attempt m in expect r.

(** [x.method(..).expect_err(..)] *)
Definition call_err {E A} (m : M X E A) : Test X E := let! r := attempt m in expect_err r.

(** [assert!(matches!(x.method(..), Err(pattern)))] *)
Definition assert_call_err {E A} (pattern : E -> bool) (m : M X E A) : Test X unit :=
  let! e := call_err m in assert_that (pattern e).

(** [x.field()] with a [Result] or an [Option], and [.expect(..)]. *)
Definition read {E A} (f : X -> Result A E) : Test X A := let! r := gets f in expect r.
Definition read_some {A} (f : X -> option A) : Test X A := let! o := gets f in expect_some o.

(** [let mut y = value;] and the statements that use [y]. *)
Definition with_local {Y A} (y : Y) (body : Test Y A) : Test X A := fun x w =>
  let '(r, _, w') := body y w in (r, x, w').

(** Identifiers minted by the test itself. *)
Definition TaskId_new `{Env} : Test X TaskId := let! u := Uuid_now_v7 in ret (mk_TaskId u).
Definition OperationId_new `{Env} : Test X OperationId := let! u := Uuid_now_v7 in ret (mk_OperationId u).

(** [thread::sleep]: under [demo_env] a reading of the monotonic clock takes a
    millisecond, so a sleep is as many readings as the milliseconds it lasts. *)
Definition sleep {E} (duration : Z) : M X E unit := fun x w =>
  (Return tt, x, mk_World (instants_read w + S (Z.to_nat (Duration_as_millis duration)))
                          (system_times_read w) (uuids_minted w)).

End Assertions.

(** Assignments to the fields of a task. *)
Definition assign_idempotency_key (key : string) (t : TaskSpec) : TaskSpec :=
  mk_TaskSpec key (goal t) (capabilities t) (budget t) (approval t).
Definition assign_goal (g : string) (t : TaskSpec) : TaskSpec :=
  mk_TaskSpec (idempotency_key t) g (capabilities t) (budget t) (approval t).
Definition assign_capabilities (c : CapabilitySet) (t : TaskSpec) : TaskSpec :=
  mk_TaskSpec (idempotency_key t) (goal t) c (budget t) (approval t).
Definition assign_filesystem (f : list FileCapability) (t : TaskSpec) : TaskSpec :=
  assign_capabilities (mk_CapabilitySet f (network (capabilities t)) (tools (capabilities t))) t.
Definition assign_network (n : NetworkPolicy) (t : TaskSpec) : TaskSpec :=
  assign_capabilities (mk_CapabilitySet (filesystem (capabilities t)) n (tools (capabilities t))) t.
Definition assign_tools (l : list string) (t : TaskSpec) : TaskSpec :=
  assign_capabilities (mk_CapabilitySet (filesystem (capabilities t)) (network (capabilities t)) l) t.
Definition assign_budget (b : Budget) (t : TaskSpec) : TaskSpec :=
  mk_TaskSpec (idempotency_key t) (goal t) (capabilities t) b (approval t).
Definition assign_wall_time_seconds (s : Z) (t : TaskSpec) : TaskSpec :=
  assign_budget (mk_Budget s (memory_bytes (budget t)) (max_parallel_agents (budget t))) t.
Definition assign_required_for (l : list string) (t : TaskSpec) : TaskSpec :=
  mk_TaskSpec (idempotency_key t) (goal t) (capabilities t) (budget t) (mk_ApprovalPolicy l).

(** [task.capabilities.filesystem[0].path = path] and [.access = access]; indexing an
    empty list panics. *)
Definition assign_first_path {X} (p : string) (t : TaskSpec) : Test X TaskSpec :=
  match filesystem (capabilities t) with
  | c :: l => ret (assign_filesystem (mk_FileCapability p (access c) :: l) t)
  | [] => panic
  end.
Definition assign_first_access {X} (a : FileAccess) (t : TaskSpec) : Test X TaskSpec :=
  match filesystem (capabilities t) with
  | c :: l => ret (assign_filesystem (mk_FileCapability (path c) a :: l) t)
  | [] => panic
  end.

(** [assert!(matches!(x.method(..), Err(e)))] for an error type with decidable equality. *)
Definition assert_fails {X E A} `{EqDecision E} (e : E) (m : M X E A) : Test X unit :=
  assert_call_err (fun e' => bool_decide (e' = e)) m.

(** [matches!(result, Err(E))] for an error type with decidable equality. *)
Definition is_err {A E} `{EqDecision E} (e : E) (r : Result A E) : bool :=
  match r with Err e' => bool_decide (e' = e) | Ok _ => false end.

(** [str::contains] with a string pattern. *)
Fixpoint str_contains (pattern s : string) : bool :=
  String.prefix pattern s ||
  match s with
  | EmptyString => false
  | String _ s' => str_contains pattern s'
  end.

(** ["c".repeat(n)] *)
Definition repeat_char (c : ascii) (n : Z) : string := string_of_list_ascii (repeat c (Z.to_nat n)).

(** The outcome of [cargo test] for one test. *)
Definition passes (t : Test unit unit) : bool :=
  match t tt world0 with (Return _, _, _) => true | _ => false end.

(** A sleep lasts: the next reading of the clock is later than the last one by more
    than the duration asked for. *)
Lemma sleep_waits {X E} (d : Z) (x : X) (w w' : World) o y :
  0 <= d -> sleep (E := E) d x w = (o, y, w') ->
  instant_at (instants_read w) + d < instant_at (instants_read w').
Proof.
  intros Hd [= _ _ <-]. unfold instant_at, demo_env, Duration_as_millis. simpl.
  pose proof (Z.div_pos d 1000000 Hd ltac:(lia)). pose proof (Z.mod_pos_bound d 1000000 ltac:(lia)).
  pose proof (Z.div_mod d 1000000 ltac:(lia)). lia.
Qed.
