(* ===== verification/CoreTests.v ===== *)
(** * The unit tests of aios-core (state.rs, policy.rs, task.rs)

    The tests of the three modules, run against their models.  What they check of the
    JSON encoding of serde is left out. *)

From stdpp Require Import base numbers list gmap strings.
From Stdlib Require Import ZArith Lia Ascii.
From S2P Require Import Prelude RustStd TaskState TaskSpec Policy Event ErrorText TestKit.

#[local] Open Scope string_scope.
#[local] Open Scope list_scope.

(** ** state.rs *)

(** [state.transition_to(next)] and [state.cancel()] on the variable of a test. *)
Definition state_transition_to (next : TaskState) : M TaskState StateTransitionError unit := fun s w =>
  match transition_to s next with
  | Ok s' => (Return tt, s', w)
  | Err e => (Raise e, s, w)
  end.

Definition state_cancel : Test TaskState bool := fun s w => (Return (TaskState.cancel s).1, (TaskState.cancel s).2, w).

Definition accepts_complete_success_path : Test unit unit :=
  with_local Submitted
    (do! for_each (fun next => call (state_transition_to next))
           [Validating; Queued; Running; WaitingApproval; Running; Succeeded] in
     let! state := gets id in
     assert_that (is_terminal state)).

Definition rejects_skipping_validation : Test unit unit :=
  with_local Submitted
    (let! error := call_err (state_transition_to Running) in
     do! assert_eq (transition_from error) Submitted in
     do! assert_eq (transition_into error) Running in
     let! state := gets id in
     assert_eq state Submitted).

Definition terminal_states_cannot_transition : Test unit unit :=
  for_each (fun terminal =>
    with_local terminal
      (let! _ := call_err (state_transition_to Running) in
       let! state := gets id in
       assert_eq state terminal))
    [Rejected; Succeeded; Failed; Cancelled].

Definition cancellation_is_idempotent : Test unit unit :=
  with_local Running
    (let! first := state_cancel in
     do! assert_that first in
     let! second := state_cancel in
     do! assert_that (negb second) in
     let! state := gets id in
     assert_eq state Cancelled).

Definition state_tests : list (Test unit unit) :=
  [accepts_complete_success_path; rejects_skipping_validation; terminal_states_cannot_transition;
   cancellation_is_idempotent].

(** ** policy.rs *)

Definition policy_test_task : TaskSpec :=
  mk_TaskSpec "policy-test-001" "Evaluate a capability request"
    (mk_CapabilitySet
       [mk_FileCapability "/workspace/project" Read; mk_FileCapability "/workspace-output" Write]
       (AllowNetwork [mk_NetworkDestination "api.example.com" Tcp 443; mk_NetworkDestination "127.0.0.1" Tcp 8080])
       ["git"; "test_runner"])
    (mk_Budget 60 1048576 1)
    (mk_ApprovalPolicy ["filesystem.write"; "git.commit"; "network.egress"]).

(** [assert_eq!(policy.evaluate(request), decision)] *)
Definition assert_decision (policy : CapabilityPolicy) (decision : PolicyDecision) (request : CapabilityRequest)
    : Test unit unit :=
  assert_eq (evaluate policy request) decision.

Definition allows_exact_and_descendant_read_paths : Test unit unit :=
  let! policy := expect (from_task policy_test_task) in
  for_each (fun path => assert_decision policy Allow (FileRequest path Read))
    ["/workspace/project"; "/workspace/project/src/lib.rs"].

Definition denies_sibling_prefix_and_ungranted_access_mode : Test unit unit :=
  let! policy := expect (from_task policy_test_task) in
  for_each (assert_decision policy (Deny CapabilityNotGranted))
    [FileRequest "/workspace/project-private/secret" Read;
     FileRequest "/workspace/project/src/lib.rs" Write;
     FileRequest "/workspace-output/result.txt" Read].

Definition rejects_invalid_paths_before_capability_matching : Test unit unit :=
  let! policy := expect (from_task policy_test_task) in
  for_each (fun path => assert_decision policy (Deny InvalidRequest) (FileRequest path Read))
    ["workspace/project"; "/workspace/project/../secret"; "/workspace//project"; "/"].

Definition requires_approval_only_after_capability_is_granted : Test unit unit :=
  let! policy := expect (from_task policy_test_task) in
  do! assert_decision policy ApprovalRequired (FileRequest "/workspace-output/result.txt" Write) in
  assert_decision policy (Deny CapabilityNotGranted) (FileRequest "/private/result.txt" Write).

Definition network_policy_uses_exact_validated_destinations : Test unit unit :=
  let! policy := expect (from_task policy_test_task) in
  do! for_each (fun '(host, port) => assert_decision policy ApprovalRequired (NetworkRequest host Tcp port))
        [("api.example.com", 443); ("127.0.0.1", 8080)] in
  do! assert_decision policy (Deny CapabilityNotGranted) (NetworkRequest "sub.api.example.com" Tcp 443) in
  do! assert_decision policy (Deny CapabilityNotGranted) (NetworkRequest "api.example.com" Tcp 80) in
  do! for_each (fun host => assert_decision policy (Deny InvalidRequest) (NetworkRequest host Tcp 443))
        ["API.EXAMPLE.COM"; "https://api.example.com"; "api.example.com:443"] in
  assert_decision policy (Deny InvalidRequest) (NetworkRequest "api.example.com" Tcp 0).

Definition deny_network_policy_is_fail_closed : Test unit unit :=
  let task := assign_network DenyNetwork policy_test_task in
  let! policy := expect (from_task task) in
  assert_decision policy (Deny CapabilityNotGranted) (NetworkRequest "api.example.com" Tcp 443).

Definition tool_capability_and_action_approval_are_independent : Test unit unit :=
  let! policy := expect (from_task policy_test_task) in
  do! assert_decision policy Allow (ToolRequest "git" "git.status") in
  do! assert_decision policy ApprovalRequired (ToolRequest "git" "git.commit") in
  assert_decision policy (Deny CapabilityNotGranted) (ToolRequest "shell" "git.commit").

Definition invalid_tool_request_is_denied : Test unit unit :=
  let! policy := expect (from_task policy_test_task) in
  assert_decision policy (Deny InvalidRequest) (ToolRequest "git;secret-value" "git.commit").

Definition refuses_to_build_policy_from_invalid_task : Test unit unit :=
  let! task := assign_first_path "/workspace/../secret" policy_test_task in
  assert_that (negb (is_ok (from_task task))).

Definition policy_tests : list (Test unit unit) :=
  [allows_exact_and_descendant_read_paths; denies_sibling_prefix_and_ungranted_access_mode;
   rejects_invalid_paths_before_capability_matching; requires_approval_only_after_capability_is_granted;
   network_policy_uses_exact_validated_destinations; deny_network_policy_is_fail_closed;
   tool_capability_and_action_approval_are_independent; invalid_tool_request_is_denied;
   refuses_to_build_policy_from_invalid_task].

(** ** task.rs *)

Definition test_destination (host : string) (port : Z) : NetworkDestination := mk_NetworkDestination host Tcp port.

Definition core_valid_task : TaskSpec :=
  mk_TaskSpec "repo-analysis-001" "Analyze the repository and report test failures"
    (mk_CapabilitySet [mk_FileCapability "/workspace/project" Read] DenyNetwork ["test_runner"])
    (mk_Budget 1800 8589934592 2)
    (mk_ApprovalPolicy ["filesystem.write"; "git.commit"]).

Definition accepts_valid_local_only_task : Test unit unit :=
  assert_eq (validate core_valid_task) (Ok tt).

Definition newline : ascii := ascii_of_nat 10.
Definition tab : ascii := ascii_of_nat 9.

Definition rejects_blank_and_oversized_goals : Test unit unit :=
  let blank := assign_goal (String " " (String newline (String tab ""))) core_valid_task in
  do! assert_that (negb (is_ok (validate blank))) in
  let oversized := assign_goal (repeat_char "a" 8193) core_valid_task in
  assert_that (negb (is_ok (validate oversized))).

Definition rejects_path_traversal_root_and_relative_paths : Test unit unit :=
  for_each (fun path =>
    let! task := assign_first_path path core_valid_task in
    let! errors := expect_err (validate task) in
    assert_that (existsb (fun error => String.eqb (field error) "capabilities.filesystem.path") errors))
    ["/workspace/../secret"; "/"; "workspace/project"; "/workspace//project"].

Definition rejects_zero_and_excessive_parallel_budgets : Test unit unit :=
  let task := assign_budget (mk_Budget 0 0 9) core_valid_task in
  let! errors := expect_err (validate task) in
  assert_eq (len errors) 3.

Definition rejects_network_allow_without_destinations : Test unit unit :=
  let task := assign_network (AllowNetwork []) core_valid_task in
  assert_that (negb (is_ok (validate task))).

Definition accepts_exact_tcp_destinations_and_ip_addresses : Test unit unit :=
  let task := assign_network (AllowNetwork [test_destination "api.example.com" 443;
                                            test_destination "127.0.0.1" 8080;
                                            test_destination "2001:db8::1" 8443]) core_valid_task in
  assert_eq (validate task) (Ok tt).

Definition rejects_schemes_paths_embedded_ports_and_invalid_host_names : Test unit unit :=
  for_each (fun host =>
    let task := assign_network (AllowNetwork [test_destination host 443]) core_valid_task in
    assert_that (negb (is_ok (validate task))))
    ["https://example.com"; "example.com/path"; "example.com:443"; "Example.com"; "-invalid.example";
     "invalid..example"].

Definition rejects_duplicate_capability_entries : Test unit unit :=
  let task := assign_tools ["test_runner"; "test_runner"] core_valid_task in
  let task := assign_required_for ["git.commit"; "git.commit"] task in
  let task := assign_network (AllowNetwork [test_destination "example.com" 443;
                                            test_destination "example.com" 443]) task in
  let! errors := expect_err (validate task) in
  assert_eq (len (List.filter (fun error => str_contains "duplicate" (message error)) errors)) 3.

Definition rejects_zero_ports : Test unit unit :=
  let task := assign_network (AllowNetwork [test_destination "api.example.com" 0]) core_valid_task in
  let! errors := expect_err (validate task) in
  assert_that (existsb (fun error => String.eqb (field error) "capabilities.network.destinations.port") errors).

Definition allows_same_host_on_distinct_ports : Test unit unit :=
  let task := assign_network (AllowNetwork [test_destination "api.example.com" 443;
                                            test_destination "api.example.com" 8443]) core_valid_task in
  assert_eq (validate task) (Ok tt).

Definition errors_do_not_echo_sensitive_input : Test unit unit :=
  let task := assign_goal "" core_valid_task in
  let task := assign_idempotency_key "secret value" task in
  let! errors := expect_err (validate task) in
  let message := join " " (map display_ValidationError errors) in
  assert_that (negb (str_contains "secret value" message)).

Definition task_tests : list (Test unit unit) :=
  [accepts_valid_local_only_task; rejects_blank_and_oversized_goals;
   rejects_path_traversal_root_and_relative_paths; rejects_zero_and_excessive_parallel_budgets;
   rejects_network_allow_without_destinations; accepts_exact_tcp_destinations_and_ip_addresses;
   rejects_schemes_paths_embedded_ports_and_invalid_host_names; rejects_duplicate_capability_entries;
   rejects_zero_ports; allows_same_host_on_distinct_ports; errors_do_not_echo_sensitive_input].

(** Every unit test of aios-core passes on the model. *)
Theorem core_tests_pass : forallb passes (state_tests ++ policy_tests ++ task_tests) = true.
Proof. vm_compute. reflexivity. Qed.
