(* ===== verification/RuntimeTests.v ===== *)
(** * The unit tests of aios-runtime (event.rs, approval.rs, supervisor.rs)

    The tests of the event store, the approval authority and the supervisor, run
    against their models; what they check of the JSON encoding of serde is left out. *)

From stdpp Require Import base numbers list gmap strings.
From Stdlib Require Import ZArith Lia Ascii.
From S2P Require Import Prelude RustStd TaskState TaskSpec Policy Event Approval Supervisor TestKit.

#[local] Open Scope string_scope.
#[local] Open Scope list_scope.

(** ** event.rs *)

Definition assigns_monotonic_sequences_per_task : Test unit unit :=
  with_local InMemoryEventStore_default
    (let! task_id := TaskId_new in
     do! call (append_batch task_id [EvSubmitted; EvStateTransitioned Submitted Validating]) in
     do! call (append_batch task_id [EvStateTransitioned Validating Queued]) in
     let! events := read (fun store => list_events store task_id 0) in
     do! assert_eq (map sequence events) [1; 2; 3] in
     let! tail := read (fun store => list_events store task_id 2) in
     assert_eq (len tail) 1).

Definition rejects_a_batch_atomically_when_capacity_would_be_exceeded : Test unit unit :=
  let! store := expect (InMemoryEventStore_new 2) in
  with_local store
    (let! task_id := TaskId_new in
     let! error := call_err (append_batch task_id [EvSubmitted; EvValidationFailed 1;
                                                   EvStateTransitioned Validating Rejected]) in
     do! assert_eq error StoreCapacityExceeded in
     let! events := read (fun store => list_events store task_id 0) in
     assert_eq (len events) 0).

Definition event_tests : list (Test unit unit) :=
  [assigns_monotonic_sequences_per_task; rejects_a_batch_atomically_when_capacity_would_be_exceeded].

(** ** approval.rs *)

Definition test_authority {X} (max_pending : Z) : Test X ApprovalAuthority :=
  expect (ApprovalAuthority_new max_pending (Duration_from_secs 60)).

Definition rejects_unsafe_configuration : Test unit unit :=
  do! assert_that (is_err InvalidConfig (ApprovalAuthority_new 0 (Duration_from_secs 1))) in
  do! assert_that (is_err InvalidConfig (ApprovalAuthority_new 1 0)) in
  assert_that (is_err InvalidConfig (ApprovalAuthority_new 1 (Duration_from_secs 86401))).

Definition request_is_task_operation_action_and_expiry_scoped : Test unit unit :=
  let! authority := test_authority 1 in
  with_local authority
    (let! task_id := TaskId_new in
     let! operation_id := OperationId_new in
     let! request := call (request task_id operation_id "git.commit" (Duration_from_secs 30)) in
     do! assert_eq (request_task_id request) task_id in
     do! assert_eq (request_operation_id request) operation_id in
     do! assert_eq (requested_action request) "git.commit" in
     do! assert_eq (expires_after_ms request) 30000 in
     let! count := pending_count in
     assert_eq count 1).

(** [authority.request(TaskId::new(), OperationId::new(), action, ttl)] *)
Definition request_fresh (action : string) (ttl : Z) : M ApprovalAuthority ApprovalError ApprovalRequest :=
  let! task := Uuid_now_v7 in
  let! operation := Uuid_now_v7 in
  request (mk_TaskId task) (mk_OperationId operation) action ttl.

Definition rejects_invalid_action_and_ttl_without_echoing_values : Test unit unit :=
  let! authority := test_authority 1 in
  with_local authority
    (let! error := call_err (request_fresh "git.commit;secret-value" (Duration_from_secs 1)) in
     do! assert_eq error InvalidApprovalRequest in
     do! assert_that (negb (str_contains "secret-value" (display_ApprovalError error))) in
     do! assert_fails InvalidApprovalRequest (request_fresh "git.commit" (Duration_from_secs 61)) in
     assert_fails InvalidApprovalRequest (request_fresh "git.commit" 1)).

Definition duplicate_operation_and_capacity_are_bounded : Test unit unit :=
  let! authority := test_authority 1 in
  with_local authority
    (let! task_id := TaskId_new in
     let! operation_id := OperationId_new in
     do! call (request task_id operation_id "git.commit" (Duration_from_secs 30)) in
     do! assert_fails DuplicateOperation (request task_id operation_id "git.commit" (Duration_from_secs 30)) in
     assert_fails PendingCapacityExceeded (request_fresh "git.commit" (Duration_from_secs 30))).

Definition denial_removes_pending_request_and_frees_capacity : Test unit unit :=
  let! authority := test_authority 1 in
  with_local authority
    (let! first := call (request_fresh "git.commit" (Duration_from_secs 30)) in
     do! call (deny (request_approval_id first)) in
     let! count := pending_count in
     do! assert_eq count 0 in
     do! assert_fails NotFound (deny (request_approval_id first)) in
     do! call (request_fresh "git.commit" (Duration_from_secs 30)) in
     ret tt).

Definition approved_grant_authorizes_exact_scope_once : Test unit unit :=
  let! authority := test_authority 1 in
  with_local authority
    (let! task_id := TaskId_new in
     let! operation_id := OperationId_new in
     let! request := call (request task_id operation_id "git.commit" (Duration_from_secs 30)) in
     let! grant := call (approve (request_approval_id request)) in
     let! receipt := call (grant_authorize grant task_id operation_id "git.commit") in
     do! assert_eq (receipt_approval_id receipt) (request_approval_id request) in
     let! count := pending_count in
     do! assert_eq count 0 in
     assert_fails NotFound (approve (request_approval_id request))).

Definition scope_mismatch_consumes_linear_grant : Test unit unit :=
  let! authority := test_authority 1 in
  with_local authority
    (let! task_id := TaskId_new in
     let! operation_id := OperationId_new in
     let! request := call (request task_id operation_id "git.commit" (Duration_from_secs 30)) in
     let! grant := call (approve (request_approval_id request)) in
     let! other := TaskId_new in
     assert_fails ScopeMismatch (grant_authorize grant other operation_id "git.commit")).

(** [authority.pending.get_mut(&id).expect(..).deadline = Instant::now()] *)
Definition expire_now (approval_id : ApprovalId) : Test ApprovalAuthority unit :=
  let! p := read_some (fun a => pending a !! approval_id) in
  let! now := Instant_now in
  modify (fun a => mk_ApprovalAuthority
    (<[approval_id := mk_PendingApproval (pa_task_id p) (pa_operation_id p) (pa_action p) now]> (pending a))
    (operation_index a) (max_pending a) (max_ttl a)).

Definition expired_request_cannot_be_approved : Test unit unit :=
  let! authority := test_authority 1 in
  with_local authority
    (let! request := call (request_fresh "git.commit" (Duration_from_secs 30)) in
     do! expire_now (request_approval_id request) in
     do! assert_fails Expired (approve (request_approval_id request)) in
     let! count := pending_count in
     assert_eq count 0).

Definition pending_count_purges_expired_requests : Test unit unit :=
  let! authority := test_authority 1 in
  with_local authority
    (let! request := call (request_fresh "git.commit" (Duration_from_secs 30)) in
     do! expire_now (request_approval_id request) in
     let! count := pending_count in
     do! assert_eq count 0 in
     assert_fails NotFound (approve (request_approval_id request))).

Definition expired_grant_cannot_authorize : Test unit unit :=
  let! authority := test_authority 1 in
  with_local authority
    (let! task_id := TaskId_new in
     let! operation_id := OperationId_new in
     let! request := call (request task_id operation_id "git.commit" (Duration_from_secs 30)) in
     let! grant := call (approve (request_approval_id request)) in
     let! now := Instant_now in
     let grant := mk_ApprovalGrant (grant_approval_id grant) (grant_task_id grant) (grant_operation_id grant)
                    (grant_action grant) now in
     assert_fails Expired (grant_authorize grant task_id operation_id "git.commit")).

Definition approval_tests : list (Test unit unit) :=
  [rejects_unsafe_configuration; request_is_task_operation_action_and_expiry_scoped;
   rejects_invalid_action_and_ttl_without_echoing_values; duplicate_operation_and_capacity_are_bounded;
   denial_removes_pending_request_and_frees_capacity; approved_grant_authorizes_exact_scope_once;
   scope_mismatch_consumes_linear_grant; expired_request_cannot_be_approved;
   pending_count_purges_expired_requests; expired_grant_cannot_authorize].

(** ** supervisor.rs *)

#[export] Instance SupervisorError_eq_dec : EqDecision SupervisorError.
Proof. solve_decision. Defined.

Definition TestSupervisor : Type := TaskSupervisor InMemoryEventStore.

(** [TaskSupervisor::default()] *)
Definition TaskSupervisor_default : TestSupervisor := TaskSupervisor_new InMemoryEventStore_default.

Definition runtime_valid_task : TaskSpec :=
  mk_TaskSpec "runtime-test-001" "Inspect the repository"
    (mk_CapabilitySet [mk_FileCapability "/workspace/project" Read] DenyNetwork ["test_runner"])
    (mk_Budget 300 1073741824 1)
    (mk_ApprovalPolicy ["git.commit"]).

Definition accepted_task_id {X} (result : SubmitResult) : Test X TaskId :=
  match result with
  | SubmitAccepted task => ret (snapshot_task_id task)
  | SubmitExisting _ | SubmitRejected _ _ => panic
  end.

(** [let OperationAuthorization::ApprovalRequired(request) = .. else { panic!(..) }] *)
Definition approval_request {X} (authorization : OperationAuthorization) : Test X ApprovalRequest :=
  match authorization with
  | AuthApprovalRequired request => ret request
  | _ => panic
  end.

(** [supervisor.submit(spec).expect(..)] of a task that is accepted. *)
Definition submit_accepted (spec : TaskSpec) : Test TestSupervisor TaskId :=
  let! result := call (submit spec) in accepted_task_id result.

(** [assert_eq!(supervisor.get(task_id).expect(..).state, state)] *)
Definition assert_state (task_id : TaskId) (expected : TaskState) : Test TestSupervisor unit :=
  let! task := read_some (fun s => get s task_id) in
  assert_eq (snapshot_state task) expected.

(** [assert_eq!(supervisor.events(task_id, 0).expect(..).len(), count)] *)
Definition assert_event_count (task_id : TaskId) (count : Z) : Test TestSupervisor unit :=
  let! events := read (fun s => events s task_id 0) in
  assert_eq (len events) count.

(** The operation most of the tests request. *)
Definition commit_request : CapabilityRequest := ToolRequest "test_runner" "git.commit".

(** Ask for the commit and wait for its approval. *)
Definition request_commit (task_id : TaskId) : Test TestSupervisor ApprovalRequest :=
  let! authorization := call (request_operation task_id commit_request (Duration_from_secs 30)) in
  approval_request authorization.

Definition accepts_valid_task_and_records_validation_lifecycle : Test unit unit :=
  with_local TaskSupervisor_default
    (let! task_id := submit_accepted runtime_valid_task in
     do! assert_state task_id Queued in
     let! events := read (fun s => events s task_id 0) in
     do! assert_eq (len events) 3 in
     let! first := expect_some (head events) in
     do! assert_eq (kind first) EvSubmitted in
     assert_eq (map sequence events) [1; 2; 3]).

Definition releases_validated_budget_only_for_running_execution : Test unit unit :=
  with_local TaskSupervisor_default
    (let spec := runtime_valid_task in
     let expected_budget := budget spec in
     let expected_filesystem_capabilities := filesystem (capabilities spec) in
     let! task_id := submit_accepted spec in
     let! refused := gets (fun s => execution_context s task_id) in
     do! assert_that (is_err TaskNotRunning refused) in
     do! call (start task_id) in
     let! context := read (fun s => execution_context s task_id) in
     do! assert_eq (context_task_id context) task_id in
     do! assert_eq (context_budget context) expected_budget in
     do! assert_eq (filesystem_capabilities context) expected_filesystem_capabilities in
     let! now := Instant_now in
     do! assert_that (negb (Duration_is_zero (remaining_wall_time context now))) in
     let! now := Instant_now in
     assert_that (remaining_wall_time context now <=? Duration_from_secs (wall_time_seconds expected_budget))%Z).

Definition start_execution_releases_validated_network_destinations : Test unit unit :=
  with_local TaskSupervisor_default
    (let expected := [mk_NetworkDestination "127.0.0.1" Tcp 443] in
     let spec := assign_network (AllowNetwork expected) runtime_valid_task in
     let! task_id := submit_accepted spec in
     let! input := call (start_execution task_id) in
     assert_eq (network_destinations input) expected).

Definition budget_exhaustion_records_failure_before_terminal_state : Test unit unit :=
  with_local TaskSupervisor_default
    (let! task_id := submit_accepted runtime_valid_task in
     do! call (start task_id) in
     do! call (fail_budget_exceeded task_id) in
     do! assert_state task_id Failed in
     let! events := read (fun s => events s task_id 0) in
     let! failure := expect_some (events !! (length events - 2)%nat) in
     do! assert_eq (kind failure) (EvTaskFailed BudgetExceededCode) in
     let! terminal := expect_some (last events) in
     assert_eq (kind terminal) (EvStateTransitioned Running Failed)).

Definition budget_failure_audit_is_atomic : Test unit unit :=
  let! store := expect (InMemoryEventStore_new 5) in
  let! supervisor := expect (with_max_tasks store 1) in
  with_local supervisor
    (let! task_id := submit_accepted runtime_valid_task in
     do! call (start task_id) in
     do! assert_fails (EventStoreFailure StoreCapacityExceeded) (fail_budget_exceeded task_id) in
     do! assert_state task_id Running in
     assert_event_count task_id 4).

Definition rejects_invalid_task : Test unit unit :=
  with_local TaskSupervisor_default
    (let spec := assign_goal "" runtime_valid_task in
     let! result := call (submit spec) in
     match result with
     | SubmitRejected task errors =>
         do! assert_eq (snapshot_state task) Rejected in
         assert_eq (len errors) 1
     | _ => panic
     end).

Definition returns_existing_task_for_identical_idempotent_submission : Test unit unit :=
  with_local TaskSupervisor_default
    (let! first := submit_accepted runtime_valid_task in
     let! second := call (submit runtime_valid_task) in
     match second with
     | SubmitExisting task =>
         do! assert_eq (snapshot_task_id task) first in
         assert_event_count first 3
     | _ => panic
     end).

Definition rejects_idempotency_key_reuse_with_different_input : Test unit unit :=
  with_local TaskSupervisor_default
    (do! call (submit runtime_valid_task) in
     let conflicting := assign_goal "Perform a different task" runtime_valid_task in
     assert_fails IdempotencyConflict (submit conflicting)).

Definition records_complete_approval_and_success_lifecycle : Test unit unit :=
  with_local TaskSupervisor_default
    (let! task_id := submit_accepted runtime_valid_task in
     do! call (start task_id) in
     let! request := request_commit task_id in
     do! call (approve_operation (request_approval_id request)) in
     do! call (authorize_operation task_id (request_operation_id request) commit_request) in
     do! call (succeed task_id) in
     do! assert_state task_id Succeeded in
     assert_event_count task_id 10).

Definition denial_fails_task_and_cannot_be_reused : Test unit unit :=
  with_local TaskSupervisor_default
    (let! task_id := submit_accepted runtime_valid_task in
     do! call (start task_id) in
     let! request := request_commit task_id in
     let! task := call (deny_operation (request_approval_id request)) in
     do! assert_eq (snapshot_state task) Failed in
     assert_fails (ApprovalFailure NotFound) (approve_operation (request_approval_id request))).

(** The body shared by the two tests that follow: [approved] is approved, [other] is
    presented, and the grant is gone. *)
Definition mismatch_consumes_grant (spec : TaskSpec) (approved other : CapabilityRequest) : Test TestSupervisor unit :=
  let! task_id := submit_accepted spec in
  do! call (start task_id) in
  let! authorization := call (request_operation task_id approved (Duration_from_secs 30)) in
  let! request := approval_request authorization in
  do! call (approve_operation (request_approval_id request)) in
  do! assert_fails (ApprovalFailure ScopeMismatch)
        (authorize_operation task_id (request_operation_id request) other) in
  assert_fails (ApprovalFailure NotFound) (authorize_operation task_id (request_operation_id request) approved).

Definition exact_resource_mismatch_consumes_linear_grant : Test unit unit :=
  let! spec := assign_first_access Write runtime_valid_task in
  let spec := assign_required_for ["filesystem.write"] spec in
  with_local TaskSupervisor_default
    (mismatch_consumes_grant spec (FileRequest "/workspace/project/a.txt" Write)
       (FileRequest "/workspace/project/b.txt" Write)).

Definition network_port_mismatch_consumes_linear_grant : Test unit unit :=
  let spec := assign_network (AllowNetwork [mk_NetworkDestination "api.example.com" Tcp 443]) runtime_valid_task in
  let spec := assign_required_for ["network.egress"] spec in
  with_local TaskSupervisor_default
    (mismatch_consumes_grant spec (NetworkRequest "api.example.com" Tcp 443)
       (NetworkRequest "api.example.com" Tcp 8443)).

Definition is_approval_revoked (k : TaskEventKind) : bool :=
  match k with EvApprovalRevoked _ _ => true | _ => false end.

Definition cancellation_revokes_pending_approval : Test unit unit :=
  with_local TaskSupervisor_default
    (let! task_id := submit_accepted runtime_valid_task in
     do! call (start task_id) in
     let! request := request_commit task_id in
     let! cancelled := call (cancel task_id) in
     do! assert_that cancelled in
     do! assert_fails (ApprovalFailure NotFound) (approve_operation (request_approval_id request)) in
     let! events := read (fun s => events s task_id 0) in
     assert_that (existsb (fun event => is_approval_revoked (kind event)) events)).

(** [Err(SupervisorError::EventStore(_))] *)
Definition is_event_store_error (e : SupervisorError) : bool :=
  match e with EventStoreFailure _ => true | _ => false end.

Definition approval_request_rolls_back_when_audit_batch_fails : Test unit unit :=
  let! store := expect (InMemoryEventStore_new 5) in
  with_local (TaskSupervisor_new store)
    (let! task_id := submit_accepted runtime_valid_task in
     do! call (start task_id) in
     do! for_each (fun _ => assert_call_err is_event_store_error
                              (request_operation task_id commit_request (Duration_from_secs 30))) [0; 1] in
     assert_state task_id Running).

Definition approval_grant_rolls_back_when_audit_batch_fails : Test unit unit :=
  let! store := expect (InMemoryEventStore_new 7) in
  with_local (TaskSupervisor_new store)
    (let! task_id := submit_accepted runtime_valid_task in
     do! call (start task_id) in
     let! request := request_commit task_id in
     do! for_each (fun _ => assert_call_err is_event_store_error
                              (approve_operation (request_approval_id request))) [0; 1] in
     assert_state task_id WaitingApproval).

Definition invalid_transition_does_not_change_state_or_append_event : Test unit unit :=
  with_local TaskSupervisor_default
    (let! task_id := submit_accepted runtime_valid_task in
     let! error := call_err (succeed task_id) in
     do! assert_that (match error with InvalidStateTransition _ => true | _ => false end) in
     do! assert_state task_id Queued in
     assert_event_count task_id 3).

Definition event_store_failure_does_not_register_task : Test unit unit :=
  let! store := expect (InMemoryEventStore_new 2) in
  with_local (TaskSupervisor_new store)
    (do! assert_call_err is_event_store_error (submit runtime_valid_task) in
     assert_call_err is_event_store_error (submit runtime_valid_task)).

Definition cancellation_is_idempotent_and_records_one_event : Test unit unit :=
  with_local TaskSupervisor_default
    (let! task_id := submit_accepted runtime_valid_task in
     let! first := call (cancel task_id) in
     do! assert_that first in
     let! second := call (cancel task_id) in
     do! assert_that (negb second) in
     assert_event_count task_id 4).

Definition capacity_rejects_new_tasks_but_preserves_idempotent_lookup : Test unit unit :=
  let! supervisor := expect (with_max_tasks InMemoryEventStore_default 1) in
  with_local supervisor
    (let! first_id := submit_accepted runtime_valid_task in
     let! repeated := call (submit runtime_valid_task) in
     do! assert_that (match repeated with
                      | SubmitExisting task => bool_decide (snapshot_task_id task = first_id)
                      | _ => false
                      end) in
     let second := assign_idempotency_key "runtime-test-002" runtime_valid_task in
     assert_fails CapacityExceeded (submit second)).

Definition supervisor_tests : list (Test unit unit) :=
  [accepts_valid_task_and_records_validation_lifecycle; releases_validated_budget_only_for_running_execution;
   start_execution_releases_validated_network_destinations;
   budget_exhaustion_records_failure_before_terminal_state; budget_failure_audit_is_atomic;
   rejects_invalid_task; returns_existing_task_for_identical_idempotent_submission;
   rejects_idempotency_key_reuse_with_different_input; records_complete_approval_and_success_lifecycle;
   denial_fails_task_and_cannot_be_reused; exact_resource_mismatch_consumes_linear_grant;
   network_port_mismatch_consumes_linear_grant; cancellation_revokes_pending_approval;
   approval_request_rolls_back_when_audit_batch_fails; approval_grant_rolls_back_when_audit_batch_fails;
   invalid_transition_does_not_change_state_or_append_event; event_store_failure_does_not_register_task;
   cancellation_is_idempotent_and_records_one_event;
   capacity_rejects_new_tasks_but_preserves_idempotent_lookup].

(** Every unit test of the store, the authority and the supervisor passes on the model. *)
Theorem runtime_tests_pass : forallb passes (event_tests ++ approval_tests ++ supervisor_tests) = true.
Proof. vm_compute. reflexivity. Qed.
