(* ===== verification/GateTests.v ===== *)
(** * The unit tests of the execution gate (aios-runtime: execution.rs)

    A guarded tool operation and an adapter that records the arguments it was given,
    and the tests of the gate that run them. *)

From stdpp Require Import base numbers list gmap strings.
From Stdlib Require Import ZArith Lia Ascii.
From S2P Require Import Prelude RustStd TaskState TaskSpec Policy Event Approval Supervisor Execution ErrorText TestKit RuntimeTests.

#[local] Open Scope string_scope.
#[local] Open Scope list_scope.

(** ** Fixtures *)

Record GuardedToolOperation := mk_GuardedToolOperation { gt_tool : string; gt_action : string; gt_argument : string }.

#[export] Instance GuardedToolOperation_guarded : GuardedOperation GuardedToolOperation :=
  fun op => ToolRequest (gt_tool op) (gt_action op).

Record RecordingAdapter := mk_RecordingAdapter { executed_arguments : list string; adapter_fails : bool }.

Definition RecordingAdapter_default : RecordingAdapter := mk_RecordingAdapter [] false.

(** [&'static str] errors are strings. *)
Definition recording_execute (operation : GuardedToolOperation) : M RecordingAdapter string Z :=
  let! fails := gets adapter_fails in
  if (fails : bool) then throw "sensitive adapter detail"
  else
    do! modify (fun a => mk_RecordingAdapter (executed_arguments a ++ [gt_argument operation]) (adapter_fails a)) in
    gets (fun a => len (executed_arguments a)).

#[export] Instance Recording_ExecutionAdapter : ExecutionAdapter RecordingAdapter GuardedToolOperation Z string :=
  recording_execute.

Definition RecordingGate : Type := ExecutionGate RecordingAdapter GuardedToolOperation.

Definition gate_test_task (required_for : list string) : TaskSpec :=
  mk_TaskSpec "execution-gate-test" "Run one guarded tool operation"
    (mk_CapabilitySet [] DenyNetwork ["test_runner"])
    (mk_Budget 60 (64 * 1024 * 1024) 1)
    (mk_ApprovalPolicy required_for).

(** Submit the task to a supervisor that is starting up, start it, and hand both out. *)
Definition started_with {X} (supervisor : TestSupervisor) (spec : TaskSpec) : Test X (TestSupervisor * TaskId) :=
  with_local supervisor
    (let! task_id := submit_accepted spec in
     do! call (start task_id) in
     let! s := gets id in
     ret (s, task_id)).

Definition gate_running_supervisor (required_for : list string) : Test unit (TestSupervisor * TaskId) :=
  started_with TaskSupervisor_default (gate_test_task required_for).

Definition gate_test_operation (action argument : string) : GuardedToolOperation :=
  mk_GuardedToolOperation "test_runner" action argument.

(** [let ExecutionOutcome::Executed(executed) = .. else { panic!(..) }], and the same
    for [ApprovalRequired]. *)
Definition expect_executed {X T} (o : ExecutionOutcome T) : Test X (Executed T) :=
  match o with OutcomeExecuted e => ret e | _ => panic end.
Definition expect_approval {X T} (o : ExecutionOutcome T) : Test X ApprovalRequest :=
  match o with OutcomeApprovalRequired r => ret r | _ => panic end.
Definition is_denied {T} (o : ExecutionOutcome T) : bool :=
  match o with OutcomeDenied _ => true | _ => false end.

Definition is_operation_not_found {E} (e : ExecutionError E) : bool :=
  match e with OperationNotFound => true | _ => false end.
Definition is_supervisor_error {E} (e : ExecutionError E) : bool :=
  match e with ExecutionSupervisor _ => true | _ => false end.

Section GateAssertions.
Context {A O : Type}.

(** [assert_eq!(gate.pending_count(), count)] *)
Definition assert_pending (count : Z) : Test (ExecutionGate A O * TestSupervisor) unit :=
  let! n := gets (fun x => gate_pending_count x.1) in assert_eq n count.

(** [assert_eq!(supervisor.get(task_id).expect(..).state, expected)] *)
Definition assert_gate_state (task_id : TaskId) (expected : TaskState) : Test (ExecutionGate A O * TestSupervisor) unit :=
  let! task := read_some (fun x => get x.2 task_id) in assert_eq (snapshot_state task) expected.

End GateAssertions.

(** ** Tests *)

Definition executes_allowed_operation_immediately : Test unit unit :=
  let! (supervisor, task_id) := gate_running_supervisor [] in
  with_local (ExecutionGate_new RecordingAdapter_default, supervisor)
    (let! result := call (gate_request task_id (gate_test_operation "test.run" "original") (Duration_from_secs 30)) in
     let! executed := expect_executed result in
     do! assert_eq (output executed) 1 in
     do! assert_that (match executed_approval executed with None => true | Some _ => false end) in
     assert_pending 0).

Definition denied_operation_never_reaches_adapter : Test unit unit :=
  let! (supervisor, task_id) := gate_running_supervisor [] in
  with_local (ExecutionGate_new RecordingAdapter_default, supervisor)
    (let! result := call (gate_request task_id (mk_GuardedToolOperation "untrusted_tool" "test.run" "must-not-run")
                            (Duration_from_secs 30)) in
     do! assert_that (is_denied result) in
     assert_pending 0).

Definition approval_executes_the_retained_complete_operation_once : Test unit unit :=
  let! (supervisor, task_id) := gate_running_supervisor ["tool.execute"] in
  with_local (ExecutionGate_new RecordingAdapter_default, supervisor)
    (let! result := call (gate_request task_id (gate_test_operation "tool.execute" "approved-argument")
                            (Duration_from_secs 30)) in
     let! request := expect_approval result in
     let! executed := call (approve_and_execute (request_approval_id request)) in
     do! assert_eq (output executed) 1 in
     let! receipt := expect_some (executed_approval executed) in
     do! assert_eq (receipt_approval_id receipt) (request_approval_id request) in
     do! assert_pending 0 in
     assert_call_err is_operation_not_found (approve_and_execute (request_approval_id request))).

Definition denial_and_cancellation_drop_retained_operations : Test unit unit :=
  let! (supervisor, task_id) := gate_running_supervisor ["tool.execute"] in
  do! with_local (ExecutionGate_new RecordingAdapter_default, supervisor)
    (let! result := call (gate_request task_id (gate_test_operation "tool.execute" "denied") (Duration_from_secs 30)) in
     let! request := expect_approval result in
     let! task := call (gate_deny (Error := string) (request_approval_id request)) in
     do! assert_eq (snapshot_state task) Failed in
     assert_pending 0) in
  let! (supervisor, task_id) := gate_running_supervisor ["tool.execute"] in
  with_local (ExecutionGate_new RecordingAdapter_default, supervisor)
    (do! call (gate_request task_id (gate_test_operation "tool.execute" "cancelled") (Duration_from_secs 30)) in
     let! cancelled := call (gate_cancel (Error := string) task_id) in
     do! assert_that cancelled in
     assert_pending 0).

Definition audit_failure_does_not_retain_or_execute_operation : Test unit unit :=
  let! store := expect (InMemoryEventStore_new 5) in
  let! (supervisor, task_id) := started_with (TaskSupervisor_new store) (gate_test_task ["tool.execute"]) in
  with_local (ExecutionGate_new RecordingAdapter_default, supervisor)
    (do! assert_call_err is_supervisor_error
           (gate_request task_id (gate_test_operation "tool.execute" "must-not-run") (Duration_from_secs 30)) in
     assert_pending 0).

Definition approval_audit_failure_preserves_pending_operation : Test unit unit :=
  let! store := expect (InMemoryEventStore_new 7) in
  let! (supervisor, task_id) := started_with (TaskSupervisor_new store) (gate_test_task ["tool.execute"]) in
  with_local (ExecutionGate_new RecordingAdapter_default, supervisor)
    (let! result := call (gate_request task_id (gate_test_operation "tool.execute" "retained") (Duration_from_secs 30)) in
     let! request := expect_approval result in
     do! assert_call_err is_supervisor_error (approve_and_execute (request_approval_id request)) in
     do! assert_pending 1 in
     assert_gate_state task_id WaitingApproval).

Definition expiration_drops_retained_operation : Test unit unit :=
  let! (supervisor, task_id) := gate_running_supervisor ["tool.execute"] in
  with_local (ExecutionGate_new RecordingAdapter_default, supervisor)
    (do! call (gate_request task_id (gate_test_operation "tool.execute" "expired") (Duration_from_millis 1)) in
     do! sleep (Duration_from_millis 5) in
     let! expired := call (gate_expire (Error := string)) in
     do! assert_eq expired 1 in
     do! assert_pending 0 in
     assert_gate_state task_id Failed).

Definition adapter_errors_are_redacted_and_cannot_be_replayed : Test unit unit :=
  let! (supervisor, task_id) := gate_running_supervisor ["tool.execute"] in
  with_local (ExecutionGate_new (mk_RecordingAdapter [] true), supervisor)
    (let! result := call (gate_request task_id (gate_test_operation "tool.execute" "secret-value")
                            (Duration_from_secs 30)) in
     let! request := expect_approval result in
     let! error := call_err (approve_and_execute (request_approval_id request)) in
     do! assert_eq (display_ExecutionError error) "adapter execution failed" in
     do! assert_that (negb (str_contains "sensitive" (display_ExecutionError error))) in
     do! assert_eq (debug_ExecutionError error) "adapter execution failed" in
     assert_call_err is_operation_not_found (approve_and_execute (request_approval_id request))).

Definition execution_tests : list (Test unit unit) :=
  [executes_allowed_operation_immediately; denied_operation_never_reaches_adapter;
   approval_executes_the_retained_complete_operation_once; denial_and_cancellation_drop_retained_operations;
   audit_failure_does_not_retain_or_execute_operation; approval_audit_failure_preserves_pending_operation;
   expiration_drops_retained_operation; adapter_errors_are_redacted_and_cannot_be_replayed].

(** Every unit test of the execution gate passes on the model. *)
Theorem execution_tests_pass : forallb passes execution_tests = true.
Proof. vm_compute. reflexivity. Qed.
