(* ===== verification/ToolTests.v ===== *)
(** * The unit tests of the tool adapter (aios-adapter-tool)

    The closures the tests register, with what they capture as their state, and the
    tests of the catalog and the gate. *)

From stdpp Require Import base numbers list gmap strings.
From Stdlib Require Import ZArith Lia Ascii.
From S2P Require Import Prelude RustStd TaskState TaskSpec Policy Event Approval Supervisor Execution Facade ToolAdapter.
From S2P Require Import ErrorText TestKit RuntimeTests GateTests.

#[local] Open Scope string_scope.
#[local] Open Scope list_scope.

(** ** The closures

    [TestPush]: push the arguments to a shared list, answer a text; [TestAnswer]: only
    answer; [TestFlag]: set a shared flag, answer; [TestFail]: fail; [TestSlow]: sleep
    first. *)
Inductive TestHandler :=
| TestPush (seen : list (list string)) (text : string)
| TestAnswer (text : string)
| TestFlag (called : bool) (text : string)
| TestFail (failure : ToolFailure)
| TestSlow (duration : Z) (text : string).

(** [ToolOutput::from_text(text).map_err(|_| ToolFailure::new())] *)
Definition answer_text {X} (text : string) : M X ToolFailure ToolOutput :=
  lift (res_map_err (fun _ => ToolFailure_new) (ToolOutput_from_text text)).

Definition run_closure (arguments : list string) : M TestHandler ToolFailure ToolOutput :=
  let! handler := gets id in
  match handler with
  | TestPush seen text => do! modify (fun _ => TestPush (seen ++ [arguments]) text) in answer_text text
  | TestAnswer text => answer_text text
  | TestFlag _ text => do! modify (fun _ => TestFlag true text) in answer_text text
  | TestFail failure => throw failure
  | TestSlow duration text => do! sleep duration in answer_text text
  end.

#[export] Instance TestHandler_handler : ToolHandler TestHandler := closure_handler run_closure.

Definition TestToolGate : Type := ExecutionGate (ToolAdapter TestHandler) ToolOperation.

(** What the closure of a route has captured: [seen.borrow()] and [called.borrow()]. *)
Definition seen_by (route : string) (g : TestToolGate) : list (list string) :=
  match adapter_handlers (adapter g) !! route with
  | Some (TestPush seen _) => seen
  | _ => []
  end.

Definition called_by (route : string) (g : TestToolGate) : bool :=
  match adapter_handlers (adapter g) !! route with
  | Some (TestFlag called _) => called
  | _ => false
  end.

(** ** Fixtures *)

Definition tool_test_task (required_for tools : list string) : TaskSpec :=
  mk_TaskSpec "tool-adapter-test" "Run one registered Tool handler"
    (mk_CapabilitySet [] DenyNetwork tools)
    (mk_Budget 60 (64 * 1024 * 1024) 1)
    (mk_ApprovalPolicy required_for).

Definition tool_running_supervisor (required_for tools : list string) : Test unit (TestSupervisor * TaskId) :=
  started_with TaskSupervisor_default (tool_test_task required_for tools).

(** [ToolAdapterBuilder::default()] with one route, built. *)
Definition built_with (route tool action : string) (h : TestHandler) : Test unit (ToolCatalog * TestToolGate) :=
  let! builder := expect (register route tool action h ToolAdapterBuilder_default) in
  ret (build builder).

Definition configured_adapter : Test unit (ToolCatalog * TestToolGate) :=
  built_with "run_tests" "test_runner" "test.run" (TestPush [] "passed").

Definition is_adapter_error {E} `{EqDecision E} (e : E) (x : ExecutionError E) : bool :=
  match x with ExecutionAdapterFailed e' => bool_decide (e' = e) | _ => false end.

(** ** Tests *)

Definition executes_registered_route_without_interpreting_arguments : Test unit unit :=
  let! (catalog, gate) := configured_adapter in
  let! (supervisor, task_id) := tool_running_supervisor [] ["test_runner"] in
  let arguments := ["--filter=a b"; "literal;$value"] in
  let! operation := expect (prepare catalog "run_tests" arguments) in
  with_local (gate, supervisor)
    (let! result := call (ToolExecutionGate_request task_id operation (Duration_from_secs 30)) in
     let! executed := expect_executed result in
     do! assert_eq (output_bytes (output executed)) (bytes_of "passed") in
     let! seen := gets (fun x => seen_by "run_tests" x.1) in
     assert_eq seen [arguments]).

Definition approval_executes_only_the_catalog_prepared_operation : Test unit unit :=
  let! (catalog, gate) := configured_adapter in
  let! (supervisor, task_id) := tool_running_supervisor ["test.run"] ["test_runner"] in
  let! operation := expect (prepare catalog "run_tests" ["original"]) in
  with_local (gate, supervisor)
    (let! result := call (ToolExecutionGate_request task_id operation (Duration_from_secs 30)) in
     let! request := expect_approval result in
     let! executed := call (ToolExecutionGate_approve_and_execute (request_approval_id request)) in
     do! assert_eq (output_bytes (output executed)) (bytes_of "passed") in
     let! seen := gets (fun x => seen_by "run_tests" x.1) in
     do! assert_eq seen [["original"]] in
     assert_pending 0).

Definition capability_denial_never_calls_handler : Test unit unit :=
  let! (catalog, gate) := configured_adapter in
  let! (supervisor, task_id) := tool_running_supervisor [] ["different_tool"] in
  let! operation := expect (prepare catalog "run_tests" []) in
  with_local (gate, supervisor)
    (let! result := call (ToolExecutionGate_request task_id operation (Duration_from_secs 30)) in
     do! assert_that (is_denied result) in
     let! seen := gets (fun x => seen_by "run_tests" x.1) in
     assert_eq seen []).

Definition rejects_unknown_duplicate_and_excess_routes_without_echoing_values : Test unit unit :=
  let! builder := expect (ToolAdapterBuilder_new (HT := TestHandler) 1) in
  let! error := expect_err (prepare (build builder).1 "secret-route" []) in
  do! assert_eq error ToolErrRouteNotFound in
  do! assert_that (negb (str_contains "secret-route" (display_ToolAdapterError error))) in
  let! builder := expect (ToolAdapterBuilder_new 1) in
  let! builder := expect (register "route" "tool" "action" (TestAnswer "") builder) in
  do! assert_that (is_err ToolErrDuplicateRoute (register "route" "tool" "action" (TestAnswer "") builder)) in
  assert_that (is_err ToolErrCapacityExceeded (register "second" "tool" "action" (TestAnswer "") builder)).

Definition rejects_unbounded_or_nul_arguments : Test unit unit :=
  let! (catalog, _) := configured_adapter in
  do! assert_that (is_err ToolErrInvalidArguments
        (prepare catalog "run_tests" (repeat "" (Z.to_nat (MAX_ARGUMENTS + 1))))) in
  do! assert_that (is_err ToolErrInvalidArguments
        (prepare catalog "run_tests" [repeat_char "x" (MAX_ARGUMENT_BYTES + 1)])) in
  assert_that (is_err ToolErrInvalidArguments
        (prepare catalog "run_tests" [("before" ++ String NUL "after")%string])).

Definition rejects_oversized_output_and_redacts_handler_failure : Test unit unit :=
  do! assert_that (is_err ToolErrOutputTooLarge
        (ToolOutput_from_bytes (repeat 0 (Z.to_nat (MAX_OUTPUT_BYTES + 1))))) in
  let! (catalog, gate) := built_with "fail" "test_runner" "test.run" (TestFail ToolFailure_new) in
  let! (supervisor, task_id) := tool_running_supervisor [] ["test_runner"] in
  let! operation := expect (prepare catalog "fail" []) in
  with_local (gate, supervisor)
    (let! error := call_err (ToolExecutionGate_request task_id operation (Duration_from_secs 30)) in
     do! assert_eq (display_ExecutionError error) "adapter execution failed" in
     assert_eq (debug_ExecutionError error) "adapter execution failed").

Definition preserves_only_the_budget_exceeded_handler_category : Test unit unit :=
  let! (catalog, gate) := built_with "budget" "test_runner" "test.run" (TestFail ToolFailure_budget_exceeded) in
  let! (supervisor, task_id) := tool_running_supervisor [] ["test_runner"] in
  let! operation := expect (prepare catalog "budget" []) in
  with_local (gate, supervisor)
    (do! assert_call_err (is_adapter_error ToolErrBudgetExceeded)
           (ToolExecutionGate_request task_id operation (Duration_from_secs 30)) in
     assert_gate_state task_id Running).

Definition approval_wait_cannot_reset_the_task_wall_time : Test unit unit :=
  let! (catalog, gate) := built_with "delayed" "test_runner" "test.run" (TestFlag false "unexpected") in
  let spec := assign_wall_time_seconds 1 (tool_test_task ["test.run"] ["test_runner"]) in
  let! (supervisor, task_id) := started_with TaskSupervisor_default spec in
  let! operation := expect (prepare catalog "delayed" []) in
  with_local (gate, supervisor)
    (let! result := call (ToolExecutionGate_request task_id operation (Duration_from_secs 30)) in
     let! request := expect_approval result in
     do! sleep (Duration_from_millis 1100) in
     do! assert_call_err (is_adapter_error ToolErrBudgetExceeded)
           (ToolExecutionGate_approve_and_execute (request_approval_id request)) in
     let! called := gets (fun x => called_by "delayed" x.1) in
     assert_that (negb called)).

Definition rejects_invalid_builder_configuration_and_registration : Test unit unit :=
  do! assert_that (is_err ToolErrInvalidConfig (ToolAdapterBuilder_new (HT := TestHandler) 0)) in
  assert_that (is_err ToolErrInvalidRegistration
                 (register "bad route" "tool" "action" (TestAnswer "") ToolAdapterBuilder_default)).

Definition adapter_rejects_operation_from_a_different_catalog_scope : Test unit unit :=
  let! (catalog, _) := built_with "route" "test_runner" "test.run" (TestAnswer "first") in
  let! (_, gate) := built_with "route" "test_runner" "test.write" (TestFlag false "second") in
  let! (supervisor, task_id) := tool_running_supervisor [] ["test_runner"] in
  let! operation := expect (prepare catalog "route" []) in
  with_local (gate, supervisor)
    (do! assert_call_err (is_adapter_error ToolErrScopeMismatch)
           (ToolExecutionGate_request task_id operation (Duration_from_secs 30)) in
     let! called := gets (fun x => called_by "route" x.1) in
     assert_that (negb called)).

Definition tool_tests : list (Test unit unit) :=
  [executes_registered_route_without_interpreting_arguments; approval_executes_only_the_catalog_prepared_operation;
   capability_denial_never_calls_handler; rejects_unknown_duplicate_and_excess_routes_without_echoing_values;
   rejects_unbounded_or_nul_arguments; rejects_oversized_output_and_redacts_handler_failure;
   preserves_only_the_budget_exceeded_handler_category; approval_wait_cannot_reset_the_task_wall_time;
   rejects_invalid_builder_configuration_and_registration;
   adapter_rejects_operation_from_a_different_catalog_scope].

(** Every unit test of the tool adapter passes on the model. *)
Theorem tool_tests_pass : forallb passes tool_tests = true.
Proof. vm_compute. reflexivity. Qed.
