(* ===== verification/NetworkTests.v ===== *)
(** * The unit tests of the network adapter (aios-adapter-network)

    The listener of a test is the peer of the connection: the connections it could
    accept are the addresses contacted, what its thread reads is what was put on the
    wire, and what it answers is the reply.  Left out are the test whose server sleeps (a
    socket call of the model takes no time) and the one whose server answers a megabyte. *)

From stdpp Require Import base numbers list gmap strings pretty.
From Stdlib Require Import ZArith Lia Ascii.
From S2P Require Import Prelude RustStd RustNet TaskState TaskSpec Policy Event Approval Supervisor Execution Facade.
From S2P Require Import NetworkAdapter TestKit RuntimeTests GateTests ToolTests.

#[local] Open Scope string_scope.
#[local] Open Scope list_scope.

(** ** Fixtures *)

Definition TestNetworkGate : Type := ExecutionGate (NetworkAdapter DemoNet) TcpExchangeOperation.

(** The ephemeral port of [TcpListener::bind(("127.0.0.1", 0))]. *)
Definition listener_port : Z := 49152.

(** A listener that answers [response] to the connection it accepts. *)
Definition bind_listener (response : list Z) : DemoNet := mk_DemoNet [] [] response.

(** [listener.accept()] would block. *)
Definition nothing_to_accept (g : TestNetworkGate) : bool :=
  match demo_contacted (net (adapter g)) with [] => true | _ => false end.

Definition network_test_task (key host : string) (port : Z) (required_for : list string) : TaskSpec :=
  mk_TaskSpec key "Perform one bounded TCP exchange"
    (mk_CapabilitySet [] (AllowNetwork [mk_NetworkDestination host Tcp port]) [])
    (mk_Budget 60 (64 * 1024 * 1024) 1)
    (mk_ApprovalPolicy required_for).

(** The idempotency key ends in a fresh task identifier. *)
Definition network_running_supervisor_with_wall_time (host : string) (port : Z) (required_for : list string)
    (wall_time : Z) : Test unit (TestSupervisor * TaskId) :=
  let! id := TaskId_new in
  let spec := network_test_task ("network-adapter-" ++ pretty (task_uuid id))%string host port required_for in
  started_with TaskSupervisor_default (assign_wall_time_seconds wall_time spec).

Definition network_running_supervisor (host : string) (port : Z) (required_for : list string)
    : Test unit (TestSupervisor * TaskId) :=
  network_running_supervisor_with_wall_time host port required_for 60.

Definition alternate_port (port : Z) : Z := if (port =? u16_max)%Z then port - 1 else port + 1.

(** ** Tests *)

Definition catalog_accepts_ip_destinations_and_bounded_requests : Test unit unit :=
  for_each (fun host => assert_that (is_ok (prepare_tcp_exchange host 443 (bytes_of "request"))))
    ["127.0.0.1"; "::1"].

Definition catalog_rejects_hostnames_unsafe_addresses_and_invalid_bounds : Test unit unit :=
  do! for_each (fun host => assert_that (is_err NetUnsupportedDestination (prepare_tcp_exchange host 443 [])))
        ["api.example.com"; "0.0.0.0"; "::"; "224.0.0.1"; "ff02::1"; "255.255.255.255"] in
  do! assert_that (is_err NetInvalidOperation (prepare_tcp_exchange "" 443 [])) in
  do! assert_that (is_err NetInvalidOperation
        (prepare_tcp_exchange (repeat_char "1" (MAX_NETWORK_HOST_BYTES + 1)) 443 [])) in
  do! assert_that (is_err NetInvalidOperation (prepare_tcp_exchange "127.0.0.1" 0 [])) in
  assert_that (is_err NetInvalidOperation
        (prepare_tcp_exchange "127.0.0.1" 443 (repeat 0 (Z.to_nat (MAX_TCP_REQUEST_BYTES + 1))))).

Definition gate_rejects_zero_and_excessive_timeouts : Test unit unit :=
  do! assert_that (is_err NetInvalidConfig (NetworkExecutionGate_new 0 (bind_listener []))) in
  assert_that (is_err NetInvalidConfig (NetworkExecutionGate_new (MAX_NETWORK_TIMEOUT + 1) (bind_listener []))).

Definition executes_exact_ip_and_port_without_exposing_socket : Test unit unit :=
  let port := listener_port in
  let! gate := expect (NetworkExecutionGate_new (Duration_from_secs 2) (bind_listener (bytes_of "bounded response"))) in
  let! (supervisor, task_id) := network_running_supervisor "127.0.0.1" port [] in
  let! operation := expect (prepare_tcp_exchange "127.0.0.1" port (bytes_of "exact request")) in
  with_local (gate, supervisor)
    (let! result := call (NetworkExecutionGate_request task_id operation (Duration_from_secs 30)) in
     let! executed := expect_executed result in
     do! assert_eq (response_bytes (output executed)) (bytes_of "bounded response") in
     let! wire := gets (fun x => demo_wire (net (adapter x.1))) in
     assert_eq wire (bytes_of "exact request")).

Definition approval_retains_exchange_without_connecting_early : Test unit unit :=
  let port := listener_port in
  let! gate := expect (NetworkExecutionGate_new (Duration_from_secs 2) (bind_listener (bytes_of "approved response"))) in
  let! (supervisor, task_id) := network_running_supervisor "127.0.0.1" port ["network.egress"] in
  let! operation := expect (prepare_tcp_exchange "127.0.0.1" port (bytes_of "approved request")) in
  with_local (gate, supervisor)
    (let! result := call (NetworkExecutionGate_request task_id operation (Duration_from_secs 30)) in
     let! request := expect_approval result in
     let! idle := gets (fun x => nothing_to_accept x.1) in
     do! assert_that idle in
     let! executed := call (NetworkExecutionGate_approve_and_execute (request_approval_id request)) in
     do! assert_eq (response_bytes (output executed)) (bytes_of "approved response") in
     let! wire := gets (fun x => demo_wire (net (adapter x.1))) in
     do! assert_eq wire (bytes_of "approved request") in
     assert_pending 0).

Definition network_approval_wait_cannot_reset_task_wall_time : Test unit unit :=
  let port := listener_port in
  let! gate := expect (NetworkExecutionGate_new (Duration_from_secs 5) (bind_listener [])) in
  let! (supervisor, task_id) := network_running_supervisor_with_wall_time "127.0.0.1" port ["network.egress"] 1 in
  let! operation := expect (prepare_tcp_exchange "127.0.0.1" port (bytes_of "must not be sent")) in
  with_local (gate, supervisor)
    (let! result := call (NetworkExecutionGate_request task_id operation (Duration_from_secs 30)) in
     let! request := expect_approval result in
     do! sleep (Duration_from_millis 1100) in
     do! assert_call_err (is_adapter_error NetBudgetExceeded)
           (NetworkExecutionGate_approve_and_execute (request_approval_id request)) in
     let! idle := gets (fun x => nothing_to_accept x.1) in
     do! assert_that idle in
     assert_pending 0).

Definition denied_port_never_connects : Test unit unit :=
  let port := listener_port in
  let! gate := expect (NetworkExecutionGate_new (Duration_from_secs 2) (bind_listener [])) in
  let! (supervisor, task_id) := network_running_supervisor "127.0.0.1" (alternate_port port) [] in
  let! operation := expect (prepare_tcp_exchange "127.0.0.1" port []) in
  with_local (gate, supervisor)
    (let! result := call (NetworkExecutionGate_request task_id operation (Duration_from_secs 30)) in
     do! assert_that (is_denied result) in
     let! idle := gets (fun x => nothing_to_accept x.1) in
     assert_that idle).

Definition network_tests : list (Test unit unit) :=
  [catalog_accepts_ip_destinations_and_bounded_requests;
   catalog_rejects_hostnames_unsafe_addresses_and_invalid_bounds; gate_rejects_zero_and_excessive_timeouts;
   executes_exact_ip_and_port_without_exposing_socket; approval_retains_exchange_without_connecting_early;
   network_approval_wait_cannot_reset_task_wall_time; denied_port_never_connects].

(** Every unit test of the network adapter but the two left out passes on the model. *)
Theorem network_tests_pass : forallb passes network_tests = true.
Proof. vm_compute. reflexivity. Qed.
