(* ===== verification/FilesystemTests.v ===== *)
(** * The unit tests of the filesystem adapter (aios-adapter-filesystem)

    The tests run on a small file system of inodes: directories, files with their
    bytes and mode, and symbolic links, which a walk does not follow.  A descriptor is
    an inode, so it stays valid when the directory is renamed. *)

From stdpp Require Import base numbers list gmap strings.
From Stdlib Require Import ZArith Lia Ascii.
From S2P Require Import Prelude RustStd TaskState TaskSpec Policy Event Approval Supervisor Execution Facade.
From S2P Require Import FilesystemAdapter TestKit RuntimeTests GateTests ToolTests.

#[local] Open Scope string_scope.
#[local] Open Scope list_scope.

(** ** The file system *)

Inductive Inode :=
| InoDirectory (entries : gmap string nat)
| InoFile (bytes : list Z) (mode : Z)
| InoLink (target : string).

Record TestDisk := mk_TestDisk { inodes : gmap nat Inode; next_inode : nat }.

(** Inode 0 is the root. *)
Definition empty_disk : TestDisk := mk_TestDisk {[ 0%nat := InoDirectory ∅ ]} 1.

Definition entries_of (k : TestDisk) (i : nat) : option (gmap string nat) :=
  match inodes k !! i with Some (InoDirectory entries) => Some entries | _ => None end.

(** A path from a directory, no link followed. *)
Fixpoint walk (k : TestDisk) (i : nat) (names : list string) : option nat :=
  match names with
  | [] => Some i
  | name :: names' =>
      entries ← entries_of k i;
      j ← entries !! name;
      walk k j names'
  end.

(** The parts of an absolute or relative path. *)
Definition parts (p : string) : list string := filter (fun c => c <> "") (split SLASH p).

Definition set_inode (i : nat) (n : Inode) (k : TestDisk) : TestDisk :=
  mk_TestDisk (<[i := n]> (inodes k)) (next_inode k).

(** A new inode under a name of a directory that does not have it. *)
Definition add_inode (dir : nat) (name : string) (n : Inode) (k : TestDisk) : option (nat * TestDisk) :=
  entries ← entries_of k dir;
  match entries !! name with
  | Some _ => None
  | None =>
      let i := next_inode k in
      Some (i, mk_TestDisk (<[i := n]> (<[dir := InoDirectory (<[name := i]> entries)]> (inodes k))) (S i))
  end.

(** The parent of a path, given by its parts from a directory, and the last name. *)
Definition parent_of (k : TestDisk) (i : nat) (names : list string) : option (nat * string) :=
  name ← last names;
  dir ← walk k i (removelast names);
  Some (dir, name).

#[export] Instance test_kernel : Kernel TestDisk nat := {|
  k_canonicalize k p := _ ← walk k 0 (parts p); Some p;
  k_open_slash _ := Some 0%nat;
  k_openat2 dir relative flags mode _ k :=
    if bool_decide (O_CREATE ∈ flags) then
      match parent_of k dir (parts relative) with
      | None => (None, k)
      | Some (parent, name) =>
          match add_inode parent name (InoFile [] mode) k with
          | Some (i, k') => (Some i, k')
          | None => (None, k)
          end
      end
    else (walk k dir (parts relative), k);
  k_write_all fd bytes k :=
    match inodes k !! fd with
    | Some (InoFile old mode) => (Some tt, set_inode fd (InoFile (old ++ bytes) mode) k)
    | _ => (None, k)
    end;
  k_sync_data _ k := (Some tt, k);
|}.

(** *** What the tests do to the file system *)

(** [fs::create_dir_all] *)
Fixpoint create_dirs (i : nat) (names : list string) (k : TestDisk) : option TestDisk :=
  match names with
  | [] => Some k
  | name :: names' =>
      match walk k i [name] with
      | Some j => create_dirs j names' k
      | None =>
          created ← add_inode i name (InoDirectory ∅) k;
          create_dirs created.1 names' created.2
      end
  end.

Definition create_dir_all {X} (p : string) (k : TestDisk) : Test X TestDisk :=
  expect_some (create_dirs 0 (parts p) k).

Definition symlink {X} (target link : string) (k : TestDisk) : Test X TestDisk :=
  expect_some (found ← parent_of k 0 (parts link);
               created ← add_inode found.1 found.2 (InoLink target) k;
               Some created.2).

(** [fs::rename] *)
Definition rename {X} (from to : string) (k : TestDisk) : Test X TestDisk :=
  expect_some (i ← walk k 0 (parts from);
               source ← parent_of k 0 (parts from);
               source_entries ← entries_of k source.1;
               let k := set_inode source.1 (InoDirectory (delete source.2 source_entries)) k in
               target ← parent_of k 0 (parts to);
               target_entries ← entries_of k target.1;
               Some (set_inode target.1 (InoDirectory (<[target.2 := i]> target_entries)) k)).

Definition disk_file_at (p : string) (k : TestDisk) : option (list Z * Z) :=
  i ← walk k 0 (parts p);
  match inodes k !! i with Some (InoFile bytes mode) => Some (bytes, mode) | _ => None end.

Definition path_exists (p : string) (k : TestDisk) : bool := bool_decide (is_Some (walk k 0 (parts p))).

(** ** Fixtures *)

Definition TestFilesystemGate : Type := ExecutionGate (FilesystemAdapter TestDisk nat) FilesystemWriteOperation.

(** [TestDirectory::new(label)] *)
Definition test_directory : string := "/tmp/aios-filesystem".
Definition in_directory (p : string) : string := (test_directory ++ "/" ++ p)%string.

Definition new_directory : Test unit TestDisk := create_dir_all test_directory empty_disk.

(** [create_sandbox_path(root)] *)
Definition create_sandbox_path {X} (root : string) (k : TestDisk) : Test X TestDisk :=
  create_dir_all (root ++ "/workspace/output")%string k.

(** The disk of a gate. *)
Definition gate_disk (g : TestFilesystemGate) : TestDisk := host (adapter g).

(** An operation of the test on the disk the gate works on. *)
Definition on_disk (f : TestDisk -> Test (TestFilesystemGate * TestSupervisor) TestDisk)
    : Test (TestFilesystemGate * TestSupervisor) unit :=
  let! k := gets (fun x => gate_disk x.1) in
  let! k' := f k in
  modify (fun x => (set_adapter (set_host k' (adapter x.1)) x.1, x.2)).

Definition filesystem_test_task (key : string) (capabilities : list FileCapability) (required_for : list string)
    : TaskSpec :=
  mk_TaskSpec key "Create one bounded output file"
    (mk_CapabilitySet capabilities DenyNetwork []) (mk_Budget 60 (64 * 1024 * 1024) 1)
    (mk_ApprovalPolicy required_for).

Definition write_capability (p : string) : FileCapability := mk_FileCapability p Write.

Definition filesystem_running_supervisor_with_wall_time (capabilities : list FileCapability)
    (required_for : list string) (wall_time : Z) : Test unit (TestSupervisor * TaskId) :=
  started_with TaskSupervisor_default
    (assign_wall_time_seconds wall_time (filesystem_test_task "filesystem-adapter-test" capabilities required_for)).

Definition filesystem_running_supervisor (capabilities : list FileCapability) (required_for : list string)
    : Test unit (TestSupervisor * TaskId) :=
  filesystem_running_supervisor_with_wall_time capabilities required_for 60.

Definition disk_read (p : string) : Test (TestFilesystemGate * TestSupervisor) (list Z * Z) :=
  read_some (fun x => disk_file_at p (gate_disk x.1)).

Definition assert_absent (p : string) : Test (TestFilesystemGate * TestSupervisor) unit :=
  let! found := gets (fun x => path_exists p (gate_disk x.1)) in assert_that (negb found).

(** ** Tests *)

Definition catalog_accepts_bounded_normalized_create : Test unit unit :=
  assert_that (is_ok (prepare_create "/workspace/output/result.txt" (bytes_of "result"))).

Definition catalog_rejects_invalid_paths_and_oversized_contents : Test unit unit :=
  do! for_each (fun path => assert_that (is_err FsInvalidOperation (prepare_create path [])))
        [""; "/"; "workspace/output"; "/workspace/../secret"; "/workspace//output";
         ("/workspace/" ++ String NUL "output")%string] in
  do! assert_that (is_err FsInvalidOperation
        (prepare_create ("/" ++ repeat_char "a" MAX_FILESYSTEM_PATH_BYTES)%string [])) in
  assert_that (is_err FsInvalidOperation
        (prepare_create "/workspace/output/result.txt" (repeat 0 (Z.to_nat (MAX_CREATE_BYTES + 1))))).

Definition creates_new_file_with_private_mode_and_never_overwrites : Test unit unit :=
  let! disk := new_directory in
  let! disk := create_sandbox_path test_directory disk in
  let! gate := expect (FilesystemExecutionGate_new test_directory disk) in
  let! (supervisor, task_id) := filesystem_running_supervisor [write_capability "/workspace/output"] [] in
  let destination := in_directory "workspace/output/result.txt" in
  let! first := expect (prepare_create "/workspace/output/result.txt" (bytes_of "first result")) in
  let! second := expect (prepare_create "/workspace/output/result.txt" (bytes_of "replacement")) in
  with_local (gate, supervisor)
    (let! result := call (FilesystemExecutionGate_request task_id first (Duration_from_secs 30)) in
     let! executed := expect_executed result in
     do! assert_eq (bytes_written (output executed)) 12 in
     let! (bytes, mode) := disk_read destination in
     do! assert_eq bytes (bytes_of "first result") in
     do! assert_eq (Z.land mode 511) 384 in
     do! assert_call_err (is_adapter_error FsCreateFailed)
           (FilesystemExecutionGate_request task_id second (Duration_from_secs 30)) in
     let! (bytes, _) := disk_read destination in
     assert_eq bytes (bytes_of "first result")).

Definition approval_retains_exact_operation_without_writing_early : Test unit unit :=
  let! disk := new_directory in
  let! disk := create_sandbox_path test_directory disk in
  let! gate := expect (FilesystemExecutionGate_new test_directory disk) in
  let! (supervisor, task_id) := filesystem_running_supervisor [write_capability "/workspace/output"]
                                  ["filesystem.write"] in
  let destination := in_directory "workspace/output/approved.txt" in
  let! operation := expect (prepare_create "/workspace/output/approved.txt" (bytes_of "approved bytes")) in
  with_local (gate, supervisor)
    (let! result := call (FilesystemExecutionGate_request task_id operation (Duration_from_secs 30)) in
     let! request := expect_approval result in
     do! assert_absent destination in
     let! executed := call (FilesystemExecutionGate_approve_and_execute (request_approval_id request)) in
     do! assert_eq (bytes_written (output executed)) 14 in
     let! (bytes, _) := disk_read destination in
     do! assert_eq bytes (bytes_of "approved bytes") in
     assert_pending 0).

Definition filesystem_approval_wait_cannot_reset_task_wall_time : Test unit unit :=
  let! disk := new_directory in
  let! disk := create_sandbox_path test_directory disk in
  let! gate := expect (FilesystemExecutionGate_new test_directory disk) in
  let! (supervisor, task_id) := filesystem_running_supervisor_with_wall_time [write_capability "/workspace/output"]
                                  ["filesystem.write"] 1 in
  let destination := in_directory "workspace/output/expired.txt" in
  let! operation := expect (prepare_create "/workspace/output/expired.txt" (bytes_of "must not be written")) in
  with_local (gate, supervisor)
    (let! result := call (FilesystemExecutionGate_request task_id operation (Duration_from_secs 30)) in
     let! request := expect_approval result in
     do! sleep (Duration_from_millis 1100) in
     do! assert_call_err (is_adapter_error FsBudgetExceeded)
           (FilesystemExecutionGate_approve_and_execute (request_approval_id request)) in
     do! assert_absent destination in
     assert_pending 0).

(** The second part of the test keeps the gate and takes a new supervisor. *)
Definition denies_prefix_sibling_and_read_only_capabilities : Test unit unit :=
  let! disk := new_directory in
  let! disk := create_sandbox_path test_directory disk in
  let! disk := create_dir_all (in_directory "workspace/output-private") disk in
  let! gate := expect (FilesystemExecutionGate_new test_directory disk) in
  let! (supervisor, task_id) := filesystem_running_supervisor [write_capability "/workspace/output"] [] in
  let! sibling := expect (prepare_create "/workspace/output-private/result.txt" (bytes_of "denied")) in
  let! read_only := expect (prepare_create "/workspace/output/read-only.txt" (bytes_of "denied")) in
  let! (second, second_task) := filesystem_running_supervisor [mk_FileCapability "/workspace/output" Read] [] in
  with_local (gate, supervisor)
    (let! result := call (FilesystemExecutionGate_request task_id sibling (Duration_from_secs 30)) in
     do! assert_that (is_denied result) in
     do! assert_absent (in_directory "workspace/output-private/result.txt") in
     do! modify (fun x => (x.1, second)) in
     let! result := call (FilesystemExecutionGate_request second_task read_only (Duration_from_secs 30)) in
     do! assert_that (is_denied result) in
     assert_absent (in_directory "workspace/output/read-only.txt")).

Definition opened_root_survives_path_replacement : Test unit unit :=
  let! disk := new_directory in
  let configured_root := in_directory "configured" in
  let retained_root := in_directory "retained" in
  let! disk := create_sandbox_path configured_root disk in
  let! gate := expect (FilesystemExecutionGate_new configured_root disk) in
  let! (supervisor, task_id) := filesystem_running_supervisor [write_capability "/workspace/output"] [] in
  let! operation := expect (prepare_create "/workspace/output/result.txt" (bytes_of "descriptor-bound")) in
  with_local (gate, supervisor)
    (do! on_disk (rename configured_root retained_root) in
     do! on_disk (create_sandbox_path configured_root) in
     let! result := call (FilesystemExecutionGate_request task_id operation (Duration_from_secs 30)) in
     do! expect_executed result in
     let! (bytes, _) := disk_read (retained_root ++ "/workspace/output/result.txt")%string in
     do! assert_eq bytes (bytes_of "descriptor-bound") in
     assert_absent (configured_root ++ "/workspace/output/result.txt")%string).

Definition rejects_symlink_escape_without_creating_outside_root : Test unit unit :=
  let! disk := new_directory in
  let root := in_directory "root" in
  let outside := in_directory "outside" in
  let! disk := create_dir_all (root ++ "/workspace")%string disk in
  let! disk := create_dir_all outside disk in
  let! disk := symlink outside (root ++ "/workspace/output")%string disk in
  let! gate := expect (FilesystemExecutionGate_new root disk) in
  let! (supervisor, task_id) := filesystem_running_supervisor [write_capability "/workspace/output"] [] in
  let! operation := expect (prepare_create "/workspace/output/result.txt" (bytes_of "must not escape")) in
  with_local (gate, supervisor)
    (do! assert_call_err (is_adapter_error FsCreateFailed)
           (FilesystemExecutionGate_request task_id operation (Duration_from_secs 30)) in
     assert_absent (outside ++ "/result.txt")%string).

Definition filesystem_tests : list (Test unit unit) :=
  [catalog_accepts_bounded_normalized_create; catalog_rejects_invalid_paths_and_oversized_contents;
   creates_new_file_with_private_mode_and_never_overwrites;
   approval_retains_exact_operation_without_writing_early;
   filesystem_approval_wait_cannot_reset_task_wall_time; denies_prefix_sibling_and_read_only_capabilities;
   opened_root_survives_path_replacement; rejects_symlink_escape_without_creating_outside_root].

(** Every unit test of the filesystem adapter passes on the model. *)
Theorem filesystem_tests_pass : forallb passes filesystem_tests = true.
Proof. vm_compute. reflexivity. Qed.
