(* ===== verification/AgentTests.v ===== *)
(** * The unit tests of the agent runtime (aios-agent)

    The models of the tests (what they record is their own state) and the tests of the
    sessions.  Left out is the test whose server sleeps: a socket call of the model
    takes no time. *)

From stdpp Require Import base numbers list gmap strings.
From Stdlib Require Import ZArith Lia Ascii.
From S2P Require Import Prelude RustStd RustNet TaskState TaskSpec Policy Event Approval Supervisor Execution Facade.
From S2P Require Import ToolAdapter NetworkAdapter Agent ErrorText TestKit RuntimeTests GateTests ToolTests NetworkTests.

#[local] Open Scope string_scope.
#[local] Open Scope list_scope.

#[export] Instance AgentError_eq_dec : EqDecision AgentError.
Proof. solve_decision. Defined.
#[export] Instance ModelDecisionError_eq_dec : EqDecision ModelDecisionError.
Proof. solve_decision. Defined.

(** ** Fixtures *)

Definition agent_test_task (key : string) (required_for tools : list string) : TaskSpec :=
  mk_TaskSpec key "Run a bounded model-directed Task"
    (mk_CapabilitySet [] DenyNetwork tools)
    (mk_Budget 60 (64 * 1024 * 1024) 1)
    (mk_ApprovalPolicy required_for).

Definition agent_network_task (key host : string) (port : Z) (required_for : list string) : TaskSpec :=
  assign_network (AllowNetwork [mk_NetworkDestination host Tcp port]) (agent_test_task key required_for []).

(** The runtime under test and its supervisor. *)
Definition TestAgent (Mo Ses : Type) : Type := AgentRuntime Mo Ses TestHandler DemoNet * TestSupervisor.

Section AgentAssertions.
Context {Mo Ses : Type}.

Definition agent_submit_spec (spec : TaskSpec) : Test (TestAgent Mo Ses) TaskId :=
  zoom snd (fun s x => (x.1, s)) (submit_accepted spec).

Definition agent_submit (key : string) (required_for tools : list string) : Test (TestAgent Mo Ses) TaskId :=
  agent_submit_spec (agent_test_task key required_for tools).

(** [assert_eq!(supervisor.get(task_id).expect(..).state, expected)] *)
Definition assert_agent_state (task_id : TaskId) (expected : TaskState) : Test (TestAgent Mo Ses) unit :=
  zoom snd (fun s x => (x.1, s)) (assert_state task_id expected).

(** [assert_eq!(runtime.active_task(), expected)] *)
Definition assert_active (expected : option TaskId) : Test (TestAgent Mo Ses) unit :=
  let! t := gets (fun x => active_task x.1) in assert_eq t expected.

(** [seen.borrow()] *)
Definition agent_seen : Test (TestAgent Mo Ses) (list (list string)) :=
  gets (fun x => seen_by "run_tests" (tool_gate x.1)).

(** The test's log holds [TaskFailed { code: BudgetExceeded }]. *)
Definition assert_budget_event (task_id : TaskId) : Test (TestAgent Mo Ses) unit :=
  let! events := read (fun x => events x.2 task_id 0) in
  assert_that (existsb (fun event => bool_decide (kind event = EvTaskFailed BudgetExceededCode)) events).

End AgentAssertions.

(** [tools(seen)] *)
Definition agent_tools : Test unit (ToolCatalog * TestToolGate) :=
  built_with "run_tests" "test_runner" "test.run" (TestPush [] "tool-ok").

(** [ScriptedModelAdapter::new(vec![..]).expect(..)] of decisions that are valid. *)
Fixpoint all_expected (l : list (Result ModelDecision ModelDecisionError)) : Test unit (list ModelDecision) :=
  match l with
  | [] => ret []
  | r :: l' => let! d := expect r in let! ds := all_expected l' in ret (d :: ds)
  end.

Definition scripted (l : list (Result ModelDecision ModelDecisionError)) : Test unit ScriptedModelAdapter :=
  let! ds := all_expected l in expect (ScriptedModelAdapter_new ds).

(** A new runtime and a new supervisor, and the statements that use them. *)
Definition with_agent {Mo Ses A} (model : Mo) (tools : ToolCatalog * TestToolGate) (c : AgentConfig)
    (body : Test (TestAgent Mo Ses) A) : Test unit A :=
  with_local (AgentRuntime_new model tools.1 tools.2 c, TaskSupervisor_default) body.

Definition with_network_agent {Mo Ses A} (model : Mo) (tools : ToolCatalog * TestToolGate) (gate : TestNetworkGate)
    (body : Test (TestAgent Mo Ses) A) : Test unit A :=
  with_local (with_network_gate (AgentRuntime_new model tools.1 tools.2 AgentConfig_default) gate,
              TaskSupervisor_default) body.

Definition expect_completed {X} (o : AgentRunOutcome) : Test X AgentOutput :=
  match o with Completed out => ret out | _ => panic end.
Definition expect_waiting {X} (o : AgentRunOutcome) : Test X ApprovalRequest :=
  match o with WaitingForApproval r => ret r | _ => panic end.
Definition is_run_denied (o : AgentRunOutcome) : bool :=
  match o with RunDenied _ => true | _ => false end.

(** [runtime.start(&mut supervisor, task_id)] that waits for an approval. *)
Definition start_waiting {Mo Ses MErr} `{!ModelSession Ses MErr, !ModelAdapter Mo Ses MErr} (task_id : TaskId)
    : Test (TestAgent Mo Ses) ApprovalRequest :=
  let! outcome := call (agent_start task_id) in expect_waiting outcome.

(** [runtime.start(&mut supervisor, task_id)] that completes. *)
Definition start_completed {Mo Ses MErr} `{!ModelSession Ses MErr, !ModelAdapter Mo Ses MErr} (task_id : TaskId)
    : Test (TestAgent Mo Ses) AgentOutput :=
  let! outcome := call (agent_start task_id) in expect_completed outcome.

(** ** The models *)

Record ObservingSession := mk_ObservingSession { observed_turn : Z }.

Definition observing_decide (request : ModelTurnRequest) : M ObservingSession string ModelDecision :=
  let! turn := gets observed_turn in
  let! decision := lift (
    if ((turn =? 0) && (turn_step request =? 1))%Z && bool_decide (previous_operation_output request = None)
    then res_map_err (fun _ => "invalid test decision") (decision_call_tool "run_tests" ["--safe"])
    else if ((turn =? 1) && (turn_step request =? 2))%Z
            && bool_decide (previous_operation_output request = Some (bytes_of "tool-ok"))
    then res_map_err (fun _ => "invalid test decision") (decision_finish "observed bounded output")
    else Err "sensitive turn detail") in
  do! modify (fun s => mk_ObservingSession (observed_turn s + 1)) in
  ret decision.

#[export] Instance Observing_ModelSession : ModelSession ObservingSession string := observing_decide.

Record StartRecordingAdapter := mk_StartRecordingAdapter { started : bool }.

#[export] Instance StartRecording_ModelAdapter : ModelAdapter StartRecordingAdapter ObservingSession string :=
  fun _ => do! modify (fun _ => mk_StartRecordingAdapter true) in ret (mk_ObservingSession 0).

Inductive ObservingAdapter := mk_ObservingAdapter.

#[export] Instance Observing_ModelAdapter : ModelAdapter ObservingAdapter ObservingSession string :=
  fun request =>
    if negb (String.eqb (start_goal request) "Run a bounded model-directed Task")
       || negb (bool_decide (start_tool_routes request = ["run_tests"]))
    then throw "sensitive start detail"
    else ret (mk_ObservingSession 0).

Inductive FinishingSession := mk_FinishingSession.

#[export] Instance Finishing_ModelSession : ModelSession FinishingSession string :=
  fun _ => lift (res_map_err (fun _ => "invalid test decision") (decision_finish "no granted routes")).

Record RouteRecordingAdapter := mk_RouteRecordingAdapter { routes : list string }.

#[export] Instance RouteRecording_ModelAdapter : ModelAdapter RouteRecordingAdapter FinishingSession string :=
  fun request =>
    do! modify (fun a => mk_RouteRecordingAdapter (routes a ++ start_tool_routes request)) in
    ret mk_FinishingSession.

Record NetworkScopeRecordingAdapter := mk_NetworkScopeRecordingAdapter { scope_count : Z }.

#[export] Instance NetworkScopeRecording_ModelAdapter
  : ModelAdapter NetworkScopeRecordingAdapter FinishingSession string :=
  fun request =>
    do! modify (fun _ => mk_NetworkScopeRecordingAdapter (len (start_network_destinations request))) in
    ret mk_FinishingSession.

Record NetworkObservingAdapter := mk_NetworkObservingAdapter { no_port : Z }.
Record NetworkObservingSession := mk_NetworkObservingSession { ns_port : Z; ns_turn : Z }.

#[export] Instance NetworkObserving_ModelAdapter
  : ModelAdapter NetworkObservingAdapter NetworkObservingSession string :=
  fun request =>
    let! expected := gets no_port in
    match start_network_destinations request with
    | [destination] =>
        if negb (String.eqb (host destination) "127.0.0.1") || negb (bool_decide (transport destination = Tcp))
           || negb (port destination =? expected)%Z
        then throw "unexpected Network destination"
        else ret (mk_NetworkObservingSession expected 0)
    | _ => throw "expected one Network destination"
    end.

Definition network_observing_decide (request : ModelTurnRequest) : M NetworkObservingSession string ModelDecision :=
  let! self := gets id in
  let! decision := lift (
    if (ns_turn self =? 0)%Z && bool_decide (previous_operation_output request = None)
    then res_map_err (fun _ => "invalid Network decision")
           (decision_tcp_exchange "127.0.0.1" (ns_port self) (bytes_of "agent request"))
    else if (ns_turn self =? 1)%Z && bool_decide (previous_operation_output request = Some (bytes_of "agent response"))
    then res_map_err (fun _ => "invalid final decision") (decision_finish "network completed")
    else Err "unexpected Network observation") in
  do! modify (fun s => mk_NetworkObservingSession (ns_port s) (ns_turn s + 1)) in
  ret decision.

#[export] Instance NetworkObserving_ModelSession : ModelSession NetworkObservingSession string :=
  network_observing_decide.

(** ** Tests of decisions and completions *)

Definition validates_model_decision_bounds_before_catalog_lookup : Test unit unit :=
  do! assert_that (is_err InvalidFinalOutput (decision_finish "")) in
  do! assert_that (is_err InvalidFinalOutput (decision_finish (repeat_char "x" (MAX_FINAL_OUTPUT_BYTES + 1)))) in
  do! assert_that (is_err InvalidToolRequest (decision_call_tool "bad route" [])) in
  do! assert_that (is_err InvalidToolRequest
        (decision_call_tool "run_tests" [repeat_char "x" (MAX_ARGUMENT_BYTES + 1)])) in
  do! assert_that (is_err InvalidNetworkRequest (decision_tcp_exchange "127.0.0.1" 0 [])) in
  assert_that (is_err InvalidNetworkRequest
        (decision_tcp_exchange "127.0.0.1" 443 (repeat 0 (Z.to_nat (MAX_TCP_REQUEST_BYTES + 1))))).

Definition completes_task_from_bounded_scripted_model_output : Test unit unit :=
  let! model := scripted [decision_finish "completed safely"] in
  let! tools := agent_tools in
  with_agent model tools AgentConfig_default
    (let! task_id := agent_submit "agent-finish" [] [] in
     let! out := start_completed task_id in
     do! assert_eq (as_str out) "completed safely" in
     do! assert_agent_state task_id Succeeded in
     assert_active None).

Definition is_agent_supervisor_error (e : AgentError) : bool :=
  match e with AgentSupervisor _ => true | _ => false end.

Definition audit_failure_prevents_goal_release_and_model_session_start : Test unit unit :=
  let! tools := agent_tools in
  let! store := expect (InMemoryEventStore_new 3) in
  with_local (AgentRuntime_new (mk_StartRecordingAdapter false) tools.1 tools.2 AgentConfig_default,
              TaskSupervisor_new store)
    (let! task_id := agent_submit "agent-audit-failure" [] [] in
     do! assert_call_err is_agent_supervisor_error (agent_start task_id) in
     let! has_started := gets (fun x => started (model_adapter x.1)) in
     do! assert_that (negb has_started) in
     do! assert_agent_state task_id Queued in
     assert_active None).

Definition exposes_only_routes_backed_by_task_tool_capabilities : Test unit unit :=
  let! tools := agent_tools in
  with_agent (mk_RouteRecordingAdapter []) tools AgentConfig_default
    (let! task_id := agent_submit "agent-route-filter" [] ["different_tool"] in
     do! start_completed task_id in
     let! recorded := gets (fun x => routes (model_adapter x.1)) in
     assert_eq recorded []).

Definition exposes_only_destinations_supported_by_the_configured_network_gate : Test unit unit :=
  let! tools := agent_tools in
  do! with_agent (mk_NetworkScopeRecordingAdapter usize_max) tools AgentConfig_default
    (let! task_id := agent_submit_spec (agent_network_task "agent-network-hidden" "127.0.0.1" 443 []) in
     do! start_completed task_id in
     let! unavailable_count := gets (fun x => scope_count (model_adapter x.1)) in
     assert_eq unavailable_count 0) in
  let! tools := agent_tools in
  let! network_gate := expect (NetworkExecutionGate_new (Duration_from_secs 2) (bind_listener [])) in
  with_network_agent (mk_NetworkScopeRecordingAdapter usize_max) tools network_gate
    (let! task_id := agent_submit_spec (agent_network_task "agent-hostname-hidden" "api.example.com" 443 []) in
     do! start_completed task_id in
     let! unsupported_count := gets (fun x => scope_count (model_adapter x.1)) in
     assert_eq unsupported_count 0).

Definition routes_model_tool_request_through_catalog_and_returns_bounded_output : Test unit unit :=
  let! tools := agent_tools in
  with_agent mk_ObservingAdapter tools AgentConfig_default
    (let! task_id := agent_submit "agent-tool" [] ["test_runner"] in
     do! start_completed task_id in
     let! seen := agent_seen in
     do! assert_eq seen [["--safe"]] in
     assert_agent_state task_id Succeeded).

Definition decision_tests : list (Test unit unit) :=
  [validates_model_decision_bounds_before_catalog_lookup; completes_task_from_bounded_scripted_model_output;
   audit_failure_prevents_goal_release_and_model_session_start;
   exposes_only_routes_backed_by_task_tool_capabilities;
   exposes_only_destinations_supported_by_the_configured_network_gate;
   routes_model_tool_request_through_catalog_and_returns_bounded_output].

(** ** Tests of network exchanges *)

(** What the peer has seen: [server.join()] and [listener.accept()]. *)
Definition agent_peer {Mo Ses} : Test (TestAgent Mo Ses) (option TestNetworkGate) :=
  gets (fun x => network_gate <$> agent_network x.1).

Definition routes_task_scoped_network_exchange_and_returns_bounded_response : Test unit unit :=
  let port := listener_port in
  let! tools := agent_tools in
  let! network_gate := expect (NetworkExecutionGate_new (Duration_from_secs 2)
                                 (bind_listener (bytes_of "agent response"))) in
  with_network_agent (mk_NetworkObservingAdapter port) tools network_gate
    (let! task_id := agent_submit_spec (agent_network_task "agent-network" "127.0.0.1" port []) in
     let! out := start_completed task_id in
     do! assert_eq (as_str out) "network completed" in
     let! peer := agent_peer in
     let! gate := expect_some peer in
     do! assert_eq (demo_wire (net (adapter gate))) (bytes_of "agent request") in
     assert_agent_state task_id Succeeded).

Definition network_approval_connects_only_after_exact_resume : Test unit unit :=
  let port := listener_port in
  let! tools := agent_tools in
  let! network_gate := expect (NetworkExecutionGate_new (Duration_from_secs 2)
                                 (bind_listener (bytes_of "agent response"))) in
  with_network_agent (mk_NetworkObservingAdapter port) tools network_gate
    (let! task_id := agent_submit_spec
                       (agent_network_task "agent-network-approval" "127.0.0.1" port ["network.egress"]) in
     let! request := start_waiting task_id in
     let! peer := agent_peer in
     let! gate := expect_some peer in
     do! assert_that (nothing_to_accept gate) in
     let! outcome := call (approve_and_resume (request_approval_id request)) in
     do! expect_completed outcome in
     assert_agent_state task_id Succeeded).

(** The runtime has no gate, so it holds no connection a listener could accept. *)
Definition network_proposal_without_configured_gate_fails_without_connecting : Test unit unit :=
  let port := listener_port in
  let! model := scripted [decision_tcp_exchange "127.0.0.1" port (bytes_of "must not connect")] in
  let! tools := agent_tools in
  with_agent model tools AgentConfig_default
    (let! task_id := agent_submit_spec (agent_network_task "agent-network-unavailable" "127.0.0.1" port []) in
     do! assert_fails AgentInvalidDecision (agent_start task_id) in
     let! peer := agent_peer in
     do! assert_that (match peer with None => true | Some gate => nothing_to_accept gate end) in
     assert_agent_state task_id Failed).

Definition denied_network_destination_never_connects : Test unit unit :=
  let authorized_port := listener_port in
  let attempted_port := listener_port + 1 in
  let! model := scripted [decision_tcp_exchange "127.0.0.1" attempted_port (bytes_of "denied")] in
  let! tools := agent_tools in
  let! network_gate := expect (NetworkExecutionGate_new (Duration_from_secs 2) (bind_listener [])) in
  with_network_agent model tools network_gate
    (let! task_id := agent_submit_spec (agent_network_task "agent-network-denied" "127.0.0.1" authorized_port []) in
     let! outcome := call (agent_start task_id) in
     do! assert_that (is_run_denied outcome) in
     let! peer := agent_peer in
     let! gate := expect_some peer in
     assert_that (nothing_to_accept gate)).

Definition agent_network_tests : list (Test unit unit) :=
  [routes_task_scoped_network_exchange_and_returns_bounded_response;
   network_approval_connects_only_after_exact_resume;
   network_proposal_without_configured_gate_fails_without_connecting;
   denied_network_destination_never_connects].

(** ** Tests of budgets, approvals and limits *)

Definition budget_exhaustion_stops_the_agent_and_records_the_stable_failure : Test unit unit :=
  let! model := scripted [decision_call_tool "run_tests" []] in
  let! tools := built_with "run_tests" "test_runner" "test.run" (TestFail ToolFailure_budget_exceeded) in
  with_agent model tools AgentConfig_default
    (let! task_id := agent_submit "agent-budget" [] ["test_runner"] in
     let! error := call_err (agent_start task_id) in
     do! assert_eq error AgentBudgetExceeded in
     do! assert_eq (AgentError_code error) (Some BudgetExceededCode) in
     do! assert_agent_state task_id Failed in
     do! assert_budget_event task_id in
     assert_active None).

Definition approved_operation_cannot_continue_after_budget_exhaustion : Test unit unit :=
  let! model := scripted [decision_call_tool "run_tests" []] in
  let! tools := built_with "run_tests" "test_runner" "test.run" (TestFail ToolFailure_budget_exceeded) in
  with_agent model tools AgentConfig_default
    (let! task_id := agent_submit "agent-approved-budget" ["test.run"] ["test_runner"] in
     let! request := start_waiting task_id in
     do! assert_fails AgentBudgetExceeded (approve_and_resume (request_approval_id request)) in
     do! assert_agent_state task_id Failed in
     assert_active None).

Definition deadline_monitor_fails_a_task_while_approval_is_waiting : Test unit unit :=
  let! tools := agent_tools in
  let! model := scripted [decision_call_tool "run_tests" []] in
  with_agent model tools AgentConfig_default
    (let spec := assign_wall_time_seconds 1 (agent_test_task "agent-waiting-budget" ["test.run"] ["test_runner"]) in
     let! task_id := agent_submit_spec spec in
     do! start_waiting task_id in
     do! sleep (Duration_from_millis 1100) in
     do! assert_fails AgentBudgetExceeded agent_expire in
     let! seen := agent_seen in
     do! assert_eq seen [] in
     do! assert_agent_state task_id Failed in
     assert_active None).

Definition slow_tool_cannot_reset_wall_time_between_model_turns : Test unit unit :=
  let! model := scripted [decision_call_tool "run_tests" []; decision_finish "must not complete"] in
  let! tools := built_with "run_tests" "test_runner" "test.run" (TestSlow (Duration_from_millis 1100) "late") in
  with_agent model tools AgentConfig_default
    (let spec := assign_wall_time_seconds 1 (agent_test_task "agent-wall-time" [] ["test_runner"]) in
     let! task_id := agent_submit_spec spec in
     do! assert_fails AgentBudgetExceeded (agent_start task_id) in
     do! assert_agent_state task_id Failed in
     assert_active None).

Definition denied_capability_fails_task_without_calling_handler : Test unit unit :=
  let! tools := agent_tools in
  let! model := scripted [decision_call_tool "run_tests" []] in
  with_agent model tools AgentConfig_default
    (let! task_id := agent_submit "agent-denied" [] ["different_tool"] in
     let! outcome := call (agent_start task_id) in
     do! assert_that (is_run_denied outcome) in
     let! seen := agent_seen in
     do! assert_eq seen [] in
     assert_agent_state task_id Failed).

Definition approval_resumes_exact_retained_operation_and_model_session : Test unit unit :=
  let! tools := agent_tools in
  let! model := scripted [decision_call_tool "run_tests" ["approved"]; decision_finish "approved completion"] in
  with_agent model tools AgentConfig_default
    (let! task_id := agent_submit "agent-approval" ["test.run"] ["test_runner"] in
     let! request := start_waiting task_id in
     let! seen := agent_seen in
     do! assert_eq seen [] in
     do! assert_active (Some task_id) in
     do! assert_agent_state task_id WaitingApproval in
     let mismatched := mk_ApprovalId 0 in
     do! assert_fails AgentInvalidState (approve_and_resume mismatched) in
     let! seen := agent_seen in
     do! assert_eq seen [] in
     let! outcome := call (approve_and_resume (request_approval_id request)) in
     do! expect_completed outcome in
     let! seen := agent_seen in
     do! assert_eq seen [["approved"]] in
     assert_agent_state task_id Succeeded).

Definition approval_expiration_fails_task_and_drops_model_session : Test unit unit :=
  let! tools := agent_tools in
  let! model := scripted [decision_call_tool "run_tests" []] in
  let! config := expect (AgentConfig_new 4 (Duration_from_millis 1)) in
  with_agent model tools config
    (let! task_id := agent_submit "agent-expiration" ["test.run"] ["test_runner"] in
     do! start_waiting task_id in
     do! sleep (Duration_from_millis 5) in
     let! expired := call agent_expire in
     do! assert_eq expired 1 in
     do! assert_active None in
     assert_agent_state task_id Failed).

Definition step_limit_fails_task_after_bounded_number_of_model_turns : Test unit unit :=
  let! tools := agent_tools in
  let! model := scripted [decision_call_tool "run_tests" []; decision_finish "must not be reached"] in
  let! config := expect (AgentConfig_new 1 (Duration_from_secs 30)) in
  with_agent model tools config
    (let! task_id := agent_submit "agent-step-limit" [] ["test_runner"] in
     do! assert_fails AgentStepLimitExceeded (agent_start task_id) in
     let! seen := agent_seen in
     do! assert_eq (len seen) 1 in
     assert_agent_state task_id Failed).

(** The second runtime of the test goes on with the supervisor of the first. *)
Definition unknown_route_and_model_failure_are_redacted_and_fail_closed : Test unit unit :=
  let! tools := agent_tools in
  let! model := scripted [decision_call_tool "unknown_route" []] in
  let! again := agent_tools in
  let! second := scripted [decision_call_tool "run_tests" []] in
  with_agent model tools AgentConfig_default
    (let! task_id := agent_submit "agent-unknown" [] ["test_runner"] in
     let! error := call_err (agent_start task_id) in
     do! assert_eq error AgentInvalidDecision in
     do! assert_that (negb (str_contains "unknown_route" (display_AgentError error))) in
     do! modify (fun x => (AgentRuntime_new second again.1 again.2 AgentConfig_default, x.2)) in
     let! task_id := agent_submit "agent-model-error" [] ["test_runner"] in
     let! error := call_err (agent_start task_id) in
     do! assert_eq error AgentModelFailed in
     do! assert_eq (debug_AgentError error) "model adapter failed" in
     assert_agent_state task_id Failed).

Definition one_active_approval_wait_bounds_concurrent_agent_sessions : Test unit unit :=
  let! tools := agent_tools in
  let! model := scripted [decision_call_tool "run_tests" []] in
  with_agent model tools AgentConfig_default
    (let! first := agent_submit "agent-first" ["test.run"] ["test_runner"] in
     let! second := agent_submit "agent-second" [] ["test_runner"] in
     do! start_waiting first in
     do! assert_fails AgentCapacityExceeded (agent_start second) in
     do! assert_agent_state second Queued in
     let! cancelled := call (agent_cancel first) in
     do! assert_that cancelled in
     assert_active None).

Definition session_tests : list (Test unit unit) :=
  [budget_exhaustion_stops_the_agent_and_records_the_stable_failure;
   approved_operation_cannot_continue_after_budget_exhaustion;
   deadline_monitor_fails_a_task_while_approval_is_waiting;
   slow_tool_cannot_reset_wall_time_between_model_turns; denied_capability_fails_task_without_calling_handler;
   approval_resumes_exact_retained_operation_and_model_session;
   approval_expiration_fails_task_and_drops_model_session;
   step_limit_fails_task_after_bounded_number_of_model_turns;
   unknown_route_and_model_failure_are_redacted_and_fail_closed;
   one_active_approval_wait_bounds_concurrent_agent_sessions].

(** Every unit test of the agent runtime but the one left out passes on the model. *)
Theorem agent_tests_pass : forallb passes (decision_tests ++ agent_network_tests ++ session_tests) = true.
Proof. vm_compute. reflexivity. Qed.
