(* ===== verification/SqliteTests.v ===== *)
(** * The unit tests of the SQLite event store (aios-storage-sqlite)

    The tests run on the in-memory database of [SqliteProps], with a disk that holds
    one database file and texts for the events they write. *)

From stdpp Require Import base numbers list gmap strings.
From Stdlib Require Import ZArith Lia Ascii.
From S2P Require Import Prelude RustStd TaskState TaskSpec Policy Event Approval Supervisor Recovery SqliteStore SqliteProps.
From S2P Require Import ErrorText TestKit RuntimeTests.

#[local] Open Scope string_scope.
#[local] Open Scope list_scope.

#[local] Existing Instance MemDb.db_sqlite.

(** ** Texts of events *)

Definition id_text (u : N) : string := match u with N0 => "zero" | Npos p => MemDb.bits p end.

Definition parse_id (text : string) : option N :=
  if String.eqb text "zero" then Some 0%N else Npos <$> MemDb.unbits text.

Definition parse_state (text : string) : option TaskState :=
  find (fun s => String.eqb (debug_TaskState s) text) all_states.

Definition words (l : list string) : string := join " " l.

(** The events the tests write; the others have no text. *)
Definition test_encode_kind (k : TaskEventKind) : option string :=
  match k with
  | EvSubmitted => Some "submitted"
  | EvStateTransitioned from to => Some (words ["moved"; debug_TaskState from; debug_TaskState to])
  | EvTaskFailed RuntimeRestarted => Some "restarted"
  | EvTaskFailed BudgetExceededCode => Some "budget"
  | EvApprovalRequested a o => Some (words ["requested"; id_text (approval_uuid a); id_text (operation_uuid o)])
  | EvApprovalGranted a o => Some (words ["granted"; id_text (approval_uuid a); id_text (operation_uuid o)])
  | EvApprovalConsumed a o => Some (words ["consumed"; id_text (approval_uuid a); id_text (operation_uuid o)])
  | _ => None
  end.

Definition test_decode_kind (text : string) : option TaskEventKind :=
  match split " " text with
  | ["submitted"] => Some EvSubmitted
  | ["restarted"] => Some (EvTaskFailed RuntimeRestarted)
  | ["budget"] => Some (EvTaskFailed BudgetExceededCode)
  | ["moved"; from; to] => from ← parse_state from; to ← parse_state to; Some (EvStateTransitioned from to)
  | [name; a; o] =>
      a ← mk_ApprovalId <$> parse_id a; o ← mk_OperationId <$> parse_id o;
      if String.eqb name "requested" then Some (EvApprovalRequested a o)
      else if String.eqb name "granted" then Some (EvApprovalGranted a o)
      else if String.eqb name "consumed" then Some (EvApprovalConsumed a o)
      else None
  | _ => None
  end.

#[export] Instance test_text : EventText := {|
  encode_kind := test_encode_kind;
  decode_kind := test_decode_kind;
  task_id_text t := id_text (task_uuid t);
  parse_task_id text := mk_TaskId <$> parse_id text;
|}.

(** ** The disk *)

Record Disk := mk_Disk { disk_file : option (Z * MemDb.Db) }.

Definition new_db : MemDb.Db := MemDb.mk_Db [] [] 0 1000.

#[export] Instance disk_files : DatabaseFiles Disk MemDb.Db := {|
  symlink_metadata d _ :=
    match disk_file d with
    | Some (mode, _) => Ok (mk_FileMetadata false true mode)
    | None => Err FileNotFound
    end;
  create_new_file _ mode d :=
    match disk_file d with
    | Some _ => (None, d)
    | None => (Some tt, mk_Disk (Some (mode, new_db)))
    end;
  connection_open d _ := snd <$> disk_file d;
  connection_open_in_memory _ := Some new_db;
|}.

Definition TestStore : Type := SqliteEventStore MemDb.Db.

Definition database_path : string := "/tmp/aios.sqlite".

(** What a connection has committed is in the file. *)
Definition save_database (store : TestStore) : Test Disk unit :=
  modify (fun d => mk_Disk ((fun file : Z * MemDb.Db => (file.1, connection store)) <$> disk_file d)).

(** A block that opens the file, uses the store and drops it. *)
Definition with_opened {A} (limit : Z) (body : Test TestStore A) : Test Disk A :=
  let! store := call (Sqlite_open database_path limit) in
  let! (a, store') := with_local store (let! a := body in let! s := gets id in ret (a, s)) in
  do! save_database store' in
  ret a.

(** [SqliteEventStore::open_in_memory(limit).expect(..)] *)
Definition in_memory (limit : Z) (body : Test TestStore unit) : Test unit unit :=
  with_local (mk_Disk None)
    (let! store := call (Sqlite_open_in_memory limit) in
     with_local store body).

Definition queued_events : list TaskEventKind :=
  [EvSubmitted; EvStateTransitioned Submitted Validating; EvStateTransitioned Validating Queued].

Definition appended (task_id : TaskId) (kinds : list TaskEventKind) : Test TestStore unit :=
  do! call (append_batch task_id kinds) in ret tt.

Definition stored_events (task_id : TaskId) (after : Z) : Test TestStore (list TaskEvent) :=
  read (fun store => list_events store task_id after).

Definition recovered_snapshots : Test TestStore (list TaskSnapshot) :=
  read (fun store => recover_task_snapshots store).

Definition has_snapshot (task_id : TaskId) (state : TaskState) (l : list TaskSnapshot) : bool :=
  existsb (fun task => bool_decide (snapshot_task_id task = task_id) && bool_decide (snapshot_state task = state)) l.

(** The only snapshot is of this task, in this state. *)
Definition assert_only_snapshot (task_id : TaskId) (state : TaskState) (l : list TaskSnapshot)
    : Test TestStore unit :=
  do! assert_eq (len l) 1 in
  let! first := expect_some (head l) in
  do! assert_eq (snapshot_task_id first) task_id in
  assert_eq (snapshot_state first) state.

(** ** Tests *)

Definition persists_events_across_reopen : Test unit unit :=
  let! task_id := TaskId_new in
  with_local (mk_Disk None)
    (do! with_opened 100 (appended task_id queued_events) in
     with_opened 100
       (let! events := stored_events task_id 0 in
        do! assert_eq (len events) 3 in
        let! first := expect_some (events !! 0%nat) in
        do! assert_eq (sequence first) 1 in
        let! third := expect_some (events !! 2%nat) in
        assert_eq (sequence third) 3)).

Definition recovers_latest_task_state_from_events : Test unit unit :=
  in_memory 100
    (let! queued_task := TaskId_new in
     let! running_task := TaskId_new in
     do! appended queued_task queued_events in
     do! appended running_task queued_events in
     do! appended running_task [EvStateTransitioned Queued Running] in
     let! snapshots := recovered_snapshots in
     do! assert_eq (len snapshots) 2 in
     do! assert_that (has_snapshot queued_task Queued snapshots) in
     assert_that (has_snapshot running_task Running snapshots)).

Definition recovers_budget_exceeded_as_a_terminal_task : Test unit unit :=
  in_memory 100
    (let! task_id := TaskId_new in
     do! appended task_id queued_events in
     do! appended task_id [EvStateTransitioned Queued Running; EvTaskFailed BudgetExceededCode;
                           EvStateTransitioned Running Failed] in
     let! snapshots := recovered_snapshots in
     do! assert_only_snapshot task_id Failed snapshots in
     let! events := stored_events task_id 0 in
     assert_that (existsb (fun event => bool_decide (kind event = EvTaskFailed BudgetExceededCode)) events)).

(** [ApprovalAuthority::default()] and one request of it. *)
Definition fresh_approval {X} (task_id : TaskId) (operation_id : OperationId) : Test X ApprovalRequest :=
  with_local ApprovalAuthority_default
    (call (request task_id operation_id "git.commit" (Duration_from_secs 30))).

Definition recovers_state_across_resource_free_approval_events : Test unit unit :=
  in_memory 100
    (let! task_id := TaskId_new in
     let! operation_id := OperationId_new in
     let! approval := fresh_approval task_id operation_id in
     let approval_id := request_approval_id approval in
     do! appended task_id (queued_events ++
           [EvStateTransitioned Queued Running; EvApprovalRequested approval_id operation_id;
            EvStateTransitioned Running WaitingApproval; EvApprovalGranted approval_id operation_id;
            EvStateTransitioned WaitingApproval Running; EvApprovalConsumed approval_id operation_id;
            EvStateTransitioned Running Succeeded]) in
     let! snapshots := recovered_snapshots in
     assert_only_snapshot task_id Succeeded snapshots).

(** The supervisor recovered from the opened store, and the store it leaves. *)
Definition with_recovered {A} (max_tasks : Z) (body : Test (TaskSupervisor TestStore) A) : Test TestStore A :=
  let! supervisor := call (recover max_tasks) in
  let! (a, s) := with_local supervisor (let! a := body in let! s := gets id in ret (a, s)) in
  do! modify (fun _ => event_store s) in
  ret a.

(** The last two events of a task that was interrupted in state [from]. *)
Definition assert_restart_failure (from : TaskState) (task_id : TaskId) : Test (TaskSupervisor TestStore) unit :=
  let! task := read_some (fun s => get s task_id) in
  do! assert_eq (snapshot_state task) Failed in
  let! events := read (fun s => events s task_id 0) in
  let! failure := expect_some (events !! (length events - 2)%nat) in
  do! assert_eq (kind failure) (EvTaskFailed RuntimeRestarted) in
  let! terminal := expect_some (last events) in
  assert_eq (kind terminal) (EvStateTransitioned from Failed).

Definition assert_stored_count (task_id : TaskId) (count : Z) : Test (TaskSupervisor TestStore) unit :=
  let! events := read (fun s => events s task_id 0) in
  assert_eq (len events) count.

Definition restart_fails_non_terminal_tasks_once_and_preserves_terminal_tasks : Test unit unit :=
  let! queued_task := TaskId_new in
  let! running_task := TaskId_new in
  let! waiting_task := TaskId_new in
  let! succeeded_task := TaskId_new in
  let all := [queued_task; running_task; waiting_task; succeeded_task] in
  with_local (mk_Disk None)
    (do! with_opened 100
       (do! for_each (fun task_id => appended task_id queued_events) all in
        do! for_each (fun task_id => appended task_id [EvStateTransitioned Queued Running])
              [running_task; waiting_task; succeeded_task] in
        let! operation_id := OperationId_new in
        let! approval := fresh_approval waiting_task operation_id in
        do! appended waiting_task [EvApprovalRequested (request_approval_id approval) operation_id;
                                   EvStateTransitioned Running WaitingApproval] in
        appended succeeded_task [EvStateTransitioned Running Succeeded]) in
     do! with_opened 100
       (with_recovered 10
          (let! ids := gets recovered_task_ids in
           do! assert_eq (len ids) 4 in
           do! for_each (fun task_id => assert_that (bool_decide (task_id ∈ ids))) all in
           do! assert_restart_failure Queued queued_task in
           do! assert_restart_failure Running running_task in
           do! assert_restart_failure WaitingApproval waiting_task in
           let! task := read_some (fun s => get s succeeded_task) in
           do! assert_eq (snapshot_state task) Succeeded in
           do! assert_stored_count succeeded_task 5 in
           let! result := call (submit example_task) in
           let! resubmitted := accepted_task_id result in
           assert_that (negb (bool_decide (resubmitted ∈ all))))) in
     with_opened 100
       (with_recovered 10
          (do! assert_stored_count queued_task 5 in
           do! assert_stored_count running_task 6 in
           assert_stored_count waiting_task 8))).

Definition restart_audit_failure_prevents_supervisor_recovery : Test unit unit :=
  let! task_id := TaskId_new in
  with_local (mk_Disk None)
    (do! with_opened 3 (appended task_id queued_events) in
     do! with_opened 3 (assert_fails (EventStoreFailure StoreCapacityExceeded) (recover 10)) in
     with_opened 100
       (let! snapshots := recovered_snapshots in
        let! first := expect_some (head snapshots) in
        do! assert_eq (snapshot_state first) Queued in
        let! events := stored_events task_id 0 in
        assert_eq (len events) 3)).

Definition rejects_unpaired_failure_category_during_recovery : Test unit unit :=
  in_memory 100
    (let! task_id := TaskId_new in
     do! appended task_id queued_events in
     do! appended task_id [EvTaskFailed RuntimeRestarted] in
     let! found := gets recover_task_snapshots in
     assert_that (is_err Corrupt found)).

Definition capacity_failure_rolls_back_the_whole_batch : Test unit unit :=
  in_memory 2
    (let! task_id := TaskId_new in
     do! assert_fails StoreCapacityExceeded (append_batch task_id queued_events) in
     let! events := stored_events task_id 0 in
     assert_eq (len events) 0).

(** [store.connection.execute(..)] that inserts a row past the store. *)
Definition insert_row (row : Row) : Test TestStore unit :=
  do! call (store_statement (InsertEvent row)) in ret tt.

Definition detects_corrupt_event_payload : Test unit unit :=
  in_memory 100
    (let! task_id := TaskId_new in
     do! insert_row (mk_Row (task_id_text task_id) 1 0 "not-json") in
     let! found := gets (fun store => list_events store task_id 0) in
     assert_that (is_err Corrupt found)).

Definition rejects_recovery_when_event_sequence_has_a_gap : Test unit unit :=
  in_memory 100
    (let! task_id := TaskId_new in
     let! event_json := expect_some (encode_kind EvSubmitted) in
     do! insert_row (mk_Row (task_id_text task_id) 2 0 event_json) in
     let! found := gets recover_task_snapshots in
     assert_that (is_err Corrupt found)).

Definition creates_database_with_owner_only_permissions : Test unit unit :=
  with_local (mk_Disk None)
    (do! call (Sqlite_open database_path 100) in
     let! file := read_some disk_file in
     assert_eq (Z.land file.1 63) 0).

(** The file is an empty one that everybody may read. *)
Definition rejects_existing_database_with_public_permissions : Test unit unit :=
  with_local (mk_Disk (Some (420, new_db)))
    (assert_fails InsecurePermissions (Sqlite_open database_path 100)).

Definition returns_only_events_after_the_requested_sequence : Test unit unit :=
  in_memory 100
    (let! task_id := TaskId_new in
     do! appended task_id queued_events in
     let! events := stored_events task_id 2 in
     do! assert_eq (len events) 1 in
     let! first := expect_some (head events) in
     assert_eq (sequence first) 3).

Definition sqlite_tests : list (Test unit unit) :=
  [persists_events_across_reopen; recovers_latest_task_state_from_events;
   recovers_budget_exceeded_as_a_terminal_task; recovers_state_across_resource_free_approval_events;
   restart_fails_non_terminal_tasks_once_and_preserves_terminal_tasks;
   restart_audit_failure_prevents_supervisor_recovery; rejects_unpaired_failure_category_during_recovery;
   capacity_failure_rolls_back_the_whole_batch; detects_corrupt_event_payload;
   rejects_recovery_when_event_sequence_has_a_gap; creates_database_with_owner_only_permissions;
   rejects_existing_database_with_public_permissions; returns_only_events_after_the_requested_sequence].

(** Every unit test of the SQLite store passes on the model. *)
Theorem sqlite_tests_pass : forallb passes sqlite_tests = true.
Proof. vm_compute. reflexivity. Qed.
