(* ===== verification/ProcessTests.v ===== *)
(** * The unit tests of the process adapter (aios-adapter-process)

    The tests of the handler, the scratch directories, the seccomp filter, the
    descriptors and the cgroup budgets, on the host of [DemoHost].  What a program
    would do is the script of exit results of that host; a replaced directory is a new
    one with another inode.  Left out is what needs the kernel to follow a symbolic
    link or a program to read its environment. *)

From stdpp Require Import base numbers list gmap strings.
From Stdlib Require Import ZArith Lia Ascii.
From S2P Require Import Prelude RustStd RustOs TaskState TaskSpec Policy Event Approval Supervisor Execution Facade ToolAdapter.
From S2P Require Import ProcessHost Seccomp Cgroup Rootfs Descriptor Process DemoHost TestKit RuntimeTests GateTests ToolTests.

#[local] Open Scope string_scope.
#[local] Open Scope list_scope.

(** ** Fixtures *)

Definition test_host (nodes : list DemoNode) (exits : list (option bool)) : DemoHost :=
  mk_DemoHost nodes ∅ ∅ (mk_DemoMemory 3 ∅) 10 exits.

(** The programs of the tests and the root directory. *)
Definition test_programs : list DemoNode :=
  [demo_dir "/" 2 493 []; demo_file "/bin/echo" 50 493 "echo"; demo_file "/bin/sleep" 51 493 "sleep";
   demo_file "/usr/bin/false" 52 493 "false"; demo_file "/usr/bin/true" 53 493 "true"].

(** A directory with the mode and the inode given. *)
Definition make_directory (p : string) (ino mode : Z) : Test DemoHost unit := modify (add_node (demo_dir p ino mode [])).

Definition make_symlink (p : string) : Test DemoHost unit :=
  modify (add_node (mk_DemoNode p (mk_Metadata TypeSymlink 511 1 90 1 0) [] "")).

(** [fs::rename] of an empty directory. *)
Definition rename_directory (from to : string) : Test DemoHost unit :=
  modify (update_node from (fun n => mk_DemoNode to (dn_meta n) (dn_names n) (dn_text n))).

Definition set_mode (p : string) (mode : Z) : Test DemoHost unit :=
  do! sys (f_set_permissions p mode) in ret tt.

Definition process_builder (executable : string) (argument_policy : list string -> bool) : ProcessToolBuilder :=
  ProcessToolBuilder_new executable "/" argument_policy.

(** ** lib.rs: the sandbox *)

Definition bubblewrap_plan_denies_network_and_exposes_only_declared_mounts : Test unit unit :=
  let arguments := bubblewrap_arguments "/opt/aios/rootfs" "/var/lib/aios/tasks/task-1" "/usr/bin/tool" (Some 9) in
  do! assert_eq arguments
        ["--unshare-all"; "--unshare-user"; "--disable-userns"; "--die-with-parent"; "--new-session"; "--seccomp"; "9";
         "--cap-drop"; "ALL"; "--ro-bind"; "/opt/aios/rootfs"; "/"; "--proc"; "/proc"; "--dev"; "/dev"; "--tmpfs";
         "/tmp"; "--bind"; "/var/lib/aios/tasks/task-1"; "/workspace"; "--chdir"; "/workspace"; "--";
         "/usr/bin/tool"] in
  do! assert_that (negb (existsb (String.eqb "--share-net") arguments)) in
  assert_that (negb (existsb (String.eqb "/run") arguments)).

Definition task_scratch_is_new_owner_only_and_task_derived : Test unit unit :=
  let root := "/tmp/task-scratch" in
  with_local (test_host [demo_dir root 60 448 []] [])
    (let! manager := call (TaskScratchManager_new root) in
     let! first_task := TaskId_new in
     let! second_task := TaskId_new in
     let! first := call (TaskScratchManager_create manager first_task) in
     let! second := call (TaskScratchManager_create manager second_task) in
     do! assert_eq (scratch_task_id first) first_task in
     do! assert_eq (parent_components (scratch_directory first))
           (Some (RustOs.components (scratch_root_directory manager))) in
     do! assert_eq (last (RustOs.components (scratch_directory first)))
           (Some (Normal (task_id_to_string first_task))) in
     do! assert_that (negb (path_eqb (scratch_directory first) (scratch_directory second))) in
     let! node := read_some (fun k => find_node (scratch_directory first) (dh_nodes k)) in
     do! assert_eq (Z.land (md_mode (dn_meta node)) 511) 448 in
     do! assert_eq (len (dn_names node)) 0 in
     assert_fails ProcInvalidSandbox (TaskScratchManager_create manager first_task)).

Definition task_scratch_rejects_unsafe_or_replaced_roots : Test unit unit :=
  with_local (test_host [demo_dir "/tmp/fixture" 60 448 []] [])
    (do! make_directory "/tmp/fixture/public" 61 493 in
     do! assert_fails ProcInvalidSandbox (TaskScratchManager_new "/tmp/fixture/public") in
     do! make_directory "/tmp/fixture/private" 62 448 in
     do! make_symlink "/tmp/fixture/symlink" in
     do! assert_fails ProcInvalidSandbox (TaskScratchManager_new "/tmp/fixture/symlink") in
     let! manager := call (TaskScratchManager_new "/tmp/fixture/private") in
     do! rename_directory "/tmp/fixture/private" "/tmp/fixture/moved" in
     do! make_directory "/tmp/fixture/private" 63 448 in
     let! task_id := TaskId_new in
     assert_fails ProcInvalidSandbox (TaskScratchManager_create manager task_id)).

Definition task_scratch_identity_rejects_permission_changes_and_path_replacement : Test unit unit :=
  let root := "/tmp/task-scratch" in
  with_local (test_host [demo_dir root 60 448 []] [])
    (let! manager := call (TaskScratchManager_new root) in
     let! task_id := TaskId_new in
     let! scratch := call (TaskScratchManager_create manager task_id) in
     do! set_mode (scratch_directory scratch) 493 in
     do! assert_fails ProcInvalidSandbox
           (validate_task_scratch_identity (scratch_directory scratch) (scratch_identity scratch)) in
     do! set_mode (scratch_directory scratch) 448 in
     let replacement := scratch_directory scratch in
     do! rename_directory replacement "/tmp/task-scratch/moved-task-scratch" in
     do! make_directory replacement 64 448 in
     assert_fails ProcInvalidSandbox (validate_task_scratch_identity replacement (scratch_identity scratch))).

Definition sandbox_executable_path_must_be_bounded_absolute_and_traversal_free : Test unit unit :=
  do! assert_that (is_ok (validate_sandbox_absolute_path "/usr/bin/tool")) in
  do! assert_that (negb (is_ok (validate_sandbox_absolute_path "usr/bin/tool"))) in
  assert_that (negb (is_ok (validate_sandbox_absolute_path "/usr/../bin/tool"))).

Definition sandbox_rejects_host_root_and_overlapping_scratch : Test unit unit :=
  with_local (test_host (demo_dir "/fixture/root" 65 493 [] :: demo_dir "/fixture/root/scratch" 66 493 [] :: test_programs) [])
    (do! assert_fails ProcInvalidSandbox (canonical_sandbox_root "/") in
     assert_fails ProcInvalidSandbox (canonical_scratch_directory "/fixture/root/scratch" "/fixture/root")).

Definition sandbox_mount_points_must_be_real_directories : Test unit unit :=
  with_local (test_host [demo_dir "/fixture" 65 493 []] [])
    (do! for_each (fun '(directory, ino) => make_directory directory ino 493)
           [("/fixture/proc", 66); ("/fixture/dev", 67); ("/fixture/tmp", 68)] in
     do! make_symlink "/fixture/workspace" in
     assert_fails ProcInvalidSandbox (validate_sandbox_mount_points "/fixture")).

Definition sandbox_tests : list (Test unit unit) :=
  [bubblewrap_plan_denies_network_and_exposes_only_declared_mounts;
   task_scratch_is_new_owner_only_and_task_derived; task_scratch_rejects_unsafe_or_replaced_roots;
   task_scratch_identity_rejects_permission_changes_and_path_replacement;
   sandbox_executable_path_must_be_bounded_absolute_and_traversal_free;
   sandbox_rejects_host_root_and_overlapping_scratch; sandbox_mount_points_must_be_real_directories].

(** ** lib.rs: the handler *)

Definition executes_an_explicit_program_without_a_shell : Test unit unit :=
  with_local (test_host test_programs [Some true])
    (let! handler := call (ProcessToolBuilder_build
                             (process_builder "/bin/echo" (fun arguments => (len arguments =? 1)%Z))) in
     let! out := call (run_checked handler ["literal;$PATH"]) in
     assert_eq (len (output_bytes out)) 0).

Definition requires_absolute_existing_paths_and_bounded_configuration : Test unit unit :=
  with_local (test_host test_programs [])
    (do! assert_fails ProcInvalidConfig
           (ProcessToolBuilder_build (ProcessToolBuilder_new "bin/echo" "/" (fun _ => true))) in
     do! assert_fails ProcInvalidConfig
           (ProcessToolBuilder_build (ProcessToolBuilder_new "/bin/echo" "." (fun _ => true))) in
     assert_fails ProcInvalidConfig
           (ProcessToolBuilder_build (pb_with_timeout 0 (process_builder "/bin/echo" (fun _ => true))))).

Definition no_arguments (arguments : list string) : bool := match arguments with [] => true | _ => false end.

Definition rejects_invalid_or_policy_denied_arguments_before_spawn : Test unit unit :=
  with_local (test_host test_programs [])
    (let! handler := call (ProcessToolBuilder_build (process_builder "/bin/echo" no_arguments)) in
     do! assert_fails ProcArgumentsDenied (run_checked handler ["denied"]) in
     do! assert_fails ProcInvalidArguments
           (run_checked handler (repeat "" (Z.to_nat (PROCESS_MAX_ARGUMENTS + 1)))) in
     do! assert_fails ProcInvalidArguments
           (run_checked handler [repeat_char "x" (PROCESS_MAX_ARGUMENT_BYTES + 1)]) in
     do! assert_fails ProcInvalidArguments (run_checked handler [("before" ++ String NUL "after")%string]) in
     let! fixed := call (ProcessToolBuilder_build
                           (pb_with_fixed_arguments (repeat "" (Z.to_nat PROCESS_MAX_ARGUMENTS))
                              (process_builder "/bin/echo" (fun _ => true)))) in
     assert_fails ProcInvalidArguments (run_checked fixed ["one-too-many"])).

Definition rejects_duplicate_or_invalid_environment_entries : Test unit unit :=
  with_local (test_host test_programs [])
    (do! assert_fails ProcInvalidConfig
           (ProcessToolBuilder_build (pb_with_environment [("NAME", "first"); ("NAME", "second")]
                                        (process_builder "/bin/echo" (fun _ => true)))) in
     assert_fails ProcInvalidConfig
           (ProcessToolBuilder_build (pb_with_environment [("BAD=NAME", "value")]
                                        (process_builder "/bin/echo" (fun _ => true))))).

(** The first child sleeps for a second, the second one fails. *)
Definition enforces_timeout_and_nonzero_exit : Test unit unit :=
  do! with_local (test_host test_programs [])
    (let! timed := call (ProcessToolBuilder_build
                           (pb_with_timeout (Duration_from_millis 20)
                              (process_builder "/bin/sleep" (fun arguments => bool_decide (arguments = ["1"]))))) in
     assert_fails ProcTimedOut (run_checked timed ["1"])) in
  with_local (test_host test_programs [Some false])
    (let! failing := call (ProcessToolBuilder_build (process_builder "/usr/bin/false" no_arguments)) in
     assert_fails ProcExitFailed (run_checked failing [])).

(** The handler goes into the catalog together with the host it runs on. *)
Definition process_gate (host : DemoHost) (b : ProcessToolBuilder)
    : Test unit (ToolCatalog * ExecutionGate (ToolAdapter (ProcessToolHandler * DemoHost)) ToolOperation) :=
  with_local host
    (let! handler := call (ProcessToolBuilder_build b) in
     let! k := gets id in
     let! builder := expect (register "run_process" "process_runner" "process.run" (handler, k)
                               ToolAdapterBuilder_default) in
     ret (build builder)).

Definition process_test_task (key goal : string) (wall_time : Z) : TaskSpec :=
  mk_TaskSpec key goal (mk_CapabilitySet [] DenyNetwork ["process_runner"])
    (mk_Budget wall_time (64 * 1024 * 1024) 1) (mk_ApprovalPolicy []).

Definition integrates_with_tool_catalog_and_execution_gate : Test unit unit :=
  let! (catalog, gate) := process_gate (test_host test_programs [Some true])
                            (process_builder "/usr/bin/true" no_arguments) in
  let! (supervisor, task_id) := started_with TaskSupervisor_default
                                  (process_test_task "process-adapter-test" "Run one fixed process" 60) in
  let! operation := expect (prepare catalog "run_process" []) in
  with_local (gate, supervisor)
    (let! result := call (ToolExecutionGate_request task_id operation (Duration_from_secs 30)) in
     do! expect_executed result in ret tt).

Definition task_wall_time_reaches_the_tool_gate_as_budget_exceeded : Test unit unit :=
  let! (catalog, gate) := process_gate (test_host test_programs [])
                            (pb_with_timeout (Duration_from_secs 5)
                               (pb_with_fixed_arguments ["2"] (process_builder "/bin/sleep" no_arguments))) in
  let! (supervisor, task_id) := started_with TaskSupervisor_default
                                  (process_test_task "process-budget-test" "Enforce one Task wall-time Budget" 1) in
  let! operation := expect (prepare catalog "run_process" []) in
  with_local (gate, supervisor)
    (assert_call_err (is_adapter_error ToolErrBudgetExceeded)
       (ToolExecutionGate_request task_id operation (Duration_from_secs 30))).

Definition handler_tests : list (Test unit unit) :=
  [executes_an_explicit_program_without_a_shell; requires_absolute_existing_paths_and_bounded_configuration;
   rejects_invalid_or_policy_denied_arguments_before_spawn; rejects_duplicate_or_invalid_environment_entries;
   enforces_timeout_and_nonzero_exit; integrates_with_tool_catalog_and_execution_gate;
   task_wall_time_reaches_the_tool_gate_as_budget_exceeded].

(** ** seccomp.rs *)

#[export] Instance SealFlag_eq_dec : EqDecision SealFlag.
Proof. solve_decision. Defined.

(** [assert_eq!(instruction(&bytes, index), (code, jump_true, jump_false, value))] *)
Definition assert_instruction (bytes : list Z) (index : nat) (code jump_true jump_false value : Z) : Test unit unit :=
  let! i := expect_some (instruction bytes index) in
  assert_eq (Seccomp.code i, Seccomp.jump_true i, Seccomp.jump_false i, Seccomp.value i)
    (code, jump_true, jump_false, value).

Definition policy_validates_architecture_and_rejects_x32_before_syscalls : Test unit unit :=
  let bytes := default_filter_bytes in
  do! assert_eq (len bytes mod 8)%Z 0 in
  do! assert_instruction bytes 0 BPF_LD_W_ABS 0 0 SECCOMP_DATA_ARCH_OFFSET in
  do! assert_instruction bytes 1 BPF_JMP_JEQ_K 1 0 AUDIT_ARCH_X86_64 in
  do! assert_instruction bytes 2 BPF_RET_K 0 0 SECCOMP_RET_KILL_PROCESS in
  do! assert_instruction bytes 3 BPF_LD_W_ABS 0 0 SECCOMP_DATA_NR_OFFSET in
  do! assert_instruction bytes 4 BPF_JMP_JGE_K 0 1 X32_SYSCALL_BIT in
  do! assert_instruction bytes 5 BPF_RET_K 0 0 SECCOMP_RET_KILL_PROCESS in
  do! assert_instruction bytes 6 BPF_JMP_JGT_K 0 1 MAX_REVIEWED_SYSCALL in
  assert_instruction bytes 7 BPF_RET_K 0 0 SECCOMP_RET_KILL_PROCESS.

Definition policy_blocks_a_sorted_unique_reviewed_syscall_set_then_allows : Test unit unit :=
  do! for_each (fun pair : (string * Z) * (string * Z) => assert_that (pair.1.2 <? pair.2.2)%Z)
        (zip BLOCKED_SYSCALLS (drop 1 BLOCKED_SYSCALLS)) in
  let bytes := default_filter_bytes in
  do! for_each (fun '(index, (_, syscall)) =>
        do! assert_instruction bytes (8 + index * 2) BPF_JMP_JEQ_K 0 1 syscall in
        assert_instruction bytes (9 + index * 2) BPF_RET_K 0 0 SECCOMP_RET_KILL_PROCESS)
      (imap pair BLOCKED_SYSCALLS) in
  do! assert_instruction bytes (8 + length BLOCKED_SYSCALLS * 2) BPF_RET_K 0 0 SECCOMP_RET_ALLOW in
  do! assert_eq (filter_evaluate bytes 0 39) (Some SECCOMP_RET_KILL_PROCESS) in
  do! assert_eq (filter_evaluate bytes AUDIT_ARCH_X86_64 X32_SYSCALL_BIT) (Some SECCOMP_RET_KILL_PROCESS) in
  do! assert_eq (filter_evaluate bytes AUDIT_ARCH_X86_64 (MAX_REVIEWED_SYSCALL + 1)) (Some SECCOMP_RET_KILL_PROCESS) in
  do! assert_eq (filter_evaluate bytes AUDIT_ARCH_X86_64 135) (Some SECCOMP_RET_KILL_PROCESS) in
  assert_eq (filter_evaluate bytes AUDIT_ARCH_X86_64 39) (Some SECCOMP_RET_ALLOW).

Definition policy_descriptor_is_fully_sealed_and_explicitly_inheritable : Test unit unit :=
  with_local (mk_DemoMemory 3 ∅)
    (let! filter := call (SeccompFilterFile_create true) in
     let! file := read_some (fun k => dm_files k !! raw_fd filter) in
     do! for_each (fun seal => assert_that (bool_decide (seal ∈ mem_seals file)))
           [SEAL_WRITE; SEAL_GROW; SEAL_SHRINK; SEAL_SEAL] in
     assert_that (negb (mem_cloexec file))).

(** ** descriptor.rs *)

Definition accepts_normalized_read_capabilities : Test unit unit :=
  let capabilities := [mk_FileCapability "/workspace/project" Read; mk_FileCapability "/opt/reference.txt" Read] in
  assert_that (is_ok (validate_capabilities capabilities)).

Definition rejects_write_and_duplicate_capabilities : Test unit unit :=
  let write := [mk_FileCapability "/workspace/output" Write] in
  do! assert_that (is_err ProcUnsupportedFilesystemCapability (validate_capabilities write)) in
  let duplicate := [mk_FileCapability "/workspace/project" Read; mk_FileCapability "/workspace/project" Read] in
  assert_that (is_err ProcInvalidSandbox (validate_capabilities duplicate)).

(** ** cgroup.rs *)

Definition validates_resource_budget_bounds : Test unit unit :=
  do! assert_that (is_ok (CgroupResourceBudget_new (Duration_from_secs 1) 1)) in
  do! assert_that (is_err ProcInvalidConfig (CgroupResourceBudget_new 0 1)) in
  do! assert_that (is_err ProcInvalidConfig (CgroupResourceBudget_new (Duration_from_secs 1) 0)) in
  assert_that (is_err ProcInvalidConfig (CgroupResourceBudget_new (Duration_from_secs 3601) 1)).

Definition derives_cgroup_limits_from_the_stable_task_budget : Test unit unit :=
  let budget := mk_Budget 60 (64 * 1024 * 1024) 1 in
  let! resource_budget := expect (from_task_budget budget) in
  do! assert_eq (budget_cpu_time resource_budget) (Duration_from_secs 60) in
  assert_eq (cgroup_memory_bytes resource_budget) (memory_bytes budget).

Definition boundary_tests : list (Test unit unit) :=
  [policy_validates_architecture_and_rejects_x32_before_syscalls;
   policy_blocks_a_sorted_unique_reviewed_syscall_set_then_allows;
   policy_descriptor_is_fully_sealed_and_explicitly_inheritable; accepts_normalized_read_capabilities;
   rejects_write_and_duplicate_capabilities; validates_resource_budget_bounds;
   derives_cgroup_limits_from_the_stable_task_budget].

(** The unit tests of the process adapter that are translated here pass on the model. *)
Theorem process_tests_pass : forallb passes (sandbox_tests ++ handler_tests ++ boundary_tests) = true.
Proof. vm_compute. reflexivity. Qed.
