(* ===== verification/RootfsTests.v ===== *)
(** * The unit tests of root filesystems (aios-adapter-process: rootfs.rs)

    The tests of rootfs.rs on the host of [DemoHost], with SHA-256 itself as the hash.
    What the tests do with [std::fs] are changes of the host's nodes: an entry has an
    inode of its own, a hard link shares it, and a symbolic link is an entry that is
    never followed. *)

From stdpp Require Import base numbers list gmap strings.
From Stdlib Require Import ZArith Lia Ascii.
From S2P Require Import Prelude RustStd RustOs TaskSpec Event ProcessHost Seccomp Rootfs DemoHost TestKit.
From S2P Require Import ProcessTests Sha256Fips.

#[local] Open Scope string_scope.
#[local] Open Scope list_scope.
#[local] Open Scope Z_scope.

#[local] Existing Instance fips_sha256 | 0.

Abbreviation FsTest := (Test DemoHost).

(** ** std::fs on the host *)

Definition map_meta (f : Metadata -> Metadata) (n : DemoNode) : DemoNode :=
  mk_DemoNode (dn_path n) (f (dn_meta n)) (dn_names n) (dn_text n).

Definition with_nlink (links : Z) (m : Metadata) : Metadata :=
  mk_Metadata (md_type m) (md_mode m) (md_dev m) (md_ino m) links (md_len m).

Definition with_len (length : Z) (m : Metadata) : Metadata :=
  mk_Metadata (md_type m) (md_mode m) (md_dev m) (md_ino m) (md_nlink m) length.

(** [fs::write]: a new file with the inode given, or new contents of an old one. *)
Definition fs_write (p : string) (ino : Z) (text : string) : FsTest unit :=
  modify (fun k =>
    match find_node p (dh_nodes k) with
    | Some _ => update_node p (fun n =>
                  mk_DemoNode (dn_path n) (with_len (str_len text) (dn_meta n)) (dn_names n) text) k
    | None => add_node (mk_DemoNode p (file_meta ino 420 (str_len text)) [] text) k
    end).

(** [fs::set_permissions(path, Permissions::from_mode(mode))] *)
Definition fs_set_mode (p : string) (mode : Z) : FsTest unit := call (sys_or ProcInvalidSandbox (f_set_permissions p mode)).

(** [fs::symlink_metadata] *)
Definition fs_symlink_metadata (p : string) : FsTest Metadata :=
  call (sys_or ProcInvalidSandbox (f_symlink_metadata p)).

(** [fs::hard_link]: both names count two links. *)
Definition fs_hard_link (source alias : string) : FsTest unit :=
  let! n := read_some (fun k => find_node source (dh_nodes k)) in
  do! modify (update_node source (map_meta (with_nlink 2))) in
  modify (add_node (mk_DemoNode alias (with_nlink 2 (dn_meta n)) [] (dn_text n))).

(** [fs::remove_file] and [fs::remove_dir]: the entry leaves its directory; another
    name of the file counts one link less. *)
Definition fs_remove (p : string) : FsTest unit :=
  let! n := read_some (fun k => find_node p (dh_nodes k)) in
  let! place := expect_some (split_last p) in
  do! modify (update_node place.1 (fun d =>
        mk_DemoNode (dn_path d) (dn_meta d) (filter (fun name => name <> place.2) (dn_names d)) (dn_text d))) in
  modify (fun k => set_nodes (omap (fun d =>
    if path_eqb (dn_path d) p then None
    else if md_ino (dn_meta d) =? md_ino (dn_meta n) then Some (map_meta (with_nlink 1) d)
    else Some d) (dh_nodes k)) k).

(** [fs::rename] of a directory with what is below it. *)
Definition fs_rename (from to : string) : FsTest unit :=
  modify (fun k => set_nodes (map (fun n =>
    if path_eqb (dn_path n) from then mk_DemoNode to (dn_meta n) (dn_names n) (dn_text n)
    else match strip_prefix (from ++ "/")%string (dn_path n) with
         | Some rest => mk_DemoNode (to ++ "/" ++ rest)%string (dn_meta n) (dn_names n) (dn_text n)
         | None => n
         end) (dh_nodes k)) k).

(** [file.set_len] *)
Definition fs_set_len (p : string) (length : Z) : FsTest unit := modify (update_node p (map_meta (with_len length))).

Definition fs_names (p : string) : FsTest (list string) :=
  let! n := read_some (fun k => find_node p (dh_nodes k)) in ret (dn_names n).

(** ** Helpers of the tests

    The trees are three levels deep; deeper recursion would panic. *)

Fixpoint seal_tree (depth : nat) (path : string) : FsTest unit :=
  match depth with
  | O => panic
  | S depth' =>
      let! metadata := fs_symlink_metadata path in
      if is_symlink metadata then ret tt
      else
        do! (if is_dir metadata then
               let! names := fs_names path in
               for_each (fun name => seal_tree depth' (path_join path name)) names
             else ret tt) in
        let mode := Z.land (Z.land (md_mode metadata) 511) (Z.lnot 146) in
        fs_set_mode path mode
  end.

Fixpoint make_tree_writable (depth : nat) (path : string) : FsTest unit :=
  match depth with
  | O => panic
  | S depth' =>
      let! metadata := fs_symlink_metadata path in
      if is_symlink metadata then ret tt
      else
        let mode := Z.lor (Z.land (md_mode metadata) 511) 128 in
        do! fs_set_mode path mode in
        if is_dir metadata then
          let! names := fs_names path in
          for_each (fun name => make_tree_writable depth' (path_join path name)) names
        else ret tt
  end.

Definition make_tree_removable (path : string) : FsTest unit :=
  let! found := gets (fun k => find_node path (dh_nodes k)) in
  match found with
  | None => ret tt
  | Some _ => make_tree_writable 4 path
  end.

(** An empty machine with the directory for temporary files. *)
Definition temp_host : DemoHost := test_host [demo_dir "/tmp" 1 1023 []] [].

Record RootFixture := mk_RootFixture { fixture_base : string; fixture_root : string }.

Definition RootFixture_new : FsTest RootFixture :=
  let base := "/tmp/aios-rootfs-0" in
  do! make_directory base 20 448 in
  let root := path_join base "root" in
  do! make_directory root 21 493 in
  do! for_each (fun '(directory, ino) => make_directory (path_join root directory) ino 493)
        [("bin", 22); ("proc", 23); ("dev", 24); ("tmp", 25); ("workspace", 26)] in
  do! fs_write (path_join root "bin/tool") 27 "verified-tool-v1" in
  do! fs_set_mode (path_join root "bin/tool") 365 in
  do! seal_tree 3 root in
  ret (mk_RootFixture base root).

Definition fixture_tool (self : RootFixture) : string := path_join (fixture_root self) "bin/tool".

Definition private_builder_fixture : FsTest string :=
  let directory := "/tmp/aios-rootfs-build-0" in
  do! make_directory directory 20 448 in
  ret directory.

(** ** The tests *)

Definition rootfs_digest_is_canonical_and_detects_content_changes : Test unit unit :=
  with_local temp_host
    (let! fixture := RootFixture_new in
     let! digest := call (RootFilesystemDigest_measure (fixture_root fixture)) in
     let! repeated := call (RootFilesystemDigest_measure (fixture_root fixture)) in
     do! assert_eq digest repeated in
     let encoded := display_digest digest in
     do! assert_eq (str_len encoded) 64 in
     let! parsed := expect (digest_from_str encoded) in
     do! assert_eq parsed digest in
     do! assert_that (negb (is_ok (digest_from_str (repeat_char "A" 64)))) in
     let! verified := call (VerifiedRootFilesystem_open (fixture_root fixture) digest) in
     do! fs_set_mode (fixture_tool fixture) 493 in
     do! fs_write (fixture_tool fixture) 0 "modified-tool-v1" in
     do! fs_set_mode (fixture_tool fixture) 365 in
     assert_fails ProcInvalidSandbox
       (validate_verified_root_filesystem (verified_directory verified) (verified_state verified))).

Definition minimal_rootfs_builder_is_create_new_sealed_and_reproducible : Test unit unit :=
  with_local temp_host
    (let! fixture := private_builder_fixture in
     let source := path_join fixture "busybox-source" in
     do! fs_write source 21 "static-busybox-probe" in
     do! fs_set_mode source 493 in
     let first_root := path_join fixture "root-one" in
     let second_root := path_join fixture "root-two" in
     let! first := call (build_minimal_root_filesystem source first_root) in
     let! second := call (build_minimal_root_filesystem source second_root) in
     do! assert_eq first second in
     let! busybox := call (sys_or ProcInvalidSandbox (f_metadata (path_join first_root "bin/busybox"))) in
     do! assert_eq (Z.land (md_mode busybox) 511) 365 in
     let! root := call (sys_or ProcInvalidSandbox (f_metadata first_root)) in
     do! assert_eq (Z.land (md_mode root) 511) 365 in
     do! call (VerifiedRootFilesystem_open first_root first) in
     do! assert_fails ProcInvalidSandbox (build_minimal_root_filesystem source first_root) in
     make_tree_removable fixture).

Definition rootfs_rejects_writable_symlinked_and_replaced_trees : Test unit unit :=
  with_local temp_host
    (let! fixture := RootFixture_new in
     let! digest := call (RootFilesystemDigest_measure (fixture_root fixture)) in
     let! verified := call (VerifiedRootFilesystem_open (fixture_root fixture) digest) in
     do! fs_set_mode (fixture_root fixture) 493 in
     do! assert_fails ProcInvalidSandbox (RootFilesystemDigest_measure (fixture_root fixture)) in
     do! fs_set_mode (fixture_root fixture) 365 in
     let symlink_root := path_join (fixture_base fixture) "root-link" in
     do! make_symlink symlink_root in
     do! assert_fails ProcInvalidSandbox (RootFilesystemDigest_measure symlink_root) in
     let moved := path_join (fixture_base fixture) "moved-root" in
     do! fs_rename (fixture_root fixture) moved in
     do! make_directory (fixture_root fixture) 30 493 in
     do! fs_set_mode (fixture_root fixture) 365 in
     assert_fails ProcInvalidSandbox
       (validate_verified_root_filesystem (fixture_root fixture) (verified_state verified))).

Definition rootfs_rejects_special_entries_missing_mounts_and_oversized_files : Test unit unit :=
  with_local temp_host
    (let! fixture := RootFixture_new in
     let root := fixture_root fixture in
     do! make_tree_writable 3 root in
     do! make_symlink (path_join root "bin/escape") in
     do! seal_tree 3 root in
     do! assert_fails ProcInvalidSandbox (RootFilesystemDigest_measure root) in
     do! make_tree_writable 3 root in
     do! fs_remove (path_join root "bin/escape") in
     let hardlink_source := path_join root "bin/hardlink-source" in
     let hardlink_alias := path_join root "bin/hardlink-alias" in
     do! fs_write hardlink_source 31 "linked" in
     do! fs_hard_link hardlink_source hardlink_alias in
     do! seal_tree 3 root in
     do! assert_fails ProcInvalidSandbox (RootFilesystemDigest_measure root) in
     do! make_tree_writable 3 root in
     do! fs_remove hardlink_alias in
     do! fs_remove hardlink_source in
     do! fs_remove (path_join root "proc") in
     do! seal_tree 3 root in
     let! digest := call (RootFilesystemDigest_measure root) in
     do! assert_fails ProcInvalidSandbox (VerifiedRootFilesystem_open root digest) in
     do! make_tree_writable 3 root in
     do! make_directory (path_join root "proc") 32 493 in
     let oversized := path_join root "bin/oversized" in
     do! fs_write oversized 33 "x" in
     do! fs_set_len oversized (MAX_ROOT_FILESYSTEM_FILE_BYTES + 1) in
     do! seal_tree 3 root in
     assert_fails ProcInvalidSandbox (RootFilesystemDigest_measure root)).

Definition rootfs_tests : list (Test unit unit) :=
  [rootfs_digest_is_canonical_and_detects_content_changes;
   minimal_rootfs_builder_is_create_new_sealed_and_reproducible;
   rootfs_rejects_writable_symlinked_and_replaced_trees;
   rootfs_rejects_special_entries_missing_mounts_and_oversized_files].

(** The unit tests of rootfs.rs pass on the model. *)
Theorem rootfs_tests_pass : forallb passes rootfs_tests = true.
Proof. vm_compute. reflexivity. Qed.
