(* ===== verification/ApiTests.v ===== *)
(** * The unit tests of the Local API and its programs (aios-local-api)

    The tests of the framing, the service, the socket and the two command lines.  Left
    out are the tests of whole JSON messages, which are serde's. *)

From stdpp Require Import base numbers list gmap strings.
From Stdlib Require Import ZArith Lia Ascii.
From S2P Require Import Prelude RustStd RustOs TaskState TaskSpec Policy Event Supervisor LocalApi ProcessHost LocalServer.
From S2P Require Import Daemon Aiosctl DemoHost DemoServer TestKit RuntimeTests.

#[local] Open Scope string_scope.
#[local] Open Scope list_scope.

(** ** Framing *)

(** A call on a stream that is the variable of the test. *)
Definition on_stream {A} (op : Stream -> Result A LocalApiError * Stream) : M Stream LocalApiError A := fun s w =>
  let '(r, s') := op s in
  (match r with Ok a => Return a | Err e => Raise e end, s', w).

Definition test_stream (bytes : list Z) : Stream := mk_Stream bytes false [] None.

Definition quote : string := String (ascii_of_nat 34) "".

Definition framing_round_trip_preserves_payload : Test unit unit :=
  let payload := bytes_of ("{" ++ quote ++ "method" ++ quote ++ ":" ++ quote ++ "health" ++ quote ++ "}")%string in
  let! bytes := with_local (test_stream [])
    (do! call (on_stream (write_frame payload 1024)) in gets outgoing) in
  with_local (test_stream bytes)
    (let! frame := call (on_stream (read_frame 1024)) in
     assert_eq frame (Some payload)).

Definition framing_rejects_oversized_payload_before_allocation : Test unit unit :=
  with_local (test_stream (to_be_bytes 2048))
    (assert_fails FrameTooLarge (on_stream (read_frame 1024))).

(** ** The service *)

(** [service.handle(request)] *)
Definition service_handle (request : ApiRequest) : Test TestSupervisor ApiResponse := handle request.

(** The typed answer; what the test asks of its JSON text is left out. *)
Definition service_reports_health : Test unit unit :=
  with_local TaskSupervisor_default
    (let! response := service_handle (ApiRequest_new Health) in
     do! assert_eq (response_version response) PROTOCOL_VERSION in
     assert_that (match api_outcome response with
                  | OutcomeOk (ResultHealthy versions) =>
                      ((minimum versions =? MIN_SUPPORTED_PROTOCOL_VERSION)
                       && (maximum versions =? MAX_SUPPORTED_PROTOCOL_VERSION))%Z
                  | _ => false
                  end)).

Definition service_rejects_versions_outside_the_supported_window : Test unit unit :=
  with_local TaskSupervisor_default
    (for_each (fun version =>
       let! response := service_handle (mk_ApiRequest version Health) in
       assert_that (match api_outcome response with
                    | OutcomeError error => bool_decide (error_code error = CodeUnsupportedProtocolVersion)
                    | _ => false
                    end))
       [0; 3; 5; u16_max]).

Definition is_outcome_ok (o : ApiOutcome) : bool := match o with OutcomeOk _ => true | _ => false end.

Definition service_runs_task_lifecycle_and_pages_events : Test unit unit :=
  with_local TaskSupervisor_default
    (let! submitted := service_handle (ApiRequest_new (Submit example_task)) in
     match api_outcome submitted with
     | OutcomeOk (ResultSubmitted _ task _) =>
         let task_id := view_task_id task in
         do! for_each (fun request =>
               let! response := service_handle (ApiRequest_new request) in
               assert_that (is_outcome_ok (api_outcome response))) [Start task_id; Succeed task_id] in
         let! got := service_handle (ApiRequest_new (GetTask task_id)) in
         do! assert_that (match api_outcome got with
                          | OutcomeOk (ResultTask task) => bool_decide (view_state task = Succeeded)
                          | _ => false
                          end) in
         let! page := service_handle (ApiRequest_new (Events task_id 0 2)) in
         assert_that (match api_outcome page with
                      | OutcomeOk (ResultEvents events has_more) => (has_more && (len events =? 2))%Z
                      | _ => false
                      end)
     | _ => panic
     end).

(** ** The socket *)

Definition test_server (nodes : list DemoNode) : DemoServer := mk_DemoServer (set_nodes nodes demo_host) [].

(** [std::env::temp_dir()] with the directory of a test. *)
Definition socket_directory : string := "/tmp/ao-1".
Definition test_socket_path : string := "/tmp/ao-1/aiosd.sock".

Definition node_at (p : string) (k : DemoServer) : option DemoNode := find_node p (dh_nodes (ds_host k)).

Definition socket_is_owner_only_and_removed_on_drop : Test unit unit :=
  with_local (test_server [demo_dir "/tmp" 80 1023 []])
    (let! server := call (LocalServer_bind test_socket_path ServerConfig_default) in
     let! socket := read_some (node_at test_socket_path) in
     do! assert_eq (Z.land (md_mode (dn_meta socket)) 63) 0 in
     do! LocalServer_drop server in
     let! remaining := gets (node_at test_socket_path) in
     assert_that (match remaining with None => true | Some _ => false end)).

Definition rejects_socket_directory_with_public_permissions : Test unit unit :=
  with_local (test_server [demo_dir "/tmp" 80 1023 []; demo_dir socket_directory 81 493 []])
    (assert_fails UnsafeSocketDirectory (LocalServer_bind test_socket_path ServerConfig_default)).

Definition rejects_existing_socket_path_without_deleting_it : Test unit unit :=
  with_local (test_server [demo_dir "/tmp" 80 1023 []; demo_dir socket_directory 81 448 [];
                           demo_file test_socket_path 82 420 "do not delete"])
    (do! assert_fails SocketAlreadyExists (LocalServer_bind test_socket_path ServerConfig_default) in
     let! file := read_some (node_at test_socket_path) in
     assert_eq (dn_text file) "do not delete").

Definition api_tests : list (Test unit unit) :=
  [framing_round_trip_preserves_payload; framing_rejects_oversized_payload_before_allocation;
   service_reports_health; service_rejects_versions_outside_the_supported_window;
   service_runs_task_lifecycle_and_pages_events; socket_is_owner_only_and_removed_on_drop;
   rejects_socket_directory_with_public_permissions; rejects_existing_socket_path_without_deleting_it].

(** ** aiosd *)

Definition parses_required_paths : Test unit unit :=
  let! options := expect (DaemonOptions_parse ["--socket"; "/tmp/aios/aiosd.sock"; "--database";
                                               "/tmp/aios/events.sqlite"]) in
  do! assert_eq (daemon_socket options) "/tmp/aios/aiosd.sock" in
  do! assert_eq (daemon_database options) "/tmp/aios/events.sqlite" in
  assert_eq (daemon_cgroup_root options) None.

Definition parses_optional_cgroup_root : Test unit unit :=
  let! options := expect (DaemonOptions_parse ["--socket"; "/tmp/aios/aiosd.sock"; "--database";
                                               "/tmp/aios/events.sqlite"; "--cgroup-root"; "/sys/fs/cgroup/aios"]) in
  let! root := expect_some (daemon_cgroup_root options) in
  assert_eq root "/sys/fs/cgroup/aios".

Definition rejects_missing_values : Test unit unit :=
  assert_that (negb (is_ok (DaemonOptions_parse ["--socket"]))).

Definition rejects_unknown_or_duplicate_options : Test unit unit :=
  do! assert_that (negb (is_ok (DaemonOptions_parse ["--socket"; "/tmp/a"; "--socket"; "/tmp/b"]))) in
  assert_that (negb (is_ok (DaemonOptions_parse ["--socket"; "/tmp/a"; "--database"; "/tmp/events"; "--cgroup-root";
                                                 "/sys/fs/cgroup/a"; "--cgroup-root"; "/sys/fs/cgroup/b"]))).

(** ** aiosctl *)

(** The identifier of the tests and its text. *)
Definition test_task_id_from_str (text : string) : option TaskId :=
  if String.eqb text "00000000-0000-4000-8000-000000000001"
  then Some (mk_TaskId 0x40008000000000000001) else None.

Definition parses_health_command : Test unit unit :=
  let! options := expect (CliOptions_parse test_task_id_from_str ["--socket"; "/tmp/aios.sock"; "health"]) in
  assert_that (match cli_command options with CliHealth => true | _ => false end).

Definition parses_events_defaults : Test unit unit :=
  let! options := expect (CliOptions_parse test_task_id_from_str
                            ["--socket"; "/tmp/aios.sock"; "events"; "00000000-0000-4000-8000-000000000001"]) in
  assert_that (match cli_command options with
               | CliEvents _ after_sequence limit => ((after_sequence =? 0) && (limit =? 100))%Z
               | _ => false
               end).

Definition rejects_unknown_or_incomplete_commands : Test unit unit :=
  assert_that (match CliOptions_parse test_task_id_from_str ["--socket"; "/tmp/aios.sock"; "unknown"] with
               | Err CliUsage => true
               | _ => false
               end).

(** A file with these bytes. *)
Record TestFile := mk_TestFile { test_bytes : list Z }.

#[export] Instance test_task_files : TaskFiles TestFile := {|
  tf_open _ k := (Ok 3, k);
  tf_read_to_end _ limit k := (Ok (take (Z.to_nat limit) (test_bytes k)), k);
|}.

Definition rejects_oversized_task_before_json_parsing : Test unit unit :=
  with_local (mk_TestFile (repeat 32 (Z.to_nat 65537)))
    (assert_call_err (fun e => match e with CliTaskFileTooLarge => true | _ => false end)
       (load_task (fun _ => None) "/tmp/aiosctl-1.json")).

Definition program_tests : list (Test unit unit) :=
  [parses_required_paths; parses_optional_cgroup_root; rejects_missing_values; rejects_unknown_or_duplicate_options;
   parses_health_command; parses_events_defaults; rejects_unknown_or_incomplete_commands;
   rejects_oversized_task_before_json_parsing].

(** The unit tests of the Local API and its programs that are translated here pass on
    the model. *)
Theorem api_tests_pass : forallb passes (api_tests ++ program_tests) = true.
Proof. vm_compute. reflexivity. Qed.
